(* ===== verification/_CoqProject ===== *)
-Q . S2P
Prelude.v
Printf.v
Ansi.v
Crc.v
Wire.v
MacState.v
Mac.v
MacInv.v
MacRun.v
MacLocal.v
MacEx.v
MacTx.v
MacReg.v
MacTick.v
MacListen.v
MacArmed.v
MacRetry.v
MacDump.v
MacClient.v
MacDefects.v
MacBuild.v
Phy.v
PhyUdp.v
Sniffer.v
MacSends.v
MacHandshake.v
TinyApp.v
AppNames.v
MqttSn.v
MqttInv.v
MqttProps.v
MqttWire.v
MqttFormat.v
Si443xRegs.v
Si443x.v
Si443xBus.v
Si443xSpec.v
Si443xProps.v
Si443xIo.v
Si443xLive.v
Si443xLink.v
Board.v
MacApp.v
MacExchange.v
Sensor.v
SensorFw.v
SensorIo.v
SensorNode.v
SensorSafe.v
Gateway.v
MqttApp.v
Posix.v
Mains.v
EndToEnd.v
