(* ===== verification/Prelude.v ===== *)
(** * TinyHAN: a verification development

    TinyHAN is a home-area-network stack in C for small radio nodes.  A
    _coordinator_ keeps a registry of up to 32 devices, beacons periodically and
    exchanges packets with them; a _client_ finds a coordinator, registers and
    exchanges packets with it.  This library models the stack of [src/lib] and the
    programs of [src/examples] as executable definitions and proves the
    properties they are built on.

    ** The program and its model

    - [lib/phy.h]: the interface between MAC and PHY driver; [Phy.v] states what a
      driver promises as the class [PhyLink].
    - [lib/phy-udp.c]: the PHY used for simulation, a UDP multicast
      socket with a CRC-16 on every frame.  [Crc.v] has the table and
      [update_crc] with its bitwise reference; [PhyUdp.v] the driver's static
      variables as a record and one definition per interface function.  The
      operating system's socket is the class [UdpSocket].
    - [lib/tinymac.h]: the packet formats, constants and macros, in [Wire.v].
      The packed structures are records with an encoder to and a decoder from
      little-endian bytes.
    - [lib/tinymac.c]: the MAC.  [MacState.v] has the context [tinymac_ctx] as a
      record (with the node and timer structures, pointers as symbolic
      references, so that aliasing is kept) and a state monad whose world also
      holds the log of calls made to the PHY driver and to the application.
      [Mac.v] has one definition per function: timers, registry, transmission,
      timeouts, receive handlers, interface, tick handler.  [MacBuild.v] has the
      functions whose text differs in the build without a coordinator, and
      [MacDump.v] the printed node table.
    - [lib/tinyapp.h], [lib/tinyapp.c]: the application protocol, in
      [TinyApp.v]: serialiser, deserialising loop, name tables; [AppNames.v] has
      the enumerations the tables name.
    - [lib/mqttsn.h], [lib/mqttsn-client.h], [lib/mqttsn-client.c]: the MQTT-SN
      client, in [MqttSn.v], over a monad of state and faults: an access outside
      an array is a fault, [None].  [MqttFormat.v] has the messages the client
      does not use and the layouts of the structures.
    - [lib/si443x_regs.h], [lib/phy-si443x.c]: the driver of the Si443x radio.
      [Si443xRegs.v] has the register map and its formulas, one definition per
      macro; [Si443x.v] one definition per function, over a monad that records
      the history of platform operations (chip select, SPI transfers, delays,
      power).  What the chip does - the interrupt line and each byte it shifts
      out - is a function of that history (class [Platform]), so every theorem
      holds for every chip.  [Si443xBus.v] reads a history as register accesses.
    - [examples/sensor]: [Board.v] has the port macros of the board and the
      platform macros of the driver, [Sensor.v] the program, [SensorFw.v] the
      processor it runs on: registers, sleep, and interrupts between any two
      instructions of the loop; [SensorIo.v] its ADC and SPI registers.
      [SensorNode.v] puts program, MAC, Si443x driver and board together.
    - [examples/mqttsn-simple-gateway], [examples/mqttsn-client]: [Gateway.v] and
      [MqttApp.v], each with the callbacks, the start of [main] and the body of
      its event loop.  [MacApp.v] has the facts about the MAC the programs share.
      [Mains.v] has the two [main] functions in full, with their set-up and error
      exits, over the operating system of [Posix.v]: a monad that records system
      calls, whose results are the class [Os].
    - [tools/phy-sniffer]: [Sniffer.v], over the UDP driver.
    - [examples/common.h], [examples/ansi.h] and the format strings of the
      programs: [MacDump.v] has the trace macros, [Ansi.v] the escape codes, and
      [Printf.v] the part of the C library's [printf] the code uses.

    ** How the parts interact

    The MAC calls the PHY ([phy_send], standby, listen) and is called by it
    ([tinymac_recv_cb]) and by the application (tick, send, permit-attach); it
    calls the application back (data, registration, deregistration, send
    results), and the application may call the MAC again from there.  The class
    [Env] of [MacState.v] stands for both neighbours: the PHY's return codes and
    the application's behaviour are functions of the history, the application's
    being a finite program of interface calls ([app_prog]) which [run_app]
    executes inside the callback.  Every theorem about the MAC holds for every
    [Env].  The MQTT-SN client's neighbours are [MqEnv] in the same way.
    [PhyLink] in [Phy.v] is what a PHY promises the MAC; the UDP driver
    ([udp_link]) is an instance, and [MacSends.v], [MacHandshake.v] and
    [EndToEnd.v] are proved against the class.  The Si443x driver keeps a weaker
    promise, conditional on its chip ([Si443xLink.v], [SensorSafe.v]).
    The programs register callbacks that make no MAC call ([passive_env]) or, in
    the MQTT-SN client's case, make their calls as the last thing the receive
    handler does; their models run the callbacks a call has logged at its end.

    ** The theorems

    - [MacInv.v], [MacTick.v] ([mac_invariant]): an invariant of the whole
      context - member types, array bounds, ownership of addresses and timers,
      distinct UUIDs, consistency of client state, address and network - is
      preserved by every operation, hence holds in every reachable world
      ([reachable]: initialisation followed by any sequence of [step]s).
      [MacRun.v] has the frame lemmas: what the application, a callback and a
      transmission cannot change.
    - [MacTx.v]: the life of a packet: refusal, deferral to a sleepy node and
      its later transmission unchanged, acknowledgement, retransmission of the
      same bytes, stability of the stored packet, and completion.
    - [MacReg.v]: registration at a coordinator refines an abstract registry
      ([spec_register], [spec_response]); an address identifies a slot.
    - [MacTick.v]: timers fire at the right tick across the wrap of the 32-bit
      counter; heartbeat expiry is exact; beacons are sent in the configured
      slots with the right address list; an unacknowledged packet of a client
      is given up after its retries.
    - [MacArmed.v]: a node that waits for an acknowledgement always has its
      timer armed and due at this tick or the next, in either role.
    - [MacRetry.v]: a coordinator retransmits an unacknowledged packet to an
      awake device at each tick, keeps one for a sleepy device pending until the
      device polls, and gives either up after the retries, whatever the other
      slots do.
    - [MacListen.v]: when a MAC's receiver is on, read from the calls it has
      made to its driver; one whose parameters do not let it sleep always
      listens.
    - [MacClient.v]: the client's state machine: its transitions, the only way to
      become registered, deafness to other networks.
    - [MacBuild.v] ([client_only_build_equivalent]): the client-only build does
      what the client role of the full build does, call for call.
    - [MacDump.v]: the columns of the node table line up; its ages wrap.
    - [MacExchange.v]: two MACs exchange a packet and its acknowledgement, at once
      or, with a sleepy client, when a packet of the client's own has opened its
      receive window, every frame arriving while its receiver is on; both end up
      idle with the packet delivered once.
    - [MacLocal.v]: the MAC depends on its driver only through the results of the
      sends it makes.
    - [MacSends.v]: every packet the MAC ever transmits fits 134 bytes and is
      delivered by a PHY that keeps the link law.
    - [MacHandshake.v]: two MACs over a link: a searching client and a
      coordinator that permits attachment complete the registration exchange and
      agree on network and address.
    - [PhyUdp.v]: exactly the frames with a correct CRC are delivered; damaged
      ones are not; the CRC table computes polynomial division.
    - [TinyApp.v]: serialise/deserialise round trip, bounds of the serialiser,
      termination of the deserialiser on any input, name tables.  [AppNames.v]:
      the tables agree with the enumerations, the HVAC profile apart.
    - [MqttInv.v], [MqttProps.v]: memory safety and invariant of the client under
      its contract; retries and giving up, keep-alive, publishing, delivery of a
      publication, registration of the topic dictionary.
    - [MqttWire.v]: what the client hands to its send callback is always a byte
      string of at most 64 bytes, and calls only add to what was sent.
    - [MqttFormat.v]: sizes are those of the structures; messages of any type the
      client does not serve have no effect.
    - [Si443xSpec.v], [Si443xProps.v]: with any chip whatever, a driver call
      leaves the bus idle and well used, stays within the defined behaviour of
      C and keeps the RSSI in the range of the MAC's [int8_t]; initialisation
      programs exactly the configuration table and interrupt mask; a send that returns success has pushed exactly the
      bytes of the fragments, in order, after their length, and started the
      transmitter once; a reception delivers what the FIFO held.
    - [Si443xIo.v]: the driver only adds to the history of platform operations and
      keeps the power on.
    - [Si443xLive.v]: against a chip whose registers are modelled, the byte-wise
      SPI transfers implement register reads and writes; against a chip that
      reports the end of transmission, a send returns; a packet that arrives
      while the FIFO is filled makes it hang.
    - [Si443xLink.v]: every packet of a MAC told the driver's MTU is one the
      driver sends, on a free radio whose chip serves the transmission, and
      passes on, when a chip has received it.
    - [Board.v]: the port pins follow the driver's bus operations: the select pin
      is high exactly when the bus is idle and the shutdown pin follows the
      power calls, and no other pin moves.
    - [Sensor.v]: the wrapping 32-bit schedule of the main loop equals one in
      unbounded time; what is posted is the battery voltage; the LED follows the
      last command.
    - [SensorFw.v]: every interleaving of interrupts and instructions is a run of
      that loop, unless an interrupt carries into a half-read count, which stops
      the MAC's clock.
    - [SensorNode.v], [SensorSafe.v]: with any transceiver, a run of the whole
      sensor is a run of [Sensor.v] with the packets and return codes of the
      driver, and these are what the bus shows: the packets of the MAC with code
      0 have been loaded and transmitted, the packets passed up are those read
      from the chip.  The whole sensor's behaviour is defined and its pins are
      where they should be.
    - [Gateway.v]: relaying in both directions, what is dropped, and the packet
      that crashes the gateway.
    - [MqttApp.v]: the whole client program never faults, whatever it receives;
      once disconnected it never sends again.
    - [Mains.v]: whatever system calls return, the gateway either has made
      exactly its planned calls, all of them successful - a socket of its own per
      device, bound and watched under its number - or ends with status 1 at the
      first call that failed; the client's [main] never faults.
    - [Sniffer.v]: exactly which packets overrun the sniffer's buffer.
    - [EndToEnd.v]: between a registered device and the broker the radio network
      and the gateway are transparent, in both directions.
    - [MacDefects.v], and the last lemmas of [TinyApp.v] and [MqttProps.v]:
      behaviours of the code that contradict its purpose, as theorems about the
      same definitions.
    - [MacEx.v]: concrete coordinators and clients in various states, used by the
      witnesses of the theorems about the MAC.

    ** Conventions

    An unsigned C integer is a [Z], reduced modulo its width where the code
    stores or converts it; a signed view is two's complement.  A byte buffer with
    its size is a list of bytes.  The target is little-endian, as the packed
    structures require.  Except in [MacBuild.v] the build is
    [WITH_TINYMAC_COORDINATOR=1], in which both roles are present and selected by
    [params.coordinator].  A call of
    the MQTT-SN client reads one value of the clock.  The result of [rand()] in
    [tinymac_init] is an argument.

    Fuel: every iteration of [deserialise_loop] consumes at least one byte, so the
    packet's length plus one is enough, and [deserialise_terminates] shows that
    the loop leaves by its own guard before it is exhausted.  The loops of the Si443x driver poll a chip and need
    not end; with too little fuel they give [Blocked], which no theorem takes
    for a result, and [radio_send_returns] bounds the fuel a send needs.  The
    configuration table is walked with its length as fuel.  On the AVR target
    of that driver [int] has 16 bits; the driver's sizes stay below that,
    and an argument of [phy_set_power] for which the arithmetic would overflow is
    a fault.

    ** Not modelled

    The GNU Radio scripts, which are Python and not part of the C program.  Four
    macros of [si443x_regs.h] do not compile in C where they are used, and are
    not; the alternatives the build does not select (the low band, the Si4432's
    power range, the empty halves of [ansi.h] and [common.h]) are left out.  What
    the operating system, the chip, the network and the C library's random
    numbers and clock return are parameters.  In [SensorNode.v] timer interrupts
    fall between the passes of the loop ([SensorFw.v] has the others) and a
    battery measurement of zero, by which the program divides, ends the run.

    This file: machine integers, byte strings, and the tactics and lemmas on
    lists and bits the components share. *)

From stdpp Require Import base list option numbers.
From Stdlib Require Import ZArith Lia.

Declare Scope c_scope.
Delimit Scope c_scope with c.

#[global] Open Scope Z_scope.

(** ** Machine integers

    An unsigned C integer of width [w] is a [Z] in [[0, 2^w)]; a store into
    such an object reduces modulo [2^w].  Signed 8- and 32-bit objects hold
    the two's complement reading of the stored bits. *)

Definition u8 (z : Z) : Z := z mod 2 ^ 8.
Definition u16 (z : Z) : Z := z mod 2 ^ 16.
Definition u32 (z : Z) : Z := z mod 2 ^ 32.
Definition u64 (z : Z) : Z := z mod 2 ^ 64.

Definition signed (w z : Z) : Z :=
  let m := z mod 2 ^ w in
  if m <? 2 ^ (w - 1) then m else m - 2 ^ w.

Definition i8 (z : Z) : Z := signed 8 z.
Definition i32 (z : Z) : Z := signed 32 z.

Definition is_u8 (z : Z) : Prop := 0 <= z < 2 ^ 8.
Definition is_u16 (z : Z) : Prop := 0 <= z < 2 ^ 16.
Definition is_u32 (z : Z) : Prop := 0 <= z < 2 ^ 32.
Definition is_u64 (z : Z) : Prop := 0 <= z < 2 ^ 64.
Definition is_i8 (z : Z) : Prop := - 2 ^ 7 <= z < 2 ^ 7.

(** A byte string. *)
Definition bytes (l : list Z) : Prop := Forall is_u8 l.

(** C truth of [x & mask]. *)
Definition bit_set (x mask : Z) : bool := negb (Z.land x mask =? 0).

Notation "x &? m" := (bit_set x m) (at level 40) : c_scope.
#[global] Open Scope c_scope.

(** ** Automation *)

Create HintDb width discriminated.

(** Boolean comparisons in hypotheses and goal become propositions. *)
Ltac boolify :=
  repeat match goal with
  | H : (_ =? _) = true |- _ => apply Z.eqb_eq in H
  | H : (_ =? _) = false |- _ => apply Z.eqb_neq in H
  | H : (_ <? _) = true |- _ => apply Z.ltb_lt in H
  | H : (_ <? _) = false |- _ => apply Z.ltb_ge in H
  | H : (_ <=? _) = true |- _ => apply Z.leb_le in H
  | H : (_ <=? _) = false |- _ => apply Z.leb_gt in H
  | H : negb _ = true |- _ => apply negb_true_iff in H
  | H : negb _ = false |- _ => apply negb_false_iff in H
  | H : (_ && _)%bool = true |- _ => apply andb_true_iff in H; destruct H
  | H : (_ || _)%bool = false |- _ => apply orb_false_iff in H; destruct H
  end.

(** Case analysis on the scrutinee of the first [match]/[if] of the goal. *)
Ltac split_match :=
  match goal with
  | |- context [match ?x with _ => _ end] =>
      lazymatch x with
      | context [match _ with _ => _ end] => fail
      | _ => let E := fresh "E" in destruct x eqn:E
      end
  end.

(** Ranges with their powers of two evaluated, for [lia]. *)
Ltac widths :=
  unfold is_u8, is_u16, is_u32, is_u64, is_i8, u8, u16, u32, u64 in *;
  change (2 ^ 64) with 18446744073709551616 in *;
  change (2 ^ 32) with 4294967296 in *;
  change (2 ^ 31) with 2147483648 in *;
  change (2 ^ 16) with 65536 in *;
  change (2 ^ 8) with 256 in *;
  change (2 ^ 7) with 128 in *.

Lemma u8_range z : is_u8 (u8 z).
Proof. apply Z.mod_pos_bound. reflexivity. Qed.
Lemma u16_range z : is_u16 (u16 z).
Proof. apply Z.mod_pos_bound. reflexivity. Qed.
Lemma u32_range z : is_u32 (u32 z).
Proof. apply Z.mod_pos_bound. reflexivity. Qed.
Lemma u64_range z : is_u64 (u64 z).
Proof. apply Z.mod_pos_bound. reflexivity. Qed.
#[export] Hint Resolve u8_range u16_range u32_range u64_range : width.

Lemma is_u8_u16 z : is_u8 z -> is_u16 z.
Proof. widths; lia. Qed.
#[export] Hint Resolve is_u8_u16 : width.

Lemma u8_id z : is_u8 z -> u8 z = z.
Proof. intros; by apply Z.mod_small. Qed.
Lemma u16_id z : is_u16 z -> u16 z = z.
Proof. intros; by apply Z.mod_small. Qed.
Lemma u32_id z : is_u32 z -> u32 z = z.
Proof. intros; by apply Z.mod_small. Qed.
Lemma u64_id z : is_u64 z -> u64 z = z.
Proof. intros; by apply Z.mod_small. Qed.

Lemma i8_range z : is_i8 (i8 z).
Proof.
  unfold i8, signed, is_i8. cbn zeta.
  change (2 ^ (8 - 1)) with 128; change (2 ^ 7) with 128; change (2 ^ 8) with 256.
  pose proof (Z.mod_pos_bound z 256 eq_refl).
  destruct (z mod 256 <? 128) eqn:E; boolify; lia.
Qed.
#[export] Hint Resolve i8_range : width.

(** Serial-number arithmetic on the 32-bit tick counter: the signed reading
    of the difference of two counter values is their true distance, however
    often the counter wrapped, while that distance is below [2^31]. *)
Lemma i32_diff a b :
  - 2 ^ 31 <= a - b < 2 ^ 31 -> i32 (u32 a - u32 b) = a - b.
Proof.
  unfold i32, signed, u32. cbn zeta. intros Hr.
  rewrite <- Zminus_mod.
  change (2 ^ (32 - 1)) with 2147483648; change (2 ^ 32) with 4294967296 in *.
  change (2 ^ 31) with 2147483648 in *.
  destruct (Z.ltb_spec ((a - b) mod 4294967296) 2147483648); Z.div_mod_to_equations; lia.
Qed.

Lemma i32_u32 z : i32 (u32 z) = i32 z.
Proof. unfold i32, signed, u32. cbn zeta. by rewrite Z.mod_mod. Qed.

Lemma i32_small z : - 2 ^ 31 <= z < 2 ^ 31 -> i32 z = z.
Proof.
  intros Hz. rewrite <- i32_u32. rewrite <- (Z.sub_0_r (u32 z)).
  change 0 with (u32 0) at 1. rewrite i32_diff; lia.
Qed.

Lemma i32_sub_u32 a b : i32 (a - u32 b) = i32 (a - b).
Proof.
  rewrite <- (i32_u32 (a - u32 b)), <- (i32_u32 (a - b)). f_equal. unfold u32.
  by rewrite Zminus_mod_idemp_r.
Qed.

(** ** Little-endian byte strings

    The code overlays packed structures on receive and transmit buffers; every
    target it names is little-endian. *)

Fixpoint le_bytes (n : nat) (z : Z) : list Z :=
  match n with
  | O => []
  | S n => z mod 256 :: le_bytes n (z / 256)
  end.

Fixpoint le_val (l : list Z) : Z :=
  match l with
  | [] => 0
  | b :: l => b + 256 * le_val l
  end.

Lemma le_bytes_length n z : length (le_bytes n z) = n.
Proof. revert z; induction n as [|n IH]; intros; simpl; auto. Qed.

Lemma le_bytes_bytes n z : bytes (le_bytes n z).
Proof.
  revert z; induction n as [|n IH]; intros; simpl; constructor; try apply IH.
  apply Z.mod_pos_bound; lia.
Qed.
#[export] Hint Resolve le_bytes_bytes : width.

Lemma le_val_range l : bytes l -> 0 <= le_val l < 256 ^ Z.of_nat (length l).
Proof.
  induction 1 as [|b l Hb _ IH]; cbn [le_val length]; [lia|].
  rewrite Nat2Z.inj_succ, Z.pow_succ_r by lia. widths; lia.
Qed.

Lemma le_val_bytes n z : le_val (le_bytes n z) = z mod 256 ^ Z.of_nat n.
Proof.
  revert z; induction n as [|n IH]; intros z; cbn [le_val le_bytes].
  { by rewrite Z.mod_1_r. }
  rewrite IH, Nat2Z.inj_succ, Z.pow_succ_r by lia.
  rewrite (Z.rem_mul_r z 256) by (try apply Z.pow_pos_nonneg; lia). lia.
Qed.

Lemma le_val_bytes_id n z :
  0 <= z < 256 ^ Z.of_nat n -> le_val (le_bytes n z) = z.
Proof. intros; rewrite le_val_bytes; by apply Z.mod_small. Qed.

Lemma le_bytes_val l : bytes l -> le_bytes (length l) (le_val l) = l.
Proof.
  induction 1 as [|b l Hb _ IH]; cbn [le_val le_bytes length]; [done|].
  f_equal.
  - rewrite Z.mul_comm, Z_mod_plus_full. by apply Z.mod_small.
  - rewrite Z.mul_comm, Z.div_add by lia.
    rewrite Z.div_small by (widths; lia). by rewrite Z.add_0_l.
Qed.

(** A run of stores into an array, in range. *)
Lemma inserts_split (n : nat) (vs l : list Z) :
  (n + length vs <= length l)%nat ->
  list_inserts n vs l = take n l ++ vs ++ drop (n + length vs) l.
Proof.
  intros Hl. apply list_eq. intros i.
  assert (Ht : length (take n l) = n) by (rewrite length_take; lia).
  destruct (decide (i < n)%nat).
  { rewrite list_lookup_inserts_lt, lookup_app_l, lookup_take_lt by lia. done. }
  rewrite lookup_app_r, Ht by lia.
  destruct (decide (i < n + length vs)%nat).
  { rewrite list_lookup_inserts, lookup_app_l by lia. done. }
  rewrite list_lookup_inserts_ge, lookup_app_r, lookup_drop by lia. f_equal. lia.
Qed.

(** Exhaustive checks over a byte. *)
Definition all_bytes : list Z := map Z.of_nat (seq 0 256).

Lemma byte_exhaustive (P : Z -> bool) :
  forallb P all_bytes = true -> forall b, is_u8 b -> P b = true.
Proof.
  intros H b Hb. rewrite forallb_forall in H. apply H.
  unfold all_bytes. apply in_map_iff. exists (Z.to_nat b). widths.
  split; [lia|]. apply in_seq. lia.
Qed.
