(* ===== verification/Printf.v ===== *)
(** * Formatted output

    The part of [printf] the program uses: a format is read character by
    character; a conversion has an optional zero flag, a field width, [l]
    modifiers, and prints a signed or unsigned decimal number, an upper case
    hexadecimal number or a string.  Text is a list of character codes.

    A format that asks for an argument it is not given, or for one of the other
    kind, has no defined meaning in C; here it prints nothing more. *)

From stdpp Require Import base list numbers strings.
From Stdlib Require Import ZArith Lia.
From S2P Require Import Prelude.

(** ** Text *)

Definition text : Type := list Z.

Definition str (s : string) : text :=
  map (fun a => Z.of_N (Ascii.N_of_ascii a)) (String.list_ascii_of_string s).

(** "\n" *)
Definition newline : text := [10].

(** ** Numbers *)

Definition hex_digit (d : Z) : Z := if d <? 10 then 48 + d else 55 + d.

(** The digits of [v], the most significant first; [fuel] of them at most. *)
Fixpoint digits (base : Z) (fuel : nat) (v : Z) : text :=
  match fuel with
  | O => []
  | S fuel =>
      (if v / base =? 0 then [] else digits base fuel (v / base)) ++ [hex_digit (v mod base)]
  end.

(** A [uint64_t] has at most 20 decimal digits. *)
Definition max_digits : nat := 20.

(** Right-justified in [width] columns. *)
Definition pad (c : Z) (width : nat) (t : text) : text := replicate (width - length t) c ++ t.

(** ** Conversions *)

Inductive arg : Type :=
| AInt (z : Z)
| AStr (s : text).

(** What has been read of a conversion. *)
Inductive mode : Type :=
| Literal
| Conversion (zero : bool) (width : nat) (long : bool).

Definition filler (zero : bool) : Z := if zero then 48 else 32.

Definition print_unsigned (base : Z) (zero : bool) (width : nat) (long : bool) (z : Z) : text :=
  pad (filler zero) width (digits base max_digits (if long then u64 z else u32 z)).

Definition print_signed (width : nat) (z : Z) : text :=
  let z := i32 z in
  pad 32 width (if z <? 0 then 45 :: digits 10 max_digits (- z) else digits 10 max_digits z).

Definition is_digit (c : Z) : bool := (48 <=? c) && (c <=? 57).

Fixpoint format (m : mode) (fmt : text) (args : list arg) : text :=
  match fmt with
  | [] => []
  | c :: fmt =>
      match m with
      | Literal => if c =? 37 then format (Conversion false 0 false) fmt args
                   else c :: format Literal fmt args
      | Conversion zero width long =>
          if (c =? 48) && (width =? 0)%nat then format (Conversion true width long) fmt args
          else if is_digit c then
            format (Conversion zero (10 * width + Z.to_nat (c - 48)) long) fmt args
          else if c =? 108 then format (Conversion zero width true) fmt args
          else
            match args with
            | AInt z :: args =>
                if c =? 88 then print_unsigned 16 zero width long z ++ format Literal fmt args
                else if c =? 117 then print_unsigned 10 zero width long z ++ format Literal fmt args
                else if c =? 100 then print_signed width z ++ format Literal fmt args
                else []
            | AStr s :: args =>
                if c =? 115 then pad 32 width s ++ format Literal fmt args else []
            | [] => []
            end
      end
  end.

Definition printf (fmt : text) (args : list arg) : text := format Literal fmt args.

(** [snprintf]: at most [n - 1] characters and a terminator. *)
Definition snprintf (n : nat) (fmt : text) (args : list arg) : text := take (n - 1) (printf fmt args).

(** ** Fixed fields *)

(** [w] digits of [v], zeros included. *)
Fixpoint field_of (base : Z) (w : nat) (v : Z) : text :=
  match w with
  | O => []
  | S w => field_of base w (v / base) ++ [hex_digit (v mod base)]
  end.

Lemma field_length base w v : length (field_of base w v) = w.
Proof.
  revert v; induction w as [|w IH]; intros v; [done|]. cbn. rewrite length_app, IH. cbn. lia.
Qed.

Lemma field_zero base w : 0 < base -> field_of base w 0 = replicate w 48.
Proof.
  intros Hb. induction w as [|w IH]; [done|]. cbn [field_of]. rewrite Z.div_0_l, Z.mod_0_l, IH by lia.
  change [hex_digit 0] with (replicate 1 48). rewrite <- replicate_add. f_equal. lia.
Qed.

Lemma quotient_bound base w v :
  1 < base -> 0 <= v < base ^ Z.of_nat (S w) -> 0 <= v / base < base ^ Z.of_nat w.
Proof.
  intros Hb Hv. split; [apply Z.div_pos; lia|]. apply Z.div_lt_upper_bound; [lia|].
  rewrite <- Z.pow_succ_r by lia. replace (Z.succ (Z.of_nat w)) with (Z.of_nat (S w)) by lia. lia.
Qed.

(** A number that fits is printed as its field. *)
Lemma digits_field base w fuel v :
  1 < base -> 0 <= v < base ^ Z.of_nat w -> (0 < w <= fuel)%nat ->
  pad 48 w (digits base fuel v) = field_of base w v.
Proof.
  intros Hb. revert fuel v; induction w as [|w IH]; intros fuel v Hv Hf; [lia|].
  destruct fuel as [|fuel]; [lia|]. cbn [digits field_of]. unfold pad. rewrite length_app. cbn [length].
  pose proof (quotient_bound base w v Hb Hv) as Hq.
  destruct (Z.eqb_spec (v / base) 0) as [E|E].
  - cbn [length app]. replace (S w - (0 + 1))%nat with w by lia. rewrite E, field_zero by lia. done.
  - destruct w as [|w]; [cbn in Hq; lia|]. rewrite app_assoc. f_equal.
    rewrite <- IH with (fuel := fuel) by lia. unfold pad. f_equal. f_equal. lia.
Qed.

Lemma hex_digit_inj a b : 0 <= a < 16 -> 0 <= b < 16 -> hex_digit a = hex_digit b -> a = b.
Proof. unfold hex_digit. destruct (Z.ltb_spec a 10), (Z.ltb_spec b 10); lia. Qed.

(** A field determines the number. *)
Lemma field_inj base w a b :
  1 < base <= 16 -> 0 <= a < base ^ Z.of_nat w -> 0 <= b < base ^ Z.of_nat w ->
  field_of base w a = field_of base w b -> a = b.
Proof.
  intros Hb. revert a b; induction w as [|w IH]; intros a b Ha Hb'; [cbn in *; lia|].
  cbn [field_of]. intros [H1 H2]%app_inj_tail. apply IH in H1; [|apply quotient_bound; lia..].
  pose proof (Z.mod_pos_bound a base) as Ma. pose proof (Z.mod_pos_bound b base) as Mb.
  apply hex_digit_inj in H2; [|lia..].
  rewrite (Z.div_mod a base), (Z.div_mod b base) by lia. congruence.
Qed.

(** The conversions [%0wX] and [%0wu] of a number that fits. *)
Lemma print_fixed base w v (long : bool) :
  1 < base -> 0 <= v < base ^ Z.of_nat w -> (0 < w <= max_digits)%nat ->
  (if long then is_u64 v else is_u32 v) ->
  print_unsigned base true w long v = field_of base w v.
Proof.
  intros Hb Hv Hw Hu. unfold print_unsigned. destruct long.
  - rewrite u64_id by done. by apply digits_field.
  - rewrite u32_id by done. by apply digits_field.
Qed.

Lemma pad_length c w t : (length t <= w)%nat -> length (pad c w t) = w.
Proof. intros H. unfold pad. rewrite length_app, length_replicate. lia. Qed.

(** How long a printed number can be. *)
Lemma digits_bound base w fuel v :
  1 < base -> 0 <= v < base ^ Z.of_nat w -> (0 < w)%nat -> (length (digits base fuel v) <= w)%nat.
Proof.
  intros Hb. revert fuel v; induction w as [|w IH]; intros fuel v Hv Hw; [lia|].
  destruct fuel as [|fuel]; [cbn; lia|]. cbn [digits]. rewrite length_app. cbn [length].
  destruct (Z.eqb_spec (v / base) 0) as [E|E]; [cbn; lia|].
  pose proof (quotient_bound base w v Hb Hv) as Hq.
  destruct w as [|w]; [cbn in Hq; lia|]. specialize (IH fuel (v / base) Hq). lia.
Qed.

(** ** Reading back *)

Definition digit_value (c : Z) : Z := if c <? 58 then c - 48 else c - 55.

Definition value (base : Z) (t : text) : Z := fold_left (fun v c => v * base + digit_value c) t 0.

Lemma digit_value_hex d : 0 <= d < 16 -> digit_value (hex_digit d) = d.
Proof.
  intros H. unfold digit_value, hex_digit. destruct (Z.ltb_spec d 10).
  - destruct (Z.ltb_spec (48 + d) 58); lia.
  - destruct (Z.ltb_spec (55 + d) 58); lia.
Qed.

(** The digits of a number are the number: the fuel is enough for every
    [uint64_t], decimal or hexadecimal. *)
Lemma digits_value base fuel v :
  1 < base <= 16 -> 0 <= v < base ^ Z.of_nat fuel -> (0 < fuel)%nat -> value base (digits base fuel v) = v.
Proof.
  intros Hb. revert v; induction fuel as [|fuel IH]; intros v Hv Hf; [lia|].
  pose proof (quotient_bound base fuel v ltac:(lia) Hv) as Hq.
  pose proof (Z.mod_pos_bound v base ltac:(lia)) as Hm.
  cbn [digits]. unfold value. rewrite fold_left_app. cbn [fold_left].
  rewrite digit_value_hex by lia.
  change (fold_left _ ?t 0) with (value base t).
  replace (value base _) with (v / base).
  - pose proof (Z.div_mod v base ltac:(lia)). lia.
  - destruct (Z.eqb_spec (v / base) 0) as [E|E]; [by rewrite E|].
    destruct fuel as [|fuel]; [cbn in Hq; lia|]. symmetry. apply IH; lia.
Qed.

Example printf_hex : printf (str "%02X %04X|%016llX") [AInt 10; AInt 0xBEEF; AInt 0x123456789abcdef0] =
  str "0A BEEF|123456789ABCDEF0".
Proof. reflexivity. Qed.
Example printf_dec : printf (str "[%03u] %4d %5u %8s.") [AInt 7; AInt (-40); AInt 32; AStr (str "ok")] =
  str "[007]  -40    32       ok.".
Proof. reflexivity. Qed.
