(* ===== verification/Ansi.v ===== *)
(** * Terminal escape codes ([examples/ansi.h])

    The codes of the header's active half, as the texts its strings denote; the
    other half, under [#if 0], defines them all as empty.  Codes with a number in
    them are formats of [printf]. *)

From stdpp Require Import base list numbers strings.
From Stdlib Require Import ZArith.
From S2P Require Import Prelude Printf.

(** "\033" and the rest of the code. *)
Definition esc (s : string) : text := 27 :: str s.

Definition CURSOR_UP : text := esc "[A".
Definition CURSOR_UPn : text := esc "[%dA".
Definition CURSOR_DOWN : text := esc "[B".
Definition CURSOR_DOWNn : text := esc "[%dB".
Definition CURSOR_RIGHT : text := esc "[C".
Definition CURSOR_RIGHTn : text := esc "[%dC".
Definition CURSOR_LEFT : text := esc "[D".
Definition CURSOR_LEFTn : text := esc "[%dD".
Definition CURSOR_NL : text := esc "[E".
Definition CURSOR_PL : text := esc "[F".
Definition CURSOR_COL : text := esc "[%dG".
Definition CURSOR_MOVE : text := esc "[%d;%dH".
Definition CURSOR_SAVE : text := esc "[s".
Definition CURSOR_RESTORE : text := esc "[u".
Definition CLEAR_AFTER : text := esc "[0J".
Definition CLEAR_BEFORE : text := esc "[1J".
Definition CLEAR_SCREEN : text := esc "[2J".
Definition CLEAR_EOL : text := esc "[0K".
Definition CLEAR_SOL : text := esc "[1K".
Definition CLEAR_LINE : text := esc "[2K".
Definition SCROLL_UP : text := esc "[S".
Definition SCROLL_UPn : text := esc "[%dS".
Definition SCROLL_DOWN : text := esc "[T".
Definition SCROLL_DOWNn : text := esc "[%dT".
Definition ATTR_RESET : text := esc "[0m".
Definition ATTR_NORMAL : text := esc "[22m".
Definition ATTR_BRIGHT : text := esc "[1m".
Definition ATTR_DIM : text := esc "[2m".
Definition ATTR_ITALIC : text := esc "[3m".
Definition ATTR_UNDERLINE : text := esc "[4m".
Definition ATTR_BLINK : text := esc "[5m".
Definition ATTR_FASTBLINK : text := esc "[6m".
Definition ATTR_STEADY : text := esc "[25m".
Definition ATTR_INVERSE : text := esc "[7m".
Definition ATTR_POSITIVE : text := esc "[27m".
Definition FG_BLACK : text := esc "[30m".
Definition FG_RED : text := esc "[31m".
Definition FG_GREEN : text := esc "[32m".
Definition FG_YELLOW : text := esc "[33m".
Definition FG_BLUE : text := esc "[34m".
Definition FG_MAGENTA : text := esc "[35m".
Definition FG_CYAN : text := esc "[36m".
Definition FG_WHITE : text := esc "[37m".
Definition FG_RESET : text := esc "[39m".
Definition BG_BLACK : text := esc "[40m".
Definition BG_RED : text := esc "[41m".
Definition BG_GREEN : text := esc "[42m".
Definition BG_YELLOW : text := esc "[43m".
Definition BG_BLUE : text := esc "[44m".
Definition BG_MAGENTA : text := esc "[45m".
Definition BG_CYAN : text := esc "[46m".
Definition BG_WHITE : text := esc "[47m".
Definition BG_RESET : text := esc "[49m".

(** ** A screen's colours

    The select-graphic-rendition codes, as the number they carry. *)

Definition sgr (n : Z) : text := printf (esc "[%dm") [AInt n].

(** Foreground and background colours are numbered alike, thirty and forty up. *)
Lemma colours_numbered :
  [FG_BLACK; FG_RED; FG_GREEN; FG_YELLOW; FG_BLUE; FG_MAGENTA; FG_CYAN; FG_WHITE] =
    map (fun k => sgr (30 + k)) [0; 1; 2; 3; 4; 5; 6; 7] /\
  [BG_BLACK; BG_RED; BG_GREEN; BG_YELLOW; BG_BLUE; BG_MAGENTA; BG_CYAN; BG_WHITE] =
    map (fun k => sgr (40 + k)) [0; 1; 2; 3; 4; 5; 6; 7] /\
  FG_RESET = sgr 39 /\ BG_RESET = sgr 49.
Proof. repeat split. Qed.

(** The parametrised codes give the plain ones for a count of one, but for the
    number itself. *)
Example cursor_move_home : printf CURSOR_MOVE [AInt 1; AInt 1] = esc "[1;1H".
Proof. reflexivity. Qed.
