(* ===== verification/Crc.v ===== *)
(** * CRC-16/CCITT of the demo PHY ([lib/phy-udp.c], [phy_crc_table] and [update_crc])

    The table-driven routine of the code, a bit-serial shift register as its
    reference, the proof that the two agree on every buffer, and the
    consequences the PHY relies on: a CRC over fragments is the CRC over their
    concatenation, and every burst of at most 16 bits changes the CRC. *)

From stdpp Require Import base list numbers.
From Stdlib Require Import ZArith Lia.
From S2P Require Import Prelude.

(** ** The code *)

Definition phy_crc_table : list Z :=
  [
   0x0000; 0x1021; 0x2042; 0x3063; 0x4084; 0x50A5; 0x60C6; 0x70E7;
   0x8108; 0x9129; 0xA14A; 0xB16B; 0xC18C; 0xD1AD; 0xE1CE; 0xF1EF;
   0x1231; 0x0210; 0x3273; 0x2252; 0x52B5; 0x4294; 0x72F7; 0x62D6;
   0x9339; 0x8318; 0xB37B; 0xA35A; 0xD3BD; 0xC39C; 0xF3FF; 0xE3DE;
   0x2462; 0x3443; 0x0420; 0x1401; 0x64E6; 0x74C7; 0x44A4; 0x5485;
   0xA56A; 0xB54B; 0x8528; 0x9509; 0xE5EE; 0xF5CF; 0xC5AC; 0xD58D;
   0x3653; 0x2672; 0x1611; 0x0630; 0x76D7; 0x66F6; 0x5695; 0x46B4;
   0xB75B; 0xA77A; 0x9719; 0x8738; 0xF7DF; 0xE7FE; 0xD79D; 0xC7BC;
   0x48C4; 0x58E5; 0x6886; 0x78A7; 0x0840; 0x1861; 0x2802; 0x3823;
   0xC9CC; 0xD9ED; 0xE98E; 0xF9AF; 0x8948; 0x9969; 0xA90A; 0xB92B;
   0x5AF5; 0x4AD4; 0x7AB7; 0x6A96; 0x1A71; 0x0A50; 0x3A33; 0x2A12;
   0xDBFD; 0xCBDC; 0xFBBF; 0xEB9E; 0x9B79; 0x8B58; 0xBB3B; 0xAB1A;
   0x6CA6; 0x7C87; 0x4CE4; 0x5CC5; 0x2C22; 0x3C03; 0x0C60; 0x1C41;
   0xEDAE; 0xFD8F; 0xCDEC; 0xDDCD; 0xAD2A; 0xBD0B; 0x8D68; 0x9D49;
   0x7E97; 0x6EB6; 0x5ED5; 0x4EF4; 0x3E13; 0x2E32; 0x1E51; 0x0E70;
   0xFF9F; 0xEFBE; 0xDFDD; 0xCFFC; 0xBF1B; 0xAF3A; 0x9F59; 0x8F78;
   0x9188; 0x81A9; 0xB1CA; 0xA1EB; 0xD10C; 0xC12D; 0xF14E; 0xE16F;
   0x1080; 0x00A1; 0x30C2; 0x20E3; 0x5004; 0x4025; 0x7046; 0x6067;
   0x83B9; 0x9398; 0xA3FB; 0xB3DA; 0xC33D; 0xD31C; 0xE37F; 0xF35E;
   0x02B1; 0x1290; 0x22F3; 0x32D2; 0x4235; 0x5214; 0x6277; 0x7256;
   0xB5EA; 0xA5CB; 0x95A8; 0x8589; 0xF56E; 0xE54F; 0xD52C; 0xC50D;
   0x34E2; 0x24C3; 0x14A0; 0x0481; 0x7466; 0x6447; 0x5424; 0x4405;
   0xA7DB; 0xB7FA; 0x8799; 0x97B8; 0xE75F; 0xF77E; 0xC71D; 0xD73C;
   0x26D3; 0x36F2; 0x0691; 0x16B0; 0x6657; 0x7676; 0x4615; 0x5634;
   0xD94C; 0xC96D; 0xF90E; 0xE92F; 0x99C8; 0x89E9; 0xB98A; 0xA9AB;
   0x5844; 0x4865; 0x7806; 0x6827; 0x18C0; 0x08E1; 0x3882; 0x28A3;
   0xCB7D; 0xDB5C; 0xEB3F; 0xFB1E; 0x8BF9; 0x9BD8; 0xABBB; 0xBB9A;
   0x4A75; 0x5A54; 0x6A37; 0x7A16; 0x0AF1; 0x1AD0; 0x2AB3; 0x3A92;
   0xFD2E; 0xED0F; 0xDD6C; 0xCD4D; 0xBDAA; 0xAD8B; 0x9DE8; 0x8DC9;
   0x7C26; 0x6C07; 0x5C64; 0x4C45; 0x3CA2; 0x2C83; 0x1CE0; 0x0CC1;
   0xEF1F; 0xFF3E; 0xCF5D; 0xDF7C; 0xAF9B; 0xBFBA; 0x8FD9; 0x9FF8;
   0x6E17; 0x7E36; 0x4E55; 0x5E74; 0x2E93; 0x3EB2; 0x0ED1; 0x1EF0
  ].

(** One iteration of the [while (size--)] loop: the assignment to the
    [uint16_t] object truncates the promoted expression. *)
Definition crc_step (crc b : Z) : Z :=
  u16 (Z.lxor (Z.shiftl crc 8)
         (nth (Z.to_nat (Z.lxor (Z.shiftr crc 8) b)) phy_crc_table 0)).

Definition update_crc (crc : Z) (buf : list Z) : Z := fold_left crc_step buf crc.

(** ** The reference: a 16-bit shift register, most significant bit first *)

Definition crc_poly : Z := 0x1021.

Definition shift1 (c : Z) : Z :=
  if Z.testbit c 15 then Z.lxor (u16 (2 * c)) crc_poly else u16 (2 * c).

Definition feed_bit (c : Z) (b : bool) : Z := shift1 (Z.lxor c (Z.shiftl (Z.b2z b) 15)).

Definition bits_of_byte (b : Z) : list bool :=
  map (Z.testbit b) [7; 6; 5; 4; 3; 2; 1; 0].

Definition bits_of (buf : list Z) : list bool := flat_map bits_of_byte buf.

Definition crc_ref (crc : Z) (bits : list bool) : Z := fold_left feed_bit bits crc.

(** ** The shift register is linear and injective *)

Lemma u16_lxor a b : u16 (Z.lxor a b) = Z.lxor (u16 a) (u16 b).
Proof.
  unfold u16. rewrite <- !Z.land_ones by lia.
  apply Z.bits_inj'; intros n Hn. rewrite !Z.land_spec, !Z.lxor_spec, !Z.land_spec.
  by destruct (Z.testbit a n), (Z.testbit b n), (Z.testbit (Z.ones 16) n).
Qed.

Lemma double_lxor a b : 2 * Z.lxor a b = Z.lxor (2 * a) (2 * b).
Proof.
  pose proof (Z.shiftl_lxor a b 1) as H.
  rewrite !(Z.shiftl_mul_pow2 _ 1) in H by lia. change (2 ^ 1) with 2 in H.
  by rewrite !(Z.mul_comm 2).
Qed.

Lemma shift1_lxor a b : shift1 (Z.lxor a b) = Z.lxor (shift1 a) (shift1 b).
Proof.
  unfold shift1. rewrite Z.lxor_spec, double_lxor, u16_lxor.
  destruct (Z.testbit a 15), (Z.testbit b 15); simpl xorb.
  - rewrite (Z.lxor_comm (u16 (2 * b))), <- Z.lxor_assoc, (Z.lxor_assoc (u16 (2 * a))).
    by rewrite Z.lxor_nilpotent, Z.lxor_0_r.
  - by rewrite !Z.lxor_assoc, (Z.lxor_comm crc_poly).
  - by rewrite Z.lxor_assoc.
  - done.
Qed.

Lemma lxor_u16 a b : is_u16 a -> is_u16 b -> is_u16 (Z.lxor a b).
Proof.
  intros Ha Hb. rewrite <- (u16_id a), <- (u16_id b), <- u16_lxor by done.
  apply u16_range.
Qed.

Lemma shift1_u16 c : is_u16 (shift1 c).
Proof.
  unfold shift1. destruct (Z.testbit c 15); auto with width.
  apply lxor_u16; auto with width. unfold crc_poly; widths; lia.
Qed.
#[export] Hint Resolve lxor_u16 shift1_u16 : width.

Lemma testbit15 c : is_u16 c -> Z.testbit c 15 = (2 ^ 15 <=? c).
Proof.
  intros [H0 H1]. rewrite Z.testbit_eqb by lia.
  change (2 ^ 16) with 65536 in H1. change (2 ^ 15) with 32768.
  destruct (Z.leb_spec 32768 c); [apply Z.eqb_eq | apply Z.eqb_neq];
    Z.div_mod_to_equations; lia.
Qed.

Lemma shift1_small c : 0 <= c < 2 ^ 15 -> shift1 c = 2 * c.
Proof.
  intros H. change (2 ^ 15) with 32768 in H. unfold shift1.
  rewrite testbit15 by (widths; lia). change (2 ^ 15) with 32768.
  destruct (Z.leb_spec 32768 c); [lia|]. apply u16_id. widths; lia.
Qed.

Lemma shift1_kernel c : is_u16 c -> shift1 c = 0 -> c = 0.
Proof.
  intros Hc. unfold shift1. rewrite testbit15 by done. change (2 ^ 15) with 32768.
  destruct (Z.leb_spec 32768 c); intros E.
  - assert (Hb : Z.testbit (Z.lxor (u16 (2 * c)) crc_poly) 0 = false)
      by (rewrite E; apply Z.bits_0).
    rewrite Z.lxor_spec in Hb. unfold u16 in Hb.
    rewrite Z.mod_pow2_bits_low, Z.testbit_even_0 in Hb by lia. discriminate.
  - rewrite u16_id in E by (widths; lia). lia.
Qed.

Lemma iter_shift1_lxor n a b :
  Nat.iter n shift1 (Z.lxor a b) = Z.lxor (Nat.iter n shift1 a) (Nat.iter n shift1 b).
Proof. induction n as [|n IH]; simpl; [done|]. by rewrite IH, shift1_lxor. Qed.

Lemma iter_shift1_u16 n c : is_u16 c -> is_u16 (Nat.iter n shift1 c).
Proof. destruct n; simpl; auto with width. Qed.

Lemma iter_shift1_kernel n c : is_u16 c -> Nat.iter n shift1 c = 0 -> c = 0.
Proof.
  induction n as [|n IH]; intros Hc; simpl; [done|].
  intros E. apply IH; [done|]. apply shift1_kernel; auto using iter_shift1_u16.
Qed.

(** ** Feeding up to 16 bits at once *)

Fixpoint msb_val (bs : list bool) : Z :=
  match bs with
  | [] => 0
  | b :: bs => Z.b2z b * 2 ^ Z.of_nat (length bs) + msb_val bs
  end.

Lemma msb_val_range bs : 0 <= msb_val bs < 2 ^ Z.of_nat (length bs).
Proof.
  induction bs as [|b bs IH]; [simpl; lia|]. cbn [msb_val length].
  rewrite Nat2Z.inj_succ, Z.pow_succ_r by lia. destruct b; simpl Z.b2z; lia.
Qed.

Lemma msb_val_zero bs : msb_val bs = 0 -> Forall (fun b => b = false) bs.
Proof.
  induction bs as [|b bs IH]; cbn [msb_val]; [constructor|]. intros H.
  pose proof (msb_val_range bs).
  assert (0 < 2 ^ Z.of_nat (length bs)) by (apply Z.pow_pos_nonneg; lia).
  destruct b; simpl Z.b2z in H; [lia|]. constructor; [done|]. apply IH; lia.
Qed.

(** The value of a bit string, left-aligned in the 16-bit register. *)
Definition aligned (bs : list bool) : Z := msb_val bs * 2 ^ (16 - Z.of_nat (length bs)).

Lemma aligned_range bs : (length bs <= 16)%nat -> is_u16 (aligned bs).
Proof.
  intros Hl. unfold aligned, is_u16. pose proof (msb_val_range bs) as [H0 H1].
  assert (0 < 2 ^ (16 - Z.of_nat (length bs))) by (apply Z.pow_pos_nonneg; lia).
  split; [nia|].
  replace (2 ^ 16) with (2 ^ Z.of_nat (length bs) * 2 ^ (16 - Z.of_nat (length bs))); [nia|].
  rewrite <- Z.pow_add_r by lia. f_equal; lia.
Qed.

Lemma aligned_cons b bs :
  (length bs < 16)%nat ->
  exists y, 0 <= y < 2 ^ 15 /\ aligned bs = 2 * y /\
            aligned (b :: bs) = Z.lxor (Z.shiftl (Z.b2z b) 15) y.
Proof.
  intros Hl. exists (msb_val bs * 2 ^ (15 - Z.of_nat (length bs))).
  pose proof (msb_val_range bs) as [H0 H1].
  assert (Hp : 0 < 2 ^ (15 - Z.of_nat (length bs))) by (apply Z.pow_pos_nonneg; lia).
  assert (Hr : 2 ^ 15 = 2 ^ Z.of_nat (length bs) * 2 ^ (15 - Z.of_nat (length bs)))
    by (rewrite <- Z.pow_add_r by lia; f_equal; lia).
  assert (Hy : 0 <= msb_val bs * 2 ^ (15 - Z.of_nat (length bs)) < 2 ^ 15) by nia.
  split; [done|]. split.
  - unfold aligned.
    replace (16 - Z.of_nat (length bs)) with (Z.succ (15 - Z.of_nat (length bs))) by lia.
    rewrite Z.pow_succ_r by lia. lia.
  - unfold aligned. cbn [msb_val length]. rewrite Nat2Z.inj_succ.
    replace (16 - Z.succ (Z.of_nat (length bs))) with (15 - Z.of_nat (length bs)) by lia.
    rewrite Z.mul_add_distr_r, <- Z.mul_assoc, <- Hr.
    set (y := msb_val bs * 2 ^ (15 - Z.of_nat (length bs))) in *.
    rewrite Z.shiftl_mul_pow2 by lia. rewrite <- Z.add_nocarry_lxor; [done|].
    destruct b; simpl Z.b2z; [|by rewrite Z.land_0_l].
    rewrite Z.mul_1_l, Z.land_comm. apply Z.bits_inj'; intros n Hn.
    rewrite Z.land_spec, Z.bits_0, Z.pow2_bits_eqb by lia.
    destruct (Z.eqb_spec 15 n) as [<-|]; [|by rewrite andb_false_r].
    rewrite andb_true_r, testbit15 by (widths; change (2 ^ 15) with 32768 in *; lia).
    apply Z.leb_gt; lia.
Qed.

Lemma crc_ref_aligned bs c :
  (length bs <= 16)%nat ->
  crc_ref c bs = Nat.iter (length bs) shift1 (Z.lxor c (aligned bs)).
Proof.
  revert c; induction bs as [|b bs IH]; intros c Hl.
  - unfold aligned; simpl. by rewrite Z.lxor_0_r.
  - simpl in Hl. destruct (aligned_cons b bs) as (y & Hy & Ey & ->); [lia|].
    change (crc_ref c (b :: bs)) with (crc_ref (feed_bit c b) bs).
    rewrite IH, Ey by lia. cbn [length].
    rewrite Nat.iter_succ_r. unfold feed_bit.
    by rewrite <- Z.lxor_assoc, (shift1_lxor (Z.lxor _ _)), (shift1_small y) by done.
Qed.

(** ** The table-driven step is eight steps of the shift register *)

Lemma table_is_shift hi :
  is_u8 hi -> nth (Z.to_nat hi) phy_crc_table 0 = Nat.iter 8 shift1 (Z.shiftl hi 8).
Proof.
  intros H. apply Z.eqb_eq.
  apply (byte_exhaustive (fun hi => nth (Z.to_nat hi) phy_crc_table 0 =?
                            Nat.iter 8 shift1 (Z.shiftl hi 8))); [|done].
  vm_compute; reflexivity.
Qed.

Lemma low_byte_shift lo : is_u8 lo -> Nat.iter 8 shift1 lo = Z.shiftl lo 8.
Proof.
  intros H. apply Z.eqb_eq.
  apply (byte_exhaustive (fun lo => Nat.iter 8 shift1 lo =? Z.shiftl lo 8)); [|done].
  vm_compute; reflexivity.
Qed.

Lemma aligned_byte b : is_u8 b -> aligned (bits_of_byte b) = Z.shiftl b 8.
Proof.
  intros H. apply Z.eqb_eq.
  apply (byte_exhaustive (fun b => aligned (bits_of_byte b) =? Z.shiftl b 8)); [|done].
  vm_compute; reflexivity.
Qed.

Lemma lxor_u8 a b : is_u8 a -> is_u8 b -> is_u8 (Z.lxor a b).
Proof.
  unfold is_u8. intros Ha Hb. change (2 ^ 8) with 256 in *. split.
  - apply Z.lxor_nonneg; split; intros; lia.
  - destruct (Z.eq_dec (Z.lxor a b) 0) as [->|Hn]; [lia|].
    change 256 with (2 ^ 8). apply Z.log2_lt_pow2.
    + assert (0 <= Z.lxor a b) by (apply Z.lxor_nonneg; split; intros; lia). lia.
    + pose proof (Z.log2_lxor a b).
      assert (Z.log2 a < 8) by (destruct (Z.eq_dec a 0) as [->|]; [done|apply Z.log2_lt_pow2; lia]).
      assert (Z.log2 b < 8) by (destruct (Z.eq_dec b 0) as [->|]; [done|apply Z.log2_lt_pow2; lia]).
      lia.
Qed.

(** The high byte, exclusive-ored with the data, and the low byte. *)
Lemma register_split c :
  is_u16 c -> is_u8 (Z.shiftr c 8) /\ is_u8 (Z.land c 255) /\
  c = Z.lxor (Z.shiftl (Z.shiftr c 8) 8) (Z.land c 255).
Proof.
  intros Hc. assert (El : Z.land c 255 = c mod 256)
    by (change 255 with (Z.ones 8); by rewrite Z.land_ones by lia).
  split; [|split].
  - rewrite Z.shiftr_div_pow2 by lia. widths. Z.div_mod_to_equations; lia.
  - rewrite El. apply Z.mod_pos_bound; lia.
  - apply Z.bits_inj'; intros n Hn.
    rewrite Z.lxor_spec, Z.land_spec, Z.shiftl_spec by lia.
    change 255 with (Z.ones 8).
    destruct (Z.ltb_spec n 8).
    + rewrite (Z.testbit_neg_r _ (n - 8)), Z.ones_spec_low by lia. by rewrite andb_true_r.
    + rewrite Z.ones_spec_high, Z.shiftr_spec, andb_false_r, xorb_false_r by lia.
      f_equal; lia.
Qed.

Lemma crc_step_u16 c b : is_u16 (crc_step c b).
Proof. apply u16_range. Qed.
#[export] Hint Resolve crc_step_u16 : width.

Lemma crc_step_ref c b :
  is_u16 c -> is_u8 b -> crc_step c b = crc_ref c (bits_of_byte b).
Proof.
  intros Hc Hb. rewrite crc_ref_aligned by (simpl; lia). rewrite aligned_byte by done.
  destruct (register_split c Hc) as (Hhi & Hlo & Ec).
  set (hi := Z.shiftr c 8) in *; set (lo := Z.land c 255) in *.
  assert (E1 : Z.lxor c (Z.shiftl b 8) = Z.lxor (Z.shiftl (Z.lxor hi b) 8) lo).
  { rewrite Ec, Z.shiftl_lxor, !Z.lxor_assoc. f_equal. apply Z.lxor_comm. }
  change (length (bits_of_byte b)) with 8%nat.
  rewrite E1, iter_shift1_lxor, (low_byte_shift lo) by done.
  unfold crc_step. fold hi.
  rewrite table_is_shift by (by apply lxor_u8).
  rewrite u16_lxor, (u16_id (Nat.iter _ _ _)).
  2: { rewrite <- table_is_shift by (by apply lxor_u8).
       rewrite table_is_shift by (by apply lxor_u8). simpl. auto with width. }
  rewrite Z.lxor_comm. f_equal.
  rewrite Ec, Z.shiftl_lxor, u16_lxor, Z.shiftl_shiftl by lia.
  assert (u16 (Z.shiftl hi (8 + 8)) = 0) as ->.
  { unfold u16. rewrite Z.shiftl_mul_pow2 by lia. apply Z_mod_mult. }
  rewrite Z.lxor_0_l. apply u16_id.
  rewrite Z.shiftl_mul_pow2 by lia. widths; lia.
Qed.

(** ** Consequences *)

Lemma update_crc_u16 c buf : is_u16 c -> is_u16 (update_crc c buf).
Proof.
  revert c; induction buf as [|b buf IH]; intros c Hc; [done|].
  change (update_crc c (b :: buf)) with (update_crc (crc_step c b) buf).
  apply IH; auto with width.
Qed.
#[export] Hint Resolve update_crc_u16 : width.

Lemma crc_ref_app c l1 l2 : crc_ref c (l1 ++ l2) = crc_ref (crc_ref c l1) l2.
Proof. apply fold_left_app. Qed.

Lemma update_crc_app c l1 l2 : update_crc c (l1 ++ l2) = update_crc (update_crc c l1) l2.
Proof. apply fold_left_app. Qed.

(** The optimised routine against the reference, on every buffer. *)
Lemma update_crc_ref_eq c buf :
  is_u16 c -> bytes buf -> update_crc c buf = crc_ref c (bits_of buf).
Proof.
  intros Hc Hb; revert c Hc; induction Hb as [|b buf Hb _ IH]; intros c Hc; [done|].
  change (update_crc c (b :: buf)) with (update_crc (crc_step c b) buf).
  change (bits_of (b :: buf)) with (bits_of_byte b ++ bits_of buf).
  rewrite crc_ref_app, <- crc_step_ref by done. apply IH; auto with width.
Qed.

(** Bit strings of equal length, position-wise exclusive or. *)
Definition xor_bits (l1 l2 : list bool) : list bool := zip_with xorb l1 l2.

Lemma crc_ref_linear l1 l2 c1 c2 :
  length l1 = length l2 ->
  crc_ref (Z.lxor c1 c2) (xor_bits l1 l2) = Z.lxor (crc_ref c1 l1) (crc_ref c2 l2).
Proof.
  revert l2 c1 c2; induction l1 as [|b1 l1 IH]; intros [|b2 l2] c1 c2 Hl; try done.
  simpl in Hl. unfold xor_bits; simpl zip_with; fold (xor_bits l1 l2).
  change (crc_ref (Z.lxor c1 c2) (xorb b1 b2 :: xor_bits l1 l2)) with
    (crc_ref (feed_bit (Z.lxor c1 c2) (xorb b1 b2)) (xor_bits l1 l2)).
  assert (E : feed_bit (Z.lxor c1 c2) (xorb b1 b2) = Z.lxor (feed_bit c1 b1) (feed_bit c2 b2)).
  { unfold feed_bit. rewrite <- shift1_lxor. f_equal.
    assert (Z.b2z (xorb b1 b2) = Z.lxor (Z.b2z b1) (Z.b2z b2)) as -> by (by destruct b1, b2).
    rewrite Z.shiftl_lxor, !Z.lxor_assoc. f_equal.
    by rewrite <- !Z.lxor_assoc, (Z.lxor_comm c2). }
  rewrite E, IH by lia. done.
Qed.

Lemma crc_ref_zeros n : crc_ref 0 (replicate n false) = 0.
Proof. induction n as [|n IH]; [done|]. exact IH. Qed.

Lemma crc_ref_zeros_kernel n c :
  is_u16 c -> crc_ref c (replicate n false) = 0 -> c = 0.
Proof.
  revert c; induction n as [|n IH]; intros c Hc; [done|].
  change (crc_ref c (replicate (S n) false)) with (crc_ref (feed_bit c false) (replicate n false)).
  assert (E : feed_bit c false = shift1 c) by (unfold feed_bit; simpl; by rewrite Z.lxor_0_r).
  rewrite E. intros H. apply shift1_kernel; [done|]. apply IH; auto with width.
Qed.

(** An error pattern whose set bits all lie in a window of 16 positions. *)
Definition burst16 (err : list bool) : Prop :=
  exists i burst j, err = replicate i false ++ burst ++ replicate j false /\
    (length burst <= 16)%nat /\ ~ Forall (fun b => b = false) burst.

Lemma burst16_crc err : burst16 err -> crc_ref 0 err <> 0.
Proof.
  intros (i & burst & j & -> & Hl & Hn) E. apply Hn, msb_val_zero.
  rewrite !crc_ref_app, crc_ref_zeros, (crc_ref_aligned burst), Z.lxor_0_l in E by done.
  apply crc_ref_zeros_kernel in E; [|by apply iter_shift1_u16, aligned_range].
  apply iter_shift1_kernel in E; [|by apply aligned_range].
  unfold aligned in E. apply Z.mul_eq_0_l in E; [done|]. apply Z.pow_nonzero; lia.
Qed.

Lemma bits_of_length buf : length (bits_of buf) = (8 * length buf)%nat.
Proof. induction buf as [|b buf IH]; [done|]. simpl. fold (bits_of buf). lia. Qed.

(** Two buffers of one length whose difference is such a burst have different CRCs. *)
Lemma update_crc_burst buf buf' :
  bytes buf -> bytes buf' -> length buf = length buf' ->
  burst16 (xor_bits (bits_of buf) (bits_of buf')) -> update_crc 0 buf <> update_crc 0 buf'.
Proof.
  intros Hb Hb' Hl Hburst E. apply burst16_crc in Hburst. apply Hburst.
  change 0 with (Z.lxor 0 0) at 1.
  rewrite crc_ref_linear by (rewrite !bits_of_length; lia).
  rewrite <- !update_crc_ref_eq by (done || by widths).
  rewrite E. apply Z.lxor_nilpotent.
Qed.
