(* ===== verification/Wire.v ===== *)
(** * MAC wire formats ([lib/tinymac.h], protocol definitions)

    The packed structures the MAC overlays on packet buffers, as records with
    their byte layouts, the packet-type and status enumerations, and the flag
    constants.  A structure is written by [<name>_bytes] and read back by
    [<name>_of]; the reader takes any buffer, exactly as the cast does. *)

From stdpp Require Import base list numbers.
From Stdlib Require Import ZArith Lia.
From S2P Require Import Prelude.

(** ** Constants *)

Definition TINYMAC_ADDR_BROADCAST : Z := 0xFF.
Definition TINYMAC_ADDR_UNASSIGNED : Z := 0xFF.
Definition TINYMAC_NETWORK_ANY : Z := 0xFF.
Definition TINYMAC_TICK_MS : Z := 250.

Definition TINYMAC_FLAGS_VERSION : Z := Z.shiftl 0 13.
Definition TINYMAC_FLAGS_DATA_PENDING : Z := Z.shiftl 1 7.
Definition TINYMAC_FLAGS_ACK_REQUEST : Z := Z.shiftl 1 6.
Definition TINYMAC_FLAGS_TYPE_MASK : Z := Z.shiftl 31 0.
Definition TINYMAC_FLAGS_VERSION_SHIFT : Z := 13.
Definition TINYMAC_FLAGS_VERSION_MASK : Z := Z.shiftl 7 13.
Definition TINYMAC_FLAGS_TYPE_SHIFT : Z := 0.

Definition TINYMAC_BEACON_FLAGS_PERMIT_ATTACH : Z := Z.shiftl 1 1.
Definition TINYMAC_BEACON_FLAGS_SYNC : Z := Z.shiftl 1 0.
Definition TINYMAC_BEACON_INTERVAL_NO_BEACON : Z := 0x0f.
Definition TINYMAC_BEACON_FLAGS_FSECONDS_SHIFT : Z := 6.
Definition TINYMAC_BEACON_FLAGS_FSECONDS_MASK : Z := Z.shiftl 3 6.
Definition TINYMAC_BEACON_INTERVAL_OFFSET_SHIFT : Z := 4.
Definition TINYMAC_BEACON_INTERVAL_OFFSET_MASK : Z := Z.shiftl 15 4.
Definition TINYMAC_BEACON_INTERVAL_INTERVAL_SHIFT : Z := 0.
Definition TINYMAC_BEACON_INTERVAL_INTERVAL_MASK : Z := Z.shiftl 15 0.

Definition TINYMAC_ATTACH_FLAGS_SLEEPY : Z := Z.shiftl 1 4.
Definition TINYMAC_ATTACH_HEARTBEAT_SHIFT : Z := 0.
Definition TINYMAC_ATTACH_HEARTBEAT_MASK : Z := Z.shiftl 15 0.

Definition TINYMAC_MAX_NODES : nat := 32.
Definition TINYMAC_MAX_PAYLOAD : Z := 128.
Definition TINYMAC_MAX_RETRIES : Z := 3.
Definition TINYMAC_ACK_TIMEOUT : Z := 250.
Definition TINYMAC_BEACON_REQUEST_TIMEOUT : Z := 10.
Definition TINYMAC_REGISTRATION_TIMEOUT : Z := 1000.
Definition TINYMAC_HEARTBEAT_GRACE : Z := 2.
Definition TINYMAC_LISTEN_PERIOD_US : Z := 10000.

(** The conversion macros; [int] has at least 32 bits on the modelled hosts,
    and no argument the code passes overflows the product. *)
Definition TINYMAC_MILLIS (ms : Z) : Z := ms / TINYMAC_TICK_MS.
Definition TINYMAC_SECONDS (s : Z) : Z := s * 1000 / TINYMAC_TICK_MS.

(** ** Enumerations *)

Inductive tinymac_dereg_reason_t : Set := tinymacDeregReason_User | tinymacDeregReason_PowerDown.

Definition dereg_reason_code (r : tinymac_dereg_reason_t) : Z :=
  match r with tinymacDeregReason_User => 0 | tinymacDeregReason_PowerDown => 1 end.

Inductive tinymac_packet_type_t : Set :=
| tinymacType_Beacon
| tinymacType_BeaconRequest
| tinymacType_Poll
| tinymacType_Ack
| tinymacType_RegistrationRequest
| tinymacType_DeregistrationRequest
| tinymacType_RegistrationResponse
| tinymacType_Reserved7
| tinymacType_Reserved8
| tinymacType_Reserved9
| tinymacType_Reserved10
| tinymacType_Reserved11
| tinymacType_Reserved12
| tinymacType_Reserved13
| tinymacType_Reserved14
| tinymacType_Reserved15
| tinymacType_RawData
| tinymacType_TAP
| tinymacType_MQTTSN
| tinymacType_6LoWPAN
| tinymacType_Reserved20
| tinymacType_Reserved21
| tinymacType_Reserved22
| tinymacType_Reserved23
| tinymacType_Reserved24
| tinymacType_Reserved25
| tinymacType_Reserved26
| tinymacType_Reserved27
| tinymacType_Reserved28
| tinymacType_Reserved29
| tinymacType_SysLog
| tinymacType_Extended.

(** The enumerators in declaration order: the position is the value. *)
Definition packet_types : list tinymac_packet_type_t :=
  [tinymacType_Beacon; tinymacType_BeaconRequest; tinymacType_Poll; tinymacType_Ack;
   tinymacType_RegistrationRequest; tinymacType_DeregistrationRequest;
   tinymacType_RegistrationResponse; tinymacType_Reserved7; tinymacType_Reserved8;
   tinymacType_Reserved9; tinymacType_Reserved10; tinymacType_Reserved11;
   tinymacType_Reserved12; tinymacType_Reserved13; tinymacType_Reserved14;
   tinymacType_Reserved15; tinymacType_RawData; tinymacType_TAP; tinymacType_MQTTSN;
   tinymacType_6LoWPAN; tinymacType_Reserved20; tinymacType_Reserved21;
   tinymacType_Reserved22; tinymacType_Reserved23; tinymacType_Reserved24;
   tinymacType_Reserved25; tinymacType_Reserved26; tinymacType_Reserved27;
   tinymacType_Reserved28; tinymacType_Reserved29; tinymacType_SysLog;
   tinymacType_Extended].

#[export] Instance packet_type_eq_dec : EqDecision tinymac_packet_type_t.
Proof. solve_decision. Defined.

Fixpoint index_of {A} `{EqDecision A} (x : A) (l : list A) : nat :=
  match l with
  | [] => O
  | y :: l => if decide (x = y) then O else S (index_of x l)
  end.

Definition type_code (t : tinymac_packet_type_t) : Z := Z.of_nat (index_of t packet_types).

(** The enumerator of a 5-bit type field. *)
Definition type_of (z : Z) : tinymac_packet_type_t :=
  nth (Z.to_nat z) packet_types tinymacType_Extended.

Inductive tinymac_registration_status_t : Set :=
| tinymacRegistrationStatus_Success
| tinymacRegistrationStatus_AccessDenied
| tinymacRegistrationStatus_NetworkFull
| tinymacRegistrationStatus_Shutdown
| tinymacRegistrationStatus_Admin
| tinymacRegistrationStatus_AddressInvalid.

Definition status_code (s : tinymac_registration_status_t) : Z :=
  match s with
  | tinymacRegistrationStatus_Success => 0
  | tinymacRegistrationStatus_AccessDenied => 1
  | tinymacRegistrationStatus_NetworkFull => 2
  | tinymacRegistrationStatus_Shutdown => 3
  | tinymacRegistrationStatus_Admin => 4
  | tinymacRegistrationStatus_AddressInvalid => 5
  end.

(** ** Packed structures *)

(** [n] bytes at offset [off], read as a little-endian integer. *)
Definition field (off n : nat) (buf : list Z) : Z := le_val (take n (drop off buf)).

Record tinymac_header_t := mk_header {
  h_flags : Z;      (* uint16_t *)
  h_net_id : Z;     (* uint8_t *)
  h_dest_addr : Z;
  h_src_addr : Z;
  h_seq : Z
}.

Definition sizeof_header : Z := 6.

Definition header_bytes (h : tinymac_header_t) : list Z :=
  le_bytes 2 (h_flags h) ++ le_bytes 1 (h_net_id h) ++ le_bytes 1 (h_dest_addr h) ++
  le_bytes 1 (h_src_addr h) ++ le_bytes 1 (h_seq h).

Definition header_of (buf : list Z) : tinymac_header_t :=
  mk_header (field 0 2 buf) (field 2 1 buf) (field 3 1 buf) (field 4 1 buf) (field 5 1 buf).

(** [hdr->payload] *)
Definition payload_of (buf : list Z) : list Z := drop 6 buf.

Record tinymac_beacon_t := mk_beacon {
  b_uuid : Z;             (* uint64_t *)
  b_timestamp : Z;        (* uint16_t *)
  b_flags : Z;            (* uint8_t *)
  b_beacon_interval : Z   (* uint8_t *)
}.

Definition sizeof_beacon : Z := 12.

Definition beacon_bytes (b : tinymac_beacon_t) : list Z :=
  le_bytes 8 (b_uuid b) ++ le_bytes 2 (b_timestamp b) ++ le_bytes 1 (b_flags b) ++
  le_bytes 1 (b_beacon_interval b).

Definition beacon_of (buf : list Z) : tinymac_beacon_t :=
  mk_beacon (field 0 8 buf) (field 8 2 buf) (field 10 1 buf) (field 11 1 buf).

Definition address_list_of (buf : list Z) : list Z := drop 12 buf.

Record tinymac_registration_request_t := mk_reg_request {
  rq_uuid : Z;   (* uint64_t *)
  rq_flags : Z   (* uint16_t *)
}.

Definition sizeof_reg_request : Z := 10.

Definition reg_request_bytes (r : tinymac_registration_request_t) : list Z :=
  le_bytes 8 (rq_uuid r) ++ le_bytes 2 (rq_flags r).

Definition reg_request_of (buf : list Z) : tinymac_registration_request_t :=
  mk_reg_request (field 0 8 buf) (field 8 2 buf).

Record tinymac_deregistration_request_t := mk_dereg_request {
  dr_uuid : Z;   (* uint64_t *)
  dr_reason : Z  (* uint8_t *)
}.

Definition sizeof_dereg_request : Z := 9.

Definition dereg_request_bytes (r : tinymac_deregistration_request_t) : list Z :=
  le_bytes 8 (dr_uuid r) ++ le_bytes 1 (dr_reason r).

Definition dereg_request_of (buf : list Z) : tinymac_deregistration_request_t :=
  mk_dereg_request (field 0 8 buf) (field 8 1 buf).

Record tinymac_registration_response_t := mk_reg_response {
  rs_uuid : Z;   (* uint64_t *)
  rs_addr : Z;   (* uint8_t *)
  rs_status : Z  (* uint8_t *)
}.

Definition sizeof_reg_response : Z := 10.

Definition reg_response_bytes (r : tinymac_registration_response_t) : list Z :=
  le_bytes 8 (rs_uuid r) ++ le_bytes 1 (rs_addr r) ++ le_bytes 1 (rs_status r).

Definition reg_response_of (buf : list Z) : tinymac_registration_response_t :=
  mk_reg_response (field 0 8 buf) (field 8 1 buf) (field 9 1 buf).

(** ** Well-formed values: every member within its C type *)

Definition header_ok (h : tinymac_header_t) : Prop :=
  is_u16 (h_flags h) /\ is_u8 (h_net_id h) /\ is_u8 (h_dest_addr h) /\
  is_u8 (h_src_addr h) /\ is_u8 (h_seq h).

Definition beacon_ok (b : tinymac_beacon_t) : Prop :=
  is_u64 (b_uuid b) /\ is_u16 (b_timestamp b) /\ is_u8 (b_flags b) /\
  is_u8 (b_beacon_interval b).

Definition reg_request_ok (r : tinymac_registration_request_t) : Prop :=
  is_u64 (rq_uuid r) /\ is_u16 (rq_flags r).

Definition dereg_request_ok (r : tinymac_deregistration_request_t) : Prop :=
  is_u64 (dr_uuid r) /\ is_u8 (dr_reason r).

Definition reg_response_ok (r : tinymac_registration_response_t) : Prop :=
  is_u64 (rs_uuid r) /\ is_u8 (rs_addr r) /\ is_u8 (rs_status r).

(** ** Lemmas on fields *)

Lemma field_le_bytes n z rest :
  0 <= z < 256 ^ Z.of_nat n -> field 0 n (le_bytes n z ++ rest) = z.
Proof.
  intros H. unfold field. rewrite drop_0, take_app_length' by (by rewrite le_bytes_length).
  by apply le_val_bytes_id.
Qed.

Lemma field_skip off k n z rest :
  (k <= off)%nat -> field off n (le_bytes k z ++ rest) = field (off - k) n rest.
Proof.
  intros H. unfold field. rewrite drop_app_ge by (rewrite le_bytes_length; lia).
  by rewrite le_bytes_length.
Qed.

Lemma field_range off n buf : bytes buf -> 0 <= field off n buf < 256 ^ Z.of_nat n.
Proof.
  intros Hb. unfold field.
  pose proof (le_val_range (take n (drop off buf))) as H.
  destruct H as [H0 H1]; [by apply Forall_take, Forall_drop|].
  split; [done|]. eapply Z.lt_le_trans; [exact H1|].
  apply Z.pow_le_mono_r; [lia|]. rewrite length_take. lia.
Qed.

Lemma field_u8 off buf : bytes buf -> is_u8 (field off 1 buf).
Proof. intros H. exact (field_range off 1 buf H). Qed.
Lemma field_u16 off buf : bytes buf -> is_u16 (field off 2 buf).
Proof. intros H. exact (field_range off 2 buf H). Qed.
Lemma field_u64 off buf : bytes buf -> is_u64 (field off 8 buf).
Proof. intros H. exact (field_range off 8 buf H). Qed.
#[export] Hint Resolve field_u8 field_u16 field_u64 : width.

(** Reads the fields of a layout written as a chain of [le_bytes]. *)
Ltac read_fields :=
  repeat (rewrite <- app_assoc);
  repeat (rewrite field_skip by lia; cbn [Nat.sub]);
  first [ rewrite field_le_bytes by (widths; lia); reflexivity
        | unfold field; rewrite drop_0, take_ge by (rewrite le_bytes_length; lia);
          apply le_val_bytes_id; widths; lia ].

Lemma app_bytes l1 l2 : bytes l1 -> bytes l2 -> bytes (l1 ++ l2).
Proof. intros; by apply Forall_app. Qed.
#[export] Hint Resolve app_bytes : width.

Lemma drop_bytes n l : bytes l -> bytes (drop n l).
Proof. apply Forall_drop. Qed.
Lemma take_bytes n l : bytes l -> bytes (take n l).
Proof. apply Forall_take. Qed.
#[export] Hint Resolve drop_bytes take_bytes : width.

Lemma header_bytes_length h : length (header_bytes h) = 6%nat.
Proof. done. Qed.

Lemma header_bytes_bytes h : bytes (header_bytes h).
Proof. unfold header_bytes; auto 10 with width. Qed.
#[export] Hint Resolve header_bytes_bytes : width.

Lemma header_roundtrip h rest :
  header_ok h -> header_of (header_bytes h ++ rest) = h.
Proof.
  destruct h as [f n d s q]. unfold header_ok, header_of, header_bytes.
  cbn [h_flags h_net_id h_dest_addr h_src_addr h_seq].
  intros (H1 & H2 & H3 & H4 & H5). f_equal; read_fields.
Qed.

Lemma payload_of_header h rest : payload_of (header_bytes h ++ rest) = rest.
Proof. done. Qed.

Lemma mk_header_ok f n d s q :
  is_u16 f -> is_u8 n -> is_u8 d -> is_u8 s -> is_u8 q -> header_ok (mk_header f n d s q).
Proof. intros; unfold header_ok; simpl; auto. Qed.
#[export] Hint Resolve mk_header_ok : width.

Lemma header_of_ok buf : bytes buf -> header_ok (header_of buf).
Proof. unfold header_ok, header_of; cbn; auto 10 with width. Qed.

Lemma beacon_roundtrip b rest :
  beacon_ok b -> beacon_of (beacon_bytes b ++ rest) = b /\
                 address_list_of (beacon_bytes b ++ rest) = rest.
Proof.
  destruct b as [u t f i]. unfold beacon_ok, beacon_of, beacon_bytes.
  cbn [b_uuid b_timestamp b_flags b_beacon_interval].
  intros (H1 & H2 & H3 & H4). split; [f_equal; read_fields | done].
Qed.

Lemma reg_request_roundtrip r rest :
  reg_request_ok r -> reg_request_of (reg_request_bytes r ++ rest) = r.
Proof.
  destruct r as [u f]. unfold reg_request_ok, reg_request_of, reg_request_bytes.
  cbn [rq_uuid rq_flags]. intros (H1 & H2). f_equal; read_fields.
Qed.

Lemma dereg_request_roundtrip r rest :
  dereg_request_ok r -> dereg_request_of (dereg_request_bytes r ++ rest) = r.
Proof.
  destruct r as [u f]. unfold dereg_request_ok, dereg_request_of, dereg_request_bytes.
  cbn [dr_uuid dr_reason]. intros (H1 & H2). f_equal; read_fields.
Qed.

Lemma reg_response_roundtrip r rest :
  reg_response_ok r -> reg_response_of (reg_response_bytes r ++ rest) = r.
Proof.
  destruct r as [u a s]. unfold reg_response_ok, reg_response_of, reg_response_bytes.
  cbn [rs_uuid rs_addr rs_status]. intros (H1 & H2 & H3). f_equal; read_fields.
Qed.

Lemma type_roundtrip t : type_of (type_code t) = t.
Proof. by destruct t. Qed.

Lemma type_code_range t : 0 <= type_code t < 32.
Proof. destruct t; vm_compute; split; congruence. Qed.
