(* ===== verification/MacState.v ===== *)
(** * The MAC context and its effects ([lib/tinymac.h], [lib/tinymac.c])

    The static [tinymac_ctx], the node and timer structures it contains, the
    calls the MAC makes outwards (PHY driver and application callbacks) as
    events of a log, and the state monad the handlers are written in.

    Pointers.  A [tinymac_node_t *] is [&tinymac_ctx->coord], an element of
    [tinymac_ctx->nodes], or the automatic variable [dummy] of
    [tinymac_recv_cb]; a [tinymac_timer_t *] is a member of one of those or
    [&tinymac_ctx->timer].  Both are symbolic references into the one world, so
    the aliasing of the code is kept. *)

From stdpp Require Import base list numbers.
From Stdlib Require Import ZArith Lia.
From S2P Require Import Prelude Wire.

(** ** Data *)

Inductive tinymac_node_state_t : Set :=
| tinymacNodeState_Unregistered
| tinymacNodeState_Registered
| tinymacNodeState_SendPending
| tinymacNodeState_WaitAck.

Inductive tinymac_client_state_t : Set :=
| tinymacClientState_Unregistered
| tinymacClientState_BeaconRequest
| tinymacClientState_Registering
| tinymacClientState_Registered.

#[export] Instance node_state_eq_dec : EqDecision tinymac_node_state_t.
Proof. solve_decision. Defined.
#[export] Instance client_state_eq_dec : EqDecision tinymac_client_state_t.
Proof. solve_decision. Defined.

Inductive node_ptr : Set :=
| PCoord             (* &tinymac_ctx->coord *)
| PNode (n : nat)    (* &tinymac_ctx->nodes[n] *)
| PLocal.            (* &dummy, in tinymac_recv_cb *)

#[export] Instance node_ptr_eq_dec : EqDecision node_ptr.
Proof. solve_decision. Defined.

(** The functions a timer can hold. *)
Inductive timer_fn : Set :=
| fn_request_timeout
| fn_validity_timeout
| fn_ack_timeout.

Record tinymac_timer_t := mk_timer {
  t_callback : option timer_fn;   (* None is NULL *)
  t_arg : option node_ptr;
  t_expiry : Z                    (* uint32_t *)
}.

Record tinymac_node_t := mk_node {
  n_uuid : Z;                         (* uint64_t *)
  n_last_heard : Z;                   (* uint32_t *)
  n_flags : Z;                        (* uint16_t *)
  n_addr : Z;                         (* uint8_t *)
  n_rssi : Z;                         (* int8_t *)
  n_state : tinymac_node_state_t;
  n_pending_header : tinymac_header_t;
  n_pending_size : Z;                 (* size_t *)
  n_pending : list Z;                 (* char[TINYMAC_MAX_PAYLOAD] *)
  n_send_cb : option Z;               (* a function pointer, None is NULL *)
  n_ack_timer : tinymac_timer_t;
  n_validity_timer : tinymac_timer_t;
  n_retries : Z                       (* uint8_t *)
}.

Record tinymac_params_t := mk_params {
  p_uuid : Z;              (* uint64_t *)
  p_coordinator : bool;
  p_flags : Z;             (* uint16_t *)
  p_beacon_interval : Z;   (* uint8_t *)
  p_beacon_offset : Z      (* uint8_t *)
}.

(** The context, as built with [WITH_TINYMAC_COORDINATOR]. *)
Record tinymac_t := mk_mac {
  m_params : tinymac_params_t;
  m_phy_mtu : Z;                      (* unsigned int *)
  m_rx_cb : bool;                     (* registered or NULL *)
  m_tick_count : Z;                   (* uint32_t *)
  m_net_id : Z;                       (* uint8_t *)
  m_addr : Z;                         (* uint8_t *)
  m_dseq : Z;                         (* uint8_t *)
  m_slot : Z;                         (* uint16_t *)
  m_state : tinymac_client_state_t;
  m_coord : tinymac_node_t;
  m_timer : tinymac_timer_t;
  m_bseq : Z;                         (* uint8_t *)
  m_nodes : list tinymac_node_t;      (* [TINYMAC_MAX_NODES] *)
  m_permit_attach : bool;
  m_reg_cb : bool;
  m_dereg_cb : bool
}.

(** Calls out of the MAC: into the PHY driver, and up to the application. *)
Inductive event :=
| EvPhySend (bufs : list (list Z)) (flags : Z)
| EvPhyStandby
| EvPhyDelayedStandby (us : Z)
| EvPhyListen
| EvPhyRegisterRecv
| EvSendCb (cb : Z) (result : Z)
| EvRecvCb (node : option node_ptr) (type : Z) (payload : list Z)
| EvRegCb (node : option node_ptr)
| EvDeregCb (node : node_ptr).

(** The world: the context, the automatic variable [dummy], and the events so
    far, the most recent first. *)
Record world := mk_world {
  ctx : tinymac_t;
  local : tinymac_node_t;
  log : list event
}.

(** ** Assignment to a member *)

Definition set_t_callback (v : option timer_fn) (r : tinymac_timer_t) : tinymac_timer_t :=
  mk_timer v (t_arg r) (t_expiry r).
Definition set_t_arg (v : option node_ptr) (r : tinymac_timer_t) : tinymac_timer_t :=
  mk_timer (t_callback r) v (t_expiry r).
Definition set_t_expiry (v : Z) (r : tinymac_timer_t) : tinymac_timer_t :=
  mk_timer (t_callback r) (t_arg r) v.

Definition set_n_uuid (v : Z) (r : tinymac_node_t) : tinymac_node_t :=
  mk_node v (n_last_heard r) (n_flags r) (n_addr r) (n_rssi r) (n_state r) (n_pending_header r)
    (n_pending_size r) (n_pending r) (n_send_cb r) (n_ack_timer r) (n_validity_timer r) (n_retries
    r).
Definition set_n_last_heard (v : Z) (r : tinymac_node_t) : tinymac_node_t :=
  mk_node (n_uuid r) v (n_flags r) (n_addr r) (n_rssi r) (n_state r) (n_pending_header r)
    (n_pending_size r) (n_pending r) (n_send_cb r) (n_ack_timer r) (n_validity_timer r) (n_retries
    r).
Definition set_n_flags (v : Z) (r : tinymac_node_t) : tinymac_node_t :=
  mk_node (n_uuid r) (n_last_heard r) v (n_addr r) (n_rssi r) (n_state r) (n_pending_header r)
    (n_pending_size r) (n_pending r) (n_send_cb r) (n_ack_timer r) (n_validity_timer r) (n_retries
    r).
Definition set_n_addr (v : Z) (r : tinymac_node_t) : tinymac_node_t :=
  mk_node (n_uuid r) (n_last_heard r) (n_flags r) v (n_rssi r) (n_state r) (n_pending_header r)
    (n_pending_size r) (n_pending r) (n_send_cb r) (n_ack_timer r) (n_validity_timer r) (n_retries
    r).
Definition set_n_rssi (v : Z) (r : tinymac_node_t) : tinymac_node_t :=
  mk_node (n_uuid r) (n_last_heard r) (n_flags r) (n_addr r) v (n_state r) (n_pending_header r)
    (n_pending_size r) (n_pending r) (n_send_cb r) (n_ack_timer r) (n_validity_timer r) (n_retries
    r).
Definition set_n_state (v : tinymac_node_state_t) (r : tinymac_node_t) : tinymac_node_t :=
  mk_node (n_uuid r) (n_last_heard r) (n_flags r) (n_addr r) (n_rssi r) v (n_pending_header r)
    (n_pending_size r) (n_pending r) (n_send_cb r) (n_ack_timer r) (n_validity_timer r) (n_retries
    r).
Definition set_n_pending_header (v : tinymac_header_t) (r : tinymac_node_t) : tinymac_node_t :=
  mk_node (n_uuid r) (n_last_heard r) (n_flags r) (n_addr r) (n_rssi r) (n_state r) v
    (n_pending_size r) (n_pending r) (n_send_cb r) (n_ack_timer r) (n_validity_timer r) (n_retries
    r).
Definition set_n_pending_size (v : Z) (r : tinymac_node_t) : tinymac_node_t :=
  mk_node (n_uuid r) (n_last_heard r) (n_flags r) (n_addr r) (n_rssi r) (n_state r)
    (n_pending_header r) v (n_pending r) (n_send_cb r) (n_ack_timer r) (n_validity_timer r)
    (n_retries r).
Definition set_n_pending (v : list Z) (r : tinymac_node_t) : tinymac_node_t :=
  mk_node (n_uuid r) (n_last_heard r) (n_flags r) (n_addr r) (n_rssi r) (n_state r)
    (n_pending_header r) (n_pending_size r) v (n_send_cb r) (n_ack_timer r) (n_validity_timer r)
    (n_retries r).
Definition set_n_send_cb (v : option Z) (r : tinymac_node_t) : tinymac_node_t :=
  mk_node (n_uuid r) (n_last_heard r) (n_flags r) (n_addr r) (n_rssi r) (n_state r)
    (n_pending_header r) (n_pending_size r) (n_pending r) v (n_ack_timer r) (n_validity_timer r)
    (n_retries r).
Definition set_n_ack_timer (v : tinymac_timer_t) (r : tinymac_node_t) : tinymac_node_t :=
  mk_node (n_uuid r) (n_last_heard r) (n_flags r) (n_addr r) (n_rssi r) (n_state r)
    (n_pending_header r) (n_pending_size r) (n_pending r) (n_send_cb r) v (n_validity_timer r)
    (n_retries r).
Definition set_n_validity_timer (v : tinymac_timer_t) (r : tinymac_node_t) : tinymac_node_t :=
  mk_node (n_uuid r) (n_last_heard r) (n_flags r) (n_addr r) (n_rssi r) (n_state r)
    (n_pending_header r) (n_pending_size r) (n_pending r) (n_send_cb r) (n_ack_timer r) v
    (n_retries r).
Definition set_n_retries (v : Z) (r : tinymac_node_t) : tinymac_node_t :=
  mk_node (n_uuid r) (n_last_heard r) (n_flags r) (n_addr r) (n_rssi r) (n_state r)
    (n_pending_header r) (n_pending_size r) (n_pending r) (n_send_cb r) (n_ack_timer r)
    (n_validity_timer r) v.

Definition set_m_params (v : tinymac_params_t) (r : tinymac_t) : tinymac_t :=
  mk_mac v (m_phy_mtu r) (m_rx_cb r) (m_tick_count r) (m_net_id r) (m_addr r) (m_dseq r) (m_slot
    r) (m_state r) (m_coord r) (m_timer r) (m_bseq r) (m_nodes r) (m_permit_attach r) (m_reg_cb r)
    (m_dereg_cb r).
Definition set_m_phy_mtu (v : Z) (r : tinymac_t) : tinymac_t :=
  mk_mac (m_params r) v (m_rx_cb r) (m_tick_count r) (m_net_id r) (m_addr r) (m_dseq r) (m_slot r)
    (m_state r) (m_coord r) (m_timer r) (m_bseq r) (m_nodes r) (m_permit_attach r) (m_reg_cb r)
    (m_dereg_cb r).
Definition set_m_rx_cb (v : bool) (r : tinymac_t) : tinymac_t :=
  mk_mac (m_params r) (m_phy_mtu r) v (m_tick_count r) (m_net_id r) (m_addr r) (m_dseq r) (m_slot
    r) (m_state r) (m_coord r) (m_timer r) (m_bseq r) (m_nodes r) (m_permit_attach r) (m_reg_cb r)
    (m_dereg_cb r).
Definition set_m_tick_count (v : Z) (r : tinymac_t) : tinymac_t :=
  mk_mac (m_params r) (m_phy_mtu r) (m_rx_cb r) v (m_net_id r) (m_addr r) (m_dseq r) (m_slot r)
    (m_state r) (m_coord r) (m_timer r) (m_bseq r) (m_nodes r) (m_permit_attach r) (m_reg_cb r)
    (m_dereg_cb r).
Definition set_m_net_id (v : Z) (r : tinymac_t) : tinymac_t :=
  mk_mac (m_params r) (m_phy_mtu r) (m_rx_cb r) (m_tick_count r) v (m_addr r) (m_dseq r) (m_slot
    r) (m_state r) (m_coord r) (m_timer r) (m_bseq r) (m_nodes r) (m_permit_attach r) (m_reg_cb r)
    (m_dereg_cb r).
Definition set_m_addr (v : Z) (r : tinymac_t) : tinymac_t :=
  mk_mac (m_params r) (m_phy_mtu r) (m_rx_cb r) (m_tick_count r) (m_net_id r) v (m_dseq r) (m_slot
    r) (m_state r) (m_coord r) (m_timer r) (m_bseq r) (m_nodes r) (m_permit_attach r) (m_reg_cb r)
    (m_dereg_cb r).
Definition set_m_dseq (v : Z) (r : tinymac_t) : tinymac_t :=
  mk_mac (m_params r) (m_phy_mtu r) (m_rx_cb r) (m_tick_count r) (m_net_id r) (m_addr r) v (m_slot
    r) (m_state r) (m_coord r) (m_timer r) (m_bseq r) (m_nodes r) (m_permit_attach r) (m_reg_cb r)
    (m_dereg_cb r).
Definition set_m_slot (v : Z) (r : tinymac_t) : tinymac_t :=
  mk_mac (m_params r) (m_phy_mtu r) (m_rx_cb r) (m_tick_count r) (m_net_id r) (m_addr r) (m_dseq
    r) v (m_state r) (m_coord r) (m_timer r) (m_bseq r) (m_nodes r) (m_permit_attach r) (m_reg_cb
    r) (m_dereg_cb r).
Definition set_m_state (v : tinymac_client_state_t) (r : tinymac_t) : tinymac_t :=
  mk_mac (m_params r) (m_phy_mtu r) (m_rx_cb r) (m_tick_count r) (m_net_id r) (m_addr r) (m_dseq
    r) (m_slot r) v (m_coord r) (m_timer r) (m_bseq r) (m_nodes r) (m_permit_attach r) (m_reg_cb
    r) (m_dereg_cb r).
Definition set_m_coord (v : tinymac_node_t) (r : tinymac_t) : tinymac_t :=
  mk_mac (m_params r) (m_phy_mtu r) (m_rx_cb r) (m_tick_count r) (m_net_id r) (m_addr r) (m_dseq
    r) (m_slot r) (m_state r) v (m_timer r) (m_bseq r) (m_nodes r) (m_permit_attach r) (m_reg_cb
    r) (m_dereg_cb r).
Definition set_m_timer (v : tinymac_timer_t) (r : tinymac_t) : tinymac_t :=
  mk_mac (m_params r) (m_phy_mtu r) (m_rx_cb r) (m_tick_count r) (m_net_id r) (m_addr r) (m_dseq
    r) (m_slot r) (m_state r) (m_coord r) v (m_bseq r) (m_nodes r) (m_permit_attach r) (m_reg_cb
    r) (m_dereg_cb r).
Definition set_m_bseq (v : Z) (r : tinymac_t) : tinymac_t :=
  mk_mac (m_params r) (m_phy_mtu r) (m_rx_cb r) (m_tick_count r) (m_net_id r) (m_addr r) (m_dseq
    r) (m_slot r) (m_state r) (m_coord r) (m_timer r) v (m_nodes r) (m_permit_attach r) (m_reg_cb
    r) (m_dereg_cb r).
Definition set_m_nodes (v : list tinymac_node_t) (r : tinymac_t) : tinymac_t :=
  mk_mac (m_params r) (m_phy_mtu r) (m_rx_cb r) (m_tick_count r) (m_net_id r) (m_addr r) (m_dseq
    r) (m_slot r) (m_state r) (m_coord r) (m_timer r) (m_bseq r) v (m_permit_attach r) (m_reg_cb
    r) (m_dereg_cb r).
Definition set_m_permit_attach (v : bool) (r : tinymac_t) : tinymac_t :=
  mk_mac (m_params r) (m_phy_mtu r) (m_rx_cb r) (m_tick_count r) (m_net_id r) (m_addr r) (m_dseq
    r) (m_slot r) (m_state r) (m_coord r) (m_timer r) (m_bseq r) (m_nodes r) v (m_reg_cb r)
    (m_dereg_cb r).
Definition set_m_reg_cb (v : bool) (r : tinymac_t) : tinymac_t :=
  mk_mac (m_params r) (m_phy_mtu r) (m_rx_cb r) (m_tick_count r) (m_net_id r) (m_addr r) (m_dseq
    r) (m_slot r) (m_state r) (m_coord r) (m_timer r) (m_bseq r) (m_nodes r) (m_permit_attach r) v
    (m_dereg_cb r).
Definition set_m_dereg_cb (v : bool) (r : tinymac_t) : tinymac_t :=
  mk_mac (m_params r) (m_phy_mtu r) (m_rx_cb r) (m_tick_count r) (m_net_id r) (m_addr r) (m_dseq
    r) (m_slot r) (m_state r) (m_coord r) (m_timer r) (m_bseq r) (m_nodes r) (m_permit_attach r)
    (m_reg_cb r) v.

Definition set_ctx (v : tinymac_t) (r : world) : world :=
  mk_world v (local r) (log r).
Definition set_local (v : tinymac_node_t) (r : world) : world :=
  mk_world (ctx r) v (log r).
Definition set_log (v : list event) (r : world) : world :=
  mk_world (ctx r) (local r) v.

(** Static storage before initialisation. *)
Definition timer_zero : tinymac_timer_t := mk_timer None None 0.
Definition header_zero : tinymac_header_t := mk_header 0 0 0 0 0.
Definition node_zero : tinymac_node_t :=
  mk_node 0 0 0 0 0 tinymacNodeState_Unregistered header_zero 0
    (replicate (Z.to_nat TINYMAC_MAX_PAYLOAD) 0) None timer_zero timer_zero 0.
Definition params_zero : tinymac_params_t := mk_params 0 false 0 0 0.
Definition mac_zero : tinymac_t :=
  mk_mac params_zero 0 false 0 0 0 0 0 tinymacClientState_Unregistered node_zero timer_zero 0
    (replicate TINYMAC_MAX_NODES node_zero) false false false.
Definition world_zero : world := mk_world mac_zero node_zero [].

(** ** The state monad *)

Definition M (A : Type) : Type := world -> A * world.

Definition ret {A} (a : A) : M A := fun w => (a, w).
Definition bind {A B} (m : M A) (k : A -> M B) : M B := fun w => let (a, w') := m w in k a w'.

Declare Scope mac_scope.
Delimit Scope mac_scope with mac.
Notation "x <- m ;; k" := (bind m (fun x => k))
  (at level 100, m at next level, right associativity) : mac_scope.
Notation "m ;; k" := (bind m (fun _ => k)) (at level 100, right associativity) : mac_scope.
#[global] Open Scope mac_scope.

Definition get_ctx : M tinymac_t := fun w => (ctx w, w).
Definition mod_ctx (f : tinymac_t -> tinymac_t) : M unit := fun w => (tt, set_ctx (f (ctx w)) w).
Definition emit (e : event) : M unit := fun w => (tt, set_log (e :: log w) w).
Definition get_log : M (list event) := fun w => (log w, w).
Definition when (b : bool) (m : M unit) : M unit := if b then m else ret tt.

Fixpoint for_each {A} (l : list A) (body : A -> M unit) : M unit :=
  match l with
  | [] => ret tt
  | x :: l => body x ;; for_each l body
  end.

(** Running a sequence is running its parts. *)
Lemma bind_run {A B} (m : M A) (k : A -> M B) w :
  bind m k w = k (fst (m w)) (snd (m w)).
Proof. unfold bind. by destruct (m w). Qed.

(** ** Dereferencing *)

Definition node_at (p : node_ptr) (w : world) : tinymac_node_t :=
  match p with
  | PCoord => m_coord (ctx w)
  | PNode n => nth n (m_nodes (ctx w)) node_zero
  | PLocal => local w
  end.

Definition upd_node (p : node_ptr) (f : tinymac_node_t -> tinymac_node_t) (w : world) : world :=
  match p with
  | PCoord => set_ctx (set_m_coord (f (m_coord (ctx w))) (ctx w)) w
  | PNode n => set_ctx (set_m_nodes (alter f n (m_nodes (ctx w))) (ctx w)) w
  | PLocal => set_local (f (local w)) w
  end.

Definition read_node (p : node_ptr) : M tinymac_node_t := fun w => (node_at p w, w).
Definition mod_node (p : node_ptr) (f : tinymac_node_t -> tinymac_node_t) : M unit :=
  fun w => (tt, upd_node p f w).

Inductive timer_ptr : Set :=
| TAck (p : node_ptr)        (* &node->ack_timer *)
| TValidity (p : node_ptr)   (* &node->validity_timer *)
| TRequest.                  (* &tinymac_ctx->timer *)

Definition read_timer (t : timer_ptr) : M tinymac_timer_t :=
  match t with
  | TAck p => n <- read_node p ;; ret (n_ack_timer n)
  | TValidity p => n <- read_node p ;; ret (n_validity_timer n)
  | TRequest => c <- get_ctx ;; ret (m_timer c)
  end.

Definition mod_timer (t : timer_ptr) (f : tinymac_timer_t -> tinymac_timer_t) : M unit :=
  match t with
  | TAck p => mod_node p (fun n => set_n_ack_timer (f (n_ack_timer n)) n)
  | TValidity p => mod_node p (fun n => set_n_validity_timer (f (n_validity_timer n)) n)
  | TRequest => mod_ctx (fun c => set_m_timer (f (m_timer c)) c)
  end.

(** ** The environment

    [phy_send_rc] is the return code of the PHY driver's [phy_send] given the
    history whose head is that call, [phy_mtu] what [phy_get_mtu] returns, and
    [app] what the application does inside the callback that heads the history:
    a program of calls to the MAC's public interface that branches on their
    results.  The functions the application may call from a callback invoke no
    callback themselves, so the program is finite. *)

Inductive app_prog : Type :=
| AppReturn
| AppSend (dest type : Z) (buf : list Z) (validity : Z) (cb : option Z) (k : Z -> app_prog)
| AppPermitAttach (permit : bool) (k : app_prog).

Class Env := {
  phy_mtu : Z;
  phy_send_rc : list event -> Z;
  app : list event -> app_prog
}.
