(* ===== verification/Mac.v ===== *)
(** * The MAC ([lib/tinymac.c])

    One definition per function of the file, in the file's order except that
    [tinymac_send] and the application's callback program come before the
    handlers that call back.  [tinymac_dump_nodes] and the trace macros, which
    only print, are in [MacDump.v]. *)

From stdpp Require Import base list numbers.
From Stdlib Require Import ZArith Lia.
From S2P Require Import Prelude Wire MacState.

Section Mac.
Context `{E : Env}.

(** ** Callback timer functions *)

Definition tinymac_set_timer (timer : timer_ptr) (cb : timer_fn) (arg : option node_ptr)
    (delay : Z) : M unit :=
  c <- get_ctx ;;
  mod_timer timer (fun _ => mk_timer (Some cb) arg (u32 (m_tick_count c + delay))).

Definition tinymac_cancel_timer (timer : timer_ptr) : M unit :=
  mod_timer timer (set_t_callback None).

(** ** Node registry *)

Fixpoint find_index (f : tinymac_node_t -> bool) (n : nat) (l : list tinymac_node_t) : option nat :=
  match l with
  | [] => None
  | node :: l => if f node then Some n else find_index f (S n) l
  end.

Definition tinymac_get_node_by_addr (c : tinymac_t) (addr : Z) : option node_ptr :=
  if p_coordinator (m_params c) then
    PNode <$> find_index (fun node => (n_addr node =? addr) &&
                 negb (bool_decide (n_state node = tinymacNodeState_Unregistered))) 0 (m_nodes c)
  else
    (* Clients can only communicate with the coordinator/hub *)
    if negb (bool_decide (n_state (m_coord c) = tinymacNodeState_Unregistered)) &&
       (n_addr (m_coord c) =? addr)
    then Some PCoord else None.

Definition tinymac_get_node_by_uuid (c : tinymac_t) (uuid : Z) : option node_ptr :=
  PNode <$> find_index (fun node => n_uuid node =? uuid) 0 (m_nodes c).

(** The loop of [tinymac_get_free_node], its [fallback] variable as an argument. *)
Fixpoint free_loop (n : nat) (l : list tinymac_node_t) (fallback : option nat) : option nat :=
  match l with
  | [] => fallback
  | node :: l =>
      if n_uuid node =? 0 then Some n   (* Prefer a previously unallocated slot *)
      else
        free_loop (S n) l
          (match fallback with
           | None => if bool_decide (n_state node = tinymacNodeState_Unregistered)
                     then Some n else None
           | Some _ => fallback
           end)
  end.

Definition tinymac_get_free_node (c : tinymac_t) : option node_ptr :=
  PNode <$> free_loop 0 (m_nodes c) None.

(** ** Transmit functions *)

Definition phy_send (bufs : list (list Z)) (flags : Z) : M Z :=
  emit (EvPhySend bufs flags) ;;
  l <- get_log ;;
  ret (phy_send_rc l).

Definition sleepy (flags : Z) : bool := flags &? TINYMAC_ATTACH_FLAGS_SLEEPY.

Definition tinymac_phy_send (bufs : list (list Z)) (flags : Z) : M Z :=
  rc <- phy_send bufs flags ;;
  c <- get_ctx ;;
  when (sleepy (p_flags (m_params c)))
    (if rc <? 0
     then emit EvPhyStandby                                   (* Error - standby immediately *)
     else emit (EvPhyDelayedStandby TINYMAC_LISTEN_PERIOD_US)) ;;
  ret rc.

(** [memcpy(dst, src, size)] into the start of an array. *)
Definition memcpy (dst src : list Z) : list Z := src ++ drop (length src) dst.

(** The buffer list sent for a packet held in a node. *)
Definition pending_bufs (hdr : tinymac_header_t) (node : tinymac_node_t) : list (list Z) :=
  [header_bytes hdr; take (Z.to_nat (n_pending_size node)) (n_pending node)].

Definition tinymac_tx_packet (dest : option node_ptr) (flags_type : Z) (buf : list Z)
    (validity : Z) (cb : option Z) : M Z :=
  let size := Z.of_nat (length buf) in
  c <- get_ctx ;;
  (* Check size against PHY MTU *)
  if (TINYMAC_MAX_PAYLOAD <? size) || (m_phy_mtu c <? size + sizeof_header) then ret (-1) else
  (* Build header *)
  mod_ctx (fun c => set_m_dseq (u8 (m_dseq c + 1)) c) ;;
  let header dest_addr :=
    mk_header (Z.lor TINYMAC_FLAGS_VERSION flags_type) (m_net_id c) dest_addr (m_addr c)
      (u8 (m_dseq c + 1)) in
  match dest with
  | None => tinymac_phy_send [header_bytes (header TINYMAC_ADDR_BROADCAST); buf] 0
  | Some p =>
      node <- read_node p ;;
      let hdr := header (n_addr node) in
      (* Only one message may be in flight at a time to a given node *)
      if negb (bool_decide (n_state node = tinymacNodeState_Registered)) then ret (-1) else
      when ((flags_type &? TINYMAC_FLAGS_ACK_REQUEST) || sleepy (n_flags node))
        (* Copy packet for (re-)transmission *)
        (mod_node p (fun n =>
           set_n_retries TINYMAC_MAX_RETRIES
             (set_n_send_cb cb
                (set_n_pending_size size
                   (set_n_pending_header hdr
                      (set_n_pending (memcpy (n_pending n) buf) n)))))) ;;
      if sleepy (n_flags node) then
        (* Start validity period timer and defer the transmission *)
        tinymac_set_timer (TValidity p) fn_validity_timeout (Some p) (TINYMAC_SECONDS validity) ;;
        mod_node p (set_n_state tinymacNodeState_SendPending) ;;
        ret 0
      else
        when (flags_type &? TINYMAC_FLAGS_ACK_REQUEST)
          (tinymac_set_timer (TAck p) fn_ack_timeout (Some p) (TINYMAC_MILLIS TINYMAC_ACK_TIMEOUT) ;;
           mod_node p (set_n_state tinymacNodeState_WaitAck)) ;;
        (* Send now *)
        tinymac_phy_send [header_bytes hdr; buf] 0
  end.

(** ** Public send, and the application inside a callback *)

Definition tinymac_send (dest type : Z) (buf : list Z) (validity : Z) (cb : option Z) : M Z :=
  if Z.land type TINYMAC_FLAGS_TYPE_MASK <? type_code tinymacType_RawData then ret (-1) else
  c <- get_ctx ;;
  match tinymac_get_node_by_addr c dest with
  | None => ret (-1)
  | Some p =>
      node <- read_node p ;;
      let validity :=
        if validity =? 0
        then u16 (Z.shiftl 1 (Z.land (n_flags node) TINYMAC_ATTACH_HEARTBEAT_MASK))
        else validity in
      tinymac_tx_packet (Some p) type buf validity cb
  end.

Definition tinymac_permit_attach (permit : bool) : M unit := mod_ctx (set_m_permit_attach permit).

(** The arguments are converted to the parameter types by the call. *)
Fixpoint run_app (prog : app_prog) : M unit :=
  match prog with
  | AppReturn => ret tt
  | AppSend dest type buf validity cb k =>
      rc <- tinymac_send (u8 dest) (u8 type) (map u8 buf) (u16 validity) cb ;;
      run_app (k rc)
  | AppPermitAttach permit k => tinymac_permit_attach permit ;; run_app k
  end.

(** An application callback: the call is logged, then the application runs. *)
Definition upcall (e : event) : M unit :=
  emit e ;;
  l <- get_log ;;
  run_app (app l).

Definition call_send_cb (p : node_ptr) (result : Z) : M unit :=
  node <- read_node p ;;
  match n_send_cb node with
  | Some cb => upcall (EvSendCb cb result)
  | None => ret tt
  end.

(** The three assignments that unregister a client. *)
Definition client_detach (c : tinymac_t) : tinymac_t :=
  set_m_net_id TINYMAC_NETWORK_ANY
    (set_m_addr TINYMAC_ADDR_UNASSIGNED
       (set_m_state tinymacClientState_Unregistered c)).

Definition tinymac_deregister_node (p : node_ptr) : M unit :=
  mod_node p (set_n_state tinymacNodeState_Unregistered) ;;
  (* This node was our coordinator, so we are now unregistered *)
  when (bool_decide (p = PCoord)) (mod_ctx client_detach) ;;
  c <- get_ctx ;;
  when (m_dereg_cb c) (upcall (EvDeregCb p)).

(** ** Timeout handler callbacks *)

Definition tinymac_request_timeout : M unit :=
  c <- get_ctx ;;
  when (bool_decide (m_state c = tinymacClientState_BeaconRequest) ||
        bool_decide (m_state c = tinymacClientState_Registering))
    (tinymac_deregister_node PCoord).

Definition tinymac_validity_timeout (p : node_ptr) : M unit :=
  (* Clear pending packet *)
  mod_node p (set_n_state tinymacNodeState_Registered) ;;
  tinymac_cancel_timer (TAck p) ;;
  call_send_cb p (-1).

Definition tinymac_ack_timeout (p : node_ptr) : M unit :=
  node <- read_node p ;;
  mod_node p (set_n_retries (u8 (n_retries node - 1))) ;;
  if negb (n_retries node =? 0) then
    if sleepy (n_flags node) then
      (* Defer re-send to sleepy node *)
      mod_node p (set_n_state tinymacNodeState_SendPending)
    else
      (* Re-send immediately and schedule another timeout *)
      tinymac_set_timer (TAck p) fn_ack_timeout (Some p) (TINYMAC_MILLIS TINYMAC_ACK_TIMEOUT) ;;
      tinymac_phy_send (pending_bufs (n_pending_header node) node) 0 ;;
      ret tt
  else
    tinymac_cancel_timer (TValidity p) ;;
    call_send_cb p (-1) ;;
    (* Give up - other end is unreachable *)
    tinymac_deregister_node p.

(** An indirect call through [timer->callback].  The two node callbacks
    dereference their argument; no reachable timer holds NULL there. *)
Definition run_timer_fn (fn : timer_fn) (arg : option node_ptr) : M unit :=
  match fn, arg with
  | fn_request_timeout, _ => tinymac_request_timeout
  | fn_validity_timeout, Some p => tinymac_validity_timeout p
  | fn_ack_timeout, Some p => tinymac_ack_timeout p
  | _, None => ret tt
  end.

Definition tinymac_despatch_timer (timer : timer_ptr) : M unit :=
  t <- read_timer timer ;;
  c <- get_ctx ;;
  match t_callback t with
  | Some callback =>
      if 0 <=? i32 (m_tick_count c - t_expiry t) then
        (* Callback may set a new timer, so we need to clear the current one first *)
        mod_timer timer (set_t_callback None) ;;
        run_timer_fn callback (t_arg t)
      else ret tt
  | None => ret tt
  end.

(** ** Transmission of deferred packets, acknowledgements and beacons *)

Definition tinymac_tx_pending (p : node_ptr) : M Z :=
  node <- read_node p ;;
  when (bool_decide (n_state node = tinymacNodeState_SendPending))
    (mod_node p (set_n_state tinymacNodeState_Registered) ;;
     let hdr := n_pending_header node in
     when (h_flags hdr &? TINYMAC_FLAGS_ACK_REQUEST)
       (mod_node p (set_n_state tinymacNodeState_WaitAck) ;;
        tinymac_set_timer (TAck p) fn_ack_timeout (Some p) (TINYMAC_MILLIS TINYMAC_ACK_TIMEOUT)) ;;
     tinymac_phy_send (pending_bufs hdr node) 0 ;;
     when (negb (h_flags hdr &? TINYMAC_FLAGS_ACK_REQUEST))
       (* No ack required so we assume success *)
       (tinymac_cancel_timer (TValidity p) ;;
        call_send_cb p 0)) ;;
  ret 0.

Definition tinymac_tx_ack (p : node_ptr) (seq : Z) : M Z :=
  c <- get_ctx ;;
  node <- read_node p ;;
  let flags := Z.lor TINYMAC_FLAGS_VERSION (type_code tinymacType_Ack) in
  let flags := if bool_decide (n_state node = tinymacNodeState_SendPending)
               then Z.lor flags TINYMAC_FLAGS_DATA_PENDING else flags in
  let hdr := mk_header flags (m_net_id c) (n_addr node) (m_addr c) seq in
  rc <- tinymac_phy_send [header_bytes hdr] 0 ;;
  if rc <? 0 then ret rc   (* Send failed *)
  else tinymac_tx_pending p.

Definition PHY_FLAG_IMMEDIATE : Z := Z.shiftl 1 0.

(** The nodes with data pending, in slot order. *)
Definition pending_addresses (c : tinymac_t) : list Z :=
  map n_addr (filter (fun node => n_state node = tinymacNodeState_SendPending) (m_nodes c)).

Definition tinymac_tx_beacon (periodic : bool) : M Z :=
  c <- get_ctx ;;
  if negb (p_coordinator (m_params c)) then ret 0 else
  let addrlist := if periodic then pending_addresses c else [] in
  let beacon := mk_beacon (p_uuid (m_params c)) (m_slot c)
    (Z.lor (if periodic then TINYMAC_BEACON_FLAGS_SYNC else 0)
       (if m_permit_attach c then TINYMAC_BEACON_FLAGS_PERMIT_ATTACH else 0))
    TINYMAC_BEACON_INTERVAL_NO_BEACON in
  mod_ctx (fun c => set_m_bseq (u8 (m_bseq c + 1)) c) ;;
  let hdr := mk_header (Z.lor TINYMAC_FLAGS_VERSION (type_code tinymacType_Beacon)) (m_net_id c)
               TINYMAC_ADDR_BROADCAST (m_addr c) (u8 (m_bseq c + 1)) in
  tinymac_phy_send [header_bytes hdr; beacon_bytes beacon; addrlist]
    (if periodic then PHY_FLAG_IMMEDIATE else 0).

(** ** Receive handlers *)

(** The attachment branch of [tinymac_rx_beacon]. *)
Definition rx_beacon_attach (hdr : tinymac_header_t) (beacon : tinymac_beacon_t) : M unit :=
  c <- get_ctx ;;
  (* Temporarily bind with this network and send an attachment request *)
  mod_ctx (fun c => set_m_net_id (h_net_id hdr) (set_m_state tinymacClientState_Registering c)) ;;
  let attach := mk_reg_request (p_uuid (m_params c)) (p_flags (m_params c)) in
  (* "register" this node as our coordinator *)
  mod_node PCoord (fun n =>
    set_n_last_heard (m_tick_count c)
      (set_n_flags 0
         (set_n_uuid (b_uuid beacon)
            (set_n_addr (h_src_addr hdr)
               (set_n_state tinymacNodeState_Registered n))))) ;;
  tinymac_tx_packet (Some PCoord) (type_code tinymacType_RegistrationRequest)
    (reg_request_bytes attach) 0 None ;;
  (* Start callback timer *)
  tinymac_set_timer TRequest fn_request_timeout None
    (TINYMAC_MILLIS TINYMAC_REGISTRATION_TIMEOUT).

Definition tinymac_rx_beacon (hdr : tinymac_header_t) (payload : list Z) : M unit :=
  c <- get_ctx ;;
  if p_coordinator (m_params c) then ret tt else
  let beacon := beacon_of payload in
  (* Cancel beacon request timer *)
  when (bool_decide (m_state c = tinymacClientState_BeaconRequest))
    (tinymac_cancel_timer TRequest) ;;
  match m_state c with
  | tinymacClientState_Unregistered | tinymacClientState_BeaconRequest =>
      when (b_flags beacon &? TINYMAC_BEACON_FLAGS_PERMIT_ATTACH) (rx_beacon_attach hdr beacon)
  | tinymacClientState_Registered =>
      (* Check if we are in the address list *)
      when (existsb (fun a => a =? m_addr c) (address_list_of payload))
        (tinymac_tx_packet (Some PCoord) (type_code tinymacType_Poll) [] 0 None ;; ret tt)
  | tinymacClientState_Registering => ret tt
  end.

Definition tinymac_rx_registration_response (hdr : tinymac_header_t) (payload : list Z) : M unit :=
  c <- get_ctx ;;
  if p_coordinator (m_params c) then ret tt else
  let addr := reg_response_of payload in
  (* UUID must match our own *)
  if negb (rs_uuid addr =? p_uuid (m_params c)) then
    if h_dest_addr hdr =? TINYMAC_ADDR_BROADCAST then ret tt
    else mod_ctx client_detach   (* address clash or we are being deregistered *)
  else
  (* Cancel registration timer *)
  when (bool_decide (m_state c = tinymacClientState_Registering)) (tinymac_cancel_timer TRequest) ;;
  (* Update registration *)
  if (rs_addr addr =? TINYMAC_ADDR_UNASSIGNED) ||
     negb (rs_status addr =? status_code tinymacRegistrationStatus_Success)
  then mod_ctx client_detach
  else
    when (bool_decide (m_state c = tinymacClientState_Registering))
      (* Attachment - only if we are expecting it *)
      (mod_ctx (fun c => set_m_net_id (h_net_id hdr)
                           (set_m_addr (rs_addr addr)
                              (set_m_state tinymacClientState_Registered c)))).

Definition tinymac_rx_registration_request (hdr : tinymac_header_t) (payload : list Z) : M unit :=
  c <- get_ctx ;;
  if negb (p_coordinator (m_params c)) then ret tt else
  let attach := reg_request_of payload in
  (* Search for existing registration, else try to allocate a new slot *)
  let node := match tinymac_get_node_by_uuid c (rq_uuid attach) with
              | Some p => Some p
              | None => tinymac_get_free_node c
              end in
  resp <- (match node with
           | Some p =>
               mod_node p (fun n =>
                 set_n_last_heard (m_tick_count c)
                   (set_n_flags (rq_flags attach)
                      (set_n_uuid (rq_uuid attach)
                         (set_n_state tinymacNodeState_Registered n)))) ;;
               n <- read_node p ;;
               ret (mk_reg_response (rq_uuid attach) (n_addr n)
                      (status_code tinymacRegistrationStatus_Success))
           | None =>
               ret (mk_reg_response (rq_uuid attach) TINYMAC_ADDR_UNASSIGNED
                      (status_code tinymacRegistrationStatus_NetworkFull))
           end) ;;
  (* Send response *)
  tinymac_tx_packet None (type_code tinymacType_RegistrationResponse)
    (reg_response_bytes resp) 0 None ;;
  (* Invoke callback *)
  c <- get_ctx ;;
  when (m_reg_cb c) (upcall (EvRegCb node)).

Definition tinymac_rx_deregistration_request (hdr : tinymac_header_t) (payload : list Z) : M unit :=
  c <- get_ctx ;;
  if negb (p_coordinator (m_params c)) then ret tt else
  let detach := dereg_request_of payload in
  match tinymac_get_node_by_addr c (h_src_addr hdr) with
  | None => ret tt
  | Some p =>
      node <- read_node p ;;
      if negb (n_uuid node =? dr_uuid detach) then ret tt else
      (* Send response *)
      let resp := mk_reg_response (dr_uuid detach) TINYMAC_ADDR_UNASSIGNED
                    (status_code tinymacRegistrationStatus_Success) in
      tinymac_tx_packet (Some p) (type_code tinymacType_RegistrationResponse)
        (reg_response_bytes resp) 0 None ;;
      (* Free the slot *)
      tinymac_deregister_node p
  end.

(** The destination filter: our own network and short address or broadcast,
    wildcard network and broadcast, or any broadcast while we have no network. *)
Definition dest_accepted (c : tinymac_t) (hdr : tinymac_header_t) : bool :=
  ((h_net_id hdr =? m_net_id c) &&
     ((h_dest_addr hdr =? m_addr c) || (h_dest_addr hdr =? TINYMAC_ADDR_BROADCAST))) ||
  ((h_net_id hdr =? TINYMAC_NETWORK_ANY) && (h_dest_addr hdr =? TINYMAC_ADDR_BROADCAST)) ||
  ((m_net_id c =? TINYMAC_NETWORK_ANY) && (h_dest_addr hdr =? TINYMAC_ADDR_BROADCAST)).

(** All-networks broadcasts and unassigned sources, outside permit-attach. *)
Definition anonymous_refused (c : tinymac_t) (hdr : tinymac_header_t) : bool :=
  ((h_net_id hdr =? TINYMAC_NETWORK_ANY) || (h_src_addr hdr =? TINYMAC_ADDR_UNASSIGNED)) &&
  (negb (p_coordinator (m_params c)) || negb (m_permit_attach c)).

(** The acknowledgement branch of the switch. *)
Definition rx_ack (hdr : tinymac_header_t) (node : option node_ptr) : M unit :=
  match node with
  | None => ret tt
  | Some p =>
      n <- read_node p ;;
      when (bool_decide (n_state n = tinymacNodeState_WaitAck) &&
            (h_seq hdr =? h_seq (n_pending_header n)))
        (* Ack ok, cancel timers *)
        (mod_node p (set_n_state tinymacNodeState_Registered) ;;
         tinymac_cancel_timer (TAck p) ;;
         tinymac_cancel_timer (TValidity p) ;;
         call_send_cb p 0)
  end.

(** Delivery by type: the upper layer, or the switch on MAC control packets. *)
Definition rx_despatch (hdr : tinymac_header_t) (node : option node_ptr) (buf : list Z) : M unit :=
  let size := Z.of_nat (length buf) in
  let type := Z.land (h_flags hdr) TINYMAC_FLAGS_TYPE_MASK in
  let payload := payload_of buf in
  if type_code tinymacType_RawData <=? type then
    (* Forward non-MAC packets to the upper layer *)
    c <- get_ctx ;;
    when (m_rx_cb c)
      (upcall (EvRecvCb node (Z.land type TINYMAC_FLAGS_TYPE_MASK) payload))
  else
    match type_of type with
    | tinymacType_Beacon =>
        if size <? sizeof_header + sizeof_beacon then ret tt
        else tinymac_rx_beacon hdr payload
    | tinymacType_Ack => rx_ack hdr node
    | tinymacType_Poll => ret tt
    | tinymacType_BeaconRequest => tinymac_tx_beacon false ;; ret tt
    | tinymacType_RegistrationRequest =>
        if size <? sizeof_header + sizeof_reg_request then ret tt
        else tinymac_rx_registration_request hdr payload
    | tinymacType_DeregistrationRequest =>
        if size <? sizeof_header + sizeof_dereg_request then ret tt
        else tinymac_rx_deregistration_request hdr payload
    | tinymacType_RegistrationResponse =>
        if size <? sizeof_header + sizeof_reg_response then ret tt
        else tinymac_rx_registration_response hdr payload
    | _ => ret tt
    end.

(** The known-source branch: refresh, acknowledge, send what is pending. *)
Definition rx_known_source (hdr : tinymac_header_t) (p : node_ptr) (rssi : Z) : M unit :=
  c <- get_ctx ;;
  mod_node p (fun n => set_n_rssi (i8 rssi) (set_n_last_heard (m_tick_count c) n)) ;;
  when (h_flags hdr &? TINYMAC_FLAGS_ACK_REQUEST)
    (tinymac_tx_ack p (h_seq hdr) ;; ret tt) ;;
  tinymac_tx_pending p ;;
  ret tt.

(** The unknown-source branch: a coordinator answers with a response that makes
    whoever uses the address register again, through a fake node. *)
Definition rx_unknown_source (hdr : tinymac_header_t) : M unit :=
  c <- get_ctx ;;
  when (p_coordinator (m_params c))
    (mod_node PLocal (fun _ => set_n_state tinymacNodeState_Registered
                                 (set_n_addr (h_src_addr hdr) node_zero)) ;;
     let resp := mk_reg_response 0 TINYMAC_ADDR_UNASSIGNED
                   (status_code tinymacRegistrationStatus_AddressInvalid) in
     tinymac_tx_packet (Some PLocal) (type_code tinymacType_RegistrationResponse)
       (reg_response_bytes resp) 0 None ;;
     ret tt).

Definition tinymac_recv_cb (buf : list Z) (rssi : Z) : M unit :=
  let hdr := header_of buf in
  if Z.of_nat (length buf) <? sizeof_header then ret tt else
  c <- get_ctx ;;
  (* Quietly ignore loopbacks *)
  if h_src_addr hdr =? m_addr c then ret tt else
  if negb (dest_accepted c hdr) then ret tt else
  if anonymous_refused c hdr then ret tt else
  (* Sleepy nodes - Turn the receiver off unless data pending *)
  when (sleepy (p_flags (m_params c)))
    (if h_flags hdr &? TINYMAC_FLAGS_DATA_PENDING
     then emit (EvPhyDelayedStandby TINYMAC_LISTEN_PERIOD_US)
     else emit EvPhyStandby) ;;
  (* Source address, if assigned, must be known and live *)
  if negb (m_addr c =? TINYMAC_ADDR_UNASSIGNED) &&
     negb (h_src_addr hdr =? TINYMAC_ADDR_UNASSIGNED)
  then
    match tinymac_get_node_by_addr c (h_src_addr hdr) with
    | Some p => rx_known_source hdr p rssi ;; rx_despatch hdr (Some p) buf
    | None => rx_unknown_source hdr
    end
  else rx_despatch hdr None buf.

(** ** Public functions *)

(** The node array after the initialisation loop. *)
Definition init_nodes (nodes : list tinymac_node_t) : list tinymac_node_t :=
  imap (fun n node => set_n_addr (Z.of_nat n + 1)
                        (set_n_state tinymacNodeState_Unregistered node)) nodes.

(** [r1], [r2], [r3] are the results of the calls to [rand()], in order. *)
Definition tinymac_init (params : tinymac_params_t) (r1 r2 r3 : Z) : M Z :=
  mod_ctx (set_m_params params) ;;
  (* Clear registrations and assign addresses to slots *)
  mod_ctx (fun c => set_m_nodes (init_nodes (m_nodes c)) c) ;;
  mod_ctx (fun c => set_m_permit_attach false (set_m_bseq (u8 r1) c)) ;;
  mod_ctx (set_m_dseq (u8 r2)) ;;
  mod_node PCoord (set_n_state tinymacNodeState_Unregistered) ;;
  c <- get_ctx ;;
  (if p_coordinator (m_params c)
   then mod_ctx (fun c => set_m_addr 0
                            (set_m_net_id (u8 r3) (set_m_state tinymacClientState_Registered c)))
   else mod_ctx (fun c => set_m_addr TINYMAC_ADDR_UNASSIGNED
                            (set_m_net_id TINYMAC_NETWORK_ANY
                               (set_m_state tinymacClientState_Unregistered c)))) ;;
  (* Register PHY receive callback *)
  emit EvPhyRegisterRecv ;;
  mod_ctx (set_m_phy_mtu phy_mtu) ;;
  when (negb (sleepy (p_flags (m_params c)))) (emit EvPhyListen) ;;
  ret 0.

Definition tinymac_register_recv_cb (cb : bool) : M unit := mod_ctx (set_m_rx_cb cb).
Definition tinymac_register_reg_cb (cb : bool) : M unit := mod_ctx (set_m_reg_cb cb).
Definition tinymac_register_dereg_cb (cb : bool) : M unit := mod_ctx (set_m_dereg_cb cb).

Definition tinymac_get_node (c : tinymac_t) (uuid : Z) : option node_ptr :=
  tinymac_get_node_by_uuid c uuid.

Definition tinymac_is_registered (c : tinymac_t) : Z :=
  if bool_decide (m_state c = tinymacClientState_Registered) then 1 else 0.

Definition tinymac_get_mtu : Z := u32 (phy_mtu - sizeof_header).

(** The heartbeat interval of a node, in seconds. *)
Definition heartbeat (flags : Z) : Z :=
  u32 (Z.shiftl 1 (Z.land flags TINYMAC_ATTACH_HEARTBEAT_MASK)).

(** Heartbeat expiry test on [uint32_t] values. *)
Definition heartbeat_expired (node : tinymac_node_t) (now : Z) : bool :=
  i32 (n_last_heard node +
       TINYMAC_SECONDS (u32 (heartbeat (n_flags node) + TINYMAC_HEARTBEAT_GRACE)) - now) <=? 0.

(** The body of the per-node loop of the tick handler. *)
Definition tick_node (now : Z) (n : nat) : M unit :=
  node <- read_node (PNode n) ;;
  when (bool_decide (n_state node = tinymacNodeState_Registered) && heartbeat_expired node now)
    (tinymac_deregister_node (PNode n)) ;;
  (* Despatch deferred operations *)
  tinymac_despatch_timer (TAck (PNode n)) ;;
  tinymac_despatch_timer (TValidity (PNode n)).

(** [(slot & ((1 << beacon_interval) - 1)) == beacon_offset]; in C the shift is
    defined for an interval below the width of [int] less one, as the programs'
    are. *)
Definition beacon_due (params : tinymac_params_t) (slot : Z) : bool :=
  Z.land slot (Z.shiftl 1 (p_beacon_interval params) - 1) =? p_beacon_offset params.

Definition tick_coordinator : M unit :=
  c <- get_ctx ;;
  let now := m_tick_count c in
  mod_ctx (fun c => set_m_slot (u16 (m_slot c + 1)) c) ;;
  when (beacon_due (m_params c) (u16 (m_slot c + 1))) (tinymac_tx_beacon true ;; ret tt) ;;
  (* Do per-node ops *)
  for_each (seq 0 TINYMAC_MAX_NODES) (tick_node now).

Definition tick_client : M unit :=
  c <- get_ctx ;;
  (* Unregistered clients may request a beacon *)
  when (bool_decide (m_state c = tinymacClientState_Unregistered))
    (mod_ctx (set_m_state tinymacClientState_BeaconRequest) ;;
     tinymac_tx_packet None (type_code tinymacType_BeaconRequest) [] 0 None ;;
     (* Set a timer for beacon request timeout *)
     tinymac_set_timer TRequest fn_request_timeout None
       (TINYMAC_SECONDS TINYMAC_BEACON_REQUEST_TIMEOUT)) ;;
  (* Despatch deferred operations *)
  tinymac_despatch_timer (TAck PCoord) ;;
  tinymac_despatch_timer (TValidity PCoord) ;;
  tinymac_despatch_timer TRequest.

Definition tinymac_tick_handler : M unit :=
  c <- get_ctx ;;
  (if p_coordinator (m_params c) then tick_coordinator else tick_client) ;;
  mod_ctx (fun c => set_m_tick_count (u32 (m_tick_count c + 1)) c).

End Mac.
