(* ===== verification/MacInv.v ===== *)
(** * Invariant of the MAC context

    What every reachable context satisfies, and a small program logic for
    proving it handler by handler.

    - every member lies within its C type, every buffered packet within its array;
    - slot [i] of the registry owns short address [i + 1], whatever happens;
    - an armed timer holds its own callback with its own node as the argument;
    - non-zero UUIDs are pairwise distinct over the registry;
    - client state, short address and network ID agree. *)

From stdpp Require Import base list numbers.
From Stdlib Require Import ZArith Lia.
From S2P Require Import Prelude Wire MacState Mac.

(** ** The invariant *)

Definition timer_ok (fn : timer_fn) (arg : option node_ptr) (t : tinymac_timer_t) : Prop :=
  is_u32 (t_expiry t) /\
  (t_callback t = None \/ (t_callback t = Some fn /\ t_arg t = arg)).

Record node_ok (p : node_ptr) (n : tinymac_node_t) : Prop := {
  ok_uuid : is_u64 (n_uuid n);
  ok_last_heard : is_u32 (n_last_heard n);
  ok_flags : is_u16 (n_flags n);
  ok_addr : is_u8 (n_addr n);
  ok_rssi : is_i8 (n_rssi n);
  ok_pending_header : header_ok (n_pending_header n);
  ok_pending_size : 0 <= n_pending_size n <= TINYMAC_MAX_PAYLOAD;
  ok_pending_length : length (n_pending n) = Z.to_nat TINYMAC_MAX_PAYLOAD;
  ok_pending_bytes : bytes (n_pending n);
  ok_ack_timer : timer_ok fn_ack_timeout (Some p) (n_ack_timer n);
  ok_validity_timer : timer_ok fn_validity_timeout (Some p) (n_validity_timer n);
  ok_retries : is_u8 (n_retries n);
  ok_slot : match p with PNode i => n_addr n = Z.of_nat i + 1 | _ => True end
}.

Definition params_ok (p : tinymac_params_t) : Prop :=
  is_u64 (p_uuid p) /\ is_u16 (p_flags p) /\ is_u8 (p_beacon_interval p) /\
  is_u8 (p_beacon_offset p).

(** Distinct slots never hold one non-zero UUID. *)
Definition uuids_distinct (nodes : list tinymac_node_t) : Prop :=
  forall i j ni nj, nodes !! i = Some ni -> nodes !! j = Some nj ->
    n_uuid ni = n_uuid nj -> n_uuid ni <> 0 -> i = j.

(** State, address and network of a node in its role. *)
Definition role_ok (P : tinymac_params_t) (st : tinymac_client_state_t) (addr net : Z) : Prop :=
  if p_coordinator P then st = tinymacClientState_Registered /\ addr = 0
  else match st with
       | tinymacClientState_Unregistered | tinymacClientState_BeaconRequest =>
           addr = TINYMAC_ADDR_UNASSIGNED /\ net = TINYMAC_NETWORK_ANY
       | tinymacClientState_Registering =>
           addr = TINYMAC_ADDR_UNASSIGNED /\ net <> TINYMAC_NETWORK_ANY
       | tinymacClientState_Registered =>
           addr <> TINYMAC_ADDR_UNASSIGNED /\ net <> TINYMAC_NETWORK_ANY
       end.

Record mac_ok (P : tinymac_params_t) (c : tinymac_t) : Prop := {
  ok_params : m_params c = P;
  ok_tick_count : is_u32 (m_tick_count c);
  ok_net_id : is_u8 (m_net_id c);
  ok_maddr : is_u8 (m_addr c);
  ok_dseq : is_u8 (m_dseq c);
  ok_mslot : is_u16 (m_slot c);
  ok_coord : node_ok PCoord (m_coord c);
  ok_timer : timer_ok fn_request_timeout None (m_timer c);
  ok_bseq : is_u8 (m_bseq c);
  ok_nodes_length : length (m_nodes c) = TINYMAC_MAX_NODES;
  ok_nodes : forall i n, m_nodes c !! i = Some n -> node_ok (PNode i) n;
  ok_uuids : uuids_distinct (m_nodes c);
  ok_role : role_ok P (m_state c) (m_addr c) (m_net_id c)
}.

Definition inv (P : tinymac_params_t) (w : world) : Prop :=
  mac_ok P (ctx w) /\ node_ok PLocal (local w).

(** A pointer the code may hold: only clients use [coord]. *)
Definition ptr_ok (P : tinymac_params_t) (p : node_ptr) : Prop :=
  match p with
  | PNode n => (n < TINYMAC_MAX_NODES)%nat
  | PCoord => p_coordinator P = false
  | PLocal => True
  end.

(** [m] keeps [inv P]. *)
Definition pres {A} (P : tinymac_params_t) (m : M A) : Prop :=
  forall w, inv P w -> inv P (snd (m w)).

(** ** Rules *)

Create HintDb mac discriminated.

Lemma pres_ret {A} P (a : A) : pres P (ret a).
Proof. by intros w H. Qed.

Lemma pres_bind {A B} P (m : M A) (k : A -> M B) :
  pres P m -> (forall a, pres P (k a)) -> pres P (bind m k).
Proof.
  intros Hm Hk w Hw. unfold bind. specialize (Hm w Hw).
  destruct (m w) as [a w']. by apply Hk.
Qed.

Lemma pres_get_ctx {B} P (k : tinymac_t -> M B) :
  (forall c, mac_ok P c -> pres P (k c)) -> pres P (bind get_ctx k).
Proof. intros Hk w [Hc Hl]. by apply Hk. Qed.

Lemma node_at_ok P p w : inv P w -> ptr_ok P p -> node_ok p (node_at p w).
Proof.
  intros [Hc Hl] Hp. destruct p as [|n|]; simpl; [apply Hc| |done].
  simpl in Hp. rewrite <- (ok_nodes_length _ _ Hc) in Hp.
  apply lookup_lt_is_Some in Hp as [x Hx].
  rewrite nth_lookup, Hx. by apply (ok_nodes _ _ Hc).
Qed.

Lemma pres_read_node {B} P p (k : tinymac_node_t -> M B) :
  ptr_ok P p -> (forall n, node_ok p n -> pres P (k n)) -> pres P (bind (read_node p) k).
Proof. intros Hp Hk w Hw. apply (Hk (node_at p w)); auto. by eapply node_at_ok. Qed.

Lemma pres_mod_ctx P f : (forall c, mac_ok P c -> mac_ok P (f c)) -> pres P (mod_ctx f).
Proof. intros Hf w [Hc Hl]. split; simpl; auto. Qed.

Lemma uuids_distinct_alter f n (nodes : list tinymac_node_t) :
  (forall x, n_uuid (f x) = n_uuid x) -> uuids_distinct nodes -> uuids_distinct (alter f n nodes).
Proof.
  intros Hf Hd i j ni nj Hi Hj Hij Hz.
  assert (Hu : forall k x, alter f n nodes !! k = Some x ->
                 exists y, nodes !! k = Some y /\ n_uuid y = n_uuid x).
  { intros k x Hk. destruct (decide (k = n)) as [->|Hne].
    - rewrite list_lookup_alter_eq in Hk. destruct (nodes !! n) as [y|]; simplify_eq/=.
      eauto using eq_sym.
    - rewrite list_lookup_alter_ne in Hk by done. eauto. }
  destruct (Hu _ _ Hi) as (yi & Hyi & Ei), (Hu _ _ Hj) as (yj & Hyj & Ej).
  eapply Hd; eauto; congruence.
Qed.

Lemma nodes_ok_alter f n (nodes : list tinymac_node_t) :
  (forall x, node_ok (PNode n) x -> node_ok (PNode n) (f x)) ->
  (forall i x, nodes !! i = Some x -> node_ok (PNode i) x) ->
  forall i x, alter f n nodes !! i = Some x -> node_ok (PNode i) x.
Proof.
  intros Hf Hn i x Hi. destruct (decide (i = n)) as [->|Hne].
  - rewrite list_lookup_alter_eq in Hi. destruct (nodes !! n) eqn:E; simplify_eq/=. auto.
  - rewrite list_lookup_alter_ne in Hi by done. auto.
Qed.

Lemma mac_ok_set_nodes P c nodes :
  mac_ok P c -> length nodes = TINYMAC_MAX_NODES ->
  (forall i n, nodes !! i = Some n -> node_ok (PNode i) n) -> uuids_distinct nodes ->
  mac_ok P (set_m_nodes nodes c).
Proof. intros [] ? ? ?. by split. Qed.

(** Assignments to a node that leave its UUID alone. *)
Lemma pres_mod_node P p f :
  (forall n, node_ok p n -> node_ok p (f n)) -> (forall n, n_uuid (f n) = n_uuid n) ->
  pres P (mod_node p f).
Proof.
  intros Hf Hu w [Hc Hl]. destruct p as [|i|]; simpl; split; simpl; auto.
  - destruct Hc; split; simpl; auto.
  - apply mac_ok_set_nodes; [done|..].
    + rewrite length_alter. apply Hc.
    + apply nodes_ok_alter; [done|apply Hc].
    + apply uuids_distinct_alter; [done|apply Hc].
Qed.

Lemma pres_emit P e : pres P (emit e).
Proof. by intros w [Hc Hl]. Qed.

Lemma pres_get_log P : pres P get_log.
Proof. by intros w H. Qed.

Lemma pres_when P (b : bool) m : (b = true -> pres P m) -> pres P (when b m).
Proof. destruct b; [auto|]. intros _; apply pres_ret. Qed.

Lemma pres_for_each {A} P (l : list A) body :
  (forall x, x ∈ l -> pres P (body x)) -> pres P (for_each l body).
Proof.
  induction l as [|x l IH]; intros Hb; simpl; [apply pres_ret|].
  apply pres_bind; [|intros _]; [apply Hb; left | apply IH; intros y Hy; apply Hb; by right].
Qed.

#[export] Hint Resolve pres_ret pres_emit pres_get_log : mac.

(** Structural decomposition of a handler into its primitive steps. *)
Ltac pres_step :=
  lazymatch goal with
  | |- pres _ (bind get_ctx _) => apply pres_get_ctx; let c := fresh "c" in intros c ?
  | |- pres _ (bind (read_node _) _) => apply pres_read_node; [|let n := fresh "n" in intros n ?]
  | |- pres _ (bind _ _) => apply pres_bind; [|intros ?]
  | |- pres _ (when _ _) => apply pres_when; let E := fresh "E" in intros E
  | |- pres _ (if ?b then _ else _) => let E := fresh "E" in destruct b eqn:E
  | |- pres _ (match ?x with _ => _ end) => let E := fresh "E" in destruct x eqn:E
  | |- pres _ (let _ := _ in _) => cbn zeta
  end.
Ltac pres_auto := repeat first [solve [eauto 6 with mac] | pres_step].

(** Closes [node_ok]/[mac_ok] goals about an updated record. *)
Ltac ok_tac :=
  intros; repeat match goal with
  | H : node_ok _ _ |- _ => destruct H
  | H : mac_ok _ _ |- _ => destruct H
  | H : timer_ok _ _ _ |- _ => destruct H
  end;
  try split; simpl in *; auto with width; try done.

(** ** Timers *)

Definition timer_owner (t : timer_ptr) : timer_fn * option node_ptr :=
  match t with
  | TAck p => (fn_ack_timeout, Some p)
  | TValidity p => (fn_validity_timeout, Some p)
  | TRequest => (fn_request_timeout, None)
  end.

Lemma pres_mod_timer P t f :
  (forall x, timer_ok (fst (timer_owner t)) (snd (timer_owner t)) x ->
             timer_ok (fst (timer_owner t)) (snd (timer_owner t)) (f x)) ->
  pres P (mod_timer t f).
Proof.
  destruct t as [p|p|]; simpl; intros Hf; [| |apply pres_mod_ctx; intros c []; by split; simpl; auto].
  all: apply pres_mod_node; [intros n []; by split; simpl; auto | done].
Qed.

Section Preservation.
Context `{E : Env}.
Variable P : tinymac_params_t.

Lemma pres_set_timer t cb arg delay :
  timer_owner t = (cb, arg) -> pres P (tinymac_set_timer t cb arg delay).
Proof.
  intros Ho. unfold tinymac_set_timer. pres_step. apply pres_mod_timer. rewrite Ho; simpl.
  intros x _. split; simpl; auto with width.
Qed.

Lemma pres_cancel_timer t : pres P (tinymac_cancel_timer t).
Proof. apply pres_mod_timer. intros x [H _]. split; simpl; auto. Qed.

Lemma pres_clear_timer t : pres P (mod_timer t (set_t_callback None)).
Proof. apply pres_cancel_timer. Qed.

Hint Resolve pres_set_timer pres_cancel_timer pres_clear_timer : mac.
Hint Extern 1 (timer_owner _ = _) => reflexivity : mac.

Lemma pres_set_state p st : pres P (mod_node p (set_n_state st)).
Proof. apply pres_mod_node; ok_tac. Qed.

Lemma pres_set_retries p v : is_u8 v -> pres P (mod_node p (set_n_retries v)).
Proof. intros Hv. apply pres_mod_node; ok_tac. Qed.

Hint Resolve pres_set_state pres_set_retries u8_range : mac.

(** ** Transmission *)

Lemma pres_phy_send bufs flags : pres P (tinymac_phy_send bufs flags).
Proof. unfold tinymac_phy_send, phy_send. pres_auto. Qed.
Hint Resolve pres_phy_send : mac.

Lemma memcpy_length dst src : (length src <= length dst)%nat -> length (memcpy dst src) = length dst.
Proof. intros H. unfold memcpy. rewrite length_app, length_drop. lia. Qed.

Lemma memcpy_bytes dst src : bytes dst -> bytes src -> bytes (memcpy dst src).
Proof. unfold memcpy; auto with width. Qed.

Lemma pres_store_packet p hdr buf cb :
  header_ok hdr -> bytes buf -> Z.of_nat (length buf) <= TINYMAC_MAX_PAYLOAD ->
  pres P (mod_node p (fun n =>
    set_n_retries TINYMAC_MAX_RETRIES
      (set_n_send_cb cb
         (set_n_pending_size (Z.of_nat (length buf))
            (set_n_pending_header hdr
               (set_n_pending (memcpy (n_pending n) buf) n)))))).
Proof.
  intros Hh Hb Hl. apply pres_mod_node; [|done]. intros n Hn.
  pose proof (ok_pending_length _ _ Hn) as Hlen.
  destruct Hn; split; simpl; auto; try (widths; unfold TINYMAC_MAX_RETRIES; lia).
  - rewrite memcpy_length by (rewrite Hlen; lia). done.
  - by apply memcpy_bytes.
Qed.

Lemma lor_version z : Z.lor TINYMAC_FLAGS_VERSION z = z.
Proof. apply Z.lor_0_l. Qed.

Lemma pres_tx_packet dest ft buf validity cb :
  match dest with Some p => ptr_ok P p | None => True end -> is_u8 ft -> bytes buf ->
  pres P (tinymac_tx_packet dest ft buf validity cb).
Proof.
  intros Hd Hft Hb. unfold tinymac_tx_packet. pres_step.
  destruct (_ || _) eqn:Esz; [apply pres_ret|]. boolify.
  apply pres_bind; [apply pres_mod_ctx; ok_tac|intros _].
  destruct dest as [p|]; [|auto with mac].
  apply pres_read_node; [done|intros node Hn].
  match goal with Hc : mac_ok P _ |- _ => destruct Hc end.
  pres_auto. apply pres_store_packet; [|done|lia].
  destruct Hn. rewrite lor_version. auto with width.
Qed.
Hint Resolve pres_tx_packet : mac.

Lemma find_index_bound f l n i : find_index f n l = Some i -> (n <= i < n + length l)%nat.
Proof.
  revert n; induction l as [|x l IH]; simpl; intros n H; [done|].
  destruct (f x); simplify_eq; [lia|]. apply IH in H. lia.
Qed.

Lemma find_index_spec f l n i :
  find_index f n l = Some i ->
  exists x, l !! (i - n)%nat = Some x /\ f x = true /\
            forall j y, (j < i - n)%nat -> l !! j = Some y -> f y = false.
Proof.
  revert n; induction l as [|x l IH]; simpl; intros n H; [done|].
  destruct (f x) eqn:Ef; simplify_eq.
  - rewrite Nat.sub_diag. exists x. split_and!; [done|done|]. intros; lia.
  - pose proof (find_index_bound _ _ _ _ H). apply IH in H as (y & Hy & Hf & Hlt).
    replace (i - n)%nat with (S (i - S n)) by lia. exists y. split_and!; [done|done|].
    intros [|j] z Hj Hz; simpl in Hz; simplify_eq; [done|]. apply (Hlt j); [lia|done].
Qed.

Lemma find_index_none f l n :
  find_index f n l = None -> forall i x, l !! i = Some x -> f x = false.
Proof.
  revert n; induction l as [|y l IH]; simpl; intros n H i x Hi; [done|].
  destruct (f y) eqn:Ef; simplify_eq. destruct i; simpl in Hi; simplify_eq; eauto.
Qed.

Lemma free_loop_bound l n fb i :
  free_loop n l fb = Some i -> fb = Some i \/ (n <= i < n + length l)%nat.
Proof.
  revert n fb; induction l as [|x l IH]; simpl; intros n fb H; [by left|].
  destruct (n_uuid x =? 0); simplify_eq; [right; lia|]. apply IH in H.
  destruct H as [H|H]; [|right; lia].
  destruct fb; [by left|]. destruct (bool_decide _); simplify_eq. right; lia.
Qed.

Lemma node_by_addr_ok c a p :
  mac_ok P c -> tinymac_get_node_by_addr c a = Some p -> ptr_ok P p.
Proof.
  intros Hc. unfold tinymac_get_node_by_addr.
  rewrite (ok_params _ _ Hc). destruct (p_coordinator P) eqn:Ep.
  - destruct (find_index _ _ _) as [i|] eqn:Ef; simpl; intros; simplify_eq.
    apply find_index_bound in Ef. rewrite (ok_nodes_length _ _ Hc) in Ef. simpl; lia.
  - destruct (_ && _); intros; by simplify_eq.
Qed.
Hint Resolve node_by_addr_ok : mac.

Lemma pres_send dest type buf validity cb :
  is_u8 type -> bytes buf -> pres P (tinymac_send dest type buf validity cb).
Proof. intros Ht Hb. unfold tinymac_send. pres_auto. Qed.
Hint Resolve pres_send : mac.

Lemma map_u8_bytes l : bytes (map u8 l).
Proof. apply Forall_map, Forall_true. apply u8_range. Qed.
Hint Resolve map_u8_bytes : mac.

Lemma pres_permit_attach b : pres P (tinymac_permit_attach b).
Proof. apply pres_mod_ctx; ok_tac. Qed.
Hint Resolve pres_permit_attach : mac.

Lemma pres_run_app prog : pres P (run_app prog).
Proof. induction prog; simpl; pres_auto. Qed.
Hint Resolve pres_run_app : mac.

Lemma pres_upcall e : pres P (upcall e).
Proof. unfold upcall. pres_auto. Qed.
Hint Resolve pres_upcall : mac.

Lemma pres_call_send_cb p r : ptr_ok P p -> pres P (call_send_cb p r).
Proof. intros Hp. unfold call_send_cb. pres_auto. Qed.
Hint Resolve pres_call_send_cb : mac.

Lemma inv_bind {A B} (m : M A) (k : A -> M B) w :
  inv P (snd (m w)) -> (forall a, pres P (k a)) -> inv P (snd (bind m k w)).
Proof. intros Hm Hk. unfold bind. destruct (m w) as [a w']. by apply Hk. Qed.

(** ** Timeouts *)

Lemma client_detach_ok c : p_coordinator P = false -> mac_ok P c -> mac_ok P (client_detach c).
Proof.
  intros Hp [Hpar]; split; simpl; auto; try (widths; unfold TINYMAC_NETWORK_ANY, TINYMAC_ADDR_UNASSIGNED; lia).
  unfold role_ok. by rewrite Hp.
Qed.

Lemma pres_deregister_node p : ptr_ok P p -> pres P (tinymac_deregister_node p).
Proof.
  intros Hp. unfold tinymac_deregister_node. pres_auto.
  match goal with H : bool_decide _ = true |- _ => apply bool_decide_eq_true in H as -> end.
  apply pres_mod_ctx. auto using client_detach_ok.
Qed.
Hint Resolve pres_deregister_node : mac.

Lemma role_client c :
  mac_ok P c -> m_state c <> tinymacClientState_Registered -> p_coordinator P = false.
Proof.
  intros [] Hs. unfold role_ok in *. destruct (p_coordinator P); [|done].
  by destruct ok_role0.
Qed.

Lemma pres_request_timeout : pres P tinymac_request_timeout.
Proof.
  unfold tinymac_request_timeout. apply pres_get_ctx; intros c Hc.
  apply pres_when; intros Es. apply pres_deregister_node; simpl.
  apply (role_client c Hc). intros Hs. by rewrite Hs in Es.
Qed.

Lemma pres_validity_timeout p : ptr_ok P p -> pres P (tinymac_validity_timeout p).
Proof. intros Hp. unfold tinymac_validity_timeout. pres_auto. Qed.

Lemma pres_ack_timeout p : ptr_ok P p -> pres P (tinymac_ack_timeout p).
Proof. intros Hp. unfold tinymac_ack_timeout. pres_auto. Qed.
Hint Resolve pres_request_timeout pres_validity_timeout pres_ack_timeout : mac.

Definition timer_ptr_ok (t : timer_ptr) : Prop :=
  match t with TAck p | TValidity p => ptr_ok P p | TRequest => True end.

Lemma pres_read_timer {B} t (k : tinymac_timer_t -> M B) :
  timer_ptr_ok t ->
  (forall x, timer_ok (fst (timer_owner t)) (snd (timer_owner t)) x -> pres P (k x)) ->
  pres P (bind (read_timer t) k).
Proof.
  intros Ht Hk w Hw. destruct t as [p|p|]; simpl in Ht; apply Hk; auto.
  - apply (node_at_ok P p w Hw Ht).
  - apply (node_at_ok P p w Hw Ht).
  - apply Hw.
Qed.

Lemma pres_run_timer_fn t x callback :
  timer_ptr_ok t -> timer_ok (fst (timer_owner t)) (snd (timer_owner t)) x ->
  t_callback x = Some callback -> pres P (run_timer_fn callback (t_arg x)).
Proof.
  intros Ht [_ [Hx|[Hx Ha]]] Hc; rewrite Hx in Hc; simplify_eq. rewrite Ha.
  destruct t as [p|p|]; simpl in *; auto with mac.
Qed.

Lemma pres_despatch_timer t : timer_ptr_ok t -> pres P (tinymac_despatch_timer t).
Proof.
  intros Ht. unfold tinymac_despatch_timer. apply pres_read_timer; [done|intros x Hx].
  pres_auto. eapply pres_run_timer_fn; eauto.
Qed.
Hint Resolve pres_despatch_timer : mac.

Lemma pres_tx_pending p : ptr_ok P p -> pres P (tinymac_tx_pending p).
Proof. intros Hp. unfold tinymac_tx_pending. pres_auto. Qed.
Hint Resolve pres_tx_pending : mac.

Lemma pres_tx_ack p seq : ptr_ok P p -> pres P (tinymac_tx_ack p seq).
Proof. intros Hp. unfold tinymac_tx_ack. pres_auto. Qed.
Hint Resolve pres_tx_ack : mac.

Lemma pres_tx_beacon periodic : pres P (tinymac_tx_beacon periodic).
Proof. unfold tinymac_tx_beacon. pres_auto. apply pres_mod_ctx; ok_tac. Qed.
Hint Resolve pres_tx_beacon : mac.

(** ** Receive handlers *)

Lemma type_code_u8 t : is_u8 (type_code t).
Proof. pose proof (type_code_range t). widths; lia. Qed.

Lemma reg_request_bytes_bytes r : bytes (reg_request_bytes r).
Proof. unfold reg_request_bytes; auto with width. Qed.
Lemma reg_response_bytes_bytes r : bytes (reg_response_bytes r).
Proof. unfold reg_response_bytes; auto with width. Qed.
Lemma nil_bytes : bytes [].
Proof. constructor. Qed.
Hint Resolve type_code_u8 reg_request_bytes_bytes reg_response_bytes_bytes nil_bytes : mac.
Hint Extern 1 (ptr_ok _ _) => assumption : mac.
Hint Extern 1 (ptr_ok _ PLocal) => exact I : mac.
Hint Extern 1 (is_u8 _) => assumption : mac.

Lemma pres_adopt_coord f :
  (forall n, node_ok PCoord n -> node_ok PCoord (f n)) -> pres P (mod_node PCoord f).
Proof. intros Hf w [[] Hl]. split; simpl; [split; simpl; auto|done]. Qed.

(** Binding to a coordinator: the client leaves an unregistered state for
    [Registering] on the beacon's network. *)
Lemma inv_rx_beacon_attach hdr beacon w :
  p_coordinator P = false -> is_u8 (h_net_id hdr) -> is_u8 (h_src_addr hdr) ->
  is_u64 (b_uuid beacon) -> h_net_id hdr <> TINYMAC_NETWORK_ANY ->
  m_addr (ctx w) = TINYMAC_ADDR_UNASSIGNED -> inv P w ->
  inv P (snd (rx_beacon_attach hdr beacon w)).
Proof.
  intros Hp Hn Hs Hu Hne Ha Hw. pose proof Hw as [Hc _].
  unfold rx_beacon_attach. unfold bind at 1, get_ctx at 1.
  apply inv_bind.
  - destruct Hw as [[] Hl]. split; simpl; [|done]. split; simpl; auto.
    unfold role_ok. by rewrite Hp.
  - intros _. destruct Hc. apply pres_bind; [|intros _; pres_auto].
    apply pres_adopt_coord. intros n []; split; simpl; auto with width. widths; lia.
Qed.

Lemma role_unregistered c :
  mac_ok P c -> p_coordinator P = false -> m_state c <> tinymacClientState_Registered ->
  m_addr c = TINYMAC_ADDR_UNASSIGNED.
Proof.
  intros [] Hp Hs. unfold role_ok in *. rewrite Hp in *.
  by destruct (m_state c); destruct ok_role0.
Qed.

(** The request timer is not part of the role. *)
Lemma cancel_request_frame b w :
  let w' := snd (when b (tinymac_cancel_timer TRequest) w) in
  m_state (ctx w') = m_state (ctx w) /\ m_addr (ctx w') = m_addr (ctx w).
Proof. by destruct b. Qed.

Lemma pres_rx_beacon hdr payload :
  header_ok hdr -> (p_coordinator P = false -> h_net_id hdr <> TINYMAC_NETWORK_ANY) ->
  bytes payload -> pres P (tinymac_rx_beacon hdr payload).
Proof.
  intros (_ & Hnet & _ & Hsrc & _) Hne Hpay w Hw. unfold tinymac_rx_beacon. rewrite bind_run; simpl.
  pose proof Hw as [Hc _]. rewrite (ok_params _ _ Hc).
  destruct (p_coordinator P) eqn:Ep; [done|]. rewrite bind_run.
  pose proof (cancel_request_frame
    (bool_decide (m_state (ctx w) = tinymacClientState_BeaconRequest)) w) as [F1 F2].
  assert (H1 : inv P (snd (when (bool_decide (m_state (ctx w) = tinymacClientState_BeaconRequest))
                             (tinymac_cancel_timer TRequest) w)))
    by (apply pres_when; auto with mac).
  set (w1 := snd (when _ _ w)) in *. clearbody w1.
  pose proof (role_unregistered _ Hc Ep) as Hun.
  destruct (m_state (ctx w)) eqn:Es; try done.
  1, 2: destruct (_ &? _); [|done];
        apply inv_rx_beacon_attach; simpl; auto with width; rewrite F2; auto.
  apply pres_when; [|done]. intros _. pres_auto.
Qed.
Hint Resolve pres_rx_beacon : mac.

Lemma pres_rx_registration_response hdr payload :
  header_ok hdr -> (p_coordinator P = false -> h_net_id hdr <> TINYMAC_NETWORK_ANY) ->
  bytes payload -> pres P (tinymac_rx_registration_response hdr payload).
Proof.
  intros (_ & Hnet & _) Hne Hpay. unfold tinymac_rx_registration_response. pres_step.
  match goal with H : mac_ok P c |- _ => rewrite (ok_params _ _ H) end.
  destruct (p_coordinator P) eqn:Ep; [apply pres_ret|]. pres_auto.
  1, 2: apply pres_mod_ctx; intros; by apply client_detach_ok.
  boolify. apply pres_mod_ctx. intros c0 []; split; simpl; auto with width.
  unfold role_ok. rewrite Ep. auto.
Qed.
Hint Resolve pres_rx_registration_response : mac.

Lemma uuids_distinct_set f i u (nodes : list tinymac_node_t) :
  (forall x, n_uuid (f x) = u) ->
  (forall j nj, nodes !! j = Some nj -> n_uuid nj = u -> u <> 0 -> j = i) ->
  uuids_distinct nodes -> uuids_distinct (alter f i nodes).
Proof.
  intros Hf Hi Hd j k nj nk Hj Hk Ejk Hz.
  destruct (decide (j = i)) as [->|Hji], (decide (k = i)) as [->|Hki]; [done| | |].
  - rewrite list_lookup_alter_eq in Hj. destruct (nodes !! i); simplify_eq/=.
    rewrite list_lookup_alter_ne in Hk by done. symmetry. eapply Hi; eauto; congruence.
  - rewrite list_lookup_alter_eq in Hk. destruct (nodes !! i); simplify_eq/=.
    rewrite list_lookup_alter_ne in Hj by done. eapply Hi; eauto; congruence.
  - rewrite list_lookup_alter_ne in Hj, Hk by done. eapply Hd; eauto.
Qed.

(** The slot chosen for a registration request. *)
Definition reg_slot (c : tinymac_t) (uuid : Z) : option node_ptr :=
  match tinymac_get_node_by_uuid c uuid with
  | Some p => Some p
  | None => tinymac_get_free_node c
  end.

Lemma reg_slot_ok c u p :
  mac_ok P c -> reg_slot c u = Some p ->
  exists i, p = PNode i /\ (i < TINYMAC_MAX_NODES)%nat /\
    forall j nj, m_nodes c !! j = Some nj -> n_uuid nj = u -> u <> 0 -> j = i.
Proof.
  intros Hc. unfold reg_slot, tinymac_get_node_by_uuid, tinymac_get_free_node.
  rewrite <- (ok_nodes_length _ _ Hc).
  destruct (find_index _ _ _) as [i|] eqn:Ef; simpl.
  - intros; simplify_eq. exists i. pose proof (find_index_bound _ _ _ _ Ef).
    apply find_index_spec in Ef as (x & Hx & Hu & _). rewrite Nat.sub_0_r in Hx. boolify.
    split_and!; [done|lia|]. intros j nj Hj Hnj Hz.
    apply (ok_uuids _ _ Hc j i nj x); congruence.
  - destruct (free_loop _ _ _) as [i|] eqn:El; simpl; intros; simplify_eq. exists i.
    apply free_loop_bound in El as [?|El]; [done|]. split_and!; [done|lia|].
    intros j nj Hj Hnj Hz. pose proof (find_index_none _ _ _ Ef j nj Hj) as Hn. simpl in Hn. boolify. done.
Qed.

Lemma inv_register_slot w u fl p :
  inv P w -> is_u64 u -> is_u16 fl -> reg_slot (ctx w) u = Some p ->
  inv P (upd_node p (fun n =>
    set_n_last_heard (m_tick_count (ctx w))
      (set_n_flags fl (set_n_uuid u (set_n_state tinymacNodeState_Registered n)))) w).
Proof.
  intros [Hc Hl] Hu Hfl Hp. apply (reg_slot_ok _ _ _ Hc) in Hp as (i & -> & Hi & Hd).
  split; simpl; [|done]. apply mac_ok_set_nodes; [done|..].
  - rewrite length_alter. apply Hc.
  - apply nodes_ok_alter; [|apply Hc]. intros x []. destruct Hc. by split; simpl.
  - eapply uuids_distinct_set; [|exact Hd|apply Hc]; done.
Qed.

Lemma reg_slot_ptr c u p : mac_ok P c -> reg_slot c u = Some p -> ptr_ok P p.
Proof. intros Hc Hp. by apply (reg_slot_ok _ _ _ Hc) in Hp as (i & -> & Hi & _). Qed.

Lemma pres_rx_registration_request hdr payload :
  bytes payload -> pres P (tinymac_rx_registration_request hdr payload).
Proof.
  intros Hpay w Hw. unfold tinymac_rx_registration_request. rewrite bind_run; simpl.
  destruct (negb _); [done|].
  change (match tinymac_get_node_by_uuid (ctx w) (field 0 8 payload) with
          | Some p => Some p | None => tinymac_get_free_node (ctx w) end)
    with (reg_slot (ctx w) (field 0 8 payload)).
  apply inv_bind; [|intros r; pres_auto].
  destruct (reg_slot _ _) as [p|] eqn:Ep; [|done].
  apply inv_bind; [|intros _; apply pres_read_node; [|intros; pres_auto]; eapply reg_slot_ptr; [apply Hw|done]].
  apply inv_register_slot; auto with width.
Qed.
Hint Resolve pres_rx_registration_request : mac.

Lemma pres_rx_deregistration_request hdr payload :
  pres P (tinymac_rx_deregistration_request hdr payload).
Proof. unfold tinymac_rx_deregistration_request. pres_auto. Qed.
Hint Resolve pres_rx_deregistration_request : mac.

Lemma pres_rx_ack hdr node :
  match node with Some p => ptr_ok P p | None => True end -> pres P (rx_ack hdr node).
Proof. intros Hp. unfold rx_ack. pres_auto. Qed.
Hint Resolve pres_rx_ack : mac.

Lemma payload_of_bytes buf : bytes buf -> bytes (payload_of buf).
Proof. unfold payload_of; auto with width. Qed.
Hint Resolve payload_of_bytes : mac.

Lemma pres_rx_despatch hdr node buf :
  header_ok hdr -> (p_coordinator P = false -> h_net_id hdr <> TINYMAC_NETWORK_ANY) ->
  match node with Some p => ptr_ok P p | None => True end -> bytes buf ->
  pres P (rx_despatch hdr node buf).
Proof. intros Hh Hn Hp Hb. unfold rx_despatch. pres_auto. Qed.
Hint Resolve pres_rx_despatch : mac.

Lemma pres_rx_known_source hdr p rssi : ptr_ok P p -> pres P (rx_known_source hdr p rssi).
Proof. intros Hp. unfold rx_known_source. pres_auto. apply pres_mod_node; ok_tac. Qed.

Lemma node_zero_ok a : is_u8 a ->
  node_ok PLocal (set_n_state tinymacNodeState_Registered (set_n_addr a node_zero)).
Proof.
  intros Ha. split; simpl; auto; try (widths; unfold TINYMAC_MAX_PAYLOAD; lia).
  - apply mk_header_ok; widths; lia.
  - apply (Forall_replicate is_u8 128 0). widths; lia.
  - split; simpl; [widths; lia|by left].
  - split; simpl; [widths; lia|by left].
Qed.

Lemma pres_rx_unknown_source hdr : header_ok hdr -> pres P (rx_unknown_source hdr).
Proof.
  intros (_ & _ & _ & Ha & _). unfold rx_unknown_source. pres_auto.
  intros w [Hc Hl]. split; simpl; [done|]. by apply node_zero_ok.
Qed.
Hint Resolve pres_rx_known_source pres_rx_unknown_source : mac.

Lemma pres_recv_cb buf rssi : bytes buf -> pres P (tinymac_recv_cb buf rssi).
Proof.
  intros Hb. unfold tinymac_recv_cb. pose proof (header_of_ok buf Hb) as Hh.
  pres_step; [apply pres_ret|]. apply pres_get_ctx; intros c Hc.
  do 2 (pres_step; [apply pres_ret|]).
  destruct (anonymous_refused c (header_of buf)) eqn:Ea; [apply pres_ret|].
  assert (Hn : p_coordinator P = false -> h_net_id (header_of buf) <> TINYMAC_NETWORK_ANY).
  { intros Hp Hn. unfold anonymous_refused in Ea. rewrite (ok_params _ _ Hc), Hp, Hn in Ea. done. }
  pres_auto.
Qed.
Hint Resolve pres_recv_cb : mac.

(** ** Periodic and public operations *)

Lemma pres_set_mac f :
  (forall c, m_params (f c) = m_params c /\ m_coord (f c) = m_coord c /\
     m_timer (f c) = m_timer c /\ m_nodes (f c) = m_nodes c /\ m_state (f c) = m_state c /\
     m_addr (f c) = m_addr c /\ m_net_id (f c) = m_net_id c /\ m_dseq (f c) = m_dseq c /\
     m_bseq (f c) = m_bseq c) ->
  (forall c, is_u32 (m_tick_count c) -> is_u32 (m_tick_count (f c))) ->
  (forall c, is_u16 (m_slot c) -> is_u16 (m_slot (f c))) ->
  pres P (mod_ctx f).
Proof.
  intros Hf Ht Hs. apply pres_mod_ctx. intros c [].
  destruct (Hf c) as (E1 & E2 & E3 & E4 & E5 & E6 & E7 & E8 & E9).
  split; rewrite ?E1, ?E2, ?E3, ?E4, ?E5, ?E6, ?E7, ?E8, ?E9; auto.
Qed.

Lemma pres_tick_node now n : (n < TINYMAC_MAX_NODES)%nat -> pres P (tick_node now n).
Proof.
  intros Hn. unfold tick_node. pres_auto; apply pres_despatch_timer; done.
Qed.

Lemma pres_tick_coordinator : pres P tick_coordinator.
Proof.
  unfold tick_coordinator. pres_step. apply pres_bind; [|intros _].
  { apply pres_set_mac; simpl; auto with width. by repeat split. }
  apply pres_bind; [pres_auto|intros _]. apply pres_for_each. intros n Hn.
  apply pres_tick_node. apply list_elem_of_In, in_seq in Hn. lia.
Qed.

Lemma pres_request_state :
  p_coordinator P = false -> forall w, inv P w ->
  m_state (ctx w) = tinymacClientState_Unregistered ->
  inv P (snd (mod_ctx (set_m_state tinymacClientState_BeaconRequest) w)).
Proof.
  intros Hp w [[] Hl] Hs. split; simpl; [|done]. split; simpl; auto.
  unfold role_ok in *. rewrite Hp in *. by rewrite Hs in *.
Qed.

Lemma pres_tick_client : p_coordinator P = false -> pres P tick_client.
Proof.
  intros Hp w Hw. unfold tick_client. rewrite bind_run; simpl. apply inv_bind.
  - destruct (bool_decide _) eqn:Es; [|done]. apply bool_decide_eq_true in Es. simpl.
    apply inv_bind; [by apply pres_request_state|]. intros _. pres_auto.
  - intros _. pres_auto; apply pres_despatch_timer; done.
Qed.

Lemma pres_tick_handler : pres P tinymac_tick_handler.
Proof.
  unfold tinymac_tick_handler. pres_step. apply pres_bind; [|intros _].
  - match goal with H : mac_ok P c |- _ => rewrite (ok_params _ _ H) end.
    destruct (p_coordinator P) eqn:Ep; auto using pres_tick_coordinator, pres_tick_client.
  - apply pres_set_mac; simpl; auto with width. by repeat split.
Qed.

Lemma pres_register_cbs b :
  pres P (tinymac_register_recv_cb b) /\ pres P (tinymac_register_reg_cb b) /\
  pres P (tinymac_register_dereg_cb b).
Proof. split_and!; apply pres_set_mac; simpl; auto; by repeat split. Qed.

End Preservation.

(** ** Initialisation *)

(** What initialisation needs of the storage it starts from. *)
Record preinit (w : world) : Prop := {
  pre_tick : is_u32 (m_tick_count (ctx w));
  pre_slot : is_u16 (m_slot (ctx w));
  pre_coord : node_ok PCoord (m_coord (ctx w));
  pre_timer : timer_ok fn_request_timeout None (m_timer (ctx w));
  pre_length : length (m_nodes (ctx w)) = TINYMAC_MAX_NODES;
  pre_nodes : forall i n, m_nodes (ctx w) !! i = Some n ->
                node_ok (PNode i) (set_n_addr (Z.of_nat i + 1) n);
  pre_uuids : uuids_distinct (m_nodes (ctx w));
  pre_local : node_ok PLocal (local w)
}.

Lemma node_ok_readdress i n : node_ok (PNode i) n -> node_ok (PNode i) (set_n_addr (Z.of_nat i + 1) n).
Proof. intros []. split; simpl in *; auto. by rewrite <- ok_slot0. Qed.

Lemma inv_preinit P w : inv P w -> preinit w.
Proof. intros [[] Hl]. split; auto using node_ok_readdress. Qed.

Lemma timer_zero_ok fn arg : timer_ok fn arg timer_zero.
Proof. split; simpl; [widths; lia|by left]. Qed.

Lemma node_zero_ok' p a : is_u8 a -> match p with PNode i => a = Z.of_nat i + 1 | _ => True end ->
  node_ok p (set_n_addr a node_zero).
Proof.
  intros Ha Hp. split; simpl; auto using timer_zero_ok; try (widths; unfold TINYMAC_MAX_PAYLOAD; lia).
  - apply mk_header_ok; widths; lia.
  - apply (Forall_replicate is_u8 128 0). widths; lia.
Qed.

Lemma world_zero_preinit : preinit world_zero.
Proof.
  assert (Hz : forall i n, m_nodes (ctx world_zero) !! i = Some n -> n = node_zero /\ (i < 32)%nat).
  { intros i n Hi. by apply (lookup_replicate 32) in Hi. }
  split; auto using timer_zero_ok; try (simpl; widths; lia).
  - apply (node_zero_ok' PCoord 0); [widths; lia|done].
  - intros i n Hi. apply Hz in Hi as [-> Hi]. apply node_zero_ok'; [widths; lia|done].
  - intros i j ni nj Hi Hj _ Hne. apply Hz in Hi as [-> _]. done.
  - apply (node_zero_ok' PLocal 0); [widths; lia|done].
Qed.

Lemma init_nodes_lookup (nodes : list tinymac_node_t) i x :
  init_nodes nodes !! i = Some x ->
  exists n, nodes !! i = Some n /\
    x = set_n_addr (Z.of_nat i + 1) (set_n_state tinymacNodeState_Unregistered n).
Proof.
  unfold init_nodes. rewrite list_lookup_imap.
  destruct (nodes !! i) as [n|]; simpl; intros; simplify_eq. eauto.
Qed.

Section Reach.
Context `{E : Env}.

Lemma init_inv P r1 r2 r3 w : preinit w -> inv P (snd (tinymac_init P r1 r2 r3 w)).
Proof.
  intros [].
  assert (Hnodes : forall i n, init_nodes (m_nodes (ctx w)) !! i = Some n -> node_ok (PNode i) n).
  { intros i n Hi. apply init_nodes_lookup in Hi as (x & Hx & ->).
    specialize (pre_nodes0 _ _ Hx). destruct pre_nodes0. by split; simpl in *. }
  assert (Huuids : uuids_distinct (init_nodes (m_nodes (ctx w)))).
  { intros i j ni nj Hi Hj. apply init_nodes_lookup in Hi as (x & Hx & ->).
    apply init_nodes_lookup in Hj as (y & Hy & ->). simpl. by apply pre_uuids0. }
  assert (Hlen : length (init_nodes (m_nodes (ctx w))) = TINYMAC_MAX_NODES)
    by (unfold init_nodes; by rewrite length_imap).
  assert (Hcoord : node_ok PCoord (set_n_state tinymacNodeState_Unregistered (m_coord (ctx w))))
    by (destruct pre_coord0; by split).
  unfold tinymac_init. rewrite !bind_run; simpl.
  destruct (p_coordinator P) eqn:Ep, (sleepy (p_flags P)); rewrite ?bind_run; simpl.
  all: split; simpl; [|done]; split; simpl; auto with width.
  all: try (widths; unfold TINYMAC_NETWORK_ANY, TINYMAC_ADDR_UNASSIGNED; lia).
  all: unfold role_ok; rewrite Ep; auto.
Qed.

(** ** Reachable worlds

    One step is one call from the platform or the application: a received
    packet, a tick, or a public function. *)
Inductive step : world -> world -> Prop :=
| step_recv buf rssi w : bytes buf -> step w (snd (tinymac_recv_cb buf rssi w))
| step_tick w : step w (snd (tinymac_tick_handler w))
| step_send dest type buf validity cb w :
    is_u8 dest -> is_u8 type -> bytes buf -> is_u16 validity ->
    step w (snd (tinymac_send dest type buf validity cb w))
| step_permit b w : step w (snd (tinymac_permit_attach b w))
| step_register_recv b w : step w (snd (tinymac_register_recv_cb b w))
| step_register_reg b w : step w (snd (tinymac_register_reg_cb b w))
| step_register_dereg b w : step w (snd (tinymac_register_dereg_cb b w)).

Inductive reachable : tinymac_params_t -> world -> Prop :=
| reach_boot P r1 r2 r3 :
    params_ok P -> reachable P (snd (tinymac_init P r1 r2 r3 world_zero))
| reach_reinit P0 P r1 r2 r3 w :
    reachable P0 w -> params_ok P -> reachable P (snd (tinymac_init P r1 r2 r3 w))
| reach_step P w w' : reachable P w -> step w w' -> reachable P w'.

Lemma step_inv P w w' : inv P w -> step w w' -> inv P w'.
Proof.
  intros Hw Hs. destruct Hs as [buf rssi w Hb|w|dest type buf v cb w Hd Ht Hb Hv| | | | ].
  - by apply pres_recv_cb.
  - by apply pres_tick_handler.
  - by apply pres_send.
  - by apply pres_permit_attach.
  - by apply (pres_register_cbs P b).
  - by apply (pres_register_cbs P b).
  - by apply (pres_register_cbs P b).
Qed.

Lemma reachable_inv P w : reachable P w -> inv P w.
Proof.
  induction 1; eauto using init_inv, world_zero_preinit, inv_preinit, step_inv.
Qed.

Lemma reachable_params_ok P w : reachable P w -> params_ok P.
Proof. by induction 1. Qed.
End Reach.
