(* ===== verification/MacRun.v ===== *)
(** * Running MAC handlers symbolically

    Rewriting rules that evaluate a handler on a world known only through
    facts about it, the algebra of node assignments, and what the transmit
    path and the application inside a callback cannot touch. *)

From stdpp Require Import base list numbers.
From Stdlib Require Import ZArith Lia.
From S2P Require Import Prelude Wire MacState Mac MacInv.

(** ** Evaluation rules *)

Create Rewrite HintDb run.

Lemma run_get_ctx {B} (k : tinymac_t -> M B) w : bind get_ctx k w = k (ctx w) w.
Proof. done. Qed.
Lemma run_mod_ctx {B} f (k : unit -> M B) w :
  bind (mod_ctx f) k w = k tt (set_ctx (f (ctx w)) w).
Proof. done. Qed.
Lemma run_read_node {B} p (k : tinymac_node_t -> M B) w :
  bind (read_node p) k w = k (node_at p w) w.
Proof. done. Qed.
Lemma run_mod_node {B} p f (k : unit -> M B) w :
  bind (mod_node p f) k w = k tt (upd_node p f w).
Proof. done. Qed.
Lemma run_emit {B} e (k : unit -> M B) w : bind (emit e) k w = k tt (set_log (e :: log w) w).
Proof. done. Qed.
Lemma run_get_log {B} (k : list event -> M B) w : bind get_log k w = k (log w) w.
Proof. done. Qed.
Lemma run_ret {A B} (a : A) (k : A -> M B) w : bind (ret a) k w = k a w.
Proof. done. Qed.
Lemma run_bind_bind {A B C} (m : M A) (k : A -> M B) (k' : B -> M C) w :
  bind (bind m k) k' w = bind m (fun a => bind (k a) k') w.
Proof. unfold bind. by destruct (m w). Qed.
#[export] Hint Rewrite @run_get_ctx @run_mod_ctx @run_read_node @run_mod_node @run_emit
  @run_get_log @run_ret @run_bind_bind : run.

Lemma when_true m w : when true m w = m w.
Proof. done. Qed.
Lemma when_false m w : when false m w = (tt, w).
Proof. done. Qed.

(** Worlds with equal parts are equal. *)
Lemma world_eq w w' : ctx w = ctx w' -> local w = local w' -> log w = log w' -> w = w'.
Proof. destruct w, w'; simpl; congruence. Qed.

(** ** Node assignments *)

Definition valid (p : node_ptr) (w : world) : Prop :=
  match p with PNode n => (n < length (m_nodes (ctx w)))%nat | _ => True end.

Lemma ptr_ok_valid P p w : inv P w -> ptr_ok P p -> valid p w.
Proof. intros [Hc _]. destruct p; simpl; auto. by rewrite (ok_nodes_length _ _ Hc). Qed.

Lemma valid_upd p q f w : valid p w -> valid p (upd_node q f w).
Proof. destruct p as [|i|], q as [|j|]; simpl; auto. by rewrite length_alter. Qed.

Lemma node_at_lookup i w n : m_nodes (ctx w) !! i = Some n -> node_at (PNode i) w = n.
Proof. intros H. simpl. by rewrite nth_lookup, H. Qed.

Lemma lookup_node_at i w :
  valid (PNode i) w -> m_nodes (ctx w) !! i = Some (node_at (PNode i) w).
Proof. intros [x Hx]%lookup_lt_is_Some. simpl. by rewrite nth_lookup, Hx. Qed.

Lemma node_at_upd p f w : valid p w -> node_at p (upd_node p f w) = f (node_at p w).
Proof.
  destruct p as [|i|]; simpl; auto. intros [x Hx]%lookup_lt_is_Some.
  by rewrite !nth_lookup, list_lookup_alter_eq, Hx.
Qed.

Lemma node_at_upd_ne p q f w : p <> q -> node_at p (upd_node q f w) = node_at p w.
Proof.
  destruct p as [|i|], q as [|j|]; simpl; try done. intros Hne.
  rewrite !nth_lookup, list_lookup_alter_ne; [done|congruence].
Qed.

Lemma upd_upd p f g w : upd_node p f (upd_node p g w) = upd_node p (fun n => f (g n)) w.
Proof.
  destruct p as [|i|]; simpl; apply world_eq; simpl; auto.
  unfold set_m_nodes; simpl. f_equal. apply list_eq. intros j.
  destruct (decide (i = j)) as [<-|Hne].
  - rewrite !list_lookup_alter_eq. by destruct (m_nodes (ctx w) !! i).
  - by rewrite !list_lookup_alter_ne.
Qed.

Lemma upd_log p f w : log (upd_node p f w) = log w.
Proof. by destruct p. Qed.
Lemma upd_set_log p f l w : upd_node p f (set_log l w) = set_log l (upd_node p f w).
Proof. by destruct p. Qed.
Lemma node_at_set_log p l w : node_at p (set_log l w) = node_at p w.
Proof. by destruct p. Qed.

(** The members of the context that are neither nodes nor transmit counters. *)
Definition core (c : tinymac_t) :=
  (m_params c, m_phy_mtu c, m_rx_cb c, m_tick_count c, m_net_id c, m_addr c,
   (m_slot c, m_state c, m_timer c, m_reg_cb c, m_dereg_cb c)).

Lemma core_upd p f w : core (ctx (upd_node p f w)) = core (ctx w).
Proof. by destruct p. Qed.

Lemma core_fields c c' :
  core c = core c' ->
  m_params c = m_params c' /\ m_phy_mtu c = m_phy_mtu c' /\ m_tick_count c = m_tick_count c' /\
  m_net_id c = m_net_id c' /\ m_addr c = m_addr c' /\ m_state c = m_state c' /\
  m_timer c = m_timer c' /\ m_slot c = m_slot c'.
Proof. unfold core. intros; simplify_eq; auto 10. Qed.

(** ** Frames: what a handler leaves alone *)

(** [m] keeps every member of [core]. *)
Definition keeps_core {A} (m : M A) : Prop := forall w, core (ctx (snd (m w))) = core (ctx w).

Lemma keeps_ret {A} (a : A) : keeps_core (ret a).
Proof. done. Qed.
Lemma keeps_bind {A B} (m : M A) (k : A -> M B) :
  keeps_core m -> (forall a, keeps_core (k a)) -> keeps_core (bind m k).
Proof. intros Hm Hk w. rewrite bind_run, Hk. apply Hm. Qed.
Lemma keeps_get_ctx : keeps_core get_ctx. Proof. done. Qed.
Lemma keeps_get_log : keeps_core get_log. Proof. done. Qed.
Lemma keeps_read p : keeps_core (read_node p). Proof. done. Qed.
Lemma keeps_emit e : keeps_core (emit e). Proof. done. Qed.
Lemma keeps_mod_node p f : keeps_core (mod_node p f).
Proof. intros w. apply core_upd. Qed.
Lemma keeps_when b m : keeps_core m -> keeps_core (when b m).
Proof. by destruct b. Qed.

Create HintDb frame discriminated.
#[export] Hint Resolve keeps_ret keeps_get_ctx keeps_get_log keeps_read keeps_emit keeps_mod_node
  : frame.

Ltac keeps_step :=
  lazymatch goal with
  | |- keeps_core (bind _ _) => apply keeps_bind; [|intros ?]
  | |- keeps_core (when _ _) => apply keeps_when
  | |- keeps_core (if ?b then _ else _) => destruct b
  | |- keeps_core (match ?x with _ => _ end) => destruct x
  | |- keeps_core (let _ := _ in _) => cbn zeta
  end.
Ltac keeps_auto := repeat first [solve [eauto 4 with frame] | keeps_step].

Section Frames.
Context `{E : Env}.

Lemma keeps_dseq f : (forall c, core (f c) = core c) -> keeps_core (mod_ctx f).
Proof. intros Hf w. apply Hf. Qed.

Lemma keeps_set_node_timer t cb arg d : t <> TRequest -> keeps_core (tinymac_set_timer t cb arg d).
Proof. intros Ht. unfold tinymac_set_timer. keeps_step; [auto with frame|]. destruct t; simpl; auto with frame. done. Qed.
Lemma keeps_cancel_node_timer t : t <> TRequest -> keeps_core (tinymac_cancel_timer t).
Proof. destruct t; simpl; unfold tinymac_cancel_timer; simpl; auto with frame. done. Qed.
Hint Resolve keeps_set_node_timer keeps_cancel_node_timer : frame.
Hint Extern 1 (_ <> TRequest) => discriminate : frame.

Lemma keeps_phy_send bufs fl : keeps_core (tinymac_phy_send bufs fl).
Proof. unfold tinymac_phy_send, phy_send. keeps_auto. Qed.
Hint Resolve keeps_phy_send : frame.

Lemma keeps_tx_packet d ft buf v cb : keeps_core (tinymac_tx_packet d ft buf v cb).
Proof.
  unfold tinymac_tx_packet. keeps_auto. all: by apply keeps_dseq.
Qed.
Hint Resolve keeps_tx_packet : frame.

Lemma keeps_send d t buf v cb : keeps_core (tinymac_send d t buf v cb).
Proof. unfold tinymac_send. keeps_auto. Qed.
Lemma keeps_permit b : keeps_core (tinymac_permit_attach b).
Proof. by apply keeps_dseq. Qed.
Hint Resolve keeps_send keeps_permit : frame.

Lemma keeps_run_app prog : keeps_core (run_app prog).
Proof. induction prog; simpl; keeps_auto. Qed.
Hint Resolve keeps_run_app : frame.

Lemma keeps_upcall e : keeps_core (upcall e).
Proof. unfold upcall. keeps_auto. Qed.
Hint Resolve keeps_upcall : frame.

Lemma keeps_call_send_cb p r : keeps_core (call_send_cb p r).
Proof. unfold call_send_cb. keeps_auto. Qed.
Hint Resolve keeps_call_send_cb : frame.

Lemma keeps_validity_timeout p : keeps_core (tinymac_validity_timeout p).
Proof. unfold tinymac_validity_timeout. keeps_auto. Qed.

Lemma keeps_tx_pending p : keeps_core (tinymac_tx_pending p).
Proof. unfold tinymac_tx_pending. keeps_auto. Qed.
Hint Resolve keeps_tx_pending : frame.

Lemma keeps_tx_ack p q : keeps_core (tinymac_tx_ack p q).
Proof. unfold tinymac_tx_ack. keeps_auto. Qed.
Hint Resolve keeps_tx_ack : frame.

Lemma keeps_tx_beacon b : keeps_core (tinymac_tx_beacon b).
Proof. unfold tinymac_tx_beacon. keeps_auto. all: by apply keeps_dseq. Qed.
Hint Resolve keeps_tx_beacon : frame.

Lemma keeps_rx_ack hdr n : keeps_core (rx_ack hdr n).
Proof. unfold rx_ack. keeps_auto. Qed.

Lemma keeps_rx_known_source hdr p r : keeps_core (rx_known_source hdr p r).
Proof. unfold rx_known_source. keeps_auto. Qed.

Lemma keeps_rx_unknown_source hdr : keeps_core (rx_unknown_source hdr).
Proof. unfold rx_unknown_source. keeps_auto. Qed.

Lemma keeps_rx_registration_request hdr pl : keeps_core (tinymac_rx_registration_request hdr pl).
Proof. unfold tinymac_rx_registration_request. keeps_auto. Qed.

Lemma keeps_deregister_slot p : p <> PCoord -> keeps_core (tinymac_deregister_node p).
Proof.
  intros Hp. unfold tinymac_deregister_node. rewrite bool_decide_eq_false_2 by done.
  simpl. keeps_auto.
Qed.
End Frames.

#[export] Hint Resolve keeps_phy_send keeps_tx_packet keeps_send keeps_permit keeps_run_app
  keeps_upcall keeps_call_send_cb keeps_validity_timeout keeps_tx_pending keeps_tx_ack
  keeps_tx_beacon keeps_rx_ack keeps_rx_known_source keeps_rx_unknown_source
  keeps_rx_registration_request keeps_set_node_timer keeps_cancel_node_timer : frame.

(** ** A node with a packet in flight is not touched by senders *)

(** [m] leaves a node alone while it cannot accept a packet. *)
Definition keeps_busy {A} (p : node_ptr) (m : M A) : Prop :=
  forall w, n_state (node_at p w) <> tinymacNodeState_Registered ->
            node_at p (snd (m w)) = node_at p w.

Lemma busy_ret {A} p (a : A) : keeps_busy p (ret a).
Proof. by intros w H. Qed.
Lemma busy_bind {A B} p (m : M A) (k : A -> M B) :
  keeps_busy p m -> (forall a, keeps_busy p (k a)) -> keeps_busy p (bind m k).
Proof. intros Hm Hk w Hs. rewrite bind_run, Hk, Hm; auto. by rewrite Hm. Qed.
Lemma busy_emit p e : keeps_busy p (emit e).
Proof. by destruct p. Qed.
Lemma busy_get_ctx p : keeps_busy p get_ctx. Proof. by intros w. Qed.
Lemma busy_get_log p : keeps_busy p get_log. Proof. by intros w. Qed.
Lemma busy_read p q : keeps_busy p (read_node q). Proof. by intros w. Qed.
Lemma busy_when p b m : keeps_busy p m -> keeps_busy p (when b m).
Proof. destruct b; [done|]. intros _; apply busy_ret. Qed.
Lemma busy_mod_other p q f : q <> p -> keeps_busy p (mod_node q f).
Proof. intros Hne w _. simpl. by apply node_at_upd_ne, not_eq_sym. Qed.

Section Busy.
Context `{E : Env}.

Lemma busy_phy_send p bufs fl : keeps_busy p (tinymac_phy_send bufs fl).
Proof.
  unfold tinymac_phy_send, phy_send.
  repeat first [apply busy_bind; [|intros ?] | apply busy_when | apply busy_emit | apply busy_ret
    | apply busy_get_ctx | apply busy_get_log | match goal with |- context [if ?b then _ else _] => destruct b end].
Qed.

Lemma busy_tx_packet p d ft buf v cb : keeps_busy p (tinymac_tx_packet d ft buf v cb).
Proof.
  unfold tinymac_tx_packet. apply busy_bind; [apply busy_get_ctx|intros c].
  destruct (_ || _); [apply busy_ret|]. apply busy_bind; [by intros w _; destruct p|intros _].
  destruct d as [q|]; [|apply busy_phy_send]. destruct (decide (q = p)) as [->|Hne].
  - intros w Hs. autorewrite with run. by rewrite bool_decide_eq_false_2.
  - apply busy_bind; [apply busy_read|intros n]. destruct (negb _); [apply busy_ret|].
    assert (Hmod : forall f, keeps_busy p (mod_node q f)) by (intros; by apply busy_mod_other).
    assert (Hack : forall cb arg d, keeps_busy p (tinymac_set_timer (TAck q) cb arg d)) by
      (intros; apply busy_bind; [apply busy_get_ctx|intros; apply Hmod]).
    assert (Hval : forall cb arg d, keeps_busy p (tinymac_set_timer (TValidity q) cb arg d)) by
      (intros; apply busy_bind; [apply busy_get_ctx|intros; apply Hmod]).
    apply busy_bind; [apply busy_when, Hmod|intros _].
    destruct (sleepy _); repeat first [apply Hack | apply Hval | apply Hmod | apply busy_phy_send
      | apply busy_ret | apply busy_when | apply busy_bind; [|intros ?]].
Qed.

Lemma busy_send p d t buf v cb : keeps_busy p (tinymac_send d t buf v cb).
Proof.
  unfold tinymac_send. destruct (_ <? _); [apply busy_ret|].
  apply busy_bind; [apply busy_get_ctx|intros c]. destruct (tinymac_get_node_by_addr _ _); [|apply busy_ret].
  apply busy_bind; [apply busy_read|intros x]. apply busy_tx_packet.
Qed.

Lemma busy_run_app p prog : keeps_busy p (run_app prog).
Proof.
  induction prog; simpl; [apply busy_ret|..]; (apply busy_bind; [|intros ?]); auto using busy_send.
  by intros w _; destruct p.
Qed.

Lemma busy_upcall p e : keeps_busy p (upcall e).
Proof.
  unfold upcall. apply busy_bind; [apply busy_emit|intros _].
  apply busy_bind; [apply busy_get_log|intros l]. apply busy_run_app.
Qed.

Lemma busy_call_send_cb p q r : keeps_busy p (call_send_cb q r).
Proof.
  unfold call_send_cb. apply busy_bind; [apply busy_read|intros n].
  destruct (n_send_cb n); auto using busy_upcall, busy_ret.
Qed.
End Busy.

(** ** The log only grows *)

Definition grows {A} (m : M A) : Prop := forall w, log w `suffix_of` log (snd (m w)).

Lemma grows_ret {A} (a : A) : grows (ret a). Proof. by intros w. Qed.
Lemma grows_bind {A B} (m : M A) (k : A -> M B) :
  grows m -> (forall a, grows (k a)) -> grows (bind m k).
Proof. intros Hm Hk w. rewrite bind_run. etrans; [apply Hm|apply Hk]. Qed.
Lemma grows_get_ctx : grows get_ctx. Proof. by intros w. Qed.
Lemma grows_get_log : grows get_log. Proof. by intros w. Qed.
Lemma grows_read p : grows (read_node p). Proof. by intros w. Qed.
Lemma grows_emit e : grows (emit e). Proof. intros w. by exists [e]. Qed.
Lemma grows_mod_ctx f : grows (mod_ctx f). Proof. by intros w. Qed.
Lemma grows_mod_node p f : grows (mod_node p f).
Proof. intros w. simpl. by rewrite upd_log. Qed.
Lemma grows_when b m : grows m -> grows (when b m).
Proof. destruct b; [done|]. intros _; apply grows_ret. Qed.
Lemma grows_mod_timer t f : grows (mod_timer t f).
Proof. destruct t; simpl; auto using grows_mod_node, grows_mod_ctx. Qed.
Lemma grows_set_timer t cb arg d : grows (tinymac_set_timer t cb arg d).
Proof. apply grows_bind; [apply grows_get_ctx|intros c]. apply grows_mod_timer. Qed.
Lemma grows_cancel_timer t : grows (tinymac_cancel_timer t).
Proof. apply grows_mod_timer. Qed.

#[export] Hint Resolve grows_ret grows_get_ctx grows_get_log grows_read grows_emit grows_mod_ctx
  grows_mod_node grows_mod_timer grows_set_timer grows_cancel_timer : frame.

Ltac grows_step :=
  lazymatch goal with
  | |- grows (bind _ _) => apply grows_bind; [|intros ?]
  | |- grows (when _ _) => apply grows_when
  | |- grows (if ?b then _ else _) => destruct b
  | |- grows (match ?x with _ => _ end) => destruct x
  | |- grows (let _ := _ in _) => cbn zeta
  end.
Ltac grows_auto := repeat first [solve [eauto 4 with frame] | grows_step].

Section Grows.
Context `{E : Env}.

Lemma grows_phy_send bufs fl : grows (tinymac_phy_send bufs fl).
Proof. unfold tinymac_phy_send, phy_send. grows_auto. Qed.
Hint Resolve grows_phy_send : frame.
Lemma grows_tx_packet d ft buf v cb : grows (tinymac_tx_packet d ft buf v cb).
Proof. unfold tinymac_tx_packet. grows_auto. Qed.
Hint Resolve grows_tx_packet : frame.
Lemma grows_send d t buf v cb : grows (tinymac_send d t buf v cb).
Proof. unfold tinymac_send. grows_auto. Qed.
Hint Resolve grows_send : frame.
Lemma grows_run_app prog : grows (run_app prog).
Proof. induction prog; simpl; unfold tinymac_permit_attach; grows_auto. Qed.
Hint Resolve grows_run_app : frame.
Lemma grows_upcall e : grows (upcall e).
Proof. unfold upcall. grows_auto. Qed.
Hint Resolve grows_upcall : frame.
Lemma grows_call_send_cb p r : grows (call_send_cb p r).
Proof. unfold call_send_cb. grows_auto. Qed.
Hint Resolve grows_call_send_cb : frame.
Lemma grows_deregister_node p : grows (tinymac_deregister_node p).
Proof. unfold tinymac_deregister_node. grows_auto. Qed.
Hint Resolve grows_deregister_node : frame.

(** A callback is the first thing its invocation logs. *)
Lemma upcall_logs e w : (e :: log w) `suffix_of` log (snd (upcall e w)).
Proof.
  unfold upcall. autorewrite with run. etrans; [|apply grows_run_app]. done.
Qed.
End Grows.
#[export] Hint Resolve grows_phy_send grows_tx_packet grows_send grows_run_app grows_upcall
  grows_call_send_cb grows_deregister_node : frame.
