(* ===== verification/MacLocal.v ===== *)
(** * The MAC observes only its own calls

    What a function of the MAC does depends on the PHY driver through the results
    of the [phy_send] calls it makes, and on nothing else: two drivers that
    return the same for the calls made between the beginning and the end of a
    run give the same run.  A driver whose answers change with what happens
    outside the MAC can therefore stand behind it one call at a time
    ([SensorNode.v]). *)

From stdpp Require Import base list numbers.
From Stdlib Require Import ZArith Lia.
From S2P Require Import Prelude Wire MacState Mac MacRun.

(** The same PHY and application with other results of [phy_send]. *)
Definition with_rc (E : Env) (rc : list event -> Z) : Env :=
  {| phy_mtu := @phy_mtu E; phy_send_rc := rc; app := @app E |}.

(** [rc] and [rc'] agree on the sends after [l] and up to [l']. *)
Definition agree (rc rc' : list event -> Z) (l l' : list event) : Prop :=
  forall bufs fl k, l `suffix_of` k -> (EvPhySend bufs fl :: k) `suffix_of` l' ->
    rc (EvPhySend bufs fl :: k) = rc' (EvPhySend bufs fl :: k).

Lemma agree_split rc rc' l1 l2 l3 :
  l1 `suffix_of` l2 -> l2 `suffix_of` l3 -> agree rc rc' l1 l3 -> agree rc rc' l1 l2 /\ agree rc rc' l2 l3.
Proof.
  intros H12 H23 H. split; intros bufs fl k Hk Hk'; apply H; try done; by etrans.
Qed.

Section Local.
Context (E : Env) (rc' : list event -> Z).

(** [m] under [E] and [m'] under [with_rc E rc'] are the same run. *)
Definition same_run {A} (m m' : M A) : Prop :=
  grows m /\ forall w, agree (@phy_send_rc E) rc' (log w) (log (snd (m w))) -> m' w = m w.

Create HintDb local discriminated.

Lemma same_run_refl {A} (m : M A) : grows m -> same_run m m.
Proof. by split. Qed.

Lemma same_run_bind {A B} (m m' : M A) (k k' : A -> M B) :
  same_run m m' -> (forall a, same_run (k a) (k' a)) -> same_run (bind m k) (bind m' k').
Proof.
  intros [G H] Hk. split; [apply grows_bind; [done|intros a; apply Hk]|].
  intros w Ha. rewrite bind_run in Ha. rewrite !bind_run.
  destruct (agree_split _ _ _ (log (snd (m w))) _ (G w) (proj1 (Hk _) _) Ha) as [H1 H2].
  rewrite H by done. by apply Hk.
Qed.

Lemma same_run_when b m m' : same_run m m' -> same_run (when b m) (when b m').
Proof. intros H. destruct b; [done|]. apply same_run_refl, grows_ret. Qed.

Lemma same_run_for_each {A} (l : list A) b b' :
  (forall x, same_run (b x) (b' x)) -> same_run (for_each l b) (for_each l b').
Proof.
  intros Hb. induction l as [|x l IH]; [apply same_run_refl, grows_ret|].
  apply same_run_bind; [apply Hb|done].
Qed.

Lemma same_run_phy_send bufs fl :
  same_run (@phy_send E bufs fl) (@phy_send (with_rc E rc') bufs fl).
Proof.
  split; [unfold phy_send; grows_auto|]. intros w Ha. unfold phy_send. rewrite !bind_run. cbn. f_equal.
  symmetry. by apply Ha.
Qed.

#[local] Hint Resolve same_run_phy_send : local.
#[local] Hint Extern 5 (same_run ?m ?m) => apply same_run_refl; solve [eauto 4 with frame] : local.

Ltac local_step :=
  lazymatch goal with
  | |- same_run (bind _ _) (bind _ _) => apply same_run_bind; [|intros ?]
  | |- same_run (when _ _) _ => apply same_run_when
  | |- same_run (for_each _ _) _ => apply same_run_for_each; intros ?
  | |- same_run (match ?x with _ => _ end) _ => destruct x
  | |- same_run (let _ := _ in _) _ => cbn zeta
  end.
Ltac local_auto := repeat first [solve [eauto 3 with local] | local_step].

Lemma same_run_mac_phy_send bufs fl :
  same_run (@tinymac_phy_send E bufs fl) (@tinymac_phy_send (with_rc E rc') bufs fl).
Proof. unfold tinymac_phy_send. local_auto. Qed.
Hint Resolve same_run_mac_phy_send : local.

Lemma same_run_tx_packet d ft buf v cb :
  same_run (@tinymac_tx_packet E d ft buf v cb) (@tinymac_tx_packet (with_rc E rc') d ft buf v cb).
Proof. unfold tinymac_tx_packet. local_auto. Qed.
Hint Resolve same_run_tx_packet : local.

Lemma same_run_send d t buf v cb :
  same_run (@tinymac_send E d t buf v cb) (@tinymac_send (with_rc E rc') d t buf v cb).
Proof. unfold tinymac_send. local_auto. Qed.
Hint Resolve same_run_send : local.

Lemma same_run_run_app prog : same_run (@run_app E prog) (@run_app (with_rc E rc') prog).
Proof. induction prog; cbn [run_app]; unfold tinymac_permit_attach; local_auto. Qed.
Hint Resolve same_run_run_app : local.

Lemma same_run_upcall e : same_run (@upcall E e) (@upcall (with_rc E rc') e).
Proof. unfold upcall. local_auto. Qed.
Hint Resolve same_run_upcall : local.

Lemma same_run_call_send_cb p r : same_run (@call_send_cb E p r) (@call_send_cb (with_rc E rc') p r).
Proof. unfold call_send_cb. local_auto. Qed.
Hint Resolve same_run_call_send_cb : local.

Lemma same_run_deregister p :
  same_run (@tinymac_deregister_node E p) (@tinymac_deregister_node (with_rc E rc') p).
Proof. unfold tinymac_deregister_node. local_auto. Qed.
Hint Resolve same_run_deregister : local.

Lemma same_run_run_timer_fn fn arg : same_run (@run_timer_fn E fn arg) (@run_timer_fn (with_rc E rc') fn arg).
Proof.
  unfold run_timer_fn, tinymac_request_timeout, tinymac_validity_timeout, tinymac_ack_timeout. local_auto.
Qed.
Hint Resolve same_run_run_timer_fn : local.

Lemma same_run_read_timer t : same_run (read_timer t) (read_timer t).
Proof. apply same_run_refl. destruct t; cbn; grows_auto. Qed.
Hint Resolve same_run_read_timer : local.

Lemma same_run_despatch t : same_run (@tinymac_despatch_timer E t) (@tinymac_despatch_timer (with_rc E rc') t).
Proof. unfold tinymac_despatch_timer. local_auto. Qed.
Hint Resolve same_run_despatch : local.

Lemma same_run_tx_pending p : same_run (@tinymac_tx_pending E p) (@tinymac_tx_pending (with_rc E rc') p).
Proof. unfold tinymac_tx_pending. local_auto. Qed.
Hint Resolve same_run_tx_pending : local.

Lemma same_run_tx_ack p q : same_run (@tinymac_tx_ack E p q) (@tinymac_tx_ack (with_rc E rc') p q).
Proof. unfold tinymac_tx_ack. local_auto. Qed.
Hint Resolve same_run_tx_ack : local.

Lemma same_run_tx_beacon b : same_run (@tinymac_tx_beacon E b) (@tinymac_tx_beacon (with_rc E rc') b).
Proof. unfold tinymac_tx_beacon. local_auto. Qed.
Hint Resolve same_run_tx_beacon : local.

(** ** The MAC's entry points *)

Lemma same_run_tick : same_run (@tinymac_tick_handler E) (@tinymac_tick_handler (with_rc E rc')).
Proof. unfold tinymac_tick_handler, tick_coordinator, tick_client, tick_node. local_auto. Qed.

Lemma same_run_recv buf rssi :
  same_run (@tinymac_recv_cb E buf rssi) (@tinymac_recv_cb (with_rc E rc') buf rssi).
Proof.
  unfold tinymac_recv_cb, rx_known_source, rx_unknown_source, rx_despatch, rx_ack, tinymac_rx_beacon,
    rx_beacon_attach, tinymac_rx_registration_request, tinymac_rx_registration_response,
    tinymac_rx_deregistration_request.
  local_auto.
Qed.

Lemma same_run_init P r1 r2 r3 :
  same_run (@tinymac_init E P r1 r2 r3) (@tinymac_init (with_rc E rc') P r1 r2 r3).
Proof. unfold tinymac_init. change (@phy_mtu (with_rc E rc')) with (@phy_mtu E). local_auto. Qed.
End Local.
