(* ===== verification/MacEx.v ===== *)
(** * Concrete MAC instances

    A quiet environment (the PHY accepts everything, the application does
    nothing in its callbacks), a coordinator and a client brought up through
    the public interface, and packets for them: the inputs on which the
    general theorems are instantiated. *)

From stdpp Require Import base list numbers.
From Stdlib Require Import ZArith Lia.
From S2P Require Import Prelude Wire MacState Mac MacInv MacRun.

Definition env_quiet : Env := {| phy_mtu := 254; phy_send_rc := fun _ => 0; app := fun _ => AppReturn |}.

Definition packet (flags net dest src seq : Z) (payload : list Z) : list Z :=
  header_bytes (mk_header flags net dest src seq) ++ payload.

Definition ex_uuid : Z := 0x123456789abcdef0.

(** ** A coordinator on network 7 *)

Definition coord_params : tinymac_params_t := mk_params 0x1122 true 0 3 0.

Definition recv (buf : list Z) (w : world) : world := snd (@tinymac_recv_cb env_quiet buf (-40) w).
Definition tick (w : world) : world := snd (@tinymac_tick_handler env_quiet w).
Definition send (dest type : Z) (buf : list Z) (cb : option Z) (w : world) : world :=
  snd (@tinymac_send env_quiet dest type buf 0 cb w).

Definition coord0 : world :=
  snd (tinymac_register_dereg_cb true
    (snd (tinymac_register_recv_cb true
      (snd (tinymac_permit_attach true
        (snd (@tinymac_init env_quiet coord_params 10 20 7 world_zero))))))).

(** Registration request of a device with the given UUID and node flags. *)
Definition reg_request (uuid flags : Z) : list Z :=
  packet (type_code tinymacType_RegistrationRequest) 7 0 0xFF 1
    (reg_request_bytes (mk_reg_request uuid flags)).

(** A mains-powered (5: 32 s heartbeat) and a sleepy node, in slot 0 (address 1). *)
Definition coord_awake : world := recv (reg_request ex_uuid 5) coord0.
Definition coord_sleepy : world := recv (reg_request ex_uuid (16 + 5)) coord0.

(** Data packet type with an acknowledgement request. *)
Definition data_ack : Z := type_code tinymacType_RawData + 64.

(** A packet in flight to the awake node, and one waiting for the sleepy node. *)
Definition coord_waitack : world := send 1 data_ack [1; 2; 3] (Some 9) coord_awake.
Definition coord_pending : world := send 1 data_ack [1; 2; 3] (Some 9) coord_sleepy.

(** ** A client *)

Definition client_params : tinymac_params_t := mk_params ex_uuid false 5 0 0.

Definition client0 : world :=
  snd (tinymac_register_dereg_cb true
    (snd (@tinymac_init env_quiet client_params 10 20 7 world_zero))).

Definition ex_beacon : list Z :=
  packet (type_code tinymacType_Beacon) 7 0xFF 0 1
    (beacon_bytes (mk_beacon 0x1122 0 TINYMAC_BEACON_FLAGS_PERMIT_ATTACH 0x0f)).

Definition ex_response : list Z :=
  packet (type_code tinymacType_RegistrationResponse) 7 0xFF 0 2
    (reg_response_bytes (mk_reg_response ex_uuid 1 0)).

Definition client_requesting : world := tick client0.
Definition client_registering : world := recv ex_beacon client_requesting.
Definition client_registered : world := recv ex_response client_registering.
Definition client_waitack : world := send 0 data_ack [1; 2; 3] (Some 9) client_registered.

(** ** They are reachable *)

(** Byte strings given by a computation. *)
Definition bytesb (l : list Z) : bool := forallb (fun b => (0 <=? b) && (b <? 256)) l.
Lemma bytesb_ok l : bytesb l = true -> bytes l.
Proof.
  unfold bytesb. rewrite forallb_forall. intros H. apply List.Forall_forall. intros x Hx.
  apply H in Hx. boolify. widths; lia.
Qed.

Lemma coord0_reachable : @reachable env_quiet coord_params coord0.
Proof.
  unfold coord0. do 3 (eapply reach_step; [|constructor]). apply reach_boot.
  repeat split; vm_compute; congruence.
Qed.

Lemma client0_reachable : @reachable env_quiet client_params client0.
Proof.
  unfold client0. eapply reach_step; [|constructor]. apply reach_boot.
  repeat split; vm_compute; congruence.
Qed.

Lemma reachable_recv P buf w :
  bytesb buf = true -> @reachable env_quiet P w -> @reachable env_quiet P (recv buf w).
Proof. intros Hb Hw. eapply reach_step; [exact Hw|]. constructor. by apply bytesb_ok. Qed.

Lemma reachable_tick P w : @reachable env_quiet P w -> @reachable env_quiet P (tick w).
Proof. intros Hw. eapply reach_step; [exact Hw|]. constructor. Qed.

Lemma reachable_send P dest type buf cb w :
  (0 <=? dest) && (dest <? 256) = true -> (0 <=? type) && (type <? 256) = true ->
  bytesb buf = true -> @reachable env_quiet P w -> @reachable env_quiet P (send dest type buf cb w).
Proof.
  intros Hd Ht Hb Hw. eapply reach_step; [exact Hw|]. boolify.
  constructor; try by apply bytesb_ok. all: widths; lia.
Qed.

Lemma coord_awake_reachable : @reachable env_quiet coord_params coord_awake.
Proof. apply reachable_recv; [reflexivity|]. apply coord0_reachable. Qed.
Lemma coord_sleepy_reachable : @reachable env_quiet coord_params coord_sleepy.
Proof. apply reachable_recv; [reflexivity|]. apply coord0_reachable. Qed.
Lemma coord_waitack_reachable : @reachable env_quiet coord_params coord_waitack.
Proof. apply reachable_send; try reflexivity. apply coord_awake_reachable. Qed.
Lemma coord_pending_reachable : @reachable env_quiet coord_params coord_pending.
Proof. apply reachable_send; try reflexivity. apply coord_sleepy_reachable. Qed.
Lemma client_registered_reachable : @reachable env_quiet client_params client_registered.
Proof.
  do 2 (apply reachable_recv; [reflexivity|]). apply reachable_tick, client0_reachable.
Qed.
Lemma client_waitack_reachable : @reachable env_quiet client_params client_waitack.
Proof. apply reachable_send; try reflexivity. apply client_registered_reachable. Qed.
