(* ===== verification/MacTx.v ===== *)
(** * Transmission: refusal, deferral, acknowledgement and retransmission

    Properties of [tinymac_send], [tinymac_tx_packet], [tinymac_tx_pending],
    [tinymac_tx_ack], [tinymac_ack_timeout] and the acknowledgement branch of
    [tinymac_recv_cb]. *)

From stdpp Require Import base list numbers.
From Stdlib Require Import ZArith Lia.
From S2P Require Import Prelude Wire MacState Mac MacInv MacRun MacEx.

Section Tx.
Context `{E : Env}.

(** The header [tinymac_tx_packet] builds in a world. *)
Definition tx_header (w : world) (flags_type dest_addr : Z) : tinymac_header_t :=
  mk_header flags_type (m_net_id (ctx w)) dest_addr (m_addr (ctx w)) (u8 (m_dseq (ctx w) + 1)).

Definition fits (w : world) (buf : list Z) : Prop :=
  Z.of_nat (length buf) <= TINYMAC_MAX_PAYLOAD /\
  Z.of_nat (length buf) + sizeof_header <= m_phy_mtu (ctx w).

Lemma fits_guard w buf :
  fits w buf ->
  (TINYMAC_MAX_PAYLOAD <? Z.of_nat (length buf)) ||
  (m_phy_mtu (ctx w) <? Z.of_nat (length buf) + sizeof_header) = false.
Proof.
  intros [H1 H2]. apply orb_false_iff; split; apply Z.ltb_ge; lia.
Qed.

(** The world after the sequence number has been taken. *)
Definition bump (w : world) : world := set_ctx (set_m_dseq (u8 (m_dseq (ctx w) + 1)) (ctx w)) w.

Lemma node_at_bump p w : node_at p (bump w) = node_at p w.
Proof. by destruct p. Qed.
Lemma valid_bump p w : valid p w -> valid p (bump w).
Proof. by destruct p. Qed.

(** The stored copy of a packet. *)
Definition store (hdr : tinymac_header_t) (buf : list Z) (cb : option Z) (n : tinymac_node_t)
    : tinymac_node_t :=
  set_n_retries TINYMAC_MAX_RETRIES
    (set_n_send_cb cb
       (set_n_pending_size (Z.of_nat (length buf))
          (set_n_pending_header hdr
             (set_n_pending (memcpy (n_pending n) buf) n)))).

Lemma store_pending_bufs hdr buf cb n :
  pending_bufs (n_pending_header (store hdr buf cb n)) (store hdr buf cb n) =
  [header_bytes hdr; buf].
Proof.
  unfold pending_bufs, store, memcpy; simpl. by rewrite Nat2Z.id, take_app_length.
Qed.

(** Outcome of a unicast that passes the size check, per branch. *)
Lemma tx_packet_busy p ft buf v cb w :
  fits w buf -> n_state (node_at p w) <> tinymacNodeState_Registered ->
  tinymac_tx_packet (Some p) ft buf v cb w = (-1, bump w).
Proof.
  intros Hf Hs. unfold tinymac_tx_packet. autorewrite with run.
  rewrite fits_guard by done. autorewrite with run. fold (bump w).
  rewrite node_at_bump, bool_decide_eq_false_2 by done. done.
Qed.

Lemma tx_packet_deferred p ft buf v cb w :
  valid p w -> fits w buf -> n_state (node_at p w) = tinymacNodeState_Registered ->
  sleepy (n_flags (node_at p w)) = true ->
  tinymac_tx_packet (Some p) ft buf v cb w =
  (0, upd_node p (fun n =>
        set_n_state tinymacNodeState_SendPending
          (set_n_validity_timer
             (mk_timer (Some fn_validity_timeout) (Some p)
                (u32 (m_tick_count (ctx w) + TINYMAC_SECONDS v)))
             (store (tx_header w ft (n_addr (node_at p w))) buf cb n))) (bump w)).
Proof.
  intros Hv Hf Hs Hsl. unfold tinymac_tx_packet. autorewrite with run.
  rewrite fits_guard by done. autorewrite with run. fold (bump w).
  rewrite node_at_bump, bool_decide_eq_true_2, Hsl, orb_true_r by done.
  unfold when, negb, tinymac_set_timer, mod_timer. cbv iota. autorewrite with run.
  rewrite !upd_upd. rewrite lor_version.
  by destruct p.
Qed.

Lemma tx_packet_acked p ft buf v cb w :
  valid p w -> fits w buf -> n_state (node_at p w) = tinymacNodeState_Registered ->
  sleepy (n_flags (node_at p w)) = false -> (ft &? TINYMAC_FLAGS_ACK_REQUEST) = true ->
  tinymac_tx_packet (Some p) ft buf v cb w =
  tinymac_phy_send [header_bytes (tx_header w ft (n_addr (node_at p w))); buf] 0
    (upd_node p (fun n =>
        set_n_state tinymacNodeState_WaitAck
          (set_n_ack_timer
             (mk_timer (Some fn_ack_timeout) (Some p)
                (u32 (m_tick_count (ctx w) + TINYMAC_MILLIS TINYMAC_ACK_TIMEOUT)))
             (store (tx_header w ft (n_addr (node_at p w))) buf cb n))) (bump w)).
Proof.
  intros Hv Hf Hs Hsl Hack. unfold tinymac_tx_packet. autorewrite with run.
  rewrite fits_guard by done. autorewrite with run. fold (bump w).
  rewrite node_at_bump, bool_decide_eq_true_2, Hsl, Hack, orb_true_l by done.
  unfold when, negb, tinymac_set_timer, mod_timer. cbv iota. autorewrite with run.
  rewrite !upd_upd, lor_version. by destruct p.
Qed.

Lemma tx_packet_plain p ft buf v cb w :
  fits w buf -> n_state (node_at p w) = tinymacNodeState_Registered ->
  sleepy (n_flags (node_at p w)) = false -> (ft &? TINYMAC_FLAGS_ACK_REQUEST) = false ->
  tinymac_tx_packet (Some p) ft buf v cb w =
  tinymac_phy_send [header_bytes (tx_header w ft (n_addr (node_at p w))); buf] 0 (bump w).
Proof.
  intros Hf Hs Hsl Hack. unfold tinymac_tx_packet. autorewrite with run.
  rewrite fits_guard by done. autorewrite with run. fold (bump w).
  rewrite node_at_bump, bool_decide_eq_true_2, Hsl, Hack by done.
  change (negb true) with false. cbv iota. simpl orb. unfold when. autorewrite with run.
  by rewrite lor_version.
Qed.

(** What [tinymac_phy_send] does to the world. *)
Definition phy_log (sleepy_self : bool) (bufs : list (list Z)) (flags : Z) (l : list event)
    : list event :=
  let l' := EvPhySend bufs flags :: l in
  if sleepy_self then
    (if phy_send_rc l' <? 0 then EvPhyStandby else EvPhyDelayedStandby TINYMAC_LISTEN_PERIOD_US) :: l'
  else l'.

Lemma phy_send_run bufs flags w :
  tinymac_phy_send bufs flags w =
  (phy_send_rc (EvPhySend bufs flags :: log w),
   set_log (phy_log (sleepy (p_flags (m_params (ctx w)))) bufs flags (log w)) w).
Proof.
  unfold tinymac_phy_send, phy_send, phy_log, when. autorewrite with run.
  destruct (sleepy _); simpl; [|by autorewrite with run].
  destruct (_ <? 0); by autorewrite with run.
Qed.

Lemma tx_broadcast_run ft buf v cb w :
  fits w buf ->
  snd (tinymac_tx_packet None ft buf v cb w) =
  set_log (phy_log (sleepy (p_flags (m_params (ctx w))))
     [header_bytes (tx_header w ft TINYMAC_ADDR_BROADCAST); buf] 0 (log w)) (bump w).
Proof.
  intros Hf. unfold tinymac_tx_packet. autorewrite with run. rewrite fits_guard by done.
  autorewrite with run. fold (bump w). rewrite phy_send_run, lor_version. done.
Qed.

(** ** Refusal *)

Lemma refused_send dest type buf v cb w :
  Z.land type TINYMAC_FLAGS_TYPE_MASK < type_code tinymacType_RawData \/
  tinymac_get_node_by_addr (ctx w) dest = None \/
  (exists p, tinymac_get_node_by_addr (ctx w) dest = Some p /\
             (~ fits w buf \/ n_state (node_at p w) <> tinymacNodeState_Registered)) ->
  exists w', tinymac_send dest type buf v cb w = (-1, w') /\
    log w' = log w /\ m_nodes (ctx w') = m_nodes (ctx w) /\ m_coord (ctx w') = m_coord (ctx w).
Proof.
  intros H. unfold tinymac_send.
  destruct (_ <? _) eqn:Et; [eexists; split_and!; done|]. boolify.
  autorewrite with run. destruct H as [H|[->|(p & -> & H)]]; [lia|eexists; split_and!; done|].
  autorewrite with run.
  destruct (decide (fits w buf)) as [Hf|Hf].
  - destruct H as [H|H]; [done|]. rewrite tx_packet_busy by done. by exists (bump w).
  - unfold tinymac_tx_packet. autorewrite with run.
    destruct (_ || _) eqn:Eg; [by exists w|]. exfalso. apply Hf. boolify. split; lia.
Qed.

(** A send is refused with [-1] when the type is a MAC type, the
    destination is not registered, the destination already has a packet in
    flight, or the packet exceeds the payload or PHY limit; nothing is
    transmitted, no callback runs, and no node is changed. *)
Theorem send_refused dest type buf v cb w :
  Z.land type TINYMAC_FLAGS_TYPE_MASK < type_code tinymacType_RawData \/
  tinymac_get_node_by_addr (ctx w) dest = None \/
  (exists p, tinymac_get_node_by_addr (ctx w) dest = Some p /\
             (~ fits w buf \/ n_state (node_at p w) <> tinymacNodeState_Registered)) ->
  exists w', tinymac_send dest type buf v cb w = (-1, w') /\
    log w' = log w /\ m_nodes (ctx w') = m_nodes (ctx w) /\ m_coord (ctx w') = m_coord (ctx w).
Proof. apply refused_send. Qed.

(** ** Deferral to a sleepy node *)

Lemma valid_log p l w : valid p w -> valid p (set_log l w).
Proof. by destruct p. Qed.

(** [tinymac_tx_pending] on a node with a deferred packet. *)
Lemma tx_pending_run p w :
  valid p w -> n_state (node_at p w) = tinymacNodeState_SendPending ->
  let hdr := n_pending_header (node_at p w) in
  let bufs := pending_bufs hdr (node_at p w) in
  let l := phy_log (sleepy (p_flags (m_params (ctx w)))) bufs 0 (log w) in
  tinymac_tx_pending p w =
  (0, if h_flags hdr &? TINYMAC_FLAGS_ACK_REQUEST
      then set_log l (upd_node p (fun n =>
             set_n_ack_timer (mk_timer (Some fn_ack_timeout) (Some p)
                 (u32 (m_tick_count (ctx w) + TINYMAC_MILLIS TINYMAC_ACK_TIMEOUT)))
               (set_n_state tinymacNodeState_WaitAck n)) w)
      else snd (call_send_cb p 0 (upd_node p (fun n =>
             set_n_validity_timer (set_t_callback None (n_validity_timer n))
               (set_n_state tinymacNodeState_Registered n)) (set_log l w)))).
Proof.
  intros Hv Hs. cbv zeta. unfold tinymac_tx_pending. autorewrite with run.
  rewrite bool_decide_eq_true_2 by done. unfold when at 1. cbv iota. autorewrite with run.
  destruct (_ &? _) eqn:Ea; unfold when, negb; cbv iota; autorewrite with run.
  - unfold tinymac_set_timer, mod_timer. autorewrite with run.
    rewrite bind_run, phy_send_run; simpl. autorewrite with run.
    rewrite !upd_upd, upd_log. f_equal.
    assert (Hp : forall f, m_params (ctx (upd_node p f w)) = m_params (ctx w)) by (by destruct p).
    assert (Ht : forall f, m_tick_count (ctx (upd_node p f w)) = m_tick_count (ctx w)) by (by destruct p).
    by rewrite Hp, Ht.
  - rewrite bind_run, phy_send_run; simpl. autorewrite with run.
    unfold tinymac_cancel_timer, mod_timer. autorewrite with run.
    rewrite bind_run. unfold ret. f_equal. rewrite upd_log, upd_set_log, upd_upd, <- upd_set_log.
    assert (Hp : forall f, m_params (ctx (upd_node p f w)) = m_params (ctx w)) by (by destruct p).
    by rewrite Hp.
Qed.

Lemma call_send_cb_grows p r w : log w `suffix_of` log (snd (call_send_cb p r w)).
Proof. apply grows_call_send_cb. Qed.

Lemma phy_log_send b bufs flags l : (EvPhySend bufs flags :: l) `suffix_of` phy_log b bufs flags l.
Proof. unfold phy_log. destruct b; [|done]. by eexists [_]. Qed.

(** A packet for a sleepy node is not transmitted by the send; it is kept,
    and when the node is next heard [tinymac_tx_pending] transmits exactly the
    header built at the time of the send followed by exactly the payload
    given, whatever the array held before. *)
Theorem deferred_send_roundtrip p ft buf v cb w :
  valid p w -> fits w buf -> n_state (node_at p w) = tinymacNodeState_Registered ->
  sleepy (n_flags (node_at p w)) = true ->
  exists w1, tinymac_tx_packet (Some p) ft buf v cb w = (0, w1) /\ log w1 = log w /\
    n_state (node_at p w1) = tinymacNodeState_SendPending /\
    (EvPhySend [header_bytes (tx_header w ft (n_addr (node_at p w))); buf] 0 :: log w)
      `suffix_of` log (snd (tinymac_tx_pending p w1)).
Proof.
  intros Hv Hf Hs Hsl. rewrite tx_packet_deferred by done. eexists; split_and!; [done| | |].
  - by rewrite upd_log.
  - rewrite node_at_upd by (by apply valid_bump). done.
  - set (hdr := tx_header _ _ _). set (w1 := upd_node _ _ _).
    assert (Hv1 : valid p w1) by (by apply valid_upd, valid_bump).
    assert (Es : n_state (node_at p w1) = tinymacNodeState_SendPending)
      by (unfold w1; by rewrite node_at_upd by (by apply valid_bump)).
    assert (Eb : pending_bufs (n_pending_header (node_at p w1)) (node_at p w1)
                 = [header_bytes hdr; buf]).
    { unfold w1. rewrite node_at_upd by (by apply valid_bump). apply (store_pending_bufs hdr buf cb). }
    assert (El : log w1 = log w) by (unfold w1; by rewrite upd_log).
    rewrite tx_pending_run, Eb, El by done. simpl.
    destruct (_ &? _); [apply phy_log_send|].
    etrans; [|apply call_send_cb_grows]. rewrite upd_log. apply phy_log_send.
Qed.

(** The packet transmitted to an awake node with an acknowledgement
    request is the packet every later retry transmits: an expired
    acknowledgement timer with retries left sends the same two buffers again,
    re-arms the timer and counts one retry, and the node goes on waiting. *)
Theorem retransmission_identical p ft buf v cb w :
  valid p w -> fits w buf -> n_state (node_at p w) = tinymacNodeState_Registered ->
  sleepy (n_flags (node_at p w)) = false -> (ft &? TINYMAC_FLAGS_ACK_REQUEST) = true ->
  let bufs := [header_bytes (tx_header w ft (n_addr (node_at p w))); buf] in
  let w1 := snd (tinymac_tx_packet (Some p) ft buf v cb w) in
  log w1 = phy_log (sleepy (p_flags (m_params (ctx w)))) bufs 0 (log w) /\
  n_state (node_at p w1) = tinymacNodeState_WaitAck /\
  n_retries (node_at p w1) = TINYMAC_MAX_RETRIES /\
  forall w2, node_at p w2 = node_at p w1 -> valid p w2 ->
    let w3 := snd (tinymac_ack_timeout p w2) in
    log w3 = phy_log (sleepy (p_flags (m_params (ctx w2)))) bufs 0 (log w2) /\
    n_state (node_at p w3) = tinymacNodeState_WaitAck /\
    n_retries (node_at p w3) = TINYMAC_MAX_RETRIES - 1 /\
    t_callback (n_ack_timer (node_at p w3)) = Some fn_ack_timeout.
Proof.
  intros Hv Hf Hs Hsl Hack. cbv zeta. rewrite tx_packet_acked, phy_send_run by done. cbn [snd].
  rewrite node_at_set_log, node_at_upd, node_at_bump by (by apply valid_bump).
  set (hdr := tx_header _ _ _).
  assert (Hpar : forall f, m_params (ctx (upd_node p f (bump w))) = m_params (ctx w)) by (by destruct p).
  split_and!; [|done|done|].
  - simpl. by rewrite Hpar, upd_log.
  - intros w2 E2 Hv2. unfold tinymac_ack_timeout. autorewrite with run. rewrite E2.
    cbn [n_retries n_flags set_n_state set_n_ack_timer store set_n_retries set_n_send_cb
         set_n_pending_size set_n_pending_header set_n_pending].
    change (negb (TINYMAC_MAX_RETRIES =? 0)) with true. cbv iota. rewrite Hsl.
    unfold tinymac_set_timer, mod_timer. autorewrite with run.
    rewrite bind_run, phy_send_run. cbn [fst snd ret].
    rewrite node_at_set_log, upd_upd, node_at_upd, E2, upd_log by done.
    assert (Hp2 : forall f, m_params (ctx (upd_node p f w2)) = m_params (ctx w2)) by (by destruct p).
    rewrite Hp2. split_and!; try done. simpl. f_equal. apply (store_pending_bufs hdr buf cb).
Qed.

(** ** One packet in flight per node *)

(** While a node is anything but [Registered] - in particular while a
    packet to it waits or is unacknowledged - no program of interface calls the
    application runs can change anything of that node: the stored packet, its
    callback, its timers and its retry count survive. *)
Theorem in_flight_packet_stable p prog w :
  n_state (node_at p w) <> tinymacNodeState_Registered ->
  node_at p (snd (run_app prog w)) = node_at p w.
Proof. apply busy_run_app. Qed.

(** ** Reception from a known node *)

(** The header of a packet [p] sent us that passes every filter. *)
Record heard_from (p : node_ptr) (hdr : tinymac_header_t) (w : world) : Prop := {
  hf_header : header_ok hdr;
  hf_loopback : h_src_addr hdr <> m_addr (ctx w);
  hf_assigned : h_src_addr hdr <> TINYMAC_ADDR_UNASSIGNED;
  hf_joined : m_addr (ctx w) <> TINYMAC_ADDR_UNASSIGNED;
  hf_dest : dest_accepted (ctx w) hdr = true;
  hf_anonymous : anonymous_refused (ctx w) hdr = false;
  hf_known : tinymac_get_node_by_addr (ctx w) (h_src_addr hdr) = Some p;
  hf_valid : valid p w
}.

(** The receiver's power transition, if it is a sleepy node. *)
Definition rx_power_log (hdr : tinymac_header_t) (w : world) : list event :=
  if sleepy (p_flags (m_params (ctx w))) then
    (if h_flags hdr &? TINYMAC_FLAGS_DATA_PENDING
     then EvPhyDelayedStandby TINYMAC_LISTEN_PERIOD_US else EvPhyStandby) :: log w
  else log w.

Lemma rx_power_suffix hdr w : log w `suffix_of` rx_power_log hdr w.
Proof.
  unfold rx_power_log. destruct (sleepy _); [|done]. destruct (_ &? _); by eexists [_].
Qed.

Lemma recv_known p hdr payload rssi w :
  heard_from p hdr w ->
  tinymac_recv_cb (header_bytes hdr ++ payload) rssi w =
  (rx_known_source hdr p rssi ;; rx_despatch hdr (Some p) (header_bytes hdr ++ payload))
    (set_log (rx_power_log hdr w) w).
Proof.
  intros []. unfold tinymac_recv_cb. rewrite header_roundtrip by done.
  rewrite length_app, header_bytes_length.
  replace (Z.of_nat (6 + length payload) <? sizeof_header) with false
    by (symmetry; apply Z.ltb_ge; unfold sizeof_header; lia).
  autorewrite with run.
  replace (h_src_addr hdr =? m_addr (ctx w)) with false by (symmetry; by apply Z.eqb_neq).
  rewrite hf_dest0, hf_anonymous0. unfold negb at 1. cbv iota.
  replace (m_addr (ctx w) =? TINYMAC_ADDR_UNASSIGNED) with false by (symmetry; by apply Z.eqb_neq).
  replace (h_src_addr hdr =? TINYMAC_ADDR_UNASSIGNED) with false by (symmetry; by apply Z.eqb_neq).
  rewrite hf_known0. simpl negb. cbv iota. simpl andb. cbv iota.
  unfold rx_power_log. rewrite bind_run. unfold when.
  destruct (sleepy _); [destruct (_ &? _)|]; [done|done|]. by destruct w.
Qed.

(** Refreshing the node leaves everything but two members alone. *)
Definition refresh (rssi : Z) (w : world) (n : tinymac_node_t) : tinymac_node_t :=
  set_n_rssi (i8 rssi) (set_n_last_heard (m_tick_count (ctx w)) n).

Lemma tx_pending_idle p w :
  n_state (node_at p w) <> tinymacNodeState_SendPending -> tinymac_tx_pending p w = (0, w).
Proof.
  intros Hs. unfold tinymac_tx_pending. autorewrite with run.
  by rewrite bool_decide_eq_false_2.
Qed.

Lemma rx_known_idle p hdr rssi w :
  valid p w -> (h_flags hdr &? TINYMAC_FLAGS_ACK_REQUEST) = false ->
  n_state (node_at p w) <> tinymacNodeState_SendPending ->
  rx_known_source hdr p rssi w = (tt, upd_node p (refresh rssi w) w).
Proof.
  intros Hv Ha Hs. unfold rx_known_source. autorewrite with run. rewrite Ha.
  unfold when; autorewrite with run. fold (refresh rssi w).
  rewrite bind_run, tx_pending_idle; [done|]. by rewrite node_at_upd.
Qed.

Definition is_type (t : tinymac_packet_type_t) (hdr : tinymac_header_t) : Prop :=
  Z.land (h_flags hdr) TINYMAC_FLAGS_TYPE_MASK = type_code t.

Lemma despatch_ack hdr node buf w :
  is_type tinymacType_Ack hdr -> rx_despatch hdr node buf w = rx_ack hdr node w.
Proof. intros Ht. unfold rx_despatch. by rewrite Ht. Qed.

(** An acknowledgement that is awaited. *)
Lemma ack_run p hdr payload rssi w :
  heard_from p hdr w -> is_type tinymacType_Ack hdr ->
  (h_flags hdr &? TINYMAC_FLAGS_ACK_REQUEST) = false ->
  n_state (node_at p w) = tinymacNodeState_WaitAck ->
  h_seq hdr = h_seq (n_pending_header (node_at p w)) ->
  exists w1, tinymac_recv_cb (header_bytes hdr ++ payload) rssi w = call_send_cb p 0 w1 /\
    log w1 = rx_power_log hdr w /\
    n_state (node_at p w1) = tinymacNodeState_Registered /\
    t_callback (n_ack_timer (node_at p w1)) = None /\
    t_callback (n_validity_timer (node_at p w1)) = None /\
    n_send_cb (node_at p w1) = n_send_cb (node_at p w).
Proof.
  intros Hh Ht Ha Hs Hq. rewrite (recv_known p) by done. destruct Hh.
  rewrite bind_run, rx_known_idle; cbn [fst snd]; rewrite ?node_at_set_log;
    [|by apply valid_log|done|congruence].
  rewrite despatch_ack by done. unfold rx_ack. autorewrite with run.
  rewrite node_at_upd, node_at_set_log by (by apply valid_log). simpl n_state. simpl n_pending_header.
  rewrite Hs, Hq, Z.eqb_refl. simpl. unfold tinymac_cancel_timer, mod_timer. autorewrite with run.
  rewrite !upd_upd. eexists; split; [done|].
  rewrite upd_log, node_at_upd, node_at_set_log by (by apply valid_log). done.
Qed.

(** An acknowledgement from a node that waits for one and whose sequence
    number is the pending packet's completes the send: the node is free for the
    next packet, both of its timers are cancelled, and the send callback is
    invoked with 0 - once, and as the last thing that happens. *)
Theorem ack_completes_send p hdr payload rssi w :
  heard_from p hdr w -> is_type tinymacType_Ack hdr ->
  (h_flags hdr &? TINYMAC_FLAGS_ACK_REQUEST) = false ->
  n_state (node_at p w) = tinymacNodeState_WaitAck ->
  h_seq hdr = h_seq (n_pending_header (node_at p w)) ->
  exists w1, tinymac_recv_cb (header_bytes hdr ++ payload) rssi w = call_send_cb p 0 w1 /\
    log w1 = rx_power_log hdr w /\
    n_state (node_at p w1) = tinymacNodeState_Registered /\
    t_callback (n_ack_timer (node_at p w1)) = None /\
    t_callback (n_validity_timer (node_at p w1)) = None /\
    n_send_cb (node_at p w1) = n_send_cb (node_at p w).
Proof. apply ack_run. Qed.

(** An acknowledgement that carries another sequence number, or comes when
    no acknowledgement is awaited, completes nothing: apart from the refreshed
    last-heard time and signal strength the node keeps its state, its packet
    and its timers, nothing is transmitted and no callback runs. *)
Theorem stray_ack_ignored p hdr payload rssi w :
  heard_from p hdr w -> is_type tinymacType_Ack hdr ->
  (h_flags hdr &? TINYMAC_FLAGS_ACK_REQUEST) = false ->
  n_state (node_at p w) <> tinymacNodeState_SendPending ->
  n_state (node_at p w) <> tinymacNodeState_WaitAck \/
    h_seq hdr <> h_seq (n_pending_header (node_at p w)) ->
  tinymac_recv_cb (header_bytes hdr ++ payload) rssi w =
  (tt, upd_node p (refresh rssi w) (set_log (rx_power_log hdr w) w)).
Proof.
  intros Hh Ht Ha Hp Hor. rewrite (recv_known p) by done. destruct Hh.
  rewrite bind_run, rx_known_idle; cbn [fst snd]; rewrite ?node_at_set_log;
    [|by apply valid_log|done|done].
  rewrite despatch_ack by done. unfold rx_ack. autorewrite with run.
  rewrite node_at_upd, node_at_set_log by (by apply valid_log). simpl n_state. simpl n_pending_header.
  replace (_ && _) with false; [done|]. symmetry. apply andb_false_iff.
  destruct Hor as [H|H]; [left; by apply bool_decide_eq_false_2 | right; by apply Z.eqb_neq].
Qed.

(** When a node with a deferred packet asks for an acknowledgement, and the
    PHY accepts the acknowledgement, the MAC sends first that acknowledgement -
    addressed to the node, with the sequence number received and the
    data-pending flag set - and directly after it the deferred packet, once:
    the second call of [tinymac_tx_pending] in the receive handler finds
    nothing left to send. *)
Theorem poll_gets_ack_then_packet p hdr rssi w :
  valid p w -> sleepy (p_flags (m_params (ctx w))) = false ->
  (h_flags hdr &? TINYMAC_FLAGS_ACK_REQUEST) = true ->
  n_state (node_at p w) = tinymacNodeState_SendPending ->
  (h_flags (n_pending_header (node_at p w)) &? TINYMAC_FLAGS_ACK_REQUEST) = true ->
  let ack := mk_header (Z.lor (type_code tinymacType_Ack) TINYMAC_FLAGS_DATA_PENDING)
               (m_net_id (ctx w)) (n_addr (node_at p w)) (m_addr (ctx w)) (h_seq hdr) in
  0 <= phy_send_rc (EvPhySend [header_bytes ack] 0 :: log w) ->
  let w' := snd (rx_known_source hdr p rssi w) in
  log w' = EvPhySend (pending_bufs (n_pending_header (node_at p w)) (node_at p w)) 0 ::
           EvPhySend [header_bytes ack] 0 :: log w /\
  n_state (node_at p w') = tinymacNodeState_WaitAck.
Proof.
  intros Hv Hsl Ha Hs Hpa ack Hrc. cbv zeta.
  set (w1 := upd_node p (refresh rssi w) w).
  assert (Hv1 : valid p w1) by (by apply valid_upd).
  assert (En : node_at p w1 = refresh rssi w (node_at p w)) by (by apply node_at_upd).
  assert (Ec : core (ctx w1) = core (ctx w)) by apply core_upd. apply core_fields in Ec.
  destruct Ec as (Ep & _ & _ & Enet & Eaddr & _).
  assert (El : log w1 = log w) by apply upd_log.
  set (w2 := set_log (EvPhySend [header_bytes ack] 0 :: log w) w1).
  assert (Hv2 : valid p w2) by (by apply valid_log).
  assert (En2 : node_at p w2 = refresh rssi w (node_at p w)) by (unfold w2; by rewrite node_at_set_log).
  assert (Eack : tinymac_tx_ack p (h_seq hdr) w1 = tinymac_tx_pending p w2).
  { unfold tinymac_tx_ack. autorewrite with run. rewrite En. simpl n_state. simpl n_addr.
    rewrite bool_decide_eq_true_2, lor_version, Enet, Eaddr by done. fold ack.
    rewrite bind_run, phy_send_run, El, Ep, Hsl. cbn [fst snd phy_log].
    replace (_ <? 0) with false by (symmetry; by apply Z.ltb_ge). done. }
  eassert (Erun : rx_known_source hdr p rssi w = (tt, _)).
  { unfold rx_known_source. autorewrite with run. fold (refresh rssi w). fold w1. rewrite Ha.
    unfold when at 1. cbv iota. autorewrite with run. rewrite bind_run, Eack.
    rewrite tx_pending_run; [|done|by rewrite En2]. rewrite En2.
    simpl n_pending_header. rewrite Hpa. cbn [fst snd]. autorewrite with run.
    rewrite bind_run, tx_pending_idle; [reflexivity|].
    rewrite node_at_set_log, node_at_upd by done. done. }
  rewrite Erun. cbn [snd]. rewrite node_at_set_log, node_at_upd by done. split; [|done].
  simpl log. by rewrite Ep, Hsl.
Qed.
End Tx.

(** ** Instances *)

Lemma send_refused_witness :
  exists w', @tinymac_send env_quiet 1 data_ack [5] 0 None coord_waitack = (-1, w') /\
    log w' = log coord_waitack /\ m_nodes (ctx w') = m_nodes (ctx coord_waitack) /\
    m_coord (ctx w') = m_coord (ctx coord_waitack).
Proof.
  apply (@send_refused env_quiet). right; right. exists (PNode 0).
  split; [vm_compute; reflexivity|]. right. vm_compute. discriminate.
Defined.

Lemma deferred_send_roundtrip_witness :
  exists w1, @tinymac_tx_packet env_quiet (Some (PNode 0)) data_ack [1; 2; 3] 32 (Some 9) coord_sleepy
             = (0, w1) /\ log w1 = log coord_sleepy /\
    n_state (node_at (PNode 0) w1) = tinymacNodeState_SendPending /\
    (EvPhySend [header_bytes (tx_header coord_sleepy data_ack
                  (n_addr (node_at (PNode 0) coord_sleepy))); [1; 2; 3]] 0 :: log coord_sleepy)
      `suffix_of` log (snd (@tinymac_tx_pending env_quiet (PNode 0) w1)).
Proof.
  apply (@deferred_send_roundtrip env_quiet).
  - vm_compute. lia.
  - split; vm_compute; congruence.
  - vm_compute. reflexivity.
  - vm_compute. reflexivity.
Defined.

Lemma retransmission_identical_witness :
  n_state (node_at (PNode 0) (snd (@tinymac_tx_packet env_quiet (Some (PNode 0)) data_ack [1; 2; 3]
             0 (Some 9) coord_awake))) = tinymacNodeState_WaitAck.
Proof.
  refine (proj1 (proj2 (@retransmission_identical env_quiet (PNode 0) data_ack [1; 2; 3] 0
            (Some 9) coord_awake _ _ _ _ _))).
  - vm_compute. lia.
  - split; vm_compute; congruence.
  - vm_compute. reflexivity.
  - vm_compute. reflexivity.
  - vm_compute. reflexivity.
Defined.

Lemma in_flight_packet_stable_witness :
  node_at (PNode 0) (snd (@run_app env_quiet
    (AppSend 1 data_ack [7] 0 None (fun _ => AppReturn)) coord_waitack)) =
  node_at (PNode 0) coord_waitack.
Proof.
  apply (@in_flight_packet_stable env_quiet). vm_compute. discriminate.
Defined.

(** The acknowledgement of the packet in flight to the awake node. *)
Definition ex_ack (seq : Z) : tinymac_header_t := mk_header (type_code tinymacType_Ack) 7 0 1 seq.

Lemma heard_waitack seq : is_u8 seq -> heard_from (PNode 0) (ex_ack seq) coord_waitack.
Proof.
  intros Hq. split; try (vm_compute; discriminate); try (vm_compute; reflexivity).
  - apply mk_header_ok; try done; vm_compute; split; congruence.
  - vm_compute. lia.
Qed.

Lemma ack_completes_send_witness :
  exists w1, @tinymac_recv_cb env_quiet (header_bytes (ex_ack 22) ++ []) (-40) coord_waitack =
             @call_send_cb env_quiet (PNode 0) 0 w1 /\
    log w1 = rx_power_log (ex_ack 22) coord_waitack /\
    n_state (node_at (PNode 0) w1) = tinymacNodeState_Registered /\
    t_callback (n_ack_timer (node_at (PNode 0) w1)) = None /\
    t_callback (n_validity_timer (node_at (PNode 0) w1)) = None /\
    n_send_cb (node_at (PNode 0) w1) = n_send_cb (node_at (PNode 0) coord_waitack).
Proof.
  apply (@ack_completes_send env_quiet).
  - apply heard_waitack. split; lia.
  - vm_compute. reflexivity.
  - vm_compute. reflexivity.
  - vm_compute. reflexivity.
  - vm_compute. reflexivity.
Defined.

Lemma stray_ack_ignored_witness :
  @tinymac_recv_cb env_quiet (header_bytes (ex_ack 99) ++ []) (-40) coord_waitack =
  (tt, upd_node (PNode 0) (refresh (-40) coord_waitack)
         (set_log (rx_power_log (ex_ack 99) coord_waitack) coord_waitack)).
Proof.
  apply (@stray_ack_ignored env_quiet).
  - apply heard_waitack. split; lia.
  - vm_compute. reflexivity.
  - vm_compute. reflexivity.
  - vm_compute. discriminate.
  - right. vm_compute. discriminate.
Defined.

Lemma poll_gets_ack_then_packet_witness :
  n_state (node_at (PNode 0) (snd (@rx_known_source env_quiet
    (mk_header (type_code tinymacType_Poll + 64) 7 0 1 5) (PNode 0) (-40) coord_pending))) =
  tinymacNodeState_WaitAck.
Proof.
  refine (proj2 (@poll_gets_ack_then_packet env_quiet (PNode 0)
           (mk_header (type_code tinymacType_Poll + 64) 7 0 1 5) (-40) coord_pending _ _ _ _ _ _)).
  - vm_compute. lia.
  - vm_compute. reflexivity.
  - vm_compute. reflexivity.
  - vm_compute. reflexivity.
  - vm_compute. reflexivity.
  - vm_compute. discriminate.
Defined.
