(* ===== verification/MacReg.v ===== *)
(** * The coordinator's node registry

    Lookup by address, the allocation of slots against a specification on an
    abstract registry, and registration requests as a refinement of it. *)

From stdpp Require Import base list numbers.
From Stdlib Require Import ZArith Lia.
From S2P Require Import Prelude Wire MacState Mac MacInv MacRun MacEx MacTx.

(** ** Specification: a registry of (UUID, live) entries, one per short address *)

Abbreviation entry := (Z * bool)%type.

Definition live (n : tinymac_node_t) : bool :=
  negb (bool_decide (n_state n = tinymacNodeState_Unregistered)).

Definition registry (w : world) : list entry :=
  map (fun n => (n_uuid n, live n)) (m_nodes (ctx w)).

(** The first entry satisfying a test. *)
Definition first (f : entry -> bool) (reg : list entry) : option nat :=
  fst <$> list_find (fun e => f e = true) reg.

(** A device keeps its slot; a new one gets the first slot never used, failing
    that the first one whose device has gone. *)
Definition spec_slot (reg : list entry) (uuid : Z) : option nat :=
  match first (fun e => e.1 =? uuid) reg with
  | Some i => Some i
  | None =>
      match first (fun e => e.1 =? 0) reg with
      | Some i => Some i
      | None => first (fun e => negb e.2) reg
      end
  end.

Definition spec_register (reg : list entry) (uuid : Z) : list entry :=
  match spec_slot reg uuid with
  | Some i => <[i := (uuid, true)]> reg
  | None => reg
  end.

(** The response a device is sent. *)
Definition spec_response (reg : list entry) (uuid : Z) : tinymac_registration_response_t :=
  match spec_slot reg uuid with
  | Some i => mk_reg_response uuid (Z.of_nat i + 1) (status_code tinymacRegistrationStatus_Success)
  | None => mk_reg_response uuid TINYMAC_ADDR_UNASSIGNED
              (status_code tinymacRegistrationStatus_NetworkFull)
  end.

(** ** The loops of the code compute it *)

Lemma first_cons f e reg :
  first f (e :: reg) = if f e then Some O else S <$> first f reg.
Proof.
  unfold first. cbn [list_find]. destruct (f e) eqn:Ef.
  - by rewrite decide_True.
  - rewrite decide_False by congruence. destruct (list_find _ reg) as [[i x]|]; done.
Qed.

Lemma find_index_first g f (l : list tinymac_node_t) n :
  (forall x, f x = g (n_uuid x, live x)) ->
  find_index f n l = (fun i => n + i)%nat <$> first g (map (fun x => (n_uuid x, live x)) l).
Proof.
  intros Hfg. revert n; induction l as [|x l IH]; intros n; [done|].
  cbn [map find_index]. rewrite first_cons, Hfg. destruct (g _); simpl.
  - f_equal; lia.
  - rewrite IH. destruct (first g _); simpl; f_equal; lia.
Qed.

Lemma free_loop_first (l : list tinymac_node_t) n fb :
  let reg := map (fun x => (n_uuid x, live x)) l in
  free_loop n l fb =
  match first (fun e => e.1 =? 0) reg with
  | Some i => Some (n + i)%nat
  | None => match fb with
            | Some i => Some i
            | None => (fun i => n + i)%nat <$> first (fun e => negb e.2) reg
            end
  end.
Proof.
  cbv zeta. revert n fb; induction l as [|x l IH]; intros n fb; [by destruct fb|].
  cbn [map free_loop]. rewrite !first_cons. simpl fst. simpl snd.
  destruct (n_uuid x =? 0); simpl; [f_equal; lia|]. rewrite IH.
  destruct (first (fun e => e.1 =? 0) _); simpl; [f_equal; lia|].
  destruct fb; [done|]. unfold live at 2. rewrite negb_involutive.
  destruct (bool_decide _); simpl; [f_equal; lia|].
  destruct (first (fun e => negb e.2) _); simpl; [f_equal; lia|done].
Qed.

Lemma reg_slot_spec w u :
  reg_slot (ctx w) u = PNode <$> spec_slot (registry w) u.
Proof.
  unfold reg_slot, spec_slot, tinymac_get_node_by_uuid, tinymac_get_free_node, registry.
  rewrite (find_index_first (fun e => e.1 =? u)) by done.
  destruct (first (fun e => e.1 =? u) _); [done|]. simpl.
  rewrite free_loop_first. destruct (first (fun e => e.1 =? 0) _); [done|].
  by destruct (first (fun e => negb e.2) _).
Qed.

Lemma first_spec f reg i : first f reg = Some i -> exists e, reg !! i = Some e /\ f e = true.
Proof.
  unfold first. destruct (list_find _ _) as [[j e]|] eqn:El; simpl; intros; simplify_eq.
  apply list_find_Some in El as (? & ? & _). eauto.
Qed.

Lemma spec_slot_bound reg u i : spec_slot reg u = Some i -> (i < length reg)%nat.
Proof.
  unfold spec_slot. intros H.
  assert (Hf : exists f, first f reg = Some i).
  { destruct (first _ reg) eqn:E1; [simplify_eq; eauto|].
    destruct (first (fun e => e.1 =? 0) reg) eqn:E2; simplify_eq; eauto. }
  destruct Hf as (f & (e & He & _)%first_spec). by eapply lookup_lt_Some.
Qed.

(** ** Registration refines it *)

Section Reg.
Context `{E : Env}.

Lemma registry_upd i u f w :
  (forall n, n_uuid (f n) = u) -> (forall n, live (f n) = true) -> valid (PNode i) w ->
  registry (upd_node (PNode i) f w) = <[i := (u, true)]> (registry w).
Proof.
  intros Hu Hl Hv. unfold registry; simpl. apply list_eq. intros j.
  destruct (decide (i = j)) as [<-|Hne].
  - rewrite list_lookup_insert_eq by (by rewrite length_map).
    rewrite list_lookup_fmap, list_lookup_alter_eq. rewrite lookup_node_at by done.
    simpl. by rewrite Hu, Hl.
  - rewrite list_lookup_insert_ne by done.
    by rewrite !list_lookup_fmap, list_lookup_alter_ne.
Qed.

Lemma node_addr P i w : inv P w -> (i < TINYMAC_MAX_NODES)%nat ->
  n_addr (node_at (PNode i) w) = Z.of_nat i + 1.
Proof. intros Hw Hi. apply (ok_slot _ _ (node_at_ok P (PNode i) w Hw Hi)). Qed.

Lemma registration_run P w hdr u fl rest :
  inv P w -> p_coordinator P = true -> is_u64 u -> is_u16 fl ->
  16 <= m_phy_mtu (ctx w) ->
  let reg := registry w in
  exists w1,
    tinymac_rx_registration_request hdr (reg_request_bytes (mk_reg_request u fl) ++ rest) w =
      when (m_reg_cb (ctx w)) (upcall (EvRegCb (PNode <$> spec_slot reg u))) w1 /\
    registry w1 = spec_register reg u /\
    log w1 = phy_log (sleepy (p_flags P))
               [header_bytes (tx_header w (type_code tinymacType_RegistrationResponse)
                                TINYMAC_ADDR_BROADCAST);
                reg_response_bytes (spec_response reg u)] 0 (log w).
Proof.
  intros Hw Hp Hu Hfl Hmtu reg.
  pose proof Hw as [Hc _]. unfold tinymac_rx_registration_request. autorewrite with run.
  rewrite (ok_params _ _ Hc), Hp. cbv zeta. unfold negb at 1. cbv iota.
  rewrite reg_request_roundtrip by done. cbn [rq_uuid rq_flags].
  fold (reg_slot (ctx w) u). rewrite reg_slot_spec. fold reg.
  unfold spec_register, spec_response.
  assert (Hfit : forall r w', m_phy_mtu (ctx w') = m_phy_mtu (ctx w) -> fits w' (reg_response_bytes r)).
  { intros r w' Hm. unfold fits. rewrite Hm. change (length (reg_response_bytes r)) with 10%nat.
    unfold TINYMAC_MAX_PAYLOAD, sizeof_header. lia. }
  destruct (spec_slot reg u) as [i|] eqn:Es;
    [change (PNode <$> Some i) with (Some (PNode i)) | change (PNode <$> None) with (@None node_ptr)];
    cbv iota.
  - assert (Hi : (i < TINYMAC_MAX_NODES)%nat).
    { apply spec_slot_bound in Es. unfold reg, registry in Es.
      by rewrite length_map, (ok_nodes_length _ _ Hc) in Es. }
    assert (Hv : valid (PNode i) w) by (eapply ptr_ok_valid; [exact Hw|exact Hi]).
    autorewrite with run. rewrite node_at_upd by done. cbn [n_addr set_n_last_heard set_n_flags
      set_n_uuid set_n_state]. rewrite (node_addr P) by done.
    rewrite bind_run, tx_broadcast_run by (by apply Hfit). autorewrite with run.
    eexists; split_and!; [reflexivity| |].
    + change (registry (set_log ?l ?x)) with (registry x). apply registry_upd; done.
    + simpl log. rewrite (ok_params _ _ Hc). done.
  - autorewrite with run. rewrite bind_run, tx_broadcast_run by (by apply Hfit). autorewrite with run.
    eexists; split_and!; [reflexivity|done|]. simpl log. by rewrite (ok_params _ _ Hc).
Qed.

(** C3: a registration request at a coordinator refines the abstract registry:
    whatever the history, the registry becomes [spec_register] of what it was,
    exactly one packet is transmitted - the broadcast response [spec_response]
    with the device's slot, or network-full - and then the registration
    callback runs with that slot (NULL when the network is full). *)
Theorem registration_refines P w hdr u fl rest :
  reachable P w -> p_coordinator P = true -> is_u64 u -> is_u16 fl ->
  16 <= m_phy_mtu (ctx w) ->
  let reg := registry w in
  exists w1,
    tinymac_rx_registration_request hdr (reg_request_bytes (mk_reg_request u fl) ++ rest) w =
      when (m_reg_cb (ctx w)) (upcall (EvRegCb (PNode <$> spec_slot reg u))) w1 /\
    registry w1 = spec_register reg u /\
    log w1 = phy_log (sleepy (p_flags P))
               [header_bytes (tx_header w (type_code tinymacType_RegistrationResponse)
                                TINYMAC_ADDR_BROADCAST);
                reg_response_bytes (spec_response reg u)] 0 (log w).
Proof. intros Hr%reachable_inv. by apply registration_run. Qed.

(** ** Lookup by address *)

Lemma lookup_addr_spec P w a p :
  inv P w -> p_coordinator P = true ->
  tinymac_get_node_by_addr (ctx w) a = Some p <->
  exists i, p = PNode i /\ (i < TINYMAC_MAX_NODES)%nat /\ a = Z.of_nat i + 1 /\
            n_state (node_at (PNode i) w) <> tinymacNodeState_Unregistered.
Proof.
  intros Hw Hp. pose proof Hw as [Hc _].
  unfold tinymac_get_node_by_addr. rewrite (ok_params _ _ Hc), Hp.
  set (f := fun node => _ && _). split.
  - destruct (find_index f 0 _) as [i|] eqn:Ef; intros [=<-]. exists i.
    pose proof (find_index_bound _ _ _ _ Ef) as Hb. rewrite (ok_nodes_length _ _ Hc) in Hb.
    apply find_index_spec in Ef as (x & Hx & Hf & _). rewrite Nat.sub_0_r in Hx.
    unfold f in Hf. boolify. apply bool_decide_eq_false in H0.
    rewrite (node_at_lookup _ _ _ Hx). split_and!; [done|lia| |done].
    rewrite <- H. by apply (ok_slot _ _ (ok_nodes _ _ Hc _ _ Hx)).
  - intros (i & -> & Hi & -> & Hs).
    assert (Hv : valid (PNode i) w) by (eapply ptr_ok_valid; [exact Hw|exact Hi]).
    apply lookup_node_at in Hv as Hx.
    assert (Hfx : f (node_at (PNode i) w) = true).
    { unfold f. rewrite (node_addr P), Z.eqb_refl, bool_decide_eq_false_2 by done. done. }
    destruct (find_index f 0 _) as [j|] eqn:Ef; simpl.
    + apply find_index_spec in Ef as (y & Hy & Hf & _). rewrite Nat.sub_0_r in Hy.
      unfold f in Hf. boolify. apply (ok_nodes _ _ Hc) in Hy.
      pose proof (ok_slot _ _ Hy) as Hs'. simpl in Hs'. do 2 f_equal. lia.
    + by rewrite (find_index_none _ _ _ Ef _ _ Hx) in Hfx.
Qed.

(** At a coordinator a short address identifies a slot: in every reachable
    world the search by address finds exactly slot [a - 1], and only while that
    slot's device is registered. *)
Theorem address_lookup P w a p :
  reachable P w -> p_coordinator P = true ->
  tinymac_get_node_by_addr (ctx w) a = Some p <->
  exists i, p = PNode i /\ (i < TINYMAC_MAX_NODES)%nat /\ a = Z.of_nat i + 1 /\
            n_state (node_at (PNode i) w) <> tinymacNodeState_Unregistered.
Proof. intros Hr%reachable_inv. by apply lookup_addr_spec. Qed.

(** ** Deregistration *)

(** A deregistration request whose source address is not registered, or
    whose UUID is not the one registered for that address, changes nothing at
    all: no device can remove another by its address alone. *)
Lemma foreign_deregistration_ignored w hdr u r rest :
  is_u64 u -> is_u8 r ->
  (forall p, tinymac_get_node_by_addr (ctx w) (h_src_addr hdr) = Some p ->
             n_uuid (node_at p w) <> u) ->
  tinymac_rx_deregistration_request hdr (dereg_request_bytes (mk_dereg_request u r) ++ rest) w =
  (tt, w).
Proof.
  intros Hu Hr Hp. unfold tinymac_rx_deregistration_request. autorewrite with run.
  rewrite dereg_request_roundtrip by done. cbn [dr_uuid dr_reason].
  destruct (negb (p_coordinator _)); [done|].
  destruct (tinymac_get_node_by_addr _ _) as [p|]; [|done]. autorewrite with run.
  replace (n_uuid (node_at p w) =? u) with false by (symmetry; apply Z.eqb_neq; auto). done.
Qed.
End Reg.

(** ** Instances *)

Lemma registration_refines_witness :
  exists w1,
    @tinymac_rx_registration_request env_quiet (mk_header 4 7 0 255 1)
      (reg_request_bytes (mk_reg_request 77 5) ++ []) coord_awake =
      when (m_reg_cb (ctx coord_awake))
        (@upcall env_quiet (EvRegCb (PNode <$> spec_slot (registry coord_awake) 77))) w1 /\
    registry w1 = spec_register (registry coord_awake) 77 /\
    log w1 = @phy_log env_quiet (sleepy (p_flags coord_params))
               [header_bytes (tx_header coord_awake (type_code tinymacType_RegistrationResponse)
                                TINYMAC_ADDR_BROADCAST);
                reg_response_bytes (spec_response (registry coord_awake) 77)] 0 (log coord_awake).
Proof.
  refine (@registration_refines env_quiet coord_params coord_awake _ 77 5 [] _ _ _ _ _).
  - apply coord_awake_reachable.
  - reflexivity.
  - split; lia.
  - split; lia.
  - vm_compute. discriminate.
Defined.

Lemma address_lookup_witness :
  tinymac_get_node_by_addr (ctx coord_awake) 1 = Some (PNode 0).
Proof.
  refine (proj2 (@address_lookup env_quiet coord_params coord_awake 1 (PNode 0) _ _) _).
  - apply coord_awake_reachable.
  - reflexivity.
  - exists 0%nat. split_and!; [reflexivity|vm_compute; lia|reflexivity|vm_compute; discriminate].
Defined.

