(* ===== verification/MacTick.v ===== *)
(** * The periodic handler: timers, heartbeats, beacons and retries

    Properties of [tinymac_tick_handler] and of what it despatches, on a tick
    counter that wraps, and the invariant of all reachable contexts. *)

From stdpp Require Import base list numbers.
From Stdlib Require Import ZArith Lia.
From S2P Require Import Prelude Wire MacState Mac MacInv MacRun MacEx MacTx.

(** ** Timers on the wrapping counter *)

Definition timer_at (t : timer_ptr) (w : world) : tinymac_timer_t :=
  match t with
  | TAck p => n_ack_timer (node_at p w)
  | TValidity p => n_validity_timer (node_at p w)
  | TRequest => m_timer (ctx w)
  end.

Definition timer_valid (t : timer_ptr) (w : world) : Prop :=
  match t with TAck p | TValidity p => valid p w | TRequest => True end.

Definition clear_timer (t : timer_ptr) (w : world) : world :=
  snd (mod_timer t (set_t_callback None) w).

Section Tick.
Context `{E : Env}.

Lemma read_timer_run {B} t (k : tinymac_timer_t -> M B) w :
  bind (read_timer t) k w = k (timer_at t w) w.
Proof. by destruct t. Qed.

Lemma despatch_run t w :
  tinymac_despatch_timer t w =
  match t_callback (timer_at t w) with
  | Some cb => if 0 <=? i32 (m_tick_count (ctx w) - t_expiry (timer_at t w))
               then run_timer_fn cb (t_arg (timer_at t w)) (clear_timer t w)
               else (tt, w)
  | None => (tt, w)
  end.
Proof.
  unfold tinymac_despatch_timer. rewrite read_timer_run. autorewrite with run.
  destruct (t_callback _); [|done]. destruct (_ <=? _); [|done].
  rewrite bind_run. by destruct t.
Qed.

Lemma despatch_idle t w : t_callback (timer_at t w) = None -> tinymac_despatch_timer t w = (tt, w).
Proof. intros H. by rewrite despatch_run, H. Qed.

(** A timer due [j] ticks from now. *)
Lemma despatch_due t w cb arg j :
  timer_at t w = mk_timer (Some cb) arg (u32 (m_tick_count (ctx w) + j)) ->
  is_u32 (m_tick_count (ctx w)) -> - 2 ^ 31 < j <= 2 ^ 31 ->
  tinymac_despatch_timer t w =
  if j <=? 0 then run_timer_fn cb arg (clear_timer t w) else (tt, w).
Proof.
  intros Ht Hu Hj. rewrite despatch_run, Ht. cbn [t_callback t_arg t_expiry].
  rewrite <- (u32_id (m_tick_count (ctx w))) at 1 by done.
  rewrite i32_diff by lia.
  replace (m_tick_count (ctx w) - (m_tick_count (ctx w) + j)) with (- j) by lia.
  destruct (Z.leb_spec 0 (- j)), (Z.leb_spec j 0); done || lia.
Qed.

Lemma set_timer_at t cb arg d w :
  timer_valid t w ->
  timer_at t (snd (tinymac_set_timer t cb arg d w)) =
  mk_timer (Some cb) arg (u32 (m_tick_count (ctx w) + d)).
Proof.
  unfold tinymac_set_timer. autorewrite with run.
  destruct t as [p|p|]; simpl; intros Hv; rewrite ?node_at_upd by done; done.
Qed.

(** C22: a timer set with a delay of [d] ticks fires at the first despatch at
    which at least [d] ticks have passed, and not at any earlier one, however
    the 32-bit tick counter wraps in between (up to [2^31] ticks apart); when it
    fires it is cleared before its function runs with its argument. *)
Theorem timer_fires_exactly t cb arg d k w w2 :
  timer_valid t w -> is_u32 (m_tick_count (ctx w)) -> 0 <= d < 2 ^ 31 -> 0 <= k < 2 ^ 31 ->
  timer_at t w2 = timer_at t (snd (tinymac_set_timer t cb arg d w)) ->
  m_tick_count (ctx w2) = u32 (m_tick_count (ctx w) + k) ->
  tinymac_despatch_timer t w2 =
  if d <=? k then run_timer_fn cb arg (clear_timer t w2) else (tt, w2).
Proof.
  intros Hv Hu Hd Hk Ht Hc. rewrite set_timer_at in Ht by done.
  rewrite (despatch_due t w2 cb arg (d - k)); [| |rewrite Hc; apply u32_range|lia].
  - destruct (Z.leb_spec (d - k) 0), (Z.leb_spec d k); done || lia.
  - rewrite Ht, Hc. f_equal. unfold u32. rewrite Zplus_mod_idemp_l. f_equal. lia.
Qed.

(** ** Heartbeats *)

Lemma heartbeat_value fl : heartbeat fl = 2 ^ (fl mod 16).
Proof.
  unfold heartbeat. change TINYMAC_ATTACH_HEARTBEAT_MASK with (Z.ones 4).
  rewrite Z.land_ones, Z.shiftl_1_l by lia. change (2 ^ 4) with 16.
  apply u32_id. pose proof (Z.mod_pos_bound fl 16 eq_refl). split; [lia|].
  apply Z.pow_lt_mono_r; lia.
Qed.

(** The permitted silence of a node, in ticks. *)
Definition silence (fl : Z) : Z := 4 * (2 ^ (fl mod 16) + TINYMAC_HEARTBEAT_GRACE).

Lemma silence_range fl : 0 < silence fl <= 131080.
Proof.
  unfold silence, TINYMAC_HEARTBEAT_GRACE. pose proof (Z.mod_pos_bound fl 16 eq_refl).
  assert (2 ^ 0 <= 2 ^ (fl mod 16) <= 2 ^ 15) by (split; apply Z.pow_le_mono_r; lia).
  change (2 ^ 0) with 1 in *. change (2 ^ 15) with 32768 in *. lia.
Qed.

Lemma heartbeat_expired_spec node k :
  is_u32 (n_last_heard node) -> 0 <= k < 2 ^ 31 ->
  heartbeat_expired node (u32 (n_last_heard node + k)) = (silence (n_flags node) <=? k).
Proof.
  intros Hu Hk. unfold heartbeat_expired. rewrite heartbeat_value.
  pose proof (silence_range (n_flags node)) as Hs.
  assert (Hsec : TINYMAC_SECONDS (u32 (2 ^ (n_flags node mod 16) + TINYMAC_HEARTBEAT_GRACE))
                 = silence (n_flags node)).
  { unfold silence in *. rewrite u32_id; [|unfold TINYMAC_HEARTBEAT_GRACE in *; widths; lia].
    unfold TINYMAC_SECONDS, TINYMAC_TICK_MS.
    replace (_ * 1000) with (4 * (2 ^ (n_flags node mod 16) + TINYMAC_HEARTBEAT_GRACE) * 250) by lia.
    by rewrite Z.div_mul. }
  rewrite Hsec, i32_sub_u32, i32_small by lia.
  destruct (Z.leb_spec (n_last_heard node + silence (n_flags node) - (n_last_heard node + k)) 0),
    (Z.leb_spec (silence (n_flags node)) k); done || lia.
Qed.

Lemma deregister_slot_idle i w :
  valid (PNode i) w ->
  let w' := snd (tinymac_deregister_node (PNode i) w) in
  node_at (PNode i) w' = set_n_state tinymacNodeState_Unregistered (node_at (PNode i) w) /\
  (m_dereg_cb (ctx w) = true -> (EvDeregCb (PNode i) :: log w) `suffix_of` log w').
Proof.
  intros Hv. cbv zeta. unfold tinymac_deregister_node. autorewrite with run.
  rewrite bool_decide_eq_false_2 by done. change (when false ?m) with (ret tt). autorewrite with run.
  set (w1 := upd_node _ _ w).
  assert (E1 : node_at (PNode i) w1 = set_n_state tinymacNodeState_Unregistered (node_at (PNode i) w))
    by (by apply node_at_upd).
  assert (Ed : m_dereg_cb (ctx w1) = m_dereg_cb (ctx w)) by done.
  rewrite Ed. destruct (m_dereg_cb (ctx w)); [|by rewrite when_false].
  rewrite when_true, busy_upcall by (by rewrite E1). split; [done|]. intros _.
  etrans; [|apply upcall_logs]. unfold w1. by rewrite upd_log.
Qed.

(** C23: at a tick, a registered node with no packet in flight is deregistered
    exactly when [4 * (2^h + 2)] ticks (its heartbeat interval of [2^h] seconds
    and two seconds of grace) or more have passed since it was last heard, the
    tick counter wrapping as it may: before that the tick does not touch it,
    from then on the node is unregistered and the application is told. *)
Theorem heartbeat_exact i k w :
  valid (PNode i) w ->
  let n := node_at (PNode i) w in
  n_state n = tinymacNodeState_Registered -> is_u32 (n_last_heard n) ->
  t_callback (n_ack_timer n) = None -> t_callback (n_validity_timer n) = None ->
  0 <= k < 2 ^ 31 ->
  let w' := snd (tick_node (u32 (n_last_heard n + k)) i w) in
  (k < silence (n_flags n) -> w' = w) /\
  (silence (n_flags n) <= k ->
   node_at (PNode i) w' = set_n_state tinymacNodeState_Unregistered n /\
   (m_dereg_cb (ctx w) = true -> (EvDeregCb (PNode i) :: log w) `suffix_of` log w')).
Proof.
  intros Hv n Hs Hu Ha Hval Hk. cbv zeta. unfold tick_node. autorewrite with run. fold n.
  rewrite Hs, bool_decide_eq_true_2, heartbeat_expired_spec by done. cbn [andb].
  rewrite bind_run.
  assert (Hidle : forall w', n_ack_timer (node_at (PNode i) w') = n_ack_timer n ->
             n_validity_timer (node_at (PNode i) w') = n_validity_timer n ->
             (tinymac_despatch_timer (TAck (PNode i)) ;; tinymac_despatch_timer (TValidity (PNode i))) w'
             = (tt, w')).
  { intros w' H1 H2. rewrite bind_run, (despatch_idle (TAck _)); simpl snd.
    - apply despatch_idle. cbn [timer_at]. by rewrite H2.
    - cbn [timer_at]. by rewrite H1. }
  destruct (Z.leb_spec (silence (n_flags n)) k); (split; [|intros; try lia]; try lia).
  - rewrite when_true. pose proof (deregister_slot_idle i w Hv) as [E1 E2].
    fold n in E1. rewrite Hidle by (by rewrite E1). auto.
  - intros _. rewrite when_false. simpl snd. by rewrite Hidle.
Qed.

(** ** Beacons *)

Lemma beacon_due_spec P s :
  is_u8 (p_beacon_interval P) ->
  beacon_due P s = (s mod 2 ^ p_beacon_interval P =? p_beacon_offset P).
Proof.
  intros Hi. unfold beacon_due. rewrite Z.shiftl_1_l.
  rewrite Z.sub_1_r, <- Z.ones_equiv, Z.land_ones; [done|]. widths; lia.
Qed.

Lemma pending_addresses_spec P w a :
  inv P w ->
  a ∈ pending_addresses (ctx w) <->
  exists i, (i < TINYMAC_MAX_NODES)%nat /\ a = Z.of_nat i + 1 /\
            n_state (node_at (PNode i) w) = tinymacNodeState_SendPending.
Proof.
  intros Hw. pose proof Hw as [Hc _]. unfold pending_addresses. rewrite list_elem_of_fmap. split.
  - intros (n & -> & [Hs Hn]%list_elem_of_filter). apply list_elem_of_lookup in Hn as [i Hi].
    exists i. rewrite (node_at_lookup _ _ _ Hi).
    pose proof (lookup_lt_Some _ _ _ Hi) as Hlt. rewrite (ok_nodes_length _ _ Hc) in Hlt.
    split_and!; [done| |done]. apply (ok_slot _ _ (ok_nodes _ _ Hc _ _ Hi)).
  - intros (i & Hi & -> & Hs). exists (node_at (PNode i) w). split.
    + symmetry. apply (ok_slot _ _ (node_at_ok P (PNode i) w Hw Hi)).
    + apply list_elem_of_filter. split; [done|]. apply list_elem_of_lookup. exists i.
      apply lookup_node_at. by eapply ptr_ok_valid.
Qed.

Lemma filter_slots_nodup (l : list tinymac_node_t) k :
  (forall i n, l !! i = Some n -> n_addr n = Z.of_nat (i + k) + 1) ->
  NoDup (map n_addr (filter (fun n => n_state n = tinymacNodeState_SendPending) l)) /\
  forall a, a ∈ map n_addr (filter (fun n => n_state n = tinymacNodeState_SendPending) l) ->
            Z.of_nat k < a.
Proof.
  revert k; induction l as [|x l IH]; intros k Hl; [split; [constructor|by intros ? ?%elem_of_nil]|].
  assert (Hx : n_addr x = Z.of_nat k + 1) by (apply (Hl O); done).
  destruct (IH (S k)) as [Hnd Hgt].
  { intros i n Hi. rewrite (Hl (S i) n Hi). f_equal. lia. }
  rewrite filter_cons. destruct (decide _); cbn [map]; (split; [|intros a Ha]).
  - constructor; [|done]. intros Hin%Hgt. lia.
  - apply elem_of_cons in Ha as [->|Ha%Hgt]; lia.
  - done.
  - apply Hgt in Ha. lia.
Qed.

(** The beacon a coordinator sends at a tick. *)
Definition periodic_beacon_bufs (w : world) : list (list Z) :=
  let c := ctx w in
  [header_bytes (mk_header (type_code tinymacType_Beacon) (m_net_id c) TINYMAC_ADDR_BROADCAST
                   (m_addr c) (u8 (m_bseq c + 1)));
   beacon_bytes (mk_beacon (p_uuid (m_params c)) (u16 (m_slot c + 1))
                   (Z.lor TINYMAC_BEACON_FLAGS_SYNC
                      (if m_permit_attach c then TINYMAC_BEACON_FLAGS_PERMIT_ATTACH else 0))
                   TINYMAC_BEACON_INTERVAL_NO_BEACON);
   pending_addresses c].

(** At every tick a coordinator advances its slot counter (16 bits,
    wrapping) and transmits a beacon exactly when the new slot is congruent to
    the configured offset modulo [2^interval].  The beacon carries the slot,
    the permit-attach state, and the address list of exactly the nodes that
    have a packet waiting - every address once, so that the whole packet takes
    at most 50 bytes - and goes out before any per-node work of the tick. *)
Theorem periodic_beacon P w :
  reachable P w -> p_coordinator P = true ->
  let slot := u16 (m_slot (ctx w) + 1) in
  let due := slot mod 2 ^ p_beacon_interval P =? p_beacon_offset P in
  let bufs := periodic_beacon_bufs w in
  (exists w1, tick_coordinator w = for_each (seq 0 TINYMAC_MAX_NODES) (tick_node (m_tick_count (ctx w))) w1 /\
     m_slot (ctx w1) = slot /\ m_nodes (ctx w1) = m_nodes (ctx w) /\
     log w1 = if due then phy_log (sleepy (p_flags P)) bufs PHY_FLAG_IMMEDIATE (log w) else log w) /\
  (forall a, a ∈ pending_addresses (ctx w) <->
     exists i, (i < TINYMAC_MAX_NODES)%nat /\ a = Z.of_nat i + 1 /\
               n_state (node_at (PNode i) w) = tinymacNodeState_SendPending) /\
  NoDup (pending_addresses (ctx w)) /\ (length (concat bufs) <= 50)%nat.
Proof.
  intros Hr Hp. cbv zeta. apply reachable_params_ok in Hr as Hpar. apply reachable_inv in Hr as Hw.
  pose proof Hw as [Hc _]. split_and!.
  - unfold tick_coordinator. autorewrite with run. rewrite (ok_params _ _ Hc).
    rewrite beacon_due_spec by apply Hpar. destruct (_ =? _).
    + unfold when, tinymac_tx_beacon. autorewrite with run. simpl m_params.
      rewrite (ok_params _ _ Hc), Hp. unfold negb. cbv iota. autorewrite with run.
      rewrite bind_run, phy_send_run. autorewrite with run. eexists; split; [reflexivity|].
      simpl. unfold periodic_beacon_bufs. rewrite (ok_params _ _ Hc). done.
    + change (when false ?m) with (ret tt). autorewrite with run. by eexists.
  - intros a. by eapply pending_addresses_spec.
  - apply (filter_slots_nodup _ 0). intros i n Hi. rewrite Nat.add_0_r.
    apply (ok_slot _ _ (ok_nodes _ _ Hc _ _ Hi)).
  - unfold periodic_beacon_bufs, pending_addresses. cbn [concat]. rewrite !length_app.
    rewrite length_map. pose proof (length_filter (fun n => n_state n = tinymacNodeState_SendPending) (m_nodes (ctx w))).
    rewrite (ok_nodes_length _ _ Hc) in *. unfold TINYMAC_MAX_NODES in *. simpl length. lia.
Qed.

(** ** Retries of a client *)

Fixpoint ticks (n : nat) (w : world) : world :=
  match n with
  | O => w
  | S n => ticks n (snd (tinymac_tick_handler w))
  end.

(** A registered client whose packet has [r] retries left, the next one due in
    [j] ticks, and which waits for nothing else. *)
Record awaiting (r j : Z) (w : world) : Prop := {
  aw_role : p_coordinator (m_params (ctx w)) = false;
  aw_state : m_state (ctx w) = tinymacClientState_Registered;
  aw_tick : is_u32 (m_tick_count (ctx w));
  aw_wait : n_state (m_coord (ctx w)) = tinymacNodeState_WaitAck;
  aw_retries : n_retries (m_coord (ctx w)) = r;
  aw_awake : sleepy (n_flags (m_coord (ctx w))) = false;
  aw_timer : n_ack_timer (m_coord (ctx w)) =
             mk_timer (Some fn_ack_timeout) (Some PCoord) (u32 (m_tick_count (ctx w) + j));
  aw_validity : t_callback (n_validity_timer (m_coord (ctx w))) = None;
  aw_request : t_callback (m_timer (ctx w)) = None;
  aw_r : 0 <= r < 256;
  aw_j : 0 <= j < 2 ^ 31
}.

Definition advance (w : world) : world :=
  set_ctx (set_m_tick_count (u32 (m_tick_count (ctx w) + 1)) (ctx w)) w.

(** The handler on such a client: the acknowledgement timer decides. *)
Lemma tick_awaiting r j w :
  awaiting r j w ->
  tinymac_tick_handler w =
  (tt, advance (snd ((tinymac_despatch_timer (TValidity PCoord) ;; tinymac_despatch_timer TRequest)
         (if j <=? 0 then snd (tinymac_ack_timeout PCoord (clear_timer (TAck PCoord) w)) else w)))).
Proof.
  intros []. unfold tinymac_tick_handler, tick_client. autorewrite with run. rewrite aw_role0.
  autorewrite with run. rewrite bool_decide_eq_false_2 by (by rewrite aw_state0).
  change (when false ?m) with (ret tt). autorewrite with run.
  rewrite bind_run, (despatch_due (TAck PCoord) w fn_ack_timeout (Some PCoord) j) by (done || lia).
  destruct (j <=? 0); cbn [fst snd run_timer_fn]; rewrite !bind_run; done.
Qed.

(** The packet the client retransmits. *)
Definition pending_packet (w : world) : list (list Z) :=
  pending_bufs (n_pending_header (m_coord (ctx w))) (m_coord (ctx w)).

(** What stays the same while it waits. *)
Definition flight (w : world) :=
  (pending_packet w, n_send_cb (m_coord (ctx w)), m_params (ctx w)).

Lemma flight_eq w w' :
  flight w' = flight w ->
  pending_packet w' = pending_packet w /\ n_send_cb (m_coord (ctx w')) = n_send_cb (m_coord (ctx w)) /\
  m_params (ctx w') = m_params (ctx w).
Proof. unfold flight. intros H. by apply pair_eq in H as [[? ?]%pair_eq ?]. Qed.

Lemma idle_rest w :
  t_callback (n_validity_timer (m_coord (ctx w))) = None -> t_callback (m_timer (ctx w)) = None ->
  (tinymac_despatch_timer (TValidity PCoord) ;; tinymac_despatch_timer TRequest) w = (tt, w).
Proof.
  intros H1 H2. rewrite bind_run, (despatch_idle (TValidity PCoord)) by done. by apply despatch_idle.
Qed.

Lemma u32_advance t j : u32 (t + j) = u32 (u32 (t + 1) + (j - 1)).
Proof. unfold u32. rewrite Zplus_mod_idemp_l. f_equal. lia. Qed.

Lemma tick_waits r j w :
  awaiting r j w -> 0 < j ->
  let w' := snd (tinymac_tick_handler w) in
  awaiting r (j - 1) w' /\ log w' = log w /\ flight w' = flight w.
Proof.
  intros Hw Hj. cbv zeta. rewrite (tick_awaiting r j) by done.
  replace (j <=? 0) with false by (symmetry; apply Z.leb_gt; lia).
  destruct Hw. rewrite idle_rest by done. cbn [snd]. split_and!; try done.
  split; simpl; auto with width; [by rewrite aw_timer0, u32_advance|lia].
Qed.

Lemma tick_retries r w :
  awaiting r 0 w -> 0 < r ->
  let w' := snd (tinymac_tick_handler w) in
  awaiting (r - 1) 0 w' /\
  log w' = phy_log (sleepy (p_flags (m_params (ctx w)))) (pending_packet w) 0 (log w) /\
  flight w' = flight w.
Proof.
  intros Hw Hr. cbv zeta. rewrite (tick_awaiting r 0) by done. destruct Hw. change (0 <=? 0) with true. cbv iota.
  assert (Eack : tinymac_ack_timeout PCoord (clear_timer (TAck PCoord) w) =
    (tt, set_log (phy_log (sleepy (p_flags (m_params (ctx w)))) (pending_packet w) 0 (log w))
       (upd_node PCoord (fun n => set_n_ack_timer (mk_timer (Some fn_ack_timeout) (Some PCoord)
            (u32 (m_tick_count (ctx w) + 1))) (set_n_retries (u8 (r - 1)) n)) w))).
  { unfold tinymac_ack_timeout. autorewrite with run.
    change (n_retries (node_at PCoord (clear_timer (TAck PCoord) w))) with (n_retries (m_coord (ctx w))).
    rewrite aw_retries0.
    replace (r =? 0) with false by (symmetry; apply Z.eqb_neq; lia). unfold negb; cbv iota.
    assert (Ef : sleepy (n_flags (node_at PCoord (clear_timer (TAck PCoord) w))) = false) by done.
    rewrite Ef. unfold tinymac_set_timer, mod_timer. autorewrite with run.
    rewrite bind_run, phy_send_run. done. }
  rewrite Eack. cbn [snd]. rewrite idle_rest by done. cbn [snd]. split_and!; try done.
  split; simpl; auto with width; [|by rewrite Z.add_0_r, (u32_id (u32 _)) by apply u32_range|lia].
  rewrite u8_id; [done|]. widths; lia.
Qed.

Lemma tick_gives_up w cb :
  awaiting 0 0 w -> n_send_cb (m_coord (ctx w)) = Some cb ->
  let w' := snd (tinymac_tick_handler w) in
  m_state (ctx w') = tinymacClientState_Unregistered /\
  m_addr (ctx w') = TINYMAC_ADDR_UNASSIGNED /\
  n_state (m_coord (ctx w')) = tinymacNodeState_Unregistered /\
  (EvSendCb cb (-1) :: log w) `suffix_of` log w'.
Proof.
  intros Hw Hcb. cbv zeta. rewrite (tick_awaiting 0 0) by done. destruct Hw. change (0 <=? 0) with true. cbv iota.
  set (w1 := upd_node PCoord (fun n =>
    set_n_validity_timer (set_t_callback None (n_validity_timer n))
      (set_n_retries (u8 (0 - 1)) (set_n_ack_timer (set_t_callback None (n_ack_timer n)) n))) w).
  assert (Eack : tinymac_ack_timeout PCoord (clear_timer (TAck PCoord) w) =
                 tinymac_deregister_node PCoord (snd (upcall (EvSendCb cb (-1)) w1))).
  { unfold tinymac_ack_timeout. autorewrite with run.
    change (n_retries (node_at PCoord (clear_timer (TAck PCoord) w))) with (n_retries (m_coord (ctx w))).
    rewrite aw_retries0. change (negb (0 =? 0)) with false. cbv iota. unfold tinymac_cancel_timer, mod_timer.
    autorewrite with run. rewrite bind_run. f_equal. unfold call_send_cb. autorewrite with run.
    change (n_send_cb _) with (n_send_cb (m_coord (ctx w))) at 1. rewrite Hcb. done. }
  rewrite Eack. set (w2 := snd (upcall _ w1)).
  assert (E2 : m_coord (ctx w2) = m_coord (ctx w1)).
  { apply (busy_upcall PCoord). simpl. by rewrite aw_wait0. }
  assert (C2 : core (ctx w2) = core (ctx w1)) by apply keeps_upcall.
  assert (L2 : (EvSendCb cb (-1) :: log w) `suffix_of` log w2)
    by exact (upcall_logs (EvSendCb cb (-1)) w1).
  set (w3 := set_ctx (client_detach (set_m_coord (set_n_state tinymacNodeState_Unregistered
                (m_coord (ctx w2))) (ctx w2))) w2).
  assert (E4 : tinymac_deregister_node PCoord w2 =
               when (m_dereg_cb (ctx w3)) (upcall (EvDeregCb PCoord)) w3) by done.
  rewrite E4. set (w4 := snd (when _ _ w3)).
  assert (C4 : core (ctx w4) = core (ctx w3)) by (apply keeps_when, keeps_upcall).
  assert (N4 : m_coord (ctx w4) = m_coord (ctx w3)).
  { unfold w4. destruct (m_dereg_cb (ctx w3)); [|done]. by apply (busy_upcall PCoord). }
  assert (L4 : log w3 `suffix_of` log w4).
  { unfold w4. destruct (m_dereg_cb (ctx w3)); [apply grows_upcall|done]. }
  apply core_fields in C2 as (_ & _ & _ & _ & _ & _ & T2 & _).
  apply core_fields in C4 as (_ & _ & _ & _ & A4 & S4 & T4 & _).
  rewrite idle_rest; cbn [snd].
  - simpl. rewrite S4, A4, N4. split_and!; try done. by etrans.
  - rewrite N4. simpl. by rewrite E2.
  - rewrite T4. simpl. rewrite T2. done.
Qed.

(** All the retries. *)
Lemma ticks_retry r j w :
  awaiting (Z.of_nat r) (Z.of_nat j) w ->
  let w1 := ticks (j + r) w in
  awaiting 0 0 w1 /\ flight w1 = flight w /\
  log w1 = Nat.iter r (phy_log (sleepy (p_flags (m_params (ctx w)))) (pending_packet w) 0) (log w).
Proof.
  cbv zeta. revert w; induction j as [|j IHj].
  - induction r as [|r IH]; intros w Hw; [done|]. cbn [Nat.add ticks] in *.
    destruct (tick_retries _ w Hw) as (H1 & H2 & H3); [lia|].
    set (w' := snd (tinymac_tick_handler w)) in *. replace (Z.of_nat (S r) - 1) with (Z.of_nat r) in H1 by lia.
    destruct (IH w' H1) as (I1 & I2 & I3). rewrite I3, I2, H3. split_and!; try done.
    apply flight_eq in H3 as (F1 & _ & F3). rewrite Nat.iter_succ_r. by rewrite F1, F3, H2.
  - intros w Hw. cbn [Nat.add ticks].
    destruct (tick_waits _ _ w Hw) as (H1 & H2 & H3); [lia|].
    set (w' := snd (tinymac_tick_handler w)) in *. replace (Z.of_nat (S j) - 1) with (Z.of_nat j) in H1 by lia.
    destruct (IHj w' H1) as (I1 & I2 & I3). rewrite I3, I2, H3. split_and!; try done.
    apply flight_eq in H3 as (F1 & _ & F3). by rewrite F1, F3, H2.
Qed.

(** C19: a client's unacknowledged packet is not waited for for ever, whatever
    the PHY and the application do: with [r] retries left and the timer due in
    [j] ticks, the packet is retransmitted at each of [r] ticks - the same
    bytes each time, and nothing else is sent - and the tick after that gives
    up: the send callback is told [-1] and the client is unregistered. *)
Theorem unacked_send_gives_up r j w cb :
  awaiting (Z.of_nat r) (Z.of_nat j) w -> n_send_cb (m_coord (ctx w)) = Some cb ->
  let w1 := ticks (j + r) w in
  let w2 := ticks 1 w1 in
  log w1 = Nat.iter r (phy_log (sleepy (p_flags (m_params (ctx w)))) (pending_packet w) 0) (log w) /\
  m_state (ctx w1) = tinymacClientState_Registered /\
  (EvSendCb cb (-1) :: log w1) `suffix_of` log w2 /\
  m_state (ctx w2) = tinymacClientState_Unregistered /\
  m_addr (ctx w2) = TINYMAC_ADDR_UNASSIGNED.
Proof.
  intros Hw Hcb. cbv zeta. destruct (ticks_retry r j w Hw) as (H1 & H2 & H3).
  set (w1 := ticks (j + r) w) in *. apply flight_eq in H2 as (_ & F2 & _).
  destruct (tick_gives_up w1 cb H1) as (G1 & G2 & _ & G4); [congruence|].
  split_and!; try done. apply H1.
Qed.
End Tick.

(** ** The invariant of every reachable context *)

(** C1: every context reached from initialisation by any sequence of received
    packets, ticks and interface calls - with any return codes of the PHY and
    any calls the application makes from its callbacks - satisfies the
    invariant: members within their C types and buffers within their arrays,
    slot [i] owning short address [i + 1], timers holding their own function and
    node, non-zero UUIDs distinct, and client state, address and network
    consistent. *)
Theorem mac_invariant `{E : Env} P w : reachable P w -> inv P w.
Proof. apply reachable_inv. Qed.

(** ** Instances *)

Lemma mac_invariant_witness : inv coord_params coord_waitack.
Proof. apply (@mac_invariant env_quiet). apply coord_waitack_reachable. Defined.

(** A client three ticks before its counter wraps. *)
Definition near_wrap (t : Z) : world :=
  set_ctx (set_m_timer (mk_timer (Some fn_request_timeout) None 1)
    (set_m_tick_count t (ctx client0))) client0.

Lemma timer_fires_exactly_witness :
  @tinymac_despatch_timer env_quiet TRequest (near_wrap 1) =
  if 4 <=? 4 then @run_timer_fn env_quiet fn_request_timeout None (clear_timer TRequest (near_wrap 1))
  else (tt, near_wrap 1).
Proof.
  refine (@timer_fires_exactly env_quiet TRequest fn_request_timeout None 4 4
            (near_wrap (2 ^ 32 - 3)) (near_wrap 1) _ _ _ _ _ _).
  - exact I.
  - split; vm_compute; congruence.
  - lia.
  - lia.
  - vm_compute. reflexivity.
  - vm_compute. reflexivity.
Defined.

Lemma heartbeat_exact_witness :
  snd (@tick_node env_quiet (u32 (n_last_heard (node_at (PNode 0) coord_awake) + 135)) 0 coord_awake)
  = coord_awake.
Proof.
  refine (proj1 (@heartbeat_exact env_quiet 0 135 coord_awake _ _ _ _ _ _) _).
  - vm_compute. lia.
  - vm_compute. reflexivity.
  - split; vm_compute; congruence.
  - vm_compute. reflexivity.
  - vm_compute. reflexivity.
  - lia.
  - vm_compute. reflexivity.
Defined.

Lemma periodic_beacon_witness :
  NoDup (pending_addresses (ctx coord_pending)) /\
  (length (concat (periodic_beacon_bufs coord_pending)) <= 50)%nat.
Proof.
  refine (proj2 (proj2 (@periodic_beacon env_quiet coord_params coord_pending _ _))).
  - apply coord_pending_reachable.
  - reflexivity.
Defined.

Lemma unacked_send_gives_up_witness :
  m_addr (ctx (@ticks env_quiet 1 (@ticks env_quiet 4 client_waitack))) = TINYMAC_ADDR_UNASSIGNED.
Proof.
  refine (proj2 (proj2 (proj2 (proj2 (@unacked_send_gives_up env_quiet 3 1 client_waitack 9 _ _))))).
  - split; try (vm_compute; reflexivity); split; vm_compute; congruence.
  - vm_compute. reflexivity.
Defined.
