(* ===== verification/MacListen.v ===== *)
(** * The receiver's power state

    A PHY in standby receives nothing ([lib/phy.h]).  [receiver_on] reads from a
    MAC's history what it last told its PHY; a MAC that is not a sleepy node
    never turns its receiver off. *)

From stdpp Require Import base list numbers.
From Stdlib Require Import ZArith Lia.
From S2P Require Import Prelude Wire MacState Mac MacInv MacRun MacEx MacTick.

(** The last power command was not [phy_standby], and there was one.  A delayed
    standby leaves the receiver on for the listening period, which is the time a
    peer has to answer from its receive handler. *)
Fixpoint receiver_on (l : list event) : bool :=
  match l with
  | [] => false
  | EvPhyListen :: _ | EvPhyDelayedStandby _ :: _ => true
  | EvPhyStandby :: _ => false
  | _ :: l => receiver_on l
  end.

(** A MAC that is no sleepy node, with its receiver on. *)
Definition listening (w : world) : Prop :=
  sleepy (p_flags (m_params (ctx w))) = false /\ receiver_on (log w) = true.

Section Listen.
Context `{E : Env}.

Definition stays {A} (m : M A) : Prop := forall w, listening w -> listening (snd (m w)).

(** ** Rules *)

Create HintDb stays discriminated.

Lemma stays_ret {A} (a : A) : stays (ret a).
Proof. by intros w H. Qed.
Lemma stays_bind {A B} (m : M A) (k : A -> M B) : stays m -> (forall a, stays (k a)) -> stays (bind m k).
Proof. intros Hm Hk w Hw. rewrite bind_run. apply Hk, Hm, Hw. Qed.
Lemma stays_get_ctx {B} (k : tinymac_t -> M B) :
  (forall c, sleepy (p_flags (m_params c)) = false -> stays (k c)) -> stays (bind get_ctx k).
Proof. intros Hk w Hw. apply Hk; [apply Hw|exact Hw]. Qed.
Lemma stays_get_log : stays get_log.
Proof. by intros w H. Qed.
Lemma stays_read_node p : stays (read_node p).
Proof. by intros w H. Qed.
Lemma stays_read_timer t : stays (read_timer t).
Proof. by destruct t; intros w H. Qed.

Lemma stays_mod_node p f : stays (mod_node p f).
Proof. intros w []. by destruct p. Qed.
Lemma stays_mod_ctx f : (forall c, m_params (f c) = m_params c) -> stays (mod_ctx f).
Proof. intros Hf w []. split; cbn; by rewrite ?Hf. Qed.
Lemma stays_mod_timer t f : stays (mod_timer t f).
Proof. destruct t; [apply stays_mod_node..|]. by apply stays_mod_ctx. Qed.

(** Any event but standby. *)
Lemma stays_emit e : e <> EvPhyStandby -> stays (emit e).
Proof. intros He w [Hs Hr]. split; [done|]. by destruct e. Qed.

Lemma stays_when b m : (b = true -> stays m) -> stays (when b m).
Proof. destruct b; [auto|]. intros _; apply stays_ret. Qed.
Lemma stays_for_each {A} (l : list A) body : (forall x, stays (body x)) -> stays (for_each l body).
Proof. intros Hb. induction l; simpl; [apply stays_ret|]. by apply stays_bind. Qed.

#[local] Hint Resolve stays_ret stays_get_log stays_read_node stays_read_timer stays_mod_node
  stays_mod_timer : stays.
#[local] Hint Extern 2 (stays (mod_ctx _)) => by apply stays_mod_ctx : stays.
#[local] Hint Extern 2 (stays (emit _)) => by apply stays_emit : stays.

Ltac stays_step :=
  lazymatch goal with
  | |- stays (bind get_ctx _) => apply stays_get_ctx; intros ? ?
  | |- stays (bind _ _) => apply stays_bind; [|intros ?]
  | |- stays (when _ _) => apply stays_when; intros ?
  | |- stays (if ?b then _ else _) => let H := fresh "H" in destruct b eqn:H
  | |- stays (match ?x with _ => _ end) => let H := fresh "H" in destruct x eqn:H
  | |- stays (let _ := _ in _) => cbn zeta
  end.
Ltac stays_auto := repeat first [solve [eauto 4 with stays] | congruence | stays_step].

(** ** The handlers *)

Lemma stays_set_timer t cb arg d : stays (tinymac_set_timer t cb arg d).
Proof. unfold tinymac_set_timer. stays_auto. Qed.
Lemma stays_cancel_timer t : stays (tinymac_cancel_timer t).
Proof. apply stays_mod_timer. Qed.
Hint Resolve stays_set_timer stays_cancel_timer : stays.

Lemma stays_phy_send bufs fl : stays (tinymac_phy_send bufs fl).
Proof. unfold tinymac_phy_send, phy_send. stays_auto. Qed.
Hint Resolve stays_phy_send : stays.

Lemma stays_tx_packet d ft buf v cb : stays (tinymac_tx_packet d ft buf v cb).
Proof. unfold tinymac_tx_packet. stays_auto. Qed.
Hint Resolve stays_tx_packet : stays.

Lemma stays_send d t buf v cb : stays (tinymac_send d t buf v cb).
Proof. unfold tinymac_send. stays_auto. Qed.
Hint Resolve stays_send : stays.

Lemma stays_run_app prog : stays (run_app prog).
Proof. induction prog; simpl; unfold tinymac_permit_attach; stays_auto. Qed.
Hint Resolve stays_run_app : stays.

Lemma stays_upcall e : e <> EvPhyStandby -> stays (upcall e).
Proof. intros He. unfold upcall. stays_auto. Qed.
#[local] Hint Extern 2 (stays (upcall _)) => by apply stays_upcall : stays.

Lemma stays_call_send_cb p r : stays (call_send_cb p r).
Proof. unfold call_send_cb. stays_auto. Qed.
Hint Resolve stays_call_send_cb : stays.

Lemma stays_deregister p : stays (tinymac_deregister_node p).
Proof. unfold tinymac_deregister_node. stays_auto. Qed.
Hint Resolve stays_deregister : stays.

Lemma stays_run_timer_fn fn arg : stays (run_timer_fn fn arg).
Proof.
  unfold run_timer_fn, tinymac_request_timeout, tinymac_validity_timeout, tinymac_ack_timeout.
  stays_auto.
Qed.
Hint Resolve stays_run_timer_fn : stays.

Lemma stays_despatch t : stays (tinymac_despatch_timer t).
Proof. unfold tinymac_despatch_timer. stays_auto. Qed.
Lemma stays_tx_pending p : stays (tinymac_tx_pending p).
Proof. unfold tinymac_tx_pending. stays_auto. Qed.
Hint Resolve stays_despatch stays_tx_pending : stays.

Lemma stays_tx_ack p q : stays (tinymac_tx_ack p q).
Proof. unfold tinymac_tx_ack. stays_auto. Qed.
Lemma stays_tx_beacon b : stays (tinymac_tx_beacon b).
Proof. unfold tinymac_tx_beacon. stays_auto. Qed.
Hint Resolve stays_tx_ack stays_tx_beacon : stays.

Lemma stays_rx_beacon hdr pl : stays (tinymac_rx_beacon hdr pl).
Proof. unfold tinymac_rx_beacon, rx_beacon_attach. stays_auto. Qed.
Lemma stays_rx_registration_response hdr pl : stays (tinymac_rx_registration_response hdr pl).
Proof. unfold tinymac_rx_registration_response. stays_auto. Qed.
Lemma stays_rx_registration_request hdr pl : stays (tinymac_rx_registration_request hdr pl).
Proof. unfold tinymac_rx_registration_request. stays_auto. Qed.
Lemma stays_rx_deregistration_request hdr pl : stays (tinymac_rx_deregistration_request hdr pl).
Proof. unfold tinymac_rx_deregistration_request. stays_auto. Qed.
Hint Resolve stays_rx_beacon stays_rx_registration_response stays_rx_registration_request
  stays_rx_deregistration_request : stays.

Lemma stays_rx_despatch hdr node buf : stays (rx_despatch hdr node buf).
Proof. unfold rx_despatch, rx_ack. stays_auto. Qed.
Lemma stays_rx_known_source hdr p rssi : stays (rx_known_source hdr p rssi).
Proof. unfold rx_known_source. stays_auto. Qed.
Lemma stays_rx_unknown_source hdr : stays (rx_unknown_source hdr).
Proof. unfold rx_unknown_source. stays_auto. Qed.
Hint Resolve stays_rx_despatch stays_rx_known_source stays_rx_unknown_source : stays.

Lemma stays_recv_cb buf rssi : stays (tinymac_recv_cb buf rssi).
Proof. unfold tinymac_recv_cb. stays_auto. Qed.

Lemma stays_tick_handler : stays tinymac_tick_handler.
Proof.
  unfold tinymac_tick_handler, tick_coordinator, tick_client. stays_auto.
  apply stays_for_each. intros i. unfold tick_node. stays_auto.
Qed.

Lemma stays_ticks n w : listening w -> listening (ticks n w).
Proof. revert w; induction n as [|n IH]; intros w Hw; [done|]. apply IH. by apply stays_tick_handler. Qed.

Lemma step_listens w w' : listening w -> step w w' -> listening w'.
Proof.
  intros Hw Hs. destruct Hs; [by apply stays_recv_cb|by apply stays_tick_handler|by apply stays_send|..];
    unfold tinymac_permit_attach, tinymac_register_recv_cb, tinymac_register_reg_cb,
      tinymac_register_dereg_cb; by apply stays_mod_ctx.
Qed.

Lemma init_listens P r1 r2 r3 w :
  sleepy (p_flags P) = false -> listening (snd (tinymac_init P r1 r2 r3 w)).
Proof.
  intros Hs. unfold tinymac_init. autorewrite with run. rewrite !bind_run. cbn.
  destruct (p_coordinator P); cbn; rewrite Hs; by split.
Qed.

(** A coordinator or client that is not a sleepy node has its receiver on at
    all times: in no history is the last power command of a MAC without the
    sleepy flag a standby. *)
Theorem awake_always_listens P w :
  reachable P w -> sleepy (p_flags P) = false -> receiver_on (log w) = true.
Proof.
  intros Hr Hs. enough (listening w) by apply H. revert Hs.
  induction Hr as [| |P w w' Hr IH Hst]; intros Hs; [by apply init_listens..|].
  eapply step_listens; [by apply IH|done].
Qed.
End Listen.
