(* ===== verification/MacArmed.v ===== *)
(** * A node that waits has its timer armed

    The acknowledgement timer of every node that waits for an acknowledgement
    is armed and due at the current tick or the next one, in every reachable
    world of either role.  The invariant is carried through every handler with
    two parameters: the nodes whose timer may be due at the current tick (at a
    tick the handler works through them one by one), and the one node whose
    timer has just been taken down to be run. *)

From stdpp Require Import base list numbers.
From Stdlib Require Import ZArith Lia.
From S2P Require Import Prelude Wire MacState Mac MacInv MacRun MacEx MacTx MacTick.

Section Armed.
Context `{E : Env}.
Variable P : tinymac_params_t.

(** ** The invariant *)

(** The node structures of the role a context is not in. *)
Definition foreign (p : node_ptr) : Prop :=
  match p with
  | PCoord => p_coordinator P = true
  | PNode _ => p_coordinator P = false
  | PLocal => False
  end.

Definition due_soon (now : Z) (late : bool) (t : tinymac_timer_t) : Prop :=
  t_callback t = Some fn_ack_timeout /\
  (t_expiry t = u32 (now + 1) \/ (late = true /\ t_expiry t = now)).

Record slot_good (now : Z) (late : node_ptr -> bool) (x : option node_ptr) (p : node_ptr)
    (n : tinymac_node_t) : Prop := {
  sg_foreign : foreign p -> n_state n = tinymacNodeState_Unregistered;
  sg_armed : Some p <> x -> n_state n = tinymacNodeState_WaitAck -> due_soon now (late p) (n_ack_timer n)
}.

Definition good (late : node_ptr -> bool) (x : option node_ptr) (w : world) : Prop :=
  forall p, p <> PLocal -> valid p w ->
    slot_good (m_tick_count (ctx w)) late x p (node_at p w).

(** [m] keeps it. *)
Definition keeps_good {A} (m : M A) : Prop :=
  forall late x w, inv P w -> good late x w -> good late x (snd (m w)).

(** ** Rules *)

Lemma good_same late x w w' :
  (forall p, p <> PLocal -> node_at p w' = node_at p w) ->
  m_tick_count (ctx w') = m_tick_count (ctx w) ->
  length (m_nodes (ctx w')) = length (m_nodes (ctx w)) ->
  good late x w -> good late x w'.
Proof.
  intros Hn Ht Hl Hg p Hp Hv. rewrite Ht, Hn by done. apply Hg; [done|].
  destruct p; simpl in *; auto. by rewrite <- Hl.
Qed.

Lemma good_upd late x p f w :
  good late x w ->
  (p <> PLocal -> valid p w -> slot_good (m_tick_count (ctx w)) late x p (node_at p w) ->
   slot_good (m_tick_count (ctx w)) late x p (f (node_at p w))) ->
  good late x (upd_node p f w).
Proof.
  intros Hg Hf q Hq Hv.
  assert (Hv' : valid q w) by (destruct p, q; simpl in *; auto; by rewrite length_alter in Hv).
  replace (m_tick_count (ctx (upd_node p f w))) with (m_tick_count (ctx w)) by (by destruct p).
  destruct (decide (q = p)) as [->|Hne].
  - rewrite node_at_upd by done. auto.
  - rewrite node_at_upd_ne by done. auto.
Qed.

(** An assignment that leaves state and acknowledgement timer alone. *)
Lemma good_upd_frame late x p f w :
  (forall n, n_state (f n) = n_state n /\ n_ack_timer (f n) = n_ack_timer n) ->
  good late x w -> good late x (upd_node p f w).
Proof.
  intros Hf Hg. apply good_upd; [done|]. intros _ _ [H1 H2].
  destruct (Hf (node_at p w)) as [E1 E2]. by split; rewrite E1, ?E2.
Qed.

(** An assignment after which the node does not wait. *)
Lemma good_upd_idle late x p f w :
  (forall n, n_state (f n) <> tinymacNodeState_WaitAck) ->
  (foreign p -> forall n, n_state (f n) = tinymacNodeState_Unregistered) ->
  good late x w -> good late x (upd_node p f w).
Proof.
  intros Hf Hp Hg. apply good_upd; [done|]. intros _ _ _. split; [auto|]. by intros _ ?%Hf.
Qed.

(** An assignment that arms the timer for the next tick. *)
Lemma good_upd_arm late x p f w :
  ~ foreign p ->
  (forall n, n_ack_timer (f n) =
     mk_timer (Some fn_ack_timeout) (Some p) (u32 (m_tick_count (ctx w) + 1))) ->
  good late x w -> good late x (upd_node p f w).
Proof.
  intros Hp Hf Hg. apply good_upd; [done|]. intros _ _ _. split; [done|].
  intros _ _. rewrite Hf. split; [done|]. by left.
Qed.

Lemma good_log late x l w : good late x w -> good late x (set_log l w).
Proof. apply good_same; done || by intros []. Qed.

Lemma kg_bind {A B} (m : M A) (k : A -> M B) :
  pres P m -> keeps_good m -> (forall a, keeps_good (k a)) -> keeps_good (bind m k).
Proof. intros Hp Hm Hk late x w Hw Hg. rewrite bind_run. apply Hk; auto. Qed.

Lemma registered_own late x p w :
  good late x w -> p <> PLocal -> valid p w ->
  n_state (node_at p w) <> tinymacNodeState_Unregistered -> ~ foreign p.
Proof. intros Hg Hp Hv Hs Hf. by apply Hs, (Hg p Hp Hv). Qed.

(** ** Transmission *)

Lemma good_bump late x w : good late x w -> good late x (bump w).
Proof. apply good_same; done || by intros []. Qed.

Lemma tx_packet_unfit d ft buf v cb w :
  ~ fits w buf -> snd (tinymac_tx_packet d ft buf v cb w) = w.
Proof.
  intros Hf. unfold tinymac_tx_packet. autorewrite with run.
  replace (_ || _) with true; [done|]. symmetry. apply orb_true_iff. unfold fits in Hf.
  rewrite !Z.ltb_lt. lia.
Qed.

Lemma good_tx_packet late x d ft buf v cb w :
  match d with Some p => valid p w | None => True end -> good late x w ->
  good late x (snd (tinymac_tx_packet d ft buf v cb w)).
Proof.
  intros Hv Hg.
  destruct (decide (fits w buf)) as [Hf|Hf]; [|by rewrite tx_packet_unfit].
  destruct d as [p|]; [|rewrite tx_broadcast_run by done; by apply good_log, good_bump].
  apply good_bump in Hg as Hb.
  destruct (decide (n_state (node_at p w) = tinymacNodeState_Registered)) as [Hs|Hs];
    [|by rewrite tx_packet_busy].
  assert (Hown : p = PLocal \/ ~ foreign p).
  { destruct (decide (p = PLocal)); [by left|right]. eapply registered_own; [exact Hg|done|done|].
    by rewrite Hs. }
  assert (Hnf : ~ foreign p) by (destruct Hown as [->|]; auto).
  destruct (sleepy (n_flags (node_at p w))) eqn:Esl.
  - rewrite tx_packet_deferred by done. by apply good_upd_idle.
  - destruct (ft &? TINYMAC_FLAGS_ACK_REQUEST) eqn:Ea.
    + rewrite tx_packet_acked, phy_send_run by done. apply good_log, good_upd_arm; auto.
    + rewrite tx_packet_plain, phy_send_run by done. by apply good_log.
Qed.

Lemma kg_tx_packet d ft buf v cb :
  match d with Some p => ptr_ok P p | None => True end ->
  keeps_good (tinymac_tx_packet d ft buf v cb).
Proof.
  intros Hd late x w Hw. apply good_tx_packet. destruct d; [by eapply ptr_ok_valid|done].
Qed.

Lemma kg_send dest type buf v cb : is_u8 type -> bytes buf -> keeps_good (tinymac_send dest type buf v cb).
Proof.
  intros Ht Hb late x w Hw Hg. unfold tinymac_send. destruct (_ <? _); [done|]. autorewrite with run.
  destruct (tinymac_get_node_by_addr _ _) as [p|] eqn:Ep; [|done]. autorewrite with run.
  apply kg_tx_packet; auto. eapply node_by_addr_ok; [apply Hw|exact Ep].
Qed.

Lemma kg_run_app prog : keeps_good (run_app prog).
Proof.
  induction prog as [|? ? ? ? ? ? IH|? ? IH]; simpl; [by intros late x w| |]; apply kg_bind; auto.
  - apply pres_send; auto using u8_range, map_u8_bytes.
  - apply kg_send; auto using u8_range, map_u8_bytes.
  - apply pres_permit_attach.
  - intros late x w _. apply good_same; done || by intros [].
Qed.

Lemma kg_upcall e : keeps_good (upcall e).
Proof.
  intros late x w Hw Hg. unfold upcall. autorewrite with run.
  apply kg_run_app; [exact Hw|by apply good_log].
Qed.

Lemma kg_call_send_cb p r : keeps_good (call_send_cb p r).
Proof.
  intros late x w Hw Hg. unfold call_send_cb. autorewrite with run.
  destruct (n_send_cb _); [by apply kg_upcall|done].
Qed.

(** ** Deregistration and timeouts *)

(** A deregistered node is in order whatever its timer. *)
Lemma good_deregister late x p w :
  inv P w -> ptr_ok P p -> good late (Some p) w -> (x = None \/ x = Some p) ->
  good late x (snd (tinymac_deregister_node p w)).
Proof.
  intros Hw Hp Hg Hx. unfold tinymac_deregister_node. autorewrite with run.
  assert (H1 : inv P (upd_node p (set_n_state tinymacNodeState_Unregistered) w))
    by (by apply (pres_set_state P)).
  set (w1 := upd_node p _ w) in *.
  assert (G1 : good late x w1).
  { intros q Hq Hv. assert (Hvw : valid q w) by (unfold w1 in Hv; destruct p, q; simpl in *; auto; by rewrite length_alter in Hv).
    replace (m_tick_count (ctx w1)) with (m_tick_count (ctx w)) by (unfold w1; by destruct p).
    unfold w1. destruct (decide (q = p)) as [->|Hne].
    - rewrite node_at_upd by done. by split.
    - rewrite node_at_upd_ne by done. destruct (Hg q Hq Hvw) as [F1 F2]. split; [done|].
      intros _. apply F2. congruence. }
  clearbody w1. rewrite bind_run. set (w2 := snd (when _ _ w1)).
  assert (H2 : inv P w2 /\ good late x w2).
  { unfold w2. case_bool_decide as Hc; [|done]. subst p. rewrite when_true. split.
    - apply pres_mod_ctx; [|done]. intros c. by apply client_detach_ok.
    - revert G1. apply good_same; done || by intros []. }
  destruct H2 as [H2 G2]. clearbody w2. autorewrite with run.
  destruct (m_dereg_cb _); [by apply kg_upcall|done].
Qed.

Lemma good_weaken late p w : good late None w -> good late (Some p) w.
Proof. intros Hg q Hq Hv. destruct (Hg q Hq Hv) as [F1 F2]. split; [done|]. intros _. by apply F2. Qed.

Lemma kg_deregister p : ptr_ok P p ->
  forall late w, inv P w -> good late None w -> good late None (snd (tinymac_deregister_node p w)).
Proof. intros Hp late w Hw Hg. apply good_deregister; auto using good_weaken. Qed.

(** The node whose timer was taken down is put in order again. *)
Lemma good_settle late p f w :
  good late (Some p) w -> ~ foreign p ->
  (forall n, n_state (f n) <> tinymacNodeState_WaitAck \/
     n_ack_timer (f n) = mk_timer (Some fn_ack_timeout) (Some p) (u32 (m_tick_count (ctx w) + 1))) ->
  good late None (upd_node p f w).
Proof.
  intros Hg Hp Hf q Hq Hv.
  assert (Hvw : valid q w) by (destruct p, q; simpl in *; auto; by rewrite length_alter in Hv).
  replace (m_tick_count (ctx (upd_node p f w))) with (m_tick_count (ctx w)) by (by destruct p).
  destruct (decide (q = p)) as [->|Hne].
  - rewrite node_at_upd by done. split; [done|]. intros _ Hs.
    destruct (Hf (node_at p w)) as [?| ->]; [done|]. split; [done|]. by left.
  - rewrite node_at_upd_ne by done. destruct (Hg q Hq Hvw) as [F1 F2]. split; [done|].
    intros _. apply F2. congruence.
Qed.

Lemma good_ack_timeout late p w :
  inv P w -> ptr_ok P p -> ~ foreign p -> good late (Some p) w ->
  good late None (snd (tinymac_ack_timeout p w)).
Proof.
  intros Hw Hp Hnf Hg. unfold tinymac_ack_timeout. autorewrite with run.
  set (node := node_at p w).
  assert (H1 : inv P (upd_node p (set_n_retries (u8 (n_retries node - 1))) w))
    by (apply (pres_set_retries P); [apply u8_range|done]).
  assert (G1 : good late (Some p) (upd_node p (set_n_retries (u8 (n_retries node - 1))) w))
    by (by apply good_upd_frame).
  set (w1 := upd_node p (set_n_retries _) w) in *. clearbody w1 node.
  destruct (negb _); [destruct (sleepy _)|].
  - apply good_settle; [done|done|]. intros n. by left.
  - unfold tinymac_set_timer, mod_timer. autorewrite with run. rewrite bind_run, phy_send_run.
    apply good_log, good_settle; [done|done|]. intros n. by right.
  - rewrite bind_run.
    assert (H2 : inv P (snd (tinymac_cancel_timer (TValidity p) w1))) by (by apply pres_cancel_timer).
    assert (G2 : good late (Some p) (snd (tinymac_cancel_timer (TValidity p) w1)))
      by (by apply good_upd_frame).
    rewrite bind_run. apply good_deregister; auto.
    + by apply pres_call_send_cb.
    + by apply kg_call_send_cb.
Qed.

Definition done_with (p : node_ptr) (late : node_ptr -> bool) (q : node_ptr) : bool :=
  if decide (q = p) then false else late q.

(** Despatching a node's acknowledgement timer leaves it due at the next tick,
    if at all. *)
Lemma good_despatch_ack late p w :
  inv P w -> ptr_ok P p -> ~ foreign p -> p <> PLocal -> good late None w ->
  good (done_with p late) None (snd (tinymac_despatch_timer (TAck p) w)).
Proof.
  intros Hw Hp Hnf Hl Hg. rewrite despatch_run. simpl timer_at.
  pose proof (node_at_ok P p w Hw Hp) as Hn. pose proof (ptr_ok_valid P p w Hw Hp) as Hv.
  destruct (ok_ack_timer _ _ Hn) as [_ Ht].
  (* unless it fires, the timer is not late *)
  assert (Hstay : (n_state (node_at p w) = tinymacNodeState_WaitAck ->
      t_expiry (n_ack_timer (node_at p w)) <> m_tick_count (ctx w)) -> good (done_with p late) None w).
  { intros Hne q Hq Hvq. destruct (Hg q Hq Hvq) as [F1 F2]. split; [done|]. intros _ Hs.
    destruct (F2 ltac:(done) Hs) as [T1 T2]. split; [done|]. unfold done_with.
    case_decide; [subst q|done]. left. destruct T2 as [?|[_ T2]]; [done|]. by destruct (Hne Hs). }
  destruct (t_callback (n_ack_timer (node_at p w))) as [cb|] eqn:Ecb.
  - destruct Ht as [?|[[= ->] Harg]]; [done|]. rewrite Harg.
    destruct (Z.leb_spec 0 (i32 (m_tick_count (ctx w) - t_expiry (n_ack_timer (node_at p w))))) as [Hd|Hd].
    + cbn [run_timer_fn]. apply good_ack_timeout; auto; [by apply pres_clear_timer|].
      intros q Hq Hvq. unfold clear_timer in *. simpl mod_timer in *.
      assert (Hvw : valid q w) by (simpl in Hvq; destruct p, q; simpl in *; auto; by rewrite length_alter in Hvq).
      simpl snd in *. replace (m_tick_count (ctx (upd_node p _ w))) with (m_tick_count (ctx w)) by (by destruct p).
      destruct (decide (q = p)) as [->|Hne]; [rewrite node_at_upd by done; by split|].
      rewrite node_at_upd_ne by done. destruct (Hg q Hq Hvw) as [F1 F2]. split; [done|].
      unfold done_with. rewrite decide_False by done. intros _. by apply F2.
    + apply Hstay. intros _ Heq. rewrite Heq, Z.sub_diag in Hd. by vm_compute in Hd.
  - apply Hstay. intros Hs. destruct (Hg p Hl Hv) as [_ F2]. destruct (F2 ltac:(done) Hs) as [T1 _].
    congruence.
Qed.

Lemma good_despatch_validity late p w :
  inv P w -> ptr_ok P p -> ~ foreign p -> good late None w ->
  good late None (snd (tinymac_despatch_timer (TValidity p) w)).
Proof.
  intros Hw Hp Hnf Hg. rewrite despatch_run. simpl timer_at.
  destruct (ok_validity_timer _ _ (node_at_ok P p w Hw Hp)) as [_ Ht].
  destruct (t_callback _) as [cb|]; [|done]. destruct Ht as [?|[[= ->] ->]]; [done|].
  destruct (_ <=? _); [|done]. cbn [run_timer_fn]. unfold tinymac_validity_timeout.
  assert (H1 : inv P (clear_timer (TValidity p) w)) by (by apply pres_clear_timer).
  assert (G1 : good late None (clear_timer (TValidity p) w)) by (by apply good_upd_frame).
  set (w1 := clear_timer _ w) in *. clearbody w1.
  pose proof (pres_clear_timer P (TAck p) _ (pres_set_state P p tinymacNodeState_Registered w1 H1)) as H2.
  autorewrite with run. unfold tinymac_cancel_timer, mod_timer, mod_node in *. autorewrite with run.
  cbn [snd] in H2. rewrite bind_run. cbn [fst snd]. rewrite upd_upd in *.
  apply kg_call_send_cb; [done|by apply good_upd_idle].
Qed.

Lemma good_despatch_request late w :
  inv P w -> good late None w -> good late None (snd (tinymac_despatch_timer TRequest w)).
Proof.
  intros Hw Hg. rewrite despatch_run. simpl timer_at.
  destruct (ok_timer _ _ (proj1 Hw)) as [_ Ht].
  destruct (t_callback _) as [cb|]; [|done]. destruct Ht as [?|[[= ->] ->]]; [done|].
  destruct (_ <=? _); [|done]. cbn [run_timer_fn]. unfold tinymac_request_timeout.
  assert (H1 : inv P (clear_timer TRequest w)) by (by apply pres_clear_timer).
  assert (G1 : good late None (clear_timer TRequest w))
    by (revert Hg; apply good_same; done || by intros []).
  set (w1 := clear_timer _ w) in *. clearbody w1. autorewrite with run.
  destruct (_ || _) eqn:Eo; [|done]. rewrite when_true. apply kg_deregister; auto.
  simpl. apply (role_client P (ctx w1)); [apply H1|]. intros Hs. by rewrite Hs in Eo.
Qed.

(** ** Receive handlers *)

Definition keeps_armed {A} (m : M A) : Prop :=
  forall late w, inv P w -> good late None w -> good late None (snd (m w)).

Lemma node_by_addr_own c a p :
  mac_ok P c -> tinymac_get_node_by_addr c a = Some p ->
  ptr_ok P p /\ ~ foreign p /\ p <> PLocal.
Proof.
  intros Hc Hp. split; [by eapply node_by_addr_ok|]. revert Hp. unfold tinymac_get_node_by_addr.
  rewrite (ok_params _ _ Hc). destruct (p_coordinator P) eqn:Ep.
  - destruct (find_index _ _ _); intros; simplify_eq/=. split; [congruence|done].
  - destruct (_ && _); intros; simplify_eq/=. split; [congruence|done].
Qed.

Lemma ka_tx_pending p : ptr_ok P p -> ~ foreign p -> keeps_armed (tinymac_tx_pending p).
Proof.
  intros Hp Hnf late w Hw Hg. unfold tinymac_tx_pending. autorewrite with run.
  set (node := node_at p w). rewrite bind_run. cbn [snd ret].
  destruct (bool_decide _); [rewrite when_true|done]. cbv zeta. autorewrite with run.
  pose proof (pres_set_state P p tinymacNodeState_Registered w Hw) as H1.
  destruct (h_flags _ &? _).
  - unfold when at 1, tinymac_set_timer, mod_timer. autorewrite with run. rewrite !upd_upd.
    rewrite bind_run, phy_send_run. cbn [snd]. apply good_log, good_upd_arm; [done| |done].
    intros n. by destruct p.
  - change (when false ?m) with (ret tt). autorewrite with run. rewrite bind_run, phy_send_run.
    cbn [snd fst]. change (negb false) with true. rewrite when_true, bind_run.
    apply kg_call_send_cb.
    + apply pres_cancel_timer. exact H1.
    + apply good_upd_frame; [done|]. by apply good_log, good_upd_idle.
Qed.

Lemma ka_tx_ack p q : ptr_ok P p -> ~ foreign p -> keeps_armed (tinymac_tx_ack p q).
Proof.
  intros Hp Hnf late w Hw Hg. unfold tinymac_tx_ack. autorewrite with run. cbv zeta.
  rewrite bind_run, phy_send_run. cbn [fst snd]. set (w1 := set_log _ w).
  assert (G1 : good late None w1) by (by apply good_log).
  destruct (_ <? 0); [exact G1|]. by apply ka_tx_pending.
Qed.

Lemma ka_tx_beacon b : keeps_armed (tinymac_tx_beacon b).
Proof.
  intros late w Hw Hg. unfold tinymac_tx_beacon. autorewrite with run. destruct (negb _); [done|].
  autorewrite with run. rewrite phy_send_run. cbn [snd]. apply good_log. revert Hg.
  apply good_same; done || by intros [].
Qed.

Lemma ka_rx_known_source hdr p rssi :
  ptr_ok P p -> ~ foreign p -> keeps_armed (rx_known_source hdr p rssi).
Proof.
  intros Hp Hnf late w Hw Hg. unfold rx_known_source. autorewrite with run.
  set (w1 := upd_node p _ w).
  assert (H1 : inv P w1).
  { apply (pres_mod_node P p (fun n => set_n_rssi (i8 rssi) (set_n_last_heard (m_tick_count (ctx w)) n)));
      [|done|done]. destruct Hw as [[] _]. ok_tac. }
  assert (G1 : good late None w1) by (by apply good_upd_frame). clearbody w1.
  rewrite bind_run. set (w2 := snd (when _ _ w1)).
  assert (H2 : inv P w2 /\ good late None w2).
  { unfold w2. destruct (_ &? _); [|done]. rewrite when_true, bind_run. cbn [snd ret].
    split; [by apply pres_tx_ack|by apply ka_tx_ack]. }
  destruct H2 as [H2 G2]. clearbody w2. rewrite bind_run. by apply ka_tx_pending.
Qed.

Lemma ka_rx_unknown_source hdr : header_ok hdr -> keeps_armed (rx_unknown_source hdr).
Proof.
  intros Hh late w Hw Hg. unfold rx_unknown_source. autorewrite with run.
  destruct (p_coordinator _); [rewrite when_true|done]. autorewrite with run. cbv zeta.
  rewrite bind_run. cbn [snd ret]. apply kg_tx_packet; [done| |].
  - destruct Hw as [Hc _]. split; [done|]. simpl. apply node_zero_ok. apply Hh.
  - revert Hg. apply good_same; done || by intros [].
Qed.

Lemma ka_rx_ack hdr p : ptr_ok P p -> ~ foreign p -> keeps_armed (rx_ack hdr (Some p)).
Proof.
  intros Hp Hnf late w Hw Hg. unfold rx_ack. autorewrite with run.
  destruct (_ && _); [rewrite when_true|done]. unfold tinymac_cancel_timer.
  pose proof (pres_set_state P p tinymacNodeState_Registered w Hw) as H1.
  apply (pres_clear_timer P (TAck p)) in H1. apply (pres_clear_timer P (TValidity p)) in H1.
  unfold mod_timer, mod_node in *. cbn [snd] in H1.
  rewrite !bind_run. cbn [fst snd]. rewrite !upd_upd in *.
  apply kg_call_send_cb; [done|by apply good_upd_idle].
Qed.

Lemma ka_rx_registration_response hdr pl : keeps_armed (tinymac_rx_registration_response hdr pl).
Proof.
  intros late w Hw Hg. unfold tinymac_rx_registration_response. autorewrite with run.
  destruct (p_coordinator _); [done|]. cbv zeta.
  assert (Hd : forall w', good late None w' -> good late None (snd (mod_ctx client_detach w'))).
  { intros w'. apply good_same; done || by intros []. }
  destruct (negb _); [destruct (_ =? _); [done|by apply Hd]|].
  rewrite bind_run. set (w1 := snd (when _ _ w)).
  assert (G1 : good late None w1).
  { unfold w1. destruct (bool_decide _); [|done]. revert Hg. apply good_same; done || by intros []. }
  destruct (_ || _); [by apply Hd|]. destruct (bool_decide _); [|done].
  revert G1. apply good_same; done || by intros [].
Qed.

Lemma ka_rx_registration_request hdr pl :
  bytes pl -> keeps_armed (tinymac_rx_registration_request hdr pl).
Proof.
  intros Hpl late w Hw Hg. unfold tinymac_rx_registration_request. autorewrite with run.
  rewrite (ok_params _ _ (proj1 Hw)). destruct (p_coordinator P) eqn:Ep; [|done].
  change (negb true) with false. cbv iota zeta. fold (reg_slot (ctx w) (rq_uuid (reg_request_of pl))).
  rewrite bind_run. set (w1 := snd (_ w)).
  assert (H1 : inv P w1 /\ good late None w1).
  { unfold w1. destruct (reg_slot _ _) as [p|] eqn:Er; [|done]. autorewrite with run. cbn [snd ret].
    pose proof (reg_slot_ok P _ _ _ (proj1 Hw) Er) as (i & -> & Hi & _). split.
    - apply inv_register_slot; auto with width; unfold reg_request_of; simpl; auto with width.
    - apply good_upd_idle; [done| |done]. simpl. congruence. }
  destruct H1 as [H1 G1]. clearbody w1. set (r := fst _). rewrite bind_run.
  set (w2 := snd (tinymac_tx_packet _ _ _ _ _ w1)).
  assert (H2 : inv P w2).
  { apply pres_tx_packet; [done|apply type_code_u8|unfold reg_response_bytes; auto with width|done]. }
  assert (G2 : good late None w2) by (by apply good_tx_packet). clearbody w2.
  autorewrite with run. destruct (m_reg_cb _); [by apply kg_upcall|done].
Qed.

Lemma ka_rx_deregistration_request hdr pl : keeps_armed (tinymac_rx_deregistration_request hdr pl).
Proof.
  intros late w Hw Hg. unfold tinymac_rx_deregistration_request. autorewrite with run.
  destruct (negb _); [done|]. cbv zeta.
  destruct (tinymac_get_node_by_addr _ _) as [p|] eqn:Ep; [|done]. autorewrite with run.
  destruct (negb _); [done|]. apply (node_by_addr_own (ctx w)) in Ep as (Hp & Hnf & _); [|apply Hw].
  rewrite bind_run. apply kg_deregister; auto.
  - apply pres_tx_packet; [done|apply type_code_u8|unfold reg_response_bytes; auto with width|done].
  - by apply kg_tx_packet.
Qed.

Lemma ka_rx_beacon hdr pl : keeps_armed (tinymac_rx_beacon hdr pl).
Proof.
  intros late w Hw Hg. unfold tinymac_rx_beacon. autorewrite with run.
  rewrite (ok_params _ _ (proj1 Hw)). destruct (p_coordinator P) eqn:Ep; [done|]. cbv zeta.
  rewrite bind_run. set (w1 := snd (when _ _ w)).
  assert (G1 : good late None w1).
  { unfold w1. destruct (bool_decide _); [|done]. revert Hg. apply good_same; done || by intros []. }
  clearbody w1.
  assert (Hatt : good late None (snd (rx_beacon_attach hdr (beacon_of pl) w1))).
  { unfold rx_beacon_attach. autorewrite with run. rewrite bind_run.
    set (w2 := snd (tinymac_tx_packet _ _ _ _ _ _)).
    assert (G2 : good late None w2).
    { apply good_tx_packet; [done|]. apply good_upd_idle; [done|simpl; congruence|].
      revert G1. apply good_same; done || by intros []. }
    revert G2. apply good_same; done || by intros []. }
  destruct (m_state _); try (destruct (_ &? _); done); [done|].
  destruct (existsb _ _); [rewrite when_true, bind_run|done]. by apply good_tx_packet.
Qed.

Lemma ka_rx_despatch hdr node buf :
  bytes buf -> match node with Some p => ptr_ok P p /\ ~ foreign p | None => True end ->
  keeps_armed (rx_despatch hdr node buf).
Proof.
  intros Hb Hp late w Hw Hg. unfold rx_despatch. cbv zeta.
  assert (Hpl : bytes (payload_of buf)) by (by apply payload_of_bytes).
  destruct (_ <=? _).
  { autorewrite with run. destruct (m_rx_cb _); [by apply kg_upcall|done]. }
  destruct (type_of _); try done; try (destruct (_ <? _); [done|]).
  - by apply ka_rx_beacon.
  - rewrite bind_run. by apply ka_tx_beacon.
  - destruct node as [p|]; [|done]. destruct Hp. by apply ka_rx_ack.
  - by apply ka_rx_registration_request.
  - by apply ka_rx_deregistration_request.
  - by apply ka_rx_registration_response.
Qed.

Lemma ka_recv_cb buf rssi : bytes buf -> keeps_armed (tinymac_recv_cb buf rssi).
Proof.
  intros Hb late w Hw Hg. unfold tinymac_recv_cb. pose proof (header_of_ok buf Hb) as Hh.
  destruct (_ <? _); [done|]. autorewrite with run. destruct (_ =? _); [done|].
  destruct (negb _); [done|]. destruct (anonymous_refused _ _) eqn:Ea; [done|].
  rewrite bind_run. set (w1 := snd (when _ _ w)).
  assert (H1 : inv P w1 /\ good late None w1).
  { unfold w1. destruct (sleepy _); [destruct (_ &? _)|]; (split; [exact Hw|]); [by apply good_log..|done]. }
  destruct H1 as [H1 G1]. clearbody w1.
  destruct (negb _ && negb _); [|by apply ka_rx_despatch].
  destruct (tinymac_get_node_by_addr _ _) as [p|] eqn:Ep; [|by apply ka_rx_unknown_source].
  apply (node_by_addr_own (ctx w)) in Ep as (Hp & Hnf & _); [|apply Hw]. rewrite bind_run.
  apply ka_rx_despatch; auto; [by apply pres_rx_known_source|by apply ka_rx_known_source].
Qed.

(** ** The tick handler *)

Lemma good_mono late late' x w :
  (forall p, late p = true -> late' p = true) -> good late x w -> good late' x w.
Proof.
  intros Hl Hg p Hp Hv. destruct (Hg p Hp Hv) as [F1 F2]. split; [done|]. intros Hx Hs.
  destruct (F2 Hx Hs) as [T1 T2]. split; [done|]. destruct T2 as [?|[? ?]]; eauto.
Qed.

Lemma good_tick_node late now n w :
  p_coordinator P = true -> (n < TINYMAC_MAX_NODES)%nat -> inv P w -> good late None w ->
  good (done_with (PNode n) late) None (snd (tick_node now n w)).
Proof.
  intros Hp Hn Hw Hg. unfold tick_node. autorewrite with run. rewrite bind_run.
  set (w1 := snd (when _ _ w)).
  assert (H1 : inv P w1 /\ good late None w1).
  { unfold w1. destruct (_ && _); [rewrite when_true|done].
    split; [by apply pres_deregister_node|by apply kg_deregister]. }
  destruct H1 as [H1 G1]. clearbody w1. rewrite bind_run.
  assert (Hnf : ~ foreign (PNode n)) by (simpl; congruence).
  apply good_despatch_validity; auto; [by apply pres_despatch_timer|].
  by apply good_despatch_ack.
Qed.

Definition done_all (l : list nat) (late : node_ptr -> bool) (q : node_ptr) : bool :=
  match q with PNode n => if decide (n ∈ l) then false else late q | _ => late q end.

Lemma good_tick_nodes now l late w :
  p_coordinator P = true -> (forall n, n ∈ l -> (n < TINYMAC_MAX_NODES)%nat) ->
  inv P w -> good late None w ->
  good (done_all l late) None (snd (for_each l (tick_node now) w)).
Proof.
  intros Hp. revert late w; induction l as [|n l IH]; intros late w Hl Hw Hg; simpl.
  - revert Hg. apply good_mono. intros [|i|]; simpl; auto.
  - rewrite bind_run. eapply good_mono; [|eapply IH]. all: cycle 1.
    + intros m Hm. apply Hl. by right.
    + apply pres_tick_node; [apply Hl; by left|done].
    + apply good_tick_node; [done|apply Hl; by left|done|exact Hg].
    + intros [|i|]; simpl; unfold done_with; simpl; try done.
      destruct (decide (i ∈ l)); [done|]. case_decide as E1; [done|].
      intros Hi. rewrite decide_False; [done|]. intros [?|?]%elem_of_cons; congruence.
Qed.

(** At the end of a tick only the next tick is a due time. *)
Lemma good_advance late w :
  good late None w -> (forall p, p <> PLocal -> valid p w -> ~ foreign p -> late p = false) ->
  good (fun _ => true) None (advance w).
Proof.
  intros Hg Hl p Hp Hv.
  assert (Hv' : valid p w) by (by destruct p). destruct (Hg p Hp Hv') as [F1 F2].
  change (node_at p (advance w)) with (node_at p (set_log (log w) (advance w))).
  replace (node_at p (set_log (log w) (advance w))) with (node_at p w) by (by destruct p).
  split; [done|]. intros _ Hs. destruct (F2 ltac:(done) Hs) as [T1 T2]. split; [done|]. right.
  split; [done|]. simpl. destruct T2 as [?|[Hlate _]]; [done|].
  rewrite Hl in Hlate; [done|done|done|]. intros Hf%F1. congruence.
Qed.

Lemma good_tick_coordinator late w :
  p_coordinator P = true -> inv P w -> good late None w ->
  good (done_all (seq 0 TINYMAC_MAX_NODES) late) None (snd (tick_coordinator w)).
Proof.
  intros Hp Hw Hg. unfold tick_coordinator. autorewrite with run.
  set (w1 := set_ctx _ w).
  assert (H1 : inv P w1).
  { apply (pres_set_mac P (fun c => set_m_slot (u16 (m_slot c + 1)) c)); [by repeat split|done| |done].
    simpl; auto with width. }
  assert (G1 : good late None w1) by (revert Hg; apply good_same; done || by intros []).
  clearbody w1. rewrite bind_run. set (w2 := snd (when _ _ w1)).
  assert (H2 : inv P w2 /\ good late None w2).
  { unfold w2. destruct (beacon_due _ _); [rewrite when_true, bind_run|done].
    split; [by apply pres_tx_beacon|by apply ka_tx_beacon]. }
  destruct H2. apply good_tick_nodes; auto. intros n Hn. apply list_elem_of_In, in_seq in Hn. lia.
Qed.

Lemma good_tick_client late w :
  p_coordinator P = false -> inv P w -> good late None w ->
  good (done_with PCoord late) None (snd (tick_client w)).
Proof.
  intros Hp Hw Hg. unfold tick_client. autorewrite with run. rewrite bind_run.
  set (w1 := snd (when _ _ w)).
  assert (H1 : inv P w1 /\ good late None w1).
  { unfold w1. destruct (bool_decide _) eqn:Es; [|done]. apply bool_decide_eq_true in Es.
    rewrite when_true. autorewrite with run.
    pose proof (pres_request_state P Hp w Hw Es) as H0. rewrite bind_run.
    set (w2 := snd (tinymac_tx_packet _ _ _ _ _ _)).
    assert (H2 : inv P w2) by (by apply pres_tx_packet; [|apply type_code_u8|apply Forall_nil_2|]).
    assert (G2 : good late None w2).
    { apply good_tx_packet; [done|]. revert Hg. apply good_same; done || by intros []. }
    clearbody w2. split; [by apply pres_set_timer|]. revert G2. apply good_same; done || by intros []. }
  destruct H1 as [H1 G1]. clearbody w1.
  assert (Hnf : ~ foreign PCoord) by (simpl; congruence).
  rewrite !bind_run. pose proof (pres_despatch_timer P (TAck PCoord) Hp w1 H1) as H2.
  pose proof (pres_despatch_timer P (TValidity PCoord) Hp _ H2) as H3.
  apply good_despatch_request; [done|]. apply good_despatch_validity; auto.
  by apply good_despatch_ack.
Qed.

Lemma good_tick_handler w :
  inv P w -> good (fun _ => true) None w -> good (fun _ => true) None (snd (tinymac_tick_handler w)).
Proof.
  intros Hw Hg. unfold tinymac_tick_handler. autorewrite with run.
  rewrite (ok_params _ _ (proj1 Hw)), bind_run. cbn [snd mod_ctx].
  destruct (p_coordinator P) eqn:Ep.
  - pose proof (pres_tick_coordinator P w Hw) as H1.
    eapply good_advance; [by apply good_tick_coordinator|]. intros [|i|] Hp Hv Hnf; [done| |done].
    cbn [done_all valid] in *. rewrite (ok_nodes_length _ _ (proj1 H1)) in Hv. rewrite decide_True; [done|].
    apply list_elem_of_In, in_seq. lia.
  - eapply good_advance; [by apply good_tick_client|]. intros [|i|] Hp Hv Hnf; simpl in *; try done.
Qed.

Lemma good_init r1 r2 r3 w : good (fun _ => true) None (snd (tinymac_init P r1 r2 r3 w)).
Proof.
  intros p Hp Hv. set (w' := snd (tinymac_init P r1 r2 r3 w)) in *.
  assert (Hs : n_state (node_at p w') = tinymacNodeState_Unregistered).
  { assert (Hn : m_nodes (ctx w') = init_nodes (m_nodes (ctx w)) /\
                 n_state (m_coord (ctx w')) = tinymacNodeState_Unregistered).
    { unfold w', tinymac_init. rewrite !bind_run; simpl.
      destruct (p_coordinator P), (sleepy (p_flags P)); by rewrite ?bind_run. }
    destruct Hn as [Hn Hc]. destruct p as [|i|]; [done| |done].
    apply lookup_node_at in Hv. rewrite Hn in Hv. by apply init_nodes_lookup in Hv as (x & _ & ->). }
  split; [done|]. intros _ Hw. congruence.
Qed.
End Armed.

Section Timed.
Context `{E : Env}.

Lemma step_good P w w' :
  inv P w -> good P (fun _ => true) None w -> step w w' -> good P (fun _ => true) None w'.
Proof.
  intros Hw Hg Hs. destruct Hs as [buf rssi w Hb|w|dest type buf v cb w Hd Ht Hb Hv| | | | ].
  - by apply ka_recv_cb.
  - by apply good_tick_handler.
  - by apply kg_send.
  - revert Hg. apply good_same; done || by intros [].
  - revert Hg. apply good_same; done || by intros [].
  - revert Hg. apply good_same; done || by intros [].
  - revert Hg. apply good_same; done || by intros [].
Qed.

Lemma reachable_good P w : reachable P w -> good P (fun _ => true) None w.
Proof.
  induction 1 as [| |? ? ? Hr IH Hs]; [apply good_init..|]. by eapply step_good; [apply reachable_inv| |].
Qed.

(** C21: no node is ever left waiting: in every reachable world, of either role,
    a node that waits for an acknowledgement has its acknowledgement timer
    armed, with the retry function and the node itself as its argument, and due
    at this tick or the next one. *)
Theorem waiting_node_is_timed P w p :
  reachable P w -> ptr_ok P p -> p <> PLocal ->
  n_state (node_at p w) = tinymacNodeState_WaitAck ->
  let t := n_ack_timer (node_at p w) in
  t_callback t = Some fn_ack_timeout /\ t_arg t = Some p /\
  (t_expiry t = m_tick_count (ctx w) \/ t_expiry t = u32 (m_tick_count (ctx w) + 1)).
Proof.
  intros Hr Hp Hl Hs. cbv zeta. apply reachable_inv in Hr as Hw.
  destruct (reachable_good P w Hr p Hl) as [_ Ha]; [by eapply ptr_ok_valid|].
  destruct (Ha ltac:(done) Hs) as [T1 T2].
  destruct (ok_ack_timer _ _ (node_at_ok P p w Hw Hp)) as [_ [?|[_ Harg]]]; [congruence|].
  split_and!; [done|done|]. destruct T2 as [?|[_ ?]]; auto.
Qed.
End Timed.

(** ** Instance *)

Lemma waiting_node_is_timed_witness :
  let t := n_ack_timer (node_at (PNode 0) coord_waitack) in
  t_callback t = Some fn_ack_timeout /\ t_arg t = Some (PNode 0) /\
  (t_expiry t = m_tick_count (ctx coord_waitack) \/
   t_expiry t = u32 (m_tick_count (ctx coord_waitack) + 1)).
Proof.
  refine (@waiting_node_is_timed env_quiet coord_params coord_waitack (PNode 0) _ _ _ _).
  - apply coord_waitack_reachable.
  - vm_compute. lia.
  - discriminate.
  - vm_compute. reflexivity.
Defined.
