(* ===== verification/MacRetry.v ===== *)
(** * Retries of a coordinator

    A packet to a node that is never acknowledged: what the tick handler
    does with it while it also serves the other slots, whose callbacks may run
    any application code. *)

From stdpp Require Import base list numbers.
From Stdlib Require Import ZArith Lia.
From S2P Require Import Prelude Wire MacState Mac MacInv MacRun MacEx MacTx MacTick.

Section Retry.
Context `{E : Env}.

(** ** Serving one slot leaves the busy others alone *)

Lemma busy_set_ack p q cb arg d : q <> p -> keeps_busy p (tinymac_set_timer (TAck q) cb arg d).
Proof. intros Hne. apply busy_bind; [apply busy_get_ctx|intros c]. by apply busy_mod_other. Qed.

Lemma busy_deregister p q : q <> p -> q <> PCoord -> keeps_busy p (tinymac_deregister_node q).
Proof.
  intros Hne Hq. unfold tinymac_deregister_node. rewrite (bool_decide_eq_false_2 (q = PCoord)) by done.
  apply busy_bind; [by apply busy_mod_other|intros _].
  apply busy_bind; [apply busy_ret|intros _]. apply busy_bind; [apply busy_get_ctx|intros c].
  apply busy_when, busy_upcall.
Qed.

Lemma busy_validity_timeout p q : q <> p -> keeps_busy p (tinymac_validity_timeout q).
Proof.
  intros Hne. unfold tinymac_validity_timeout. apply busy_bind; [by apply busy_mod_other|intros _].
  apply busy_bind; [by apply busy_mod_other|intros _]. apply busy_call_send_cb.
Qed.

Lemma busy_ack_timeout p q : q <> p -> q <> PCoord -> keeps_busy p (tinymac_ack_timeout q).
Proof.
  intros Hne Hq. unfold tinymac_ack_timeout. apply busy_bind; [apply busy_read|intros n].
  apply busy_bind; [by apply busy_mod_other|intros _].
  destruct (negb _); [destruct (sleepy _); [by apply busy_mod_other|]|].
  - apply busy_bind; [by apply busy_set_ack|intros _].
    apply busy_bind; [apply busy_phy_send|intros _]. apply busy_ret.
  - apply busy_bind; [by apply busy_mod_other|intros _].
    apply busy_bind; [apply busy_call_send_cb|intros _]. by apply busy_deregister.
Qed.

Lemma keeps_ack_timeout q : q <> PCoord -> keeps_core (tinymac_ack_timeout q).
Proof.
  intros Hq. unfold tinymac_ack_timeout.
  repeat first [solve [eauto 4 with frame] | apply keeps_deregister_slot; done
    | apply keeps_set_node_timer; done | apply keeps_cancel_node_timer; done | keeps_step].
Qed.

Lemma grows_run_timer_fn fn arg : grows (run_timer_fn fn arg).
Proof.
  destruct fn, arg as [p|]; simpl;
    unfold tinymac_request_timeout, tinymac_ack_timeout, tinymac_validity_timeout; grows_auto.
Qed.

Lemma grows_despatch t : grows (tinymac_despatch_timer t).
Proof.
  intros w. rewrite despatch_run. destruct (t_callback _); [|done]. destruct (_ <=? _); [|done].
  etrans; [|apply grows_run_timer_fn]. apply grows_mod_timer.
Qed.

Lemma grows_tick_node now m : grows (tick_node now m).
Proof.
  unfold tick_node. apply grows_bind; [auto with frame|intros n].
  apply grows_bind; [apply grows_when; auto with frame|intros _].
  apply grows_bind; [apply grows_despatch|intros _]. apply grows_despatch.
Qed.

Variable P : tinymac_params_t.

(** [w'] has the busy node [p] and the core of [w]. *)
Definition undisturbed (p : node_ptr) (w w' : world) : Prop :=
  node_at p w' = node_at p w /\ core (ctx w') = core (ctx w).

Lemma despatch_slot p m t w :
  PNode m <> p -> (t = TAck (PNode m) \/ t = TValidity (PNode m)) -> (m < TINYMAC_MAX_NODES)%nat ->
  inv P w -> n_state (node_at p w) <> tinymacNodeState_Registered ->
  undisturbed p w (snd (tinymac_despatch_timer t w)).
Proof.
  intros Hne Ht Hm Hw Hs. rewrite despatch_run.
  pose proof (node_at_ok P (PNode m) w Hw Hm) as Hn.
  destruct (t_callback (timer_at t w)) as [cb|] eqn:Ecb; [|done]. destruct (_ <=? _); [|done].
  assert (Hc : node_at p (clear_timer t w) = node_at p w /\ core (ctx (clear_timer t w)) = core (ctx w)).
  { destruct Ht as [-> | ->]; (split; [|done]); unfold clear_timer, mod_timer, mod_node;
      cbn [snd]; by apply node_at_upd_ne, not_eq_sym. }
  destruct Hc as [Hc1 Hc2]. unfold undisturbed.
  destruct Ht as [-> | ->]; cbn [timer_at] in *.
  - destruct (ok_ack_timer _ _ Hn) as [_ [?|[E1 ->]]]; [congruence|]. rewrite E1 in Ecb.
    injection Ecb as <-. cbn [run_timer_fn]. rewrite busy_ack_timeout by (done || by rewrite Hc1).
    split; [done|]. etrans; [by apply keeps_ack_timeout|done].
  - destruct (ok_validity_timer _ _ Hn) as [_ [?|[E1 ->]]]; [congruence|]. rewrite E1 in Ecb.
    injection Ecb as <-. cbn [run_timer_fn]. rewrite busy_validity_timeout by (done || by rewrite Hc1).
    split; [done|]. etrans; [apply keeps_validity_timeout|done].
Qed.

Lemma tick_other p now m w :
  PNode m <> p -> (m < TINYMAC_MAX_NODES)%nat -> inv P w ->
  n_state (node_at p w) <> tinymacNodeState_Registered ->
  undisturbed p w (snd (tick_node now m w)).
Proof.
  intros Hne Hm Hw Hs. unfold tick_node. autorewrite with run. rewrite bind_run.
  set (w1 := snd (when _ _ w)).
  assert (H1 : inv P w1 /\ undisturbed p w w1).
  { unfold w1, undisturbed. destruct (_ && _); [rewrite when_true|done].
    split_and!; [by apply pres_deregister_node|by apply busy_deregister|by apply keeps_deregister_slot]. }
  destruct H1 as (H1 & N1 & C1). clearbody w1. rewrite bind_run.
  destruct (despatch_slot p m (TAck (PNode m)) w1) as [N2 C2]; auto; [by rewrite N1|].
  pose proof (pres_despatch_timer P (TAck (PNode m)) Hm w1 H1) as H2.
  set (w2 := snd (tinymac_despatch_timer (TAck (PNode m)) w1)) in *. clearbody w2.
  destruct (despatch_slot p m (TValidity (PNode m)) w2) as [N3 C3]; auto; [by rewrite N2, N1|].
  unfold undisturbed. split; congruence.
Qed.

Lemma tick_others p now l w :
  (forall m, m ∈ l -> PNode m <> p /\ (m < TINYMAC_MAX_NODES)%nat) -> inv P w ->
  n_state (node_at p w) <> tinymacNodeState_Registered ->
  let w' := snd (for_each l (tick_node now) w) in
  inv P w' /\ undisturbed p w w' /\ log w `suffix_of` log w'.
Proof.
  cbv zeta. revert w; induction l as [|m l IH]; intros w Hl Hw Hs; [done|].
  cbn [for_each]. rewrite bind_run. destruct (Hl m) as [Hne Hm]; [by left|].
  destruct (tick_other p now m w) as [N1 C1]; auto.
  pose proof (pres_tick_node P now m Hm w Hw) as H1.
  pose proof (grows_tick_node now m w) as L1.
  set (w1 := snd (tick_node now m w)) in *. clearbody w1.
  destruct (IH w1) as (H2 & [N2 C2] & L2); [intros; apply Hl; by right|done|by rewrite N1|].
  split_and!; [done|split; congruence|by etrans].
Qed.

Lemma for_each_app {A} (l1 l2 : list A) body w :
  for_each (l1 ++ l2) body w = for_each l2 body (snd (for_each l1 body w)).
Proof.
  revert w; induction l1 as [|x l1 IH]; intros w; [done|]. simpl. by rewrite !bind_run, IH.
Qed.

Lemma grows_for_each {A} (l : list A) body : (forall x, grows (body x)) -> grows (for_each l body).
Proof.
  intros Hb. induction l as [|x l IH]; [apply grows_ret|]. apply grows_bind; [apply Hb|done].
Qed.

Lemma seq_split i :
  (i < TINYMAC_MAX_NODES)%nat ->
  seq 0 TINYMAC_MAX_NODES = seq 0 i ++ i :: seq (S i) (TINYMAC_MAX_NODES - S i).
Proof.
  intros Hi. replace TINYMAC_MAX_NODES with (i + S (TINYMAC_MAX_NODES - S i))%nat at 1 by lia.
  apply seq_app.
Qed.

(** The tick of a coordinator around one slot. *)
Lemma tick_around i w :
  p_coordinator P = true -> (i < TINYMAC_MAX_NODES)%nat -> inv P w ->
  n_state (node_at (PNode i) w) <> tinymacNodeState_Registered ->
  exists wa, inv P wa /\ node_at (PNode i) wa = node_at (PNode i) w /\
    m_tick_count (ctx wa) = m_tick_count (ctx w) /\ log w `suffix_of` log wa /\
    let wb := snd (tick_node (m_tick_count (ctx w)) i wa) in
    let w' := snd (tinymac_tick_handler w) in
    log wb `suffix_of` log w' /\
    (n_state (node_at (PNode i) wb) <> tinymacNodeState_Registered ->
     node_at (PNode i) w' = node_at (PNode i) wb /\
     m_tick_count (ctx w') = u32 (m_tick_count (ctx wb) + 1)).
Proof.
  intros Hp Hi Hw Hs. unfold tinymac_tick_handler, tick_coordinator. autorewrite with run.
  rewrite (ok_params _ _ (proj1 Hw)), Hp. autorewrite with run.
  set (w1 := set_ctx _ w).
  assert (H1 : inv P w1).
  { apply (pres_set_mac P (fun c => set_m_slot (u16 (m_slot c + 1)) c)); [by repeat split|done| |done].
    simpl; auto with width. }
  rewrite bind_run. set (w2 := snd (when _ _ w1)).
  assert (H2 : inv P w2 /\ m_nodes (ctx w2) = m_nodes (ctx w) /\
               m_tick_count (ctx w2) = m_tick_count (ctx w) /\ log w `suffix_of` log w2).
  { unfold w2. destruct (beacon_due _ _); [rewrite when_true, bind_run|done]. cbn [snd ret].
    split; [by apply pres_tx_beacon|]. unfold tinymac_tx_beacon. autorewrite with run.
    rewrite (ok_params _ _ (proj1 H1)), Hp. change (negb true) with false. cbv iota.
    autorewrite with run. rewrite phy_send_run. simpl. split_and!; try done.
    unfold phy_log. destruct (sleepy _); [by eexists [_; _]|by eexists [_]]. }
  destruct H2 as (H2 & N2 & T2 & L2). clearbody w2.
  assert (E2 : node_at (PNode i) w2 = node_at (PNode i) w) by (simpl; by rewrite N2).
  replace (seq 0 TINYMAC_MAX_NODES) with (seq 0 i ++ i :: seq (S i) (TINYMAC_MAX_NODES - S i))
    by exact (eq_sym (seq_split i Hi)).
  set (now := m_tick_count (ctx w)).
  destruct (tick_others (PNode i) now (seq 0 i) w2) as (H3 & [N3 C3] & L3);
    [intros m Hm; apply list_elem_of_In, in_seq in Hm; split; [injection; lia|lia]|done|by rewrite E2|].
  rewrite bind_run, for_each_app. set (w3 := snd (for_each (seq 0 i) _ w2)) in *.
  cbn [for_each]. rewrite bind_run.
  apply core_fields in C3 as (_ & _ & T3 & _).
  exists w3. split_and!; [done|congruence|by rewrite T3, T2|by etrans|..].
  - etrans; [|apply grows_mod_ctx]. apply grows_for_each, grows_tick_node.
  - intros Hb.
    destruct (tick_others (PNode i) now (seq (S i) (TINYMAC_MAX_NODES - S i))
                (snd (tick_node now i w3))) as (_ & [N4 C4] & _);
      [intros m Hm; apply list_elem_of_In, in_seq in Hm; split; [injection; lia|lia]
      |by apply pres_tick_node|done|].
    apply core_fields in C4 as (_ & _ & T4 & _). split; [exact N4|]. by rewrite <- T4.
Qed.

(** ** A slot that waits *)

(** Slot [i] waits for an acknowledgement, with [r] retries left and the next one
    due in [j] ticks; [s] says whether its device is sleepy.  The packet has no
    validity period that runs: one that ends before the acknowledgement ends the
    wait too. *)
Record waiting (i : nat) (r j : Z) (s : bool) (w : world) : Prop := {
  wt_state : n_state (node_at (PNode i) w) = tinymacNodeState_WaitAck;
  wt_retries : n_retries (node_at (PNode i) w) = r;
  wt_sleepy : sleepy (n_flags (node_at (PNode i) w)) = s;
  wt_timer : n_ack_timer (node_at (PNode i) w) =
             mk_timer (Some fn_ack_timeout) (Some (PNode i)) (u32 (m_tick_count (ctx w) + j));
  wt_validity : t_callback (n_validity_timer (node_at (PNode i) w)) = None;
  wt_r : 0 <= r < 256;
  wt_j : 0 <= j < 2 ^ 31
}.

(** What is sent again, and who is told. *)
Definition slot_flight (i : nat) (w : world) : list (list Z) * option Z :=
  let n := node_at (PNode i) w in (pending_bufs (n_pending_header n) n, n_send_cb n).

Lemma valid_live i w :
  n_state (node_at (PNode i) w) <> tinymacNodeState_Unregistered -> valid (PNode i) w.
Proof.
  intros Hs. simpl in *. destruct (decide (i < length (m_nodes (ctx w)))%nat) as [|Hn]; [done|].
  by rewrite nth_overflow in Hs by lia.
Qed.

Lemma waiting_same i r j s w w' :
  node_at (PNode i) w' = node_at (PNode i) w -> m_tick_count (ctx w') = m_tick_count (ctx w) ->
  waiting i r j s w -> waiting i r j s w'.
Proof. intros Hn Ht []. split; rewrite ?Hn, ?Ht; auto. Qed.

Lemma tick_node_waiting i r j s now w :
  is_u32 (m_tick_count (ctx w)) -> waiting i r j s w ->
  tick_node now i w =
  tinymac_despatch_timer (TValidity (PNode i))
    (if j <=? 0 then snd (tinymac_ack_timeout (PNode i) (clear_timer (TAck (PNode i)) w)) else w).
Proof.
  intros Ht []. unfold tick_node. autorewrite with run.
  rewrite wt_state0, bool_decide_eq_false_2 by done. simpl andb.
  change (when false ?m) with (ret tt). autorewrite with run.
  rewrite bind_run, (despatch_due (TAck (PNode i)) w fn_ack_timeout (Some (PNode i)) j)
    by (done || lia).
  destruct (j <=? 0); done.
Qed.

Lemma ack_timeout_resend p w :
  valid p w -> n_retries (node_at p w) <> 0 -> sleepy (n_flags (node_at p w)) = false ->
  let n := node_at p w in
  tinymac_ack_timeout p w =
  (tt, set_log (phy_log (sleepy (p_flags (m_params (ctx w)))) (pending_bufs (n_pending_header n) n) 0 (log w))
     (upd_node p (fun n =>
        set_n_ack_timer (mk_timer (Some fn_ack_timeout) (Some p) (u32 (m_tick_count (ctx w) + 1)))
          (set_n_retries (u8 (n_retries (node_at p w) - 1)) n)) w)).
Proof.
  intros Hv Hr Hs. cbv zeta. unfold tinymac_ack_timeout. autorewrite with run.
  rewrite (proj2 (Z.eqb_neq _ _) Hr), Hs. change (negb false) with true. cbv iota.
  unfold tinymac_set_timer, mod_timer. autorewrite with run. rewrite upd_upd, bind_run, phy_send_run.
  by destruct p.
Qed.

(** After the last retry: the callback, then deregistration. *)
Lemma ack_timeout_last i w cb :
  valid (PNode i) w -> n_retries (node_at (PNode i) w) = 0 ->
  n_state (node_at (PNode i) w) = tinymacNodeState_WaitAck ->
  n_send_cb (node_at (PNode i) w) = Some cb ->
  t_callback (n_validity_timer (node_at (PNode i) w)) = None ->
  let w' := snd (tinymac_ack_timeout (PNode i) w) in
  n_state (node_at (PNode i) w') = tinymacNodeState_Unregistered /\
  t_callback (n_validity_timer (node_at (PNode i) w')) = None /\
  (EvSendCb cb (-1) :: log w) `suffix_of` log w'.
Proof.
  intros Hv Hr Hs Hcb Hval. cbv zeta. unfold tinymac_ack_timeout. autorewrite with run.
  rewrite Hr. change (negb (0 =? 0)) with false. cbv iota.
  unfold tinymac_cancel_timer, mod_timer. autorewrite with run. rewrite upd_upd.
  match goal with |- context [upd_node (PNode i) ?f w] => set (w1 := upd_node (PNode i) f w) end.
  assert (Hv1 : valid (PNode i) w1) by (by apply valid_upd).
  assert (N1 : n_state (node_at (PNode i) w1) = tinymacNodeState_WaitAck /\
     t_callback (n_validity_timer (node_at (PNode i) w1)) = None /\
     n_send_cb (node_at (PNode i) w1) = Some cb /\ log w1 = log w).
  { unfold w1. rewrite node_at_upd by done. simpl. auto. }
  destruct N1 as (S1 & V1 & C1 & L1). clearbody w1. rewrite bind_run.
  unfold call_send_cb. autorewrite with run. rewrite C1.
  assert (N2 : node_at (PNode i) (snd (upcall (EvSendCb cb (-1)) w1)) = node_at (PNode i) w1)
    by (apply busy_upcall; by rewrite S1).
  pose proof (upcall_logs (EvSendCb cb (-1)) w1) as L2. rewrite L1 in L2.
  set (w2 := snd (upcall (EvSendCb cb (-1)) w1)) in *.
  assert (Hv2 : valid (PNode i) w2) by (apply valid_live; by rewrite N2, S1).
  clearbody w2. unfold tinymac_deregister_node. autorewrite with run.
  rewrite (bool_decide_eq_false_2 (PNode i = PCoord)) by done. cbn [when]. autorewrite with run.
  set (w3 := upd_node (PNode i) _ w2).
  assert (N3 : node_at (PNode i) w3 = set_n_state tinymacNodeState_Unregistered (node_at (PNode i) w2))
    by (unfold w3; by rewrite node_at_upd).
  assert (E4 : node_at (PNode i) (snd (when (m_dereg_cb (ctx w3)) (upcall (EvDeregCb (PNode i))) w3)) =
               node_at (PNode i) w3).
  { destruct (m_dereg_cb _); [|done]. rewrite when_true. apply busy_upcall. by rewrite N3. }
  rewrite E4, N3. split_and!; [done|by rewrite N2|]. etrans; [exact L2|].
  change (log w2) with (log w3). destruct (m_dereg_cb _); [apply grows_upcall|done].
Qed.

(** ** The ticks of a slot that waits *)

(** Something was logged after [l] and before [l']. *)
Definition logged_between (e : event) (l l' : list event) : Prop :=
  exists l1, l `suffix_of` l1 /\ (e :: l1) `suffix_of` l'.

Lemma ticks_S n w : ticks (S n) w = snd (tinymac_tick_handler (ticks n w)).
Proof. revert w; induction n as [|n IH]; intros w; [done|]. cbn [ticks] in *. by rewrite IH. Qed.

Lemma ticks_add j k w : ticks (j + k) w = ticks k (ticks j w).
Proof. revert w; induction j as [|j IH]; intros w; [done|]. cbn [Nat.add ticks]. by rewrite IH. Qed.

Section Ticks.
Context (Hp : p_coordinator P = true) (i : nat) (Hi : (i < TINYMAC_MAX_NODES)%nat).

Lemma tick_slot_waits r j s w :
  inv P w -> waiting i r j s w -> 0 < j ->
  let w' := snd (tinymac_tick_handler w) in
  inv P w' /\ waiting i r (j - 1) s w' /\ slot_flight i w' = slot_flight i w.
Proof.
  intros Hw Hwt Hj. cbv zeta. split; [by apply pres_tick_handler|].
  destruct (tick_around i w Hp Hi Hw) as (wa & Ha & Na & Ta & _ & _ & Hb);
    [by rewrite (wt_state _ _ _ _ _ Hwt)|].
  apply (waiting_same _ _ _ _ _ wa) in Hwt; [|done|done].
  rewrite (tick_node_waiting i r j s) in Hb by (apply Ha || done).
  rewrite (proj2 (Z.leb_gt j 0) Hj), despatch_idle in Hb by apply Hwt. cbn [snd] in Hb.
  destruct Hb as [Nb Tb]; [by rewrite (wt_state _ _ _ _ _ Hwt)|].
  set (w' := snd (tinymac_tick_handler w)) in *. clearbody w'. unfold slot_flight.
  rewrite Nb, Na. split; [|done]. destruct Hwt. split; rewrite ?Nb, ?Tb; auto; [|lia].
  by rewrite wt_timer0, u32_advance.
Qed.

Lemma slot_resends r now w :
  is_u32 (m_tick_count (ctx w)) -> waiting i r 0 false w -> 0 < r ->
  let wb := snd (tick_node now i w) in
  node_at (PNode i) wb =
    set_n_ack_timer (mk_timer (Some fn_ack_timeout) (Some (PNode i)) (u32 (m_tick_count (ctx w) + 1)))
      (set_n_retries (r - 1) (node_at (PNode i) w)) /\
  m_tick_count (ctx wb) = m_tick_count (ctx w) /\
  log wb = phy_log (sleepy (p_flags (m_params (ctx w)))) (fst (slot_flight i w)) 0 (log w).
Proof.
  intros Ht Hwt Hr. cbv zeta. rewrite (tick_node_waiting i r 0 false) by done.
  change (0 <=? 0) with true. cbv iota. destruct Hwt.
  assert (Hv : valid (PNode i) w) by (apply valid_live; by rewrite wt_state0).
  set (wc := clear_timer (TAck (PNode i)) w).
  assert (Hvc : valid (PNode i) wc) by (by apply valid_upd).
  assert (Hc : node_at (PNode i) wc =
    set_n_ack_timer (set_t_callback None (n_ack_timer (node_at (PNode i) w))) (node_at (PNode i) w))
    by (unfold wc, clear_timer, mod_timer, mod_node; cbn [snd]; by rewrite node_at_upd).
  assert (Cc : ctx wc = ctx (clear_timer (TAck (PNode i)) w) /\ log wc = log w /\
     m_tick_count (ctx wc) = m_tick_count (ctx w) /\ m_params (ctx wc) = m_params (ctx w)) by done.
  clearbody wc. destruct Cc as (_ & Lc & Tc & Pc).
  rewrite ack_timeout_resend; [|done|rewrite Hc; cbn [n_retries set_n_ack_timer]; lia|by rewrite Hc].
  cbn [snd]. rewrite despatch_idle; [|cbn [timer_at]; by rewrite node_at_set_log, node_at_upd, Hc].
  cbn [snd]. rewrite node_at_set_log, node_at_upd, Hc, Lc, Tc, Pc by done.
  cbn [n_retries set_n_ack_timer].
  rewrite wt_retries0, u8_id by (widths; lia). split_and!; [done|exact Tc|done].
Qed.

Lemma phy_log_logs s bufs fl l : (EvPhySend bufs fl :: l) `suffix_of` phy_log s bufs fl l.
Proof. unfold phy_log. destruct s; [by eexists [_]|done]. Qed.

Lemma tick_slot_retries r w :
  inv P w -> waiting i r 0 false w -> 0 < r ->
  let w' := snd (tinymac_tick_handler w) in
  inv P w' /\ waiting i (r - 1) 0 false w' /\ slot_flight i w' = slot_flight i w /\
  logged_between (EvPhySend (fst (slot_flight i w)) 0) (log w) (log w').
Proof.
  intros Hw Hwt Hr. cbv zeta. split; [by apply pres_tick_handler|].
  destruct (tick_around i w Hp Hi Hw) as (wa & Ha & Na & Ta & La & Lb & Hb);
    [by rewrite (wt_state _ _ _ _ _ Hwt)|].
  apply (waiting_same _ _ _ _ _ wa) in Hwt; [|done|done].
  destruct (slot_resends r (m_tick_count (ctx w)) wa) as (Nb & Tb & Lr); [apply Ha|done|done|].
  set (wb := snd (tick_node _ i wa)) in *. set (w' := snd (tinymac_tick_handler w)) in *.
  destruct Hb as [N' T']; [rewrite Nb; cbn [n_state set_n_ack_timer set_n_retries]; by rewrite (wt_state _ _ _ _ _ Hwt)|].
  clearbody wb w'. unfold slot_flight. rewrite N', Nb. split_and!.
  - destruct Hwt. split; rewrite ?N', ?Nb, ?T', ?Tb; auto; try lia.
    by rewrite Z.add_0_r, (u32_id (u32 _)) by apply u32_range.
  - by rewrite Na.
  - exists (log wa). split; [done|]. etrans; [|exact Lb]. rewrite Lr. unfold slot_flight.
    rewrite Na. apply phy_log_logs.
Qed.

Lemma tick_slot_gives_up s w cb :
  inv P w -> waiting i 0 0 s w -> snd (slot_flight i w) = Some cb ->
  let w' := snd (tinymac_tick_handler w) in
  n_state (node_at (PNode i) w') = tinymacNodeState_Unregistered /\
  logged_between (EvSendCb cb (-1)) (log w) (log w').
Proof.
  intros Hw Hwt Hcb. cbv zeta.
  destruct (tick_around i w Hp Hi Hw) as (wa & Ha & Na & Ta & La & Lb & Hb);
    [by rewrite (wt_state _ _ _ _ _ Hwt)|].
  apply (waiting_same _ _ _ _ _ wa) in Hwt; [|done|done].
  assert (Hv : valid (PNode i) wa) by (by eapply ptr_ok_valid).
  rewrite (tick_node_waiting i 0 0 s) in Hb, Lb by (apply Ha || done).
  change (0 <=? 0) with true in Hb, Lb. cbv iota in Hb, Lb. unfold slot_flight in Hcb. cbn [snd] in Hcb.
  rewrite <- Na in Hcb. destruct Hwt.
  assert (Hc : node_at (PNode i) (clear_timer (TAck (PNode i)) wa) =
    set_n_ack_timer (set_t_callback None (n_ack_timer (node_at (PNode i) wa))) (node_at (PNode i) wa))
    by (unfold clear_timer, mod_timer, mod_node; cbn [snd]; by rewrite node_at_upd).
  destruct (ack_timeout_last i (clear_timer (TAck (PNode i)) wa) cb) as (S1 & V1 & L1);
    rewrite ?Hc; try done; [by apply valid_upd|].
  rewrite despatch_idle in Hb, Lb by done. cbn [snd] in Hb, Lb.
  destruct Hb as [N' _]; [by rewrite S1|]. rewrite N'. split; [done|].
  exists (log wa). split; [done|]. by etrans.
Qed.

Lemma ticks_slot_waits r j s w :
  inv P w -> waiting i r (Z.of_nat j) s w ->
  inv P (ticks j w) /\ waiting i r 0 s (ticks j w) /\ slot_flight i (ticks j w) = slot_flight i w.
Proof.
  revert w; induction j as [|j IH]; intros w Hw Hwt; [done|].
  destruct (tick_slot_waits _ _ _ w Hw Hwt) as (H1 & H2 & H3); [lia|].
  replace (Z.of_nat (S j) - 1) with (Z.of_nat j) in H2 by lia.
  destruct (IH _ H1 H2) as (I1 & I2 & I3). cbn [ticks]. rewrite I3, <- H3. by split_and!.
Qed.

Lemma ticks_slot_resend r w :
  inv P w -> waiting i (Z.of_nat r) 0 false w ->
  inv P (ticks r w) /\ waiting i 0 0 false (ticks r w) /\
  slot_flight i (ticks r w) = slot_flight i w /\
  forall k, (k < r)%nat ->
    logged_between (EvPhySend (fst (slot_flight i w)) 0) (log (ticks k w)) (log (ticks (S k) w)).
Proof.
  revert w; induction r as [|r IH]; intros w Hw Hwt; [split_and!; try done; lia|].
  destruct (tick_slot_retries _ w Hw Hwt) as (H1 & H2 & H3 & H4); [lia|].
  replace (Z.of_nat (S r) - 1) with (Z.of_nat r) in H2 by lia.
  destruct (IH _ H1 H2) as (I1 & I2 & I3 & I4). cbn [ticks] in *. rewrite I3, <- H3.
  split_and!; try done. intros [|k] Hk; [cbn [ticks]; by rewrite H3|]. apply (I4 k). lia.
Qed.

(** A timeout for a sleepy device defers the packet. *)
Lemma tick_slot_defers r w :
  inv P w -> waiting i r 0 true w -> 0 < r ->
  let n := node_at (PNode i) (snd (tinymac_tick_handler w)) in
  n_state n = tinymacNodeState_SendPending /\ n_retries n = r - 1 /\
  t_callback (n_ack_timer n) = None /\ t_callback (n_validity_timer n) = None /\
  slot_flight i (snd (tinymac_tick_handler w)) = slot_flight i w.
Proof.
  intros Hw Hwt Hr. cbv zeta.
  destruct (tick_around i w Hp Hi Hw) as (wa & Ha & Na & Ta & La & Lb & Hb);
    [by rewrite (wt_state _ _ _ _ _ Hwt)|].
  apply (waiting_same _ _ _ _ _ wa) in Hwt; [|done|done].
  assert (Hv : valid (PNode i) wa) by (by eapply ptr_ok_valid).
  rewrite (tick_node_waiting i r 0 true) in Hb by (apply Ha || done).
  change (0 <=? 0) with true in Hb. cbv iota in Hb. destruct Hwt.
  set (wc := clear_timer (TAck (PNode i)) wa) in *.
  assert (Hvc : valid (PNode i) wc) by (by apply valid_upd).
  assert (Hc : node_at (PNode i) wc =
    set_n_ack_timer (set_t_callback None (n_ack_timer (node_at (PNode i) wa))) (node_at (PNode i) wa))
    by (unfold wc, clear_timer, mod_timer, mod_node; cbn [snd]; by rewrite node_at_upd).
  clearbody wc. unfold tinymac_ack_timeout in Hb. autorewrite with run in Hb. rewrite Hc in Hb.
  cbn [n_retries n_flags set_n_ack_timer] in Hb. rewrite wt_retries0, wt_sleepy0 in Hb.
  rewrite (proj2 (Z.eqb_neq r 0)) in Hb by lia. change (negb false) with true in Hb. cbv iota in Hb.
  unfold mod_node in Hb. rewrite upd_upd in Hb. cbn [snd] in Hb.
  rewrite despatch_idle in Hb by (cbn [timer_at]; by rewrite node_at_upd, Hc).
  cbn [snd] in Hb. rewrite node_at_upd, Hc in Hb by done. destruct Hb as [N' _]; [done|].
  unfold slot_flight. rewrite N', <- Na, u8_id by (widths; lia). by split_and!.
Qed.
End Ticks.
End Retry.

Section Theorems.
Context `{E : Env}.

(** C20: a coordinator does not wait for a device for ever either, whatever the
    PHY does, whatever other slots are served in the same ticks and whatever the
    application does in its callbacks.  For a slot that waits for an
    acknowledgement of a packet with a send callback and without a running
    validity period, with [r] retries left and the timer due in [j] ticks: to a device that is not sleepy
    the packet is transmitted again, byte for byte, at each of [r] ticks, and the
    tick after that gives up: the send callback is told [-1] and the device is
    unregistered.  For a sleepy device the tick at which the timer is due ends
    the wait: with retries left the packet is deferred again, one retry fewer and
    otherwise unchanged, until the device next asks for it, and with none left
    the callback is told [-1] and the device is unregistered. *)
Theorem coordinator_gives_up P i r j s w cb :
  reachable P w -> p_coordinator P = true -> (i < TINYMAC_MAX_NODES)%nat ->
  waiting i (Z.of_nat r) (Z.of_nat j) s w -> n_send_cb (node_at (PNode i) w) = Some cb ->
  let packet v := pending_bufs (n_pending_header (node_at (PNode i) v)) (node_at (PNode i) v) in
  let wn n := ticks n w in
  let gives_up k :=
    n_state (node_at (PNode i) (wn k)) = tinymacNodeState_WaitAck /\
    logged_between (EvSendCb cb (-1)) (log (wn k)) (log (wn (S k))) /\
    n_state (node_at (PNode i) (wn (S k))) = tinymacNodeState_Unregistered in
  if s
  then match r with
       | O => gives_up j
       | S r' => let n := node_at (PNode i) (wn (S j)) in
                 n_state n = tinymacNodeState_SendPending /\ n_retries n = Z.of_nat r' /\
                 n_send_cb n = Some cb /\ packet (wn (S j)) = packet w /\
                 t_callback (n_ack_timer n) = None /\ t_callback (n_validity_timer n) = None
       end
  else (forall k, (k < r)%nat ->
          logged_between (EvPhySend (packet w) 0) (log (wn (j + k)%nat)) (log (wn (S (j + k))))) /\
       gives_up (j + r)%nat.
Proof.
  intros Hr%reachable_inv Hp Hi Hwt Hcb. cbv zeta.
  destruct (ticks_slot_waits P Hp i Hi _ j s w Hr Hwt) as (H1 & H2 & H3).
  assert (Hf : forall v k, inv P v -> waiting i 0 0 s v -> slot_flight i v = slot_flight i w -> v = ticks k w ->
    n_state (node_at (PNode i) (ticks k w)) = tinymacNodeState_WaitAck /\
    logged_between (EvSendCb cb (-1)) (log (ticks k w)) (log (ticks (S k) w)) /\
    n_state (node_at (PNode i) (ticks (S k) w)) = tinymacNodeState_Unregistered).
  { intros v k Hv Wv Fv ->. rewrite ticks_S.
    destruct (tick_slot_gives_up P Hp i Hi s (ticks k w) cb) as [G1 G2]; [done|done|by rewrite Fv|].
    by split_and!; [apply Wv|..]. }
  destruct s.
  - destruct r as [|r]; [by eapply Hf|]. rewrite ticks_S.
    destruct (tick_slot_defers P Hp i Hi _ _ H1 H2) as (S1 & S2 & S3 & S4 & S5); [lia|].
    rewrite H3 in S5. unfold slot_flight in S5. apply pair_equal_spec in S5 as [S5 S6].
    split_and!; try done; [lia|by rewrite S6, Hcb].
  - destruct (ticks_slot_resend P Hp i Hi _ _ H1 H2) as (I1 & I2 & I3 & I4).
    split.
    + intros k Hk. rewrite <- Nat.add_succ_r, !ticks_add. rewrite H3 in I4. by apply I4.
    + eapply Hf; [exact I1|exact I2|congruence|symmetry; apply ticks_add].
Qed.
End Theorems.

(** ** Instance *)

Lemma coordinator_gives_up_witness :
  let w := coord_waitack in
  let packet := pending_bufs (n_pending_header (node_at (PNode 0) w)) (node_at (PNode 0) w) in
  let wn n := @ticks env_quiet n w in
  (forall k, (k < 3)%nat ->
     logged_between (EvPhySend packet 0) (log (wn (1 + k)%nat)) (log (wn (S (1 + k))))) /\
  n_state (node_at (PNode 0) (wn 4%nat)) = tinymacNodeState_WaitAck /\
  logged_between (EvSendCb 9 (-1)) (log (wn 4%nat)) (log (wn 5%nat)) /\
  n_state (node_at (PNode 0) (wn 5%nat)) = tinymacNodeState_Unregistered.
Proof.
  refine (@coordinator_gives_up env_quiet coord_params 0 3 1 false coord_waitack 9 _ _ _ _ _).
  - apply coord_waitack_reachable.
  - reflexivity.
  - vm_compute. lia.
  - split; vm_compute; try reflexivity; split; congruence.
  - vm_compute. reflexivity.
Defined.
