(* ===== verification/MacDump.v ===== *)
(** * Text output of the MAC and the trace macros

    [tinymac_dump_nodes] of [lib/tinymac.c], which prints the registry of a
    coordinator as a table, and the trace macros of [examples/common.h] as they
    are with [DEBUG] defined. *)

From stdpp Require Import base list numbers strings.
From Stdlib Require Import ZArith Lia.
From S2P Require Import Prelude Printf Ansi Wire MacState Mac MacInv MacRun MacEx MacTick.

(** ** The table of nodes *)

Definition tinymac_node_states (s : tinymac_node_state_t) : text :=
  match s with
  | tinymacNodeState_Unregistered => str "Unregistered"
  | tinymacNodeState_Registered => str "Registered"
  | tinymacNodeState_SendPending => str "SendPending"
  | tinymacNodeState_WaitAck => str "WaitAck"
  end.

(** [(tick_count - last_heard) * TINYMAC_TICK_MS / 1000], on [uint32_t]. *)
Definition last_heard_ago (c : tinymac_t) (node : tinymac_node_t) : Z :=
  u32 (u32 (m_tick_count c - n_last_heard node) * TINYMAC_TICK_MS) / 1000.

Definition dump_node (c : tinymac_t) (node : tinymac_node_t) : text :=
  printf (str "%02X    %016lX  %16s  %4d  %14u  %9u  %s" ++ newline)
    [AInt (n_addr node); AInt (n_uuid node); AStr (tinymac_node_states (n_state node));
     AInt (n_rssi node); AInt (last_heard_ago c node); AInt (heartbeat (n_flags node));
     AStr (if sleepy (n_flags node) then str "Yes" else [])].

Definition dump_heading : text :=
  str "Addr  UUID              State             RSSI  Last Heard Ago  Heartbeat  Sleepy".

Definition tinymac_dump_nodes (c : tinymac_t) : text :=
  printf (str "Network %02X" ++ newline) [AInt (m_net_id c)] ++
  printf (str "Permit attach: %s" ++ newline) [AStr (if m_permit_attach c then str "Yes" else str "No")] ++
  printf (newline ++ str "Known nodes:" ++ newline ++ newline) [] ++
  printf (dump_heading ++ newline) [] ++
  printf (str "---------------------------------------------------------------------------------" ++ newline) [] ++
  concat (map (fun node => if negb (n_uuid node =? 0) then dump_node c node else []) (m_nodes c)).

(** ** Trace macros *)

(** [DUMP(buf, size)]: sixteen bytes a line. *)
Fixpoint dump_bytes (n : Z) (buf : list Z) : text :=
  match buf with
  | [] => []
  | b :: buf =>
      printf (str "%02X ") [AInt (u8 b)] ++
      (if Z.land n 15 =? 15 then newline else []) ++ dump_bytes (n + 1) buf
  end.

Definition DUMP (buf : list Z) : text := dump_bytes 0 buf ++ newline.

(** The three levels differ in the colour of the file and line. *)
Definition trace_line (colour file : text) (line : Z) (fmt : text) (args : list arg) : text :=
  printf (ATTR_RESET ++ colour ++ file ++ str "(%d): " ++ ATTR_RESET ++ fmt) (AInt line :: args).

Definition TRACE (file : text) (line : Z) (fmt : text) (args : list arg) : text :=
  trace_line FG_GREEN file line fmt args.
Definition INFO (file : text) (line : Z) (fmt : text) (args : list arg) : text :=
  trace_line FG_YELLOW file line fmt args.
Definition ERROR (file : text) (line : Z) (fmt : text) (args : list arg) : text :=
  trace_line FG_RED file line fmt args.
Definition FUNCTION_TRACE (file : text) (line : Z) (name : text) : text :=
  TRACE file line (str "%s" ++ newline) [AStr name].

(** ** Lemmas *)

Lemma unsigned_width w v :
  (0 < w)%nat -> 0 <= v < 10 ^ Z.of_nat w -> is_u32 v -> length (print_unsigned 10 false w false v) = w.
Proof.
  intros Hw Hv Hu. unfold print_unsigned. rewrite u32_id by done. apply pad_length.
  by apply digits_bound.
Qed.

Lemma signed_width z : is_i8 z -> length (print_signed 4 z) = 4%nat.
Proof.
  intros Hz. unfold print_signed. rewrite i32_small by (unfold is_i8 in Hz; lia). cbv zeta.
  apply pad_length. unfold is_i8 in Hz. destruct (Z.ltb_spec z 0); cbn [length].
  - pose proof (digits_bound 10 3 max_digits (- z)). cbn in *. lia.
  - pose proof (digits_bound 10 3 max_digits z). cbn in *. lia.
Qed.

Lemma ago_u32 c node : 0 <= last_heard_ago c node < 4294968.
Proof.
  unfold last_heard_ago. pose proof (u32_range (u32 (m_tick_count c - n_last_heard node) * TINYMAC_TICK_MS)) as H.
  unfold is_u32 in H. split; [apply Z.div_pos; lia|]. apply Z.div_lt_upper_bound; lia.
Qed.

Lemma heartbeat_bound fl : 1 <= heartbeat fl <= 32768.
Proof.
  rewrite heartbeat_value. pose proof (Z.mod_pos_bound fl 16 ltac:(lia)) as H.
  split; [change 1 with (2 ^ 0)|change 32768 with (2 ^ 15)]; apply Z.pow_le_mono_r; lia.
Qed.

(** ** Theorems *)

(** The columns of a row up to the last. *)
Definition dump_columns (c : tinymac_t) (node : tinymac_node_t) : text :=
  field_of 16 2 (n_addr node) ++ str "    " ++ field_of 16 16 (n_uuid node) ++ str "  " ++
  pad 32 16 (tinymac_node_states (n_state node)) ++ str "  " ++ print_signed 4 (n_rssi node) ++ str "  " ++
  print_unsigned 10 false 14 false (last_heard_ago c node) ++ str "  " ++
  print_unsigned 10 false 9 false (heartbeat (n_flags node)) ++ str "  ".

(** Every row of the table is aligned with its heading: in a coordinator that
    keeps the invariant the last column of each row begins where the heading's
    does, whatever the node's signal strength, age, heartbeat and state. *)
Theorem dump_rows_aligned p c node :
  node_ok p node ->
  dump_node c node =
    dump_columns c node ++ (if sleepy (n_flags node) then str "Yes" else []) ++ newline /\
  length (dump_columns c node) = 75%nat /\ drop 75 dump_heading = str "Sleepy".
Proof.
  intros Hok. pose proof (ago_u32 c node) as Ha. pose proof (heartbeat_bound (n_flags node)) as Hh.
  assert (Hs : length (pad 32 16 (tinymac_node_states (n_state node))) = 16%nat)
    by (destruct (n_state node); reflexivity).
  split_and!; [| |reflexivity].
  - unfold dump_columns, dump_node.
    rewrite <- (print_fixed 16 2 (n_addr node) false), <- (print_fixed 16 16 (n_uuid node) true).
    + rewrite <- !app_assoc. destruct (sleepy _); reflexivity.
    + lia.
    + pose proof (ok_uuid _ _ Hok) as H. unfold is_u64 in H. exact H.
    + unfold max_digits. lia.
    + apply Hok.
    + lia.
    + pose proof (ok_addr _ _ Hok) as H. unfold is_u8 in H. exact H.
    + unfold max_digits. lia.
    + pose proof (ok_addr _ _ Hok). widths; lia.
  - unfold dump_columns. rewrite !length_app, !field_length, Hs.
    rewrite signed_width by apply Hok.
    rewrite !unsigned_width; [reflexivity|lia|lia|widths; lia|lia|lia|widths; lia].
Qed.

(** The age of a node is right for less than fifty days, and then starts again
    from zero: the ticks are converted to milliseconds in 32 bits. *)
Theorem dump_age_wraps c node k :
  0 <= k < 2 ^ 32 -> m_tick_count c = u32 (n_last_heard node + k) -> is_u32 (n_last_heard node) ->
  last_heard_ago c node = (k * 250) mod 2 ^ 32 / 1000 /\
  (k <= 17179869 -> last_heard_ago c node = k / 4) /\
  (k = 17179870 -> last_heard_ago c node = 0).
Proof.
  intros Hk Ht Hn.
  assert (E : u32 (m_tick_count c - n_last_heard node) = k).
  { rewrite Ht. unfold u32. rewrite Zminus_mod_idemp_l.
    replace (n_last_heard node + k - n_last_heard node) with k by lia. apply Z.mod_small. lia. }
  unfold last_heard_ago. rewrite E. unfold TINYMAC_TICK_MS, u32. split_and!.
  - done.
  - intros Hs. rewrite Z.mod_small by lia. replace 1000 with (4 * 250) by lia.
    rewrite Z.div_mul_cancel_r; lia.
  - intros ->. reflexivity.
Qed.

(** [DUMP] prints three characters a byte and ends every line. *)
Theorem dump_length buf :
  Z.of_nat (length (DUMP buf)) = 3 * Z.of_nat (length buf) + Z.of_nat (length buf) / 16 + 1.
Proof.
  assert (H : forall n, 0 <= n -> Z.of_nat (length (dump_bytes n buf)) =
    3 * Z.of_nat (length buf) + ((n + Z.of_nat (length buf)) / 16 - n / 16)).
  { induction buf as [|b buf IH]; intros n Hn; [cbn; rewrite Z.add_0_r; lia|].
    cbn [dump_bytes]. rewrite !length_app.
    assert (E : printf (str "%02X ") [AInt (u8 b)] = field_of 16 2 (u8 b) ++ [32]).
    { rewrite <- (print_fixed 16 2 (u8 b) false); [reflexivity|lia| |unfold max_digits; lia|].
      - pose proof (u8_range b) as Hb. unfold is_u8 in Hb. exact Hb.
      - pose proof (u8_range b). widths; lia. }
    rewrite E, length_app, field_length, !Nat2Z.inj_add, IH by lia. cbn [length].
    change 15 with (Z.ones 4). rewrite Z.land_ones by lia. change (2 ^ 4) with 16. change (Z.ones 4) with 15.
    destruct (Z.eqb_spec (n mod 16) 15); cbn [length newline]; Z.div_mod_to_equations; lia. }
  unfold DUMP. rewrite length_app, Nat2Z.inj_add, H by lia. cbn. Z.div_mod_to_equations; lia.
Qed.

(** ** Instance *)

Example dump_one_node :
  drop (length (tinymac_dump_nodes (ctx coord0))) (tinymac_dump_nodes (ctx coord_sleepy)) =
  str "01    123456789ABCDEF0        Registered     0               0         32  Yes" ++ newline.
Proof. vm_compute. reflexivity. Qed.
