(* ===== verification/MacClient.v ===== *)
(** * The client state machine

    Which packets a client processes, how its attachment state can move in one
    step, and what it takes to become registered. *)

From stdpp Require Import base list numbers.
From Stdlib Require Import ZArith Lia.
From S2P Require Import Prelude Wire MacState Mac MacInv MacRun MacEx MacTx MacTick.

(** ** Handlers that can only detach the client *)

(** [m] leaves the attachment state alone or unregisters. *)
Definition detaches {A} (m : M A) : Prop :=
  forall w, m_state (ctx (snd (m w))) = m_state (ctx w) \/
            m_state (ctx (snd (m w))) = tinymacClientState_Unregistered.

Lemma detaches_keeps {A} (m : M A) : keeps_core m -> detaches m.
Proof. intros H w. left. specialize (H w). apply core_fields in H. apply H. Qed.

Lemma detaches_bind {A B} (m : M A) (k : A -> M B) :
  detaches m -> (forall a, detaches (k a)) -> detaches (bind m k).
Proof.
  intros Hm Hk w. rewrite bind_run. destruct (Hk (fst (m w)) (snd (m w))) as [->| ->]; auto.
Qed.

Lemma detaches_when b m : detaches m -> detaches (when b m).
Proof. intros Hm. destruct b; [done|]. by intros w; left. Qed.

Lemma detaches_mod_timer t f : detaches (mod_timer t f).
Proof. intros w. left. by destruct t as [[]|[]|]. Qed.

Lemma detaches_read_timer t : detaches (read_timer t).
Proof. intros w. left. by destruct t. Qed.

Lemma detaches_set_timer t cb arg d : detaches (tinymac_set_timer t cb arg d).
Proof. apply detaches_bind; [by intros w; left|intros c]. apply detaches_mod_timer. Qed.

Lemma detaches_detach : detaches (mod_ctx client_detach).
Proof. by intros w; right. Qed.

Ltac detaches_step :=
  lazymatch goal with
  | |- detaches (bind _ _) => apply detaches_bind; [|intros ?]
  | |- detaches (when _ _) => apply detaches_when
  | |- detaches (if ?b then _ else _) => destruct b
  | |- detaches (match ?x with _ => _ end) => destruct x
  | |- detaches (let _ := _ in _) => cbn zeta
  end.
Ltac detaches_auto :=
  repeat first [solve [apply detaches_keeps; eauto 4 with frame]
               | solve [auto using detaches_mod_timer, detaches_read_timer, detaches_set_timer,
                        detaches_detach]
               | detaches_step].

Section Client.
Context `{E : Env}.

Lemma detaches_deregister p : detaches (tinymac_deregister_node p).
Proof. unfold tinymac_deregister_node. detaches_auto. Qed.

Lemma detaches_run_timer_fn fn arg : detaches (run_timer_fn fn arg).
Proof.
  destruct fn, arg as [p|]; simpl;
    unfold tinymac_request_timeout, tinymac_ack_timeout, tinymac_cancel_timer, tinymac_validity_timeout;
    repeat first [apply detaches_deregister | progress detaches_auto].
Qed.

Lemma detaches_despatch t : detaches (tinymac_despatch_timer t).
Proof.
  unfold tinymac_despatch_timer.
  repeat first [apply detaches_run_timer_fn | progress detaches_auto].
Qed.

Lemma detaches_rx_deregistration hdr pl : detaches (tinymac_rx_deregistration_request hdr pl).
Proof.
  unfold tinymac_rx_deregistration_request.
  repeat first [apply detaches_deregister | progress detaches_auto].
Qed.

(** ** The two packets that attach *)

Definition response_for (c : tinymac_t) (hdr : tinymac_header_t) (r : tinymac_registration_response_t)
    : Prop :=
  m_state c = tinymacClientState_Registering /\ rs_uuid r = p_uuid (m_params c) /\
  rs_addr r <> TINYMAC_ADDR_UNASSIGNED /\
  rs_status r = status_code tinymacRegistrationStatus_Success.

Lemma rx_beacon_moves hdr pl w :
  let s := m_state (ctx w) in
  let s' := m_state (ctx (snd (tinymac_rx_beacon hdr pl w))) in
  s' = s \/ ((s = tinymacClientState_Unregistered \/ s = tinymacClientState_BeaconRequest) /\
             s' = tinymacClientState_Registering /\
             (b_flags (beacon_of pl) &? TINYMAC_BEACON_FLAGS_PERMIT_ATTACH) = true).
Proof.
  cbv zeta. unfold tinymac_rx_beacon. autorewrite with run. destruct (p_coordinator _); [by left|].
  rewrite bind_run.
  set (w1 := snd (when _ _ w)).
  assert (E1 : m_state (ctx w1) = m_state (ctx w)) by (unfold w1; by destruct (bool_decide _)).
  assert (Hatt : m_state (ctx (snd (rx_beacon_attach hdr (beacon_of pl) w1))) =
                 tinymacClientState_Registering).
  { unfold rx_beacon_attach. autorewrite with run. rewrite bind_run. set (w2 := upd_node _ _ _).
    assert (Hk : keeps_core (tinymac_tx_packet (Some PCoord) (type_code tinymacType_RegistrationRequest)
                   (reg_request_bytes (mk_reg_request (p_uuid (m_params (ctx w1)))
                                         (p_flags (m_params (ctx w1))))) 0 None))
      by auto with frame.
    specialize (Hk w2). apply core_fields in Hk as (_ & _ & _ & _ & _ & Hs & _). exact Hs. }
  destruct (m_state (ctx w)) eqn:Es.
  1, 2: destruct (_ &? _) eqn:Ef; [rewrite when_true, Hatt; auto | left; done].
  - by left.
  - left. rewrite <- E1. destruct (existsb _ _); [rewrite when_true|done].
    assert (Hk : keeps_core (tinymac_tx_packet (Some PCoord) (type_code tinymacType_Poll) [] 0 None ;; ret tt))
      by (apply keeps_bind; auto with frame).
    specialize (Hk w1). apply core_fields in Hk. apply Hk.
Qed.

Lemma rx_response_moves hdr pl w :
  let w' := snd (tinymac_rx_registration_response hdr pl w) in
  m_state (ctx w') = m_state (ctx w) \/ m_state (ctx w') = tinymacClientState_Unregistered \/
  (m_state (ctx w') = tinymacClientState_Registered /\ m_addr (ctx w') = rs_addr (reg_response_of pl) /\
   m_net_id (ctx w') = h_net_id hdr /\ response_for (ctx w) hdr (reg_response_of pl)).
Proof.
  cbv zeta. unfold tinymac_rx_registration_response. autorewrite with run.
  destruct (p_coordinator _); [by left|].
  destruct (negb (_ =? p_uuid _)) eqn:Eu;
    [destruct (h_dest_addr hdr =? _); [left; done|right; left; done]|]. boolify.
  rewrite bind_run. destruct (bool_decide _) eqn:Es.
  - apply bool_decide_eq_true in Es. destruct (_ || _) eqn:Eo; [right; left; done|]. boolify.
    right; right. by repeat split.
  - destruct (_ || _) eqn:Eo; [right; left; done|]. by left.
Qed.

Definition recv_registers (buf : list Z) (w w' : world) : Prop :=
  let hdr := header_of buf in
  let r := reg_response_of (payload_of buf) in
  is_type tinymacType_RegistrationResponse hdr /\ h_net_id hdr = m_net_id (ctx w) /\
  response_for (ctx w) hdr r /\ m_addr (ctx w') = rs_addr r /\ m_net_id (ctx w') = h_net_id hdr.

Inductive client_move : tinymac_client_state_t -> tinymac_client_state_t -> Prop :=
| move_stay s : client_move s s
| move_request : client_move tinymacClientState_Unregistered tinymacClientState_BeaconRequest
| move_attach_unsolicited : client_move tinymacClientState_Unregistered tinymacClientState_Registering
| move_attach : client_move tinymacClientState_BeaconRequest tinymacClientState_Registering
| move_register : client_move tinymacClientState_Registering tinymacClientState_Registered
| move_detach s : client_move s tinymacClientState_Unregistered.
Hint Constructors client_move : core.

Lemma type_of_code z : 0 <= z < 32 -> type_code (type_of z) = z.
Proof.
  intros Hz. assert (H : forallb (fun z => type_code (type_of z) =? z) (map Z.of_nat (seq 0 32)) = true)
    by (vm_compute; reflexivity).
  rewrite forallb_forall in H. apply Z.eqb_eq, H, in_map_iff. exists (Z.to_nat z).
  split; [lia|]. apply in_seq. lia.
Qed.

Lemma type_field_range f : 0 <= Z.land f TINYMAC_FLAGS_TYPE_MASK < 32.
Proof.
  change TINYMAC_FLAGS_TYPE_MASK with (Z.ones 5). rewrite Z.land_ones by lia.
  by apply Z.mod_pos_bound.
Qed.

(** The switch. *)
Lemma despatch_moves hdr node buf w :
  let w' := snd (rx_despatch hdr node buf w) in
  let s := m_state (ctx w) in let s' := m_state (ctx w') in
  s' = s \/ s' = tinymacClientState_Unregistered \/
  ((s = tinymacClientState_Unregistered \/ s = tinymacClientState_BeaconRequest) /\
   s' = tinymacClientState_Registering) \/
  (s' = tinymacClientState_Registered /\ is_type tinymacType_RegistrationResponse hdr /\
   response_for (ctx w) hdr (reg_response_of (payload_of buf)) /\
   m_addr (ctx w') = rs_addr (reg_response_of (payload_of buf)) /\ m_net_id (ctx w') = h_net_id hdr).
Proof.
  cbv zeta.
  assert (Hd : forall (m : M unit), detaches m ->
     m_state (ctx (snd (m w))) = m_state (ctx w) \/
     m_state (ctx (snd (m w))) = tinymacClientState_Unregistered \/ False)
    by (intros m Hm; destruct (Hm w); auto).
  unfold rx_despatch. cbv zeta.
  destruct (_ <=? _).
  { edestruct Hd as [?|[?|[]]]; [|left; eassumption|right; left; eassumption]. detaches_auto. }
  pose proof (type_field_range (h_flags hdr)) as Hr. apply type_of_code in Hr.
  destruct (type_of _) eqn:Et; try by left.
  - destruct (_ <? _); [by left|]. pose proof (rx_beacon_moves hdr (payload_of buf) w) as Hb.
    cbv zeta in Hb. destruct Hb as [?|(? & ? & _)]; auto.
  - edestruct Hd as [?|[?|[]]]; [|left; eassumption|right; left; eassumption]. detaches_auto.
  - edestruct Hd as [?|[?|[]]]; [|left; eassumption|right; left; eassumption]. detaches_auto.
  - destruct (_ <? _); [by left|].
    edestruct Hd as [?|[?|[]]]; [|left; eassumption|right; left; eassumption]. detaches_auto.
  - destruct (_ <? _); [by left|].
    edestruct Hd as [?|[?|[]]]; [|left; eassumption|right; left; eassumption].
    apply detaches_rx_deregistration.
  - destruct (_ <? _); [by left|]. pose proof (rx_response_moves hdr (payload_of buf) w) as Hb.
    cbv zeta in Hb. destruct Hb as [?|[?|(? & ? & ? & ?)]]; [auto|auto|].
    right; right; right. unfold is_type. rewrite <- Hr. auto.
Qed.

Definition recv_outcome (buf : list Z) (w w' : world) : Prop :=
  let s := m_state (ctx w) in let s' := m_state (ctx w') in
  s' = s \/ s' = tinymacClientState_Unregistered \/
  ((s = tinymacClientState_Unregistered \/ s = tinymacClientState_BeaconRequest) /\
   s' = tinymacClientState_Registering) \/
  (s' = tinymacClientState_Registered /\ recv_registers buf w w').

(** ** Filtering *)

Lemma recv_dropped buf rssi w :
  let hdr := header_of buf in
  Z.of_nat (length buf) < sizeof_header \/ h_src_addr hdr = m_addr (ctx w) \/
  dest_accepted (ctx w) hdr = false \/ anonymous_refused (ctx w) hdr = true ->
  tinymac_recv_cb buf rssi w = (tt, w).
Proof.
  cbv zeta. intros H. unfold tinymac_recv_cb.
  destruct (Z.ltb_spec (Z.of_nat (length buf)) sizeof_header); [done|]. autorewrite with run.
  destruct (Z.eqb_spec (h_src_addr (header_of buf)) (m_addr (ctx w))); [done|].
  destruct (dest_accepted _ _); [change (negb true) with false; cbv iota|done].
  destruct (anonymous_refused _ _); [done|]. exfalso. intuition (lia || done).
Qed.

Lemma client_own_network P buf w :
  inv P w -> p_coordinator P = false ->
  m_net_id (ctx w) <> TINYMAC_NETWORK_ANY ->
  dest_accepted (ctx w) (header_of buf) = true -> anonymous_refused (ctx w) (header_of buf) = false ->
  h_net_id (header_of buf) = m_net_id (ctx w).
Proof.
  intros [Hc _] Hp Hn. unfold dest_accepted, anonymous_refused.
  rewrite (ok_params _ _ Hc), Hp. apply Z.eqb_neq in Hn as Hn'. rewrite Hn'.
  destruct (Z.eqb_spec (h_net_id (header_of buf)) TINYMAC_NETWORK_ANY);
    destruct (Z.eqb_spec (h_net_id (header_of buf)) (m_net_id (ctx w))); simpl; try done.
Qed.

Lemma recv_moves P buf rssi w :
  inv P w -> p_coordinator P = false ->
  recv_outcome buf w (snd (tinymac_recv_cb buf rssi w)).
Proof.
  intros Hw Hp. pose proof Hw as [Hc _].
  assert (Hno : recv_outcome buf w w) by (by left).
  unfold tinymac_recv_cb. destruct (_ <? sizeof_header); [done|]. autorewrite with run.
  destruct (h_src_addr _ =? m_addr _); [done|].
  destruct (dest_accepted _ _) eqn:Ed; [change (negb true) with false; cbv iota|done].
  destruct (anonymous_refused _ _) eqn:Ea; [done|].
  rewrite bind_run. set (w1 := snd (when _ _ w)).
  assert (C1 : core (ctx w1) = core (ctx w)).
  { assert (Hk : keeps_core (when (sleepy (p_flags (m_params (ctx w))))
      (if h_flags (header_of buf) &? TINYMAC_FLAGS_DATA_PENDING
       then emit (EvPhyDelayedStandby TINYMAC_LISTEN_PERIOD_US) else emit EvPhyStandby)))
      by keeps_auto. apply Hk. }
  assert (Hdes : forall node w2, core (ctx w2) = core (ctx w) ->
            recv_outcome buf w (snd (rx_despatch (header_of buf) node buf w2))).
  { intros node w2 C2. apply core_fields in C2 as (Epar & _ & _ & Enet & _ & Est & _).
    pose proof (despatch_moves (header_of buf) node buf w2) as Hm. cbv zeta in Hm.
    unfold recv_outcome, recv_registers, response_for in *. rewrite Est, Epar in Hm.
    destruct Hm as [?|[?|[?|(H1 & H2 & H3 & H4 & H5)]]]; auto.
    right; right; right. split_and!; try done; try apply H3.
    eapply client_own_network; eauto. destruct Hc. unfold role_ok in *. rewrite Hp in *.
    destruct H3 as (H3 & _). rewrite H3 in *. tauto. }
  destruct (negb _ && negb _); [|by apply Hdes].
  destruct (tinymac_get_node_by_addr _ _) as [p|].
  - rewrite bind_run. apply Hdes. etrans; [apply keeps_rx_known_source|done].
  - left. pose proof (keeps_rx_unknown_source (header_of buf) w1) as Hk.
    rewrite C1 in Hk. apply core_fields in Hk. apply Hk.
Qed.

(** ** Theorems *)

(** C24: a client that has joined a network is deaf to every other network: a
    packet whose network ID is not its own changes nothing at all, and neither
    do packets too short for a header and its own packets looped back. *)
Theorem client_network_isolation P buf rssi w :
  reachable P w -> p_coordinator P = false ->
  m_state (ctx w) = tinymacClientState_Registering \/ m_state (ctx w) = tinymacClientState_Registered ->
  h_net_id (header_of buf) <> m_net_id (ctx w) \/ h_src_addr (header_of buf) = m_addr (ctx w) \/
  Z.of_nat (length buf) < sizeof_header ->
  tinymac_recv_cb buf rssi w = (tt, w).
Proof.
  intros Hw%reachable_inv Hp Hs Hn. apply recv_dropped.
  destruct Hn as [Hn|[?|?]]; [|auto|auto].
  destruct (dest_accepted _ _) eqn:Ed; [|auto]. destruct (anonymous_refused _ _) eqn:Ea; [auto|].
  exfalso. apply Hn. eapply client_own_network; eauto. pose proof Hw as [[] _].
  unfold role_ok in *. rewrite Hp in *. destruct Hs as [Hs|Hs]; rewrite Hs in *; tauto.
Qed.

Lemma tick_moves w :
  p_coordinator (m_params (ctx w)) = false ->
  client_move (m_state (ctx w)) (m_state (ctx (snd (tinymac_tick_handler w)))) /\
  (m_state (ctx (snd (tinymac_tick_handler w))) = tinymacClientState_Registered ->
   m_state (ctx w) = tinymacClientState_Registered).
Proof.
  intros Hp. unfold tinymac_tick_handler, tick_client. autorewrite with run. rewrite Hp.
  autorewrite with run. rewrite bind_run. set (w1 := snd (when _ _ w)).
  assert (H1 : m_state (ctx w1) = m_state (ctx w) \/
     (m_state (ctx w) = tinymacClientState_Unregistered /\
      m_state (ctx w1) = tinymacClientState_BeaconRequest)).
  { unfold w1. destruct (bool_decide _) eqn:Es; [|by left]. apply bool_decide_eq_true in Es.
    right. split; [done|]. rewrite when_true. autorewrite with run. rewrite bind_run.
    match goal with |- context [snd (tinymac_tx_packet ?d ?t ?b ?v ?cb ?x)] =>
      pose proof (keeps_tx_packet d t b v cb x) as Hk end.
    apply core_fields in Hk as (_ & _ & _ & _ & _ & Hk & _). exact Hk. }
  match goal with |- context [?m w1] => assert (Hd : detaches m) end.
  { repeat first [apply detaches_despatch | apply detaches_bind; [|intros ?]]. by intros w'; left. }
  destruct (Hd w1) as [->| ->]; (split; [|intros Hf; try done]).
  - destruct H1 as [->|[-> ->]]; auto.
  - destruct H1 as [H1|[H1 H1']]; congruence.
  - auto.
Qed.

Lemma step_params w w' : p_coordinator (m_params (ctx w)) = false -> step w w' ->
  client_move (m_state (ctx w)) (m_state (ctx w')) \/ exists buf rssi, w' = snd (tinymac_recv_cb buf rssi w).
Proof.
  intros Hp Hs. destruct Hs as [| | |? ?|? ?|? ?|? ?]; try (left; constructor).
  - right. eauto.
  - left. by apply tick_moves.
  - left. pose proof (keeps_send dest type buf validity cb w) as Hk. apply core_fields in Hk.
    destruct Hk as (_ & _ & _ & _ & _ & -> & _). constructor.
Qed.

(** C18: in one step - any packet, tick or interface call - a client's attachment
    state moves only along the protocol: unregistered to beacon-request or (an
    unsolicited beacon) registering, beacon-request to registering, registering
    to registered, and from anywhere back to unregistered. *)
Theorem client_transitions P w w' :
  reachable P w -> p_coordinator P = false -> step w w' ->
  client_move (m_state (ctx w)) (m_state (ctx w')).
Proof.
  intros Hw%reachable_inv Hp Hs. pose proof Hw as [Hc _].
  destruct (step_params w w') as [?|(buf & rssi & ->)]; [by rewrite (ok_params _ _ Hc)|done|done|].
  destruct (recv_moves P buf rssi w Hw Hp) as [->|[->|[([-> | ->] & ->)|(-> & _ & _ & (-> & _) & _)]]];
    auto.
Qed.

(** A client becomes registered only by receiving, while registering, a
    successful registration response on the network it is attaching to, for its
    own UUID, with an assigned address; and it then uses exactly that address. *)
Theorem registered_only_by_response P w w' :
  reachable P w -> p_coordinator P = false -> step w w' ->
  m_state (ctx w) <> tinymacClientState_Registered ->
  m_state (ctx w') = tinymacClientState_Registered ->
  exists buf rssi, w' = snd (tinymac_recv_cb buf rssi w) /\ recv_registers buf w w'.
Proof.
  intros Hw%reachable_inv Hp Hs Hn Hr. pose proof Hw as [Hc _].
  assert (Hp' : p_coordinator (m_params (ctx w)) = false) by (by rewrite (ok_params _ _ Hc)).
  assert (Hrecv : forall buf rssi, m_state (ctx (snd (tinymac_recv_cb buf rssi w))) =
     tinymacClientState_Registered -> recv_registers buf w (snd (tinymac_recv_cb buf rssi w))).
  { intros buf rssi Hreg.
    destruct (recv_moves P buf rssi w Hw Hp) as [H|[H|[[_ H]|[_ H]]]]; [congruence..|done]. }
  destruct Hs as [| | |? ?|? ?|? ?|? ?]; try done.
  - eauto.
  - by apply tick_moves in Hr.
  - pose proof (keeps_send dest type buf validity cb w) as Hk. apply core_fields in Hk.
    destruct Hk as (_ & _ & _ & _ & _ & Hk & _). congruence.
Qed.
End Client.

(** ** Instances *)

Lemma client_network_isolation_witness :
  @tinymac_recv_cb env_quiet (packet 16 8 1 0 3 [1; 2]) (-40) client_registered =
  (tt, client_registered).
Proof.
  refine (@client_network_isolation env_quiet client_params _ _ _ _ _ _ _).
  - apply client_registered_reachable.
  - reflexivity.
  - right. vm_compute. reflexivity.
  - left. vm_compute. discriminate.
Defined.

Lemma client_registering_reachable : @reachable env_quiet client_params client_registering.
Proof. apply reachable_recv; [reflexivity|]. apply reachable_tick, client0_reachable. Qed.

Lemma client_transitions_witness :
  client_move (m_state (ctx client_registering)) (m_state (ctx client_registered)).
Proof.
  refine (@client_transitions env_quiet client_params client_registering client_registered _ _ _).
  - apply client_registering_reachable.
  - reflexivity.
  - constructor. apply bytesb_ok. reflexivity.
Defined.

Lemma registered_only_by_response_witness :
  exists buf rssi, client_registered = snd (@tinymac_recv_cb env_quiet buf rssi client_registering) /\
    recv_registers buf client_registering client_registered.
Proof.
  refine (@registered_only_by_response env_quiet client_params client_registering client_registered
            _ _ _ _ _).
  - apply client_registering_reachable.
  - reflexivity.
  - constructor. apply bytesb_ok. reflexivity.
  - vm_compute. discriminate.
  - vm_compute. reflexivity.
Defined.
