(* ===== verification/MacDefects.v ===== *)
(** * Behaviours of the MAC that depart from its intent

    Each theorem states, for the definitions of [Mac], a behaviour that the
    comments or the protocol do not intend. *)

From stdpp Require Import base list numbers.
From Stdlib Require Import ZArith Lia.
From S2P Require Import Prelude Wire MacState Mac MacInv MacRun MacEx MacTx MacTick MacClient.

Section Defects.
Context `{E : Env}.

(** ** Deregistration of a sleepy node *)

(** When a sleepy node deregisters, the response is not sent but stored in
    the very slot that is then freed, with a validity of zero: nothing is
    transmitted, and when the tick handler next looks at that slot the expired
    validity timer marks the node registered again. *)
Theorem sleepy_deregistration_undone i hdr u r rest w :
  valid (PNode i) w -> p_coordinator (m_params (ctx w)) = true -> m_dereg_cb (ctx w) = false ->
  is_u32 (m_tick_count (ctx w)) -> 16 <= m_phy_mtu (ctx w) -> is_u64 u -> is_u8 r ->
  tinymac_get_node_by_addr (ctx w) (h_src_addr hdr) = Some (PNode i) ->
  n_state (node_at (PNode i) w) = tinymacNodeState_Registered ->
  sleepy (n_flags (node_at (PNode i) w)) = true -> n_uuid (node_at (PNode i) w) = u ->
  let w1 := snd (tinymac_rx_deregistration_request hdr
                   (dereg_request_bytes (mk_dereg_request u r) ++ rest) w) in
  log w1 = log w /\
  n_state (node_at (PNode i) w1) = tinymacNodeState_Unregistered /\
  n_state (node_at (PNode i) (snd (tinymac_despatch_timer (TValidity (PNode i)) w1))) =
    tinymacNodeState_Registered.
Proof.
  intros Hv Hp Hd Ht Hm Hu Hr Hl Hs Hsl Hid. cbv zeta.
  unfold tinymac_rx_deregistration_request. autorewrite with run. rewrite Hp.
  change (negb true) with false. cbv iota. rewrite dereg_request_roundtrip by done.
  cbn [dr_uuid dr_reason]. rewrite Hl. autorewrite with run.
  rewrite Hid, Z.eqb_refl. change (negb true) with false. cbv iota.
  rewrite bind_run, tx_packet_deferred; [|done| |done|done].
  2: { split; [unfold TINYMAC_MAX_PAYLOAD; simpl; lia|]. change (length _) with 10%nat.
       unfold sizeof_header; lia. }
  cbn [fst snd].
  match goal with |- context [tinymac_deregister_node _ (upd_node _ ?f _)] => set (g := f) end.
  assert (Hv' : valid (PNode i) (bump w)) by (by apply valid_bump).
  set (w1 := upd_node (PNode i) (fun n => set_n_state tinymacNodeState_Unregistered (g n)) (bump w)).
  assert (Ew : tinymac_deregister_node (PNode i) (upd_node (PNode i) g (bump w)) = (tt, w1)).
  { unfold tinymac_deregister_node. autorewrite with run. rewrite bool_decide_eq_false_2 by done.
    change (when false ?m) with (ret tt). autorewrite with run. rewrite upd_upd.
    change (m_dereg_cb _) with (m_dereg_cb (ctx w)). by rewrite Hd, when_false. }
  rewrite Ew. cbn [snd].
  assert (En : node_at (PNode i) w1 = set_n_state tinymacNodeState_Unregistered (g (node_at (PNode i) w)))
    by (unfold w1; by rewrite node_at_upd).
  split_and!; [done|by rewrite En|].
  rewrite (despatch_due _ w1 fn_validity_timeout (Some (PNode i)) 0);
    [|cbn [timer_at]; rewrite En; done|done|lia].
  change (0 <=? 0) with true. cbv iota. cbn [run_timer_fn]. unfold tinymac_validity_timeout.
  autorewrite with run. unfold tinymac_cancel_timer, mod_timer. autorewrite with run.
  rewrite upd_upd. unfold call_send_cb. autorewrite with run.
  unfold clear_timer, mod_timer, mod_node. cbn [snd]. rewrite upd_upd.
  assert (Hv1 : valid (PNode i) w1) by (by apply valid_upd).
  rewrite node_at_upd, En by done. change (n_send_cb _) with (@None Z). cbv iota.
  unfold ret. cbn [snd]. by rewrite node_at_upd, En.
Qed.

(** ** A coordinator on the wildcard network *)

(** [tinymac_init] takes a coordinator's network ID from all 8 bits of
    [rand()], so it can be the wildcard 0xFF; and a client, in whatever state,
    drops every packet that carries the wildcard as its network - beacons and
    registration responses included - so that it can never attach there. *)
Theorem wildcard_network_unjoinable P C w r1 r2 r3 buf rssi wc :
  p_coordinator P = true -> u8 r3 = 255 ->
  reachable C wc -> p_coordinator C = false -> h_net_id (header_of buf) = TINYMAC_NETWORK_ANY ->
  m_net_id (ctx (snd (tinymac_init P r1 r2 r3 w))) = TINYMAC_NETWORK_ANY /\
  tinymac_recv_cb buf rssi wc = (tt, wc).
Proof.
  intros Hp Hr Hc%reachable_inv HC Hn. split.
  - unfold tinymac_init. autorewrite with run. rewrite !bind_run. simpl. rewrite Hp.
    destruct (sleepy _); exact Hr.
  - apply recv_dropped. do 3 right. unfold anonymous_refused. destruct Hc as [Hc _].
    by rewrite Hn, (ok_params _ _ Hc), HC.
Qed.

(** ** Data packets from unregistered senders *)

(** While attachment is permitted a coordinator hands data packets that
    were broadcast from the unassigned address to the application with a NULL
    node, although only a registered node can be meant to send data. *)
Theorem anonymous_data_delivered_with_null_node hdr payload rssi w :
  header_ok hdr -> p_coordinator (m_params (ctx w)) = true -> m_permit_attach (ctx w) = true ->
  m_rx_cb (ctx w) = true -> m_addr (ctx w) = 0 ->
  sleepy (p_flags (m_params (ctx w))) = false ->
  h_src_addr hdr = TINYMAC_ADDR_UNASSIGNED -> h_dest_addr hdr = TINYMAC_ADDR_BROADCAST ->
  h_net_id hdr = m_net_id (ctx w) ->
  type_code tinymacType_RawData <= Z.land (h_flags hdr) TINYMAC_FLAGS_TYPE_MASK ->
  tinymac_recv_cb (header_bytes hdr ++ payload) rssi w =
  upcall (EvRecvCb None (Z.land (h_flags hdr) TINYMAC_FLAGS_TYPE_MASK) payload) w.
Proof.
  intros Hh Hp Hpa Hcb Ha Hsl Hs Hd Hn Ht. unfold tinymac_recv_cb.
  rewrite header_roundtrip, length_app, header_bytes_length by done.
  replace (Z.of_nat (6 + length payload) <? sizeof_header) with false
    by (symmetry; apply Z.ltb_ge; unfold sizeof_header; lia).
  autorewrite with run. unfold dest_accepted, anonymous_refused.
  rewrite Hs, Hd, Hn, Ha, Hp, Hpa, Hsl, !Z.eqb_refl.
  change (TINYMAC_ADDR_UNASSIGNED =? 0) with false. rewrite orb_true_r, andb_false_r.
  cbn [negb andb orb]. change (when false ?m) with (ret tt). autorewrite with run.
  rewrite andb_false_r. unfold rx_despatch. cbv zeta.
  replace (_ <=? _) with true by (symmetry; by apply Z.leb_le). autorewrite with run.
  rewrite Hcb, when_true, <- Z.land_assoc, Z.land_diag. f_equal.
Qed.
End Defects.

(** ** Concrete traces *)

(** The device in slot 0 restarts while a packet to it is unacknowledged. *)
Definition coord_rejoined : world := recv (reg_request ex_uuid 5) coord_waitack.

(** A device that restarts and registers again while a packet to it is in
    flight is deregistered five ticks later, well within its heartbeat
    interval: registration frees the slot's packet but leaves its
    acknowledgement timer running. *)
Lemma reregistration_leaves_ack_timer :
  n_state (node_at (PNode 0) coord_rejoined) = tinymacNodeState_Registered /\
  t_callback (n_ack_timer (node_at (PNode 0) coord_rejoined)) = Some fn_ack_timeout /\
  n_state (node_at (PNode 0) (@ticks env_quiet 4 coord_rejoined)) = tinymacNodeState_Registered /\
  n_state (node_at (PNode 0) (@ticks env_quiet 5 coord_rejoined)) = tinymacNodeState_Unregistered.
Proof. vm_compute. auto. Qed.

(** A device registering with UUID zero is given a slot that still counts
    as never used, so that the next new device is given the same slot and short
    address while the first one is registered. *)
Lemma zero_uuid_slot_reused :
  let w1 := recv (reg_request 0 5) coord0 in
  let w2 := recv (reg_request 77 5) w1 in
  n_state (node_at (PNode 0) w1) = tinymacNodeState_Registered /\
  n_uuid (node_at (PNode 0) w2) = 77 /\ n_state (node_at (PNode 1) w2) = tinymacNodeState_Unregistered.
Proof. vm_compute. auto. Qed.

(** ** Instances *)

Definition coord_sleepy_nocb : world := snd (tinymac_register_dereg_cb false coord_sleepy).

Lemma sleepy_deregistration_undone_witness :
  let w1 := snd (@tinymac_rx_deregistration_request env_quiet (mk_header 5 7 0 1 1)
                   (dereg_request_bytes (mk_dereg_request ex_uuid 0) ++ []) coord_sleepy_nocb) in
  log w1 = log coord_sleepy_nocb /\
  n_state (node_at (PNode 0) w1) = tinymacNodeState_Unregistered /\
  n_state (node_at (PNode 0) (snd (@tinymac_despatch_timer env_quiet (TValidity (PNode 0)) w1))) =
    tinymacNodeState_Registered.
Proof.
  refine (@sleepy_deregistration_undone env_quiet 0 _ ex_uuid 0 [] coord_sleepy_nocb
            _ _ _ _ _ _ _ _ _ _ _); try (vm_compute; reflexivity).
  - vm_compute. lia.
  - split; vm_compute; congruence.
  - vm_compute. congruence.
  - split; vm_compute; congruence.
  - split; lia.
Defined.

Lemma wildcard_network_unjoinable_witness :
  m_net_id (ctx (snd (@tinymac_init env_quiet coord_params 1 2 255 world_zero))) = TINYMAC_NETWORK_ANY /\
  @tinymac_recv_cb env_quiet (packet 0 255 255 0 1 (beacon_bytes (mk_beacon 1 0 2 15))) (-40) client0 =
  (tt, client0).
Proof.
  refine (@wildcard_network_unjoinable env_quiet coord_params client_params world_zero 1 2 255 _ _ _
            _ _ _ _ _); try reflexivity.
  apply client0_reachable.
Defined.

Lemma anonymous_data_delivered_with_null_node_witness :
  @tinymac_recv_cb env_quiet (header_bytes (mk_header 16 7 255 255 1) ++ [1; 2]) (-40) coord_awake =
  @upcall env_quiet (EvRecvCb None (Z.land (h_flags (mk_header 16 7 255 255 1)) TINYMAC_FLAGS_TYPE_MASK)
                       [1; 2]) coord_awake.
Proof.
  refine (@anonymous_data_delivered_with_null_node env_quiet (mk_header 16 7 255 255 1) [1; 2] (-40)
            coord_awake _ _ _ _ _ _ _ _ _ _); try (vm_compute; reflexivity).
  - apply mk_header_ok; split; vm_compute; congruence.
  - vm_compute. congruence.
Defined.
