(* ===== verification/MacBuild.v ===== *)
(** * The client-only build of the MAC

    [lib/tinymac.c] compiles without the coordinator unless
    [WITH_TINYMAC_COORDINATOR] is set; the sensor and the MQTT-SN client are
    built that way.  The functions here are those whose text, or the text of a
    function they call, depends on the macro, as they are without it; the
    others are shared with [Mac.v].  The theorem, by a simulation between the
    two, is that the client-only build behaves as the client role of the full
    build: the same packets, the same callbacks and the same state, member by
    member.

    The members of [tinymac_t] under the [#if] do not exist in this build; no
    definition here reads or writes them.  The application has no
    [tinymac_permit_attach] to call. *)

From stdpp Require Import base list numbers.
From Stdlib Require Import ZArith Lia.
From S2P Require Import Prelude Wire MacState Mac MacRun MacEx.

(** ** The functions of the build *)

Section Build.
Context `{E : Env}.

Definition co_get_node_by_addr (c : tinymac_t) (addr : Z) : option node_ptr :=
  (* Clients can only communicate with the coordinator/hub *)
  if negb (bool_decide (n_state (m_coord c) = tinymacNodeState_Unregistered)) &&
     (n_addr (m_coord c) =? addr)
  then Some PCoord else None.

Definition co_send (dest type : Z) (buf : list Z) (validity : Z) (cb : option Z) : M Z :=
  if Z.land type TINYMAC_FLAGS_TYPE_MASK <? type_code tinymacType_RawData then ret (-1) else
  c <- get_ctx ;;
  match co_get_node_by_addr c dest with
  | None => ret (-1)
  | Some p =>
      node <- read_node p ;;
      let validity :=
        if validity =? 0
        then u16 (Z.shiftl 1 (Z.land (n_flags node) TINYMAC_ATTACH_HEARTBEAT_MASK))
        else validity in
      tinymac_tx_packet (Some p) type buf validity cb
  end.

(** A program with a call of [tinymac_permit_attach] does not link. *)
Inductive linkable : app_prog -> Prop :=
| link_return : linkable AppReturn
| link_send dest type buf validity cb k :
    (forall rc, linkable (k rc)) -> linkable (AppSend dest type buf validity cb k).

Fixpoint co_run_app (prog : app_prog) : M unit :=
  match prog with
  | AppReturn => ret tt
  | AppSend dest type buf validity cb k =>
      rc <- co_send (u8 dest) (u8 type) (map u8 buf) (u16 validity) cb ;;
      co_run_app (k rc)
  | AppPermitAttach _ _ => ret tt
  end.

Definition co_upcall (e : event) : M unit :=
  emit e ;;
  l <- get_log ;;
  co_run_app (app l).

Definition co_call_send_cb (p : node_ptr) (result : Z) : M unit :=
  node <- read_node p ;;
  match n_send_cb node with
  | Some cb => co_upcall (EvSendCb cb result)
  | None => ret tt
  end.

Definition co_deregister_node (p : node_ptr) : M unit :=
  mod_node p (set_n_state tinymacNodeState_Unregistered) ;;
  (* This node was our coordinator, so we are now unregistered *)
  when (bool_decide (p = PCoord)) (mod_ctx client_detach).

Definition co_request_timeout : M unit :=
  c <- get_ctx ;;
  when (bool_decide (m_state c = tinymacClientState_BeaconRequest) ||
        bool_decide (m_state c = tinymacClientState_Registering))
    (co_deregister_node PCoord).

Definition co_validity_timeout (p : node_ptr) : M unit :=
  (* Clear pending packet *)
  mod_node p (set_n_state tinymacNodeState_Registered) ;;
  tinymac_cancel_timer (TAck p) ;;
  co_call_send_cb p (-1).

Definition co_ack_timeout (p : node_ptr) : M unit :=
  node <- read_node p ;;
  mod_node p (set_n_retries (u8 (n_retries node - 1))) ;;
  if negb (n_retries node =? 0) then
    if sleepy (n_flags node) then
      (* Defer re-send to sleepy node *)
      mod_node p (set_n_state tinymacNodeState_SendPending)
    else
      (* Re-send immediately and schedule another timeout *)
      tinymac_set_timer (TAck p) fn_ack_timeout (Some p) (TINYMAC_MILLIS TINYMAC_ACK_TIMEOUT) ;;
      tinymac_phy_send (pending_bufs (n_pending_header node) node) 0 ;;
      ret tt
  else
    tinymac_cancel_timer (TValidity p) ;;
    co_call_send_cb p (-1) ;;
    (* Give up - other end is unreachable *)
    co_deregister_node p.

Definition co_run_timer_fn (fn : timer_fn) (arg : option node_ptr) : M unit :=
  match fn, arg with
  | fn_request_timeout, _ => co_request_timeout
  | fn_validity_timeout, Some p => co_validity_timeout p
  | fn_ack_timeout, Some p => co_ack_timeout p
  | _, None => ret tt
  end.

Definition co_despatch_timer (timer : timer_ptr) : M unit :=
  t <- read_timer timer ;;
  c <- get_ctx ;;
  match t_callback t with
  | Some callback =>
      if 0 <=? i32 (m_tick_count c - t_expiry t) then
        (* Callback may set a new timer, so we need to clear the current one first *)
        mod_timer timer (set_t_callback None) ;;
        co_run_timer_fn callback (t_arg t)
      else ret tt
  | None => ret tt
  end.

Definition co_tx_pending (p : node_ptr) : M Z :=
  node <- read_node p ;;
  when (bool_decide (n_state node = tinymacNodeState_SendPending))
    (mod_node p (set_n_state tinymacNodeState_Registered) ;;
     let hdr := n_pending_header node in
     when (h_flags hdr &? TINYMAC_FLAGS_ACK_REQUEST)
       (mod_node p (set_n_state tinymacNodeState_WaitAck) ;;
        tinymac_set_timer (TAck p) fn_ack_timeout (Some p) (TINYMAC_MILLIS TINYMAC_ACK_TIMEOUT)) ;;
     tinymac_phy_send (pending_bufs hdr node) 0 ;;
     when (negb (h_flags hdr &? TINYMAC_FLAGS_ACK_REQUEST))
       (* No ack required so we assume success *)
       (tinymac_cancel_timer (TValidity p) ;;
        co_call_send_cb p 0)) ;;
  ret 0.

Definition co_tx_ack (p : node_ptr) (seq : Z) : M Z :=
  c <- get_ctx ;;
  node <- read_node p ;;
  let flags := Z.lor TINYMAC_FLAGS_VERSION (type_code tinymacType_Ack) in
  let flags := if bool_decide (n_state node = tinymacNodeState_SendPending)
               then Z.lor flags TINYMAC_FLAGS_DATA_PENDING else flags in
  let hdr := mk_header flags (m_net_id c) (n_addr node) (m_addr c) seq in
  rc <- tinymac_phy_send [header_bytes hdr] 0 ;;
  if rc <? 0 then ret rc   (* Send failed *)
  else co_tx_pending p.

Definition co_rx_ack (hdr : tinymac_header_t) (node : option node_ptr) : M unit :=
  match node with
  | None => ret tt
  | Some p =>
      n <- read_node p ;;
      when (bool_decide (n_state n = tinymacNodeState_WaitAck) &&
            (h_seq hdr =? h_seq (n_pending_header n)))
        (* Ack ok, cancel timers *)
        (mod_node p (set_n_state tinymacNodeState_Registered) ;;
         tinymac_cancel_timer (TAck p) ;;
         tinymac_cancel_timer (TValidity p) ;;
         co_call_send_cb p 0)
  end.

(** The switch has no case for the packets only a coordinator serves. *)
Definition co_rx_despatch (hdr : tinymac_header_t) (node : option node_ptr) (buf : list Z) : M unit :=
  let size := Z.of_nat (length buf) in
  let type := Z.land (h_flags hdr) TINYMAC_FLAGS_TYPE_MASK in
  let payload := payload_of buf in
  if type_code tinymacType_RawData <=? type then
    (* Forward non-MAC packets to the upper layer *)
    c <- get_ctx ;;
    when (m_rx_cb c)
      (co_upcall (EvRecvCb node (Z.land type TINYMAC_FLAGS_TYPE_MASK) payload))
  else
    match type_of type with
    | tinymacType_Beacon =>
        if size <? sizeof_header + sizeof_beacon then ret tt
        else tinymac_rx_beacon hdr payload
    | tinymacType_Ack => co_rx_ack hdr node
    | tinymacType_Poll => ret tt
    | tinymacType_RegistrationResponse =>
        if size <? sizeof_header + sizeof_reg_response then ret tt
        else tinymac_rx_registration_response hdr payload
    | _ => ret tt
    end.

Definition co_rx_known_source (hdr : tinymac_header_t) (p : node_ptr) (rssi : Z) : M unit :=
  c <- get_ctx ;;
  mod_node p (fun n => set_n_rssi (i8 rssi) (set_n_last_heard (m_tick_count c) n)) ;;
  when (h_flags hdr &? TINYMAC_FLAGS_ACK_REQUEST)
    (co_tx_ack p (h_seq hdr) ;; ret tt) ;;
  co_tx_pending p ;;
  ret tt.

(** All-networks broadcasts and unassigned sources are always refused. *)
Definition co_anonymous_refused (hdr : tinymac_header_t) : bool :=
  (h_net_id hdr =? TINYMAC_NETWORK_ANY) || (h_src_addr hdr =? TINYMAC_ADDR_UNASSIGNED).

Definition co_recv_cb (buf : list Z) (rssi : Z) : M unit :=
  let hdr := header_of buf in
  if Z.of_nat (length buf) <? sizeof_header then ret tt else
  c <- get_ctx ;;
  (* Quietly ignore loopbacks *)
  if h_src_addr hdr =? m_addr c then ret tt else
  if negb (dest_accepted c hdr) then ret tt else
  if co_anonymous_refused hdr then ret tt else
  (* Sleepy nodes - Turn the receiver off unless data pending *)
  when (sleepy (p_flags (m_params c)))
    (if h_flags hdr &? TINYMAC_FLAGS_DATA_PENDING
     then emit (EvPhyDelayedStandby TINYMAC_LISTEN_PERIOD_US)
     else emit EvPhyStandby) ;;
  (* Source address, if assigned, must be known and live *)
  if negb (m_addr c =? TINYMAC_ADDR_UNASSIGNED) &&
     negb (h_src_addr hdr =? TINYMAC_ADDR_UNASSIGNED)
  then
    match co_get_node_by_addr c (h_src_addr hdr) with
    | Some p => co_rx_known_source hdr p rssi ;; co_rx_despatch hdr (Some p) buf
    | None => ret tt
    end
  else co_rx_despatch hdr None buf.

(** [r] is the result of the one call to [rand()]. *)
Definition co_init (params : tinymac_params_t) (r : Z) : M Z :=
  mod_ctx (set_m_params params) ;;
  mod_ctx (set_m_dseq (u8 r)) ;;
  mod_node PCoord (set_n_state tinymacNodeState_Unregistered) ;;
  mod_ctx (fun c => set_m_addr TINYMAC_ADDR_UNASSIGNED
                      (set_m_net_id TINYMAC_NETWORK_ANY
                         (set_m_state tinymacClientState_Unregistered c))) ;;
  c <- get_ctx ;;
  (* Register PHY receive callback *)
  emit EvPhyRegisterRecv ;;
  mod_ctx (set_m_phy_mtu phy_mtu) ;;
  when (negb (sleepy (p_flags (m_params c)))) (emit EvPhyListen) ;;
  ret 0.

Definition co_tick_client : M unit :=
  c <- get_ctx ;;
  (* Unregistered clients may request a beacon *)
  when (bool_decide (m_state c = tinymacClientState_Unregistered))
    (mod_ctx (set_m_state tinymacClientState_BeaconRequest) ;;
     tinymac_tx_packet None (type_code tinymacType_BeaconRequest) [] 0 None ;;
     (* Set a timer for beacon request timeout *)
     tinymac_set_timer TRequest fn_request_timeout None
       (TINYMAC_SECONDS TINYMAC_BEACON_REQUEST_TIMEOUT)) ;;
  (* Despatch deferred operations *)
  co_despatch_timer (TAck PCoord) ;;
  co_despatch_timer (TValidity PCoord) ;;
  co_despatch_timer TRequest.

Definition co_tick_handler : M unit :=
  co_tick_client ;;
  mod_ctx (fun c => set_m_tick_count (u32 (m_tick_count c + 1)) c).
End Build.

(** ** The two builds, side by side *)

(** The members both builds have. *)
Definition client_view (c : tinymac_t) : tinymac_t :=
  mk_mac (m_params c) (m_phy_mtu c) (m_rx_cb c) (m_tick_count c) (m_net_id c) (m_addr c) (m_dseq c)
    (m_slot c) (m_state c) (m_coord c) (m_timer c) 0 [] false false false.

(** A timer of the coordinator node is for that node. *)
Definition for_coord (t : tinymac_timer_t) : Prop := t_arg t = None \/ t_arg t = Some PCoord.

Definition coord_timers (n : tinymac_node_t) : Prop :=
  for_coord (n_ack_timer n) /\ for_coord (n_validity_timer n).

(** [c] is the context of the full build, in the client role and with no
    deregistration callback, [c'] that of the client-only build. *)
Record same_ctx (c c' : tinymac_t) : Prop := {
  sc_view : client_view c = client_view c';
  sc_role : p_coordinator (m_params c) = false;
  sc_dereg : m_dereg_cb c = false;
  sc_timers : coord_timers (m_coord c);
  sc_request : for_coord (m_timer c)
}.

Record same (w w' : world) : Prop := {
  same_in : same_ctx (ctx w) (ctx w');
  same_log : log w = log w'
}.

Lemma same_nodes c c' : same_ctx c c' -> m_coord c = m_coord c' /\ m_timer c = m_timer c'.
Proof. intros [V _ _ _ _]. unfold client_view in V. by injection V. Qed.

(** Two programs that, from the same states, give related results and end in
    the same states. *)
Definition sim {A B} (R : A -> B -> Prop) (m : M A) (m' : M B) : Prop :=
  forall w w', same w w' -> R (fst (m w)) (fst (m' w')) /\ same (snd (m w)) (snd (m' w')).

(** ** The rules of the simulation *)

Lemma sim_ret {A B} (R : A -> B -> Prop) a b : R a b -> sim R (ret a) (ret b).
Proof. intros H w w' S. by split. Qed.

Lemma sim_bind {A B C D} (R : A -> B -> Prop) (Q : C -> D -> Prop) m m' k k' :
  sim R m m' -> (forall a b, R a b -> sim Q (k a) (k' b)) -> sim Q (bind m k) (bind m' k').
Proof.
  intros H K w w' S. rewrite !bind_run.
  destruct (H w w' S) as [HR HS]. exact (K _ _ HR _ _ HS).
Qed.

Lemma sim_seq {A B C} (m m' : M A) (Q : B -> C -> Prop) k k' :
  sim eq m m' -> sim Q k k' -> sim Q (bind m (fun _ => k)) (bind m' (fun _ => k')).
Proof. intros H K. by apply (sim_bind eq). Qed.

Lemma sim_get_ctx {C D} (Q : C -> D -> Prop) k k' :
  (forall c c', same_ctx c c' -> sim Q (k c) (k' c')) -> sim Q (bind get_ctx k) (bind get_ctx k').
Proof. intros H w w' S. exact (H _ _ (same_in _ _ S) w w' S). Qed.

Lemma sim_read_coord {C D} (Q : C -> D -> Prop) k k' :
  (forall n, coord_timers n -> sim Q (k n) (k' n)) ->
  sim Q (bind (read_node PCoord) k) (bind (read_node PCoord) k').
Proof.
  intros H w w' S. rewrite !bind_run. cbn.
  rewrite <- (proj1 (same_nodes _ _ (same_in _ _ S))).
  apply H; [exact (sc_timers _ _ (same_in _ _ S)) | exact S].
Qed.

Lemma sim_mod_ctx f f' :
  (forall c c', same_ctx c c' -> same_ctx (f c) (f' c')) -> sim eq (mod_ctx f) (mod_ctx f').
Proof. intros H w w' [S L]. split; [reflexivity|]. split; [exact (H _ _ S) | exact L]. Qed.

Lemma same_coord f c c' :
  (forall n, coord_timers n -> coord_timers (f n)) -> same_ctx c c' ->
  same_ctx (set_m_coord (f (m_coord c)) c) (set_m_coord (f (m_coord c')) c').
Proof.
  intros H [V R D T Q]. unfold client_view in V. injection V as ?????????? ?.
  split; cbn; [unfold client_view; cbn; congruence | done | done | auto | done].
Qed.

Lemma sim_mod_coord f :
  (forall n, coord_timers n -> coord_timers (f n)) -> sim eq (mod_node PCoord f) (mod_node PCoord f).
Proof. intros H w w' [S L]. split; [reflexivity|]. split; [by apply same_coord | exact L]. Qed.

Lemma sim_emit e : sim eq (emit e) (emit e).
Proof. intros w w' [S L]. split; [reflexivity|]. split; [exact S | cbn; by rewrite L]. Qed.

Lemma sim_get_log {C D} (Q : C -> D -> Prop) k k' :
  (forall l, sim Q (k l) (k' l)) -> sim Q (bind get_log k) (bind get_log k').
Proof.
  intros H w w' S. rewrite !bind_run. cbn. rewrite <- (same_log _ _ S). by apply H.
Qed.

Lemma sim_when b m m' : sim eq m m' -> sim eq (when b m) (when b m').
Proof. intros H. destruct b; [exact H | by apply sim_ret]. Qed.

(** One step: the rule the head of the two programs asks for.  A context just
    read is split into its members and the two copies made one. *)
Ltac sim_ctx :=
  let c := fresh "c" in let c' := fresh "c" in let S := fresh "S" in
  intros c c' S; destruct c, c';
  let V := fresh in let R := fresh in let D := fresh in let T := fresh in let Q := fresh in
  destruct S as [V R D T Q]; unfold client_view in V; cbn in V, R, D, T, Q; injection V; clear V;
  intros; subst; cbn.

Ltac sim_step :=
  match goal with
  | |- sim _ (bind get_ctx _) _ => apply sim_get_ctx; sim_ctx
  | |- sim _ (bind (read_node PCoord) _) _ => apply sim_read_coord; intros ? ?
  | |- sim _ (bind get_log _) _ => apply sim_get_log; intros ?
  | |- sim _ (bind _ (fun _ => _)) _ => apply sim_seq
  | |- sim _ (mod_ctx _) _ =>
      apply sim_mod_ctx; sim_ctx; split; cbn; try first [done | by left | by right]
  | |- sim _ (mod_node PCoord _) _ =>
      apply sim_mod_coord; intros ? [? ?]; split; cbn;
      first [assumption | by left | by right | idtac]
  | |- sim _ (emit _) _ => apply sim_emit
  | |- sim _ (ret _) _ => apply sim_ret; reflexivity
  | |- sim _ (when ?b _) _ => apply sim_when
  | |- sim _ (match ?x with _ => _ end) _ => destruct x
  end.

Section Shared.
Context `{E : Env}.

Lemma sim_phy_send bufs flags : sim eq (tinymac_phy_send bufs flags) (tinymac_phy_send bufs flags).
Proof.
  unfold tinymac_phy_send, phy_send. apply (sim_bind eq); [by repeat sim_step|].
  intros rc ? <-. repeat sim_step.
Qed.

Lemma sim_set_timer t fn arg delay :
  match t with
  | TAck p | TValidity p => p = PCoord /\ (arg = None \/ arg = Some PCoord)
  | TRequest => arg = None
  end ->
  sim eq (tinymac_set_timer t fn arg delay) (tinymac_set_timer t fn arg delay).
Proof. intros H. unfold tinymac_set_timer. destruct t; [destruct H as [-> H].. | subst]; repeat sim_step. Qed.

Lemma sim_cancel_timer t :
  match t with TAck p | TValidity p => p = PCoord | TRequest => True end ->
  sim eq (tinymac_cancel_timer t) (tinymac_cancel_timer t).
Proof. intros H. unfold tinymac_cancel_timer. destruct t; [rewrite H.. |]; cbn; repeat sim_step. Qed.

Lemma sim_tx_packet dest ty buf v cb :
  dest = None \/ dest = Some PCoord ->
  sim eq (tinymac_tx_packet dest ty buf v cb) (tinymac_tx_packet dest ty buf v cb).
Proof.
  intros H. unfold tinymac_tx_packet. destruct H as [-> | ->].
  all: repeat first [sim_step | apply sim_phy_send | apply sim_set_timer; auto].
Qed.

(** The steps of the shared functions, closed under the rules. *)
Ltac sim_auto :=
  repeat first [ sim_step | apply sim_phy_send | apply sim_set_timer; by auto
               | apply sim_cancel_timer; by auto | apply sim_tx_packet; by auto ].

Lemma sim_rx_beacon hdr payload :
  sim eq (tinymac_rx_beacon hdr payload) (tinymac_rx_beacon hdr payload).
Proof.
  unfold tinymac_rx_beacon, rx_beacon_attach. sim_auto.
Qed.

Lemma sim_rx_registration_response hdr payload :
  sim eq (tinymac_rx_registration_response hdr payload)
    (tinymac_rx_registration_response hdr payload).
Proof. unfold tinymac_rx_registration_response. sim_auto. Qed.

(** ** The two builds agree, function by function *)

Lemma get_node_by_addr_same c c' addr :
  same_ctx c c' -> tinymac_get_node_by_addr c addr = co_get_node_by_addr c' addr.
Proof.
  destruct c, c'. intros [V R D T Q]. cbn in *. injection V; intros; subst.
  unfold tinymac_get_node_by_addr, co_get_node_by_addr. cbn. by rewrite R.
Qed.

Lemma co_get_node_coord c addr p : co_get_node_by_addr c addr = Some p -> p = PCoord.
Proof. unfold co_get_node_by_addr. by case_match; intros [=]. Qed.

Lemma sim_send dest ty buf v cb : sim eq (tinymac_send dest ty buf v cb) (co_send dest ty buf v cb).
Proof.
  unfold tinymac_send, co_send. sim_step; [by sim_step|].
  apply sim_get_ctx. intros c c' S. rewrite (get_node_by_addr_same _ _ dest S).
  destruct (co_get_node_by_addr c' dest) as [p|] eqn:G; [|by sim_step].
  apply co_get_node_coord in G as ->. sim_auto.
Qed.

Lemma sim_run_app prog : linkable prog -> sim eq (run_app prog) (co_run_app prog).
Proof.
  induction 1 as [|dest ty buf v cb k _ IH]; cbn; [by sim_step|].
  apply (sim_bind eq); [apply sim_send|]. intros rc ? <-. apply IH.
Qed.

Hypothesis links : forall l, linkable (app l).

Lemma sim_upcall e : sim eq (upcall e) (co_upcall e).
Proof. unfold upcall, co_upcall. sim_auto. by apply sim_run_app. Qed.

Lemma sim_call_send_cb r : sim eq (call_send_cb PCoord r) (co_call_send_cb PCoord r).
Proof.
  unfold call_send_cb, co_call_send_cb. sim_step.
  sim_step; [apply sim_upcall | by sim_step].
Qed.

Lemma sim_deregister : sim eq (tinymac_deregister_node PCoord) (co_deregister_node PCoord).
Proof.
  unfold tinymac_deregister_node, co_deregister_node. sim_step; [by sim_step|].
  intros w w' S. rewrite bind_run.
  destruct (sim_when (bool_decide (PCoord = PCoord)) (mod_ctx client_detach) (mod_ctx client_detach))
    with (w := w) (w' := w') as [_ HS]; [by sim_step | exact S|].
  rewrite bind_run. cbn [get_ctx fst snd].
  rewrite (sc_dereg _ _ (same_in _ _ HS)). split; [reflexivity | exact HS].
Qed.

Lemma sim_ack_timeout : sim eq (tinymac_ack_timeout PCoord) (co_ack_timeout PCoord).
Proof.
  unfold tinymac_ack_timeout, co_ack_timeout.
  repeat first [progress sim_auto | apply sim_call_send_cb | apply sim_deregister].
Qed.

Lemma sim_validity_timeout : sim eq (tinymac_validity_timeout PCoord) (co_validity_timeout PCoord).
Proof.
  unfold tinymac_validity_timeout, co_validity_timeout. sim_auto. apply sim_call_send_cb.
Qed.

Lemma sim_request_timeout : sim eq tinymac_request_timeout co_request_timeout.
Proof. unfold tinymac_request_timeout, co_request_timeout. sim_auto; apply sim_deregister. Qed.

Lemma sim_run_timer_fn fn arg :
  arg = None \/ arg = Some PCoord -> sim eq (run_timer_fn fn arg) (co_run_timer_fn fn arg).
Proof.
  intros [-> | ->]; destruct fn; cbn; try by sim_step.
  all: auto using sim_request_timeout, sim_ack_timeout, sim_validity_timeout.
Qed.

Lemma sim_despatch_timer t :
  match t with TAck p | TValidity p => p = PCoord | TRequest => True end ->
  sim eq (tinymac_despatch_timer t) (co_despatch_timer t).
Proof.
  intros H. unfold tinymac_despatch_timer, co_despatch_timer.
  apply (sim_bind (fun a b => a = b /\ for_coord a)).
  - intros w w' S. destruct (same_nodes _ _ (same_in _ _ S)) as [EN ET].
    destruct (sc_timers _ _ (same_in _ _ S)) as [TA TV].
    pose proof (sc_request _ _ (same_in _ _ S)) as TR.
    split; [|by destruct t].
    destruct t; subst; cbn; rewrite <- ?EN, <- ?ET; by split.
  - intros a ? [<- Ha]. sim_step. sim_step; [|by sim_step]. sim_step; [|by sim_step].
    sim_step; [|by apply sim_run_timer_fn].
    destruct t; subst; cbn; repeat sim_step.
Qed.

Lemma sim_tx_pending : sim eq (tinymac_tx_pending PCoord) (co_tx_pending PCoord).
Proof. unfold tinymac_tx_pending, co_tx_pending. sim_auto. apply sim_call_send_cb. Qed.

Lemma sim_tx_ack seq : sim eq (tinymac_tx_ack PCoord seq) (co_tx_ack PCoord seq).
Proof.
  unfold tinymac_tx_ack, co_tx_ack. do 2 sim_step.
  apply (sim_bind eq); [apply sim_phy_send|]. intros rc ? <-. sim_auto. apply sim_tx_pending.
Qed.

Lemma sim_rx_ack hdr p :
  p = None \/ p = Some PCoord -> sim eq (rx_ack hdr p) (co_rx_ack hdr p).
Proof. intros [-> | ->]; cbn; sim_auto. apply sim_call_send_cb. Qed.

Lemma sim_nothing {A} (a : A) m :
  (forall w, p_coordinator (m_params (ctx w)) = false -> m w = (a, w)) -> sim eq m (ret a).
Proof.
  intros H w w' S. rewrite (H w (sc_role _ _ (same_in _ _ S))). by split.
Qed.

Lemma sim_rx_despatch hdr p buf :
  p = None \/ p = Some PCoord -> sim eq (rx_despatch hdr p buf) (co_rx_despatch hdr p buf).
Proof.
  intros Hp. unfold rx_despatch, co_rx_despatch.
  sim_step; [sim_auto; apply sim_upcall|].
  destruct (type_of _); try (by sim_step); try (by apply sim_rx_ack);
    try (by sim_step; [sim_step | auto using sim_rx_beacon, sim_rx_registration_response]).
  all: apply sim_nothing; intros w Hw.
  - unfold tinymac_tx_beacon. by rewrite run_bind_bind, run_get_ctx, Hw.
  - case_match; [done|]. unfold tinymac_rx_registration_request. by rewrite run_get_ctx, Hw.
  - case_match; [done|]. unfold tinymac_rx_deregistration_request. by rewrite run_get_ctx, Hw.
Qed.

Lemma sim_rx_known_source hdr rssi :
  sim eq (rx_known_source hdr PCoord rssi) (co_rx_known_source hdr PCoord rssi).
Proof.
  unfold rx_known_source, co_rx_known_source.
  repeat first [progress sim_auto | apply sim_tx_ack | apply sim_tx_pending].
Qed.

Lemma recv_guards_same c c' hdr :
  same_ctx c c' ->
  anonymous_refused c hdr = co_anonymous_refused hdr /\ dest_accepted c hdr = dest_accepted c' hdr /\
  m_addr c = m_addr c' /\ m_params c = m_params c'.
Proof.
  destruct c, c'. intros [V R D T Q]. cbn in *. injection V; intros; subst.
  repeat split. unfold anonymous_refused, co_anonymous_refused. cbn. rewrite R. apply andb_true_r.
Qed.

Lemma sim_recv_cb buf rssi : sim eq (tinymac_recv_cb buf rssi) (co_recv_cb buf rssi).
Proof.
  unfold tinymac_recv_cb, co_recv_cb. sim_step; [by sim_step|].
  apply sim_get_ctx. intros c c' S.
  destruct (recv_guards_same c c' (header_of buf) S) as (-> & -> & -> & ->).
  rewrite (get_node_by_addr_same _ _ (h_src_addr (header_of buf)) S).
  do 3 (sim_step; [by sim_step|]). sim_step; [by sim_auto|].
  sim_step; [|by apply sim_rx_despatch; left].
  destruct (co_get_node_by_addr c' _) as [p|] eqn:G.
  - apply co_get_node_coord in G as ->.
    sim_step; [apply sim_rx_known_source | by apply sim_rx_despatch; right].
  - apply sim_nothing. intros w Hw. unfold rx_unknown_source. by rewrite run_get_ctx, Hw.
Qed.

Lemma sim_tick_client : sim eq tick_client co_tick_client.
Proof.
  unfold tick_client, co_tick_client. sim_auto; by apply sim_despatch_timer.
Qed.

Lemma sim_tick_handler : sim eq tinymac_tick_handler co_tick_handler.
Proof.
  intros w w' S. unfold tinymac_tick_handler, co_tick_handler. rewrite run_get_ctx.
  rewrite (sc_role _ _ (same_in _ _ S)). revert w w' S.
  apply sim_seq; [apply sim_tick_client | by sim_step].
Qed.

(** ** Runs *)

(** The calls into the MAC of a client: from the PHY driver, the platform's
    timer and the application. *)
Inductive client_op :=
| OpRecv (buf : list Z) (rssi : Z)
| OpTick
| OpSend (dest type : Z) (buf : list Z) (validity : Z) (cb : option Z)
| OpRegisterRecv (cb : bool).

(** Each call with what it returns, 0 where it returns nothing. *)
Definition full_op (o : client_op) : M Z :=
  match o with
  | OpRecv buf rssi => tinymac_recv_cb buf rssi ;; ret 0
  | OpTick => tinymac_tick_handler ;; ret 0
  | OpSend dest type buf validity cb => tinymac_send dest type buf validity cb
  | OpRegisterRecv cb => tinymac_register_recv_cb cb ;; ret 0
  end.

Definition co_op (o : client_op) : M Z :=
  match o with
  | OpRecv buf rssi => co_recv_cb buf rssi ;; ret 0
  | OpTick => co_tick_handler ;; ret 0
  | OpSend dest type buf validity cb => co_send dest type buf validity cb
  | OpRegisterRecv cb => tinymac_register_recv_cb cb ;; ret 0
  end.

Fixpoint run_ops (op : client_op -> M Z) (l : list client_op) : M (list Z) :=
  match l with
  | [] => ret []
  | o :: l => rc <- op o ;; rcs <- run_ops op l ;; ret (rc :: rcs)
  end.

Lemma sim_op o : sim eq (full_op o) (co_op o).
Proof.
  destruct o; cbn; auto using sim_send; sim_step; try (by sim_step).
  - apply sim_recv_cb.
  - apply sim_tick_handler.
  - unfold tinymac_register_recv_cb. by sim_step.
Qed.

Lemma sim_run_ops l : sim eq (run_ops full_op l) (run_ops co_op l).
Proof.
  induction l as [|o l IH]; cbn; [by sim_step|].
  apply (sim_bind eq); [apply sim_op|]. intros rc ? <-.
  apply (sim_bind eq); [apply IH|]. intros rcs ? <-. by sim_step.
Qed.

Lemma init_same params r1 r2 r3 :
  p_coordinator params = false ->
  same (snd (tinymac_init params r1 r2 r3 world_zero)) (snd (co_init params r2 world_zero)).
Proof.
  intros H. unfold tinymac_init, co_init. autorewrite with run. cbn. rewrite H.
  unfold when. destruct (negb _); cbn.
  all: split; [split; cbn; [reflexivity | exact H | reflexivity | split; by left | by left] | reflexivity].
Qed.

(** C6: The client-only build of the MAC behaves as the client role of the
    full build.  For a client's parameters, an application that the
    client-only build can link, and any sequence of packets received, timer
    ticks, sends and callback registrations after initialisation (with the
    same [rand()] for the sequence number), the two builds return the same
    codes, send the same packets, make the same callbacks in the same order,
    and end with equal members, those the [#if] removes apart. *)
Theorem client_only_build_equivalent params r1 r2 r3 l :
  p_coordinator params = false ->
  let full := run_ops full_op l (snd (tinymac_init params r1 r2 r3 world_zero)) in
  let co := run_ops co_op l (snd (co_init params r2 world_zero)) in
  fst full = fst co /\ log (snd full) = log (snd co) /\
  client_view (ctx (snd full)) = client_view (ctx (snd co)).
Proof.
  intros H full co. destruct (sim_run_ops l _ _ (init_same params r1 r2 r3 H)) as [HR [[V _ _ _ _] HL]].
  auto.
Qed.
End Shared.

(** A client that joins, sends, is acknowledged and hears two beacons. *)
Definition ex_life : list client_op :=
  [OpRegisterRecv true; OpTick; OpRecv ex_beacon (-40); OpRecv ex_response (-40);
   OpSend 0 data_ack [1; 2; 3] 0 (Some 9); OpTick;
   OpRecv (packet (type_code tinymacType_RawData) 7 1 0 3 [5]) (-40); OpRecv ex_beacon (-40)].

Lemma client_only_build_equivalent_witness :
  let full := run_ops (@full_op env_quiet) ex_life
                (snd (@tinymac_init env_quiet client_params 10 20 7 world_zero)) in
  let co := run_ops (@co_op env_quiet) ex_life
              (snd (@co_init env_quiet client_params 20 world_zero)) in
  m_state (ctx (snd co)) = tinymacClientState_Registered /\
  (fst full = fst co /\ log (snd full) = log (snd co) /\
   client_view (ctx (snd full)) = client_view (ctx (snd co))).
Proof.
  intros full co. split; [vm_compute; reflexivity|].
  apply (@client_only_build_equivalent env_quiet).
  - intros l. exact link_return.
  - reflexivity.
Defined.
