(* ===== verification/Phy.v ===== *)
(** * The PHY interface ([lib/phy.h])

    What a PHY driver promises the MAC, as a class; the UDP driver
    ([PhyUdp.v]) is an instance.  What the Si443x driver promises depends on its
    chip, and is stated in [Si443xLink.v]. *)

From stdpp Require Import base list numbers.
From Stdlib Require Import ZArith Lia.
From S2P Require Import Prelude.

(** ** Interface constants *)

(** A driver that cannot measure the signal strength reports this value. *)
Definition PHY_RSSI_NONE : Z := 0.

(** ** The interface to the MAC

    What the MAC relies on: a packet of at least one fragment and within the MTU
    goes out as one frame, and
    the event handler of a listening peer passes its bytes on. *)
Class PhyLink := {
  link_mtu : Z;
  link_send : list (list Z) -> Z -> list (list Z);
  link_deliver : list Z -> option (list Z * Z);
  link_law : forall bufs flags,
    bufs <> [] -> bytes (concat bufs) -> Z.of_nat (length (concat bufs)) <= link_mtu ->
    exists d rssi, link_send bufs flags = [d] /\ link_deliver d = Some (concat bufs, rssi)
}.
