(* ===== verification/PhyUdp.v ===== *)
(** * The simulation PHY ([lib/phy-udp.c], interface [lib/phy.h])

    The driver's static variables as a record, one definition per interface
    function, and the link it provides: a packet goes out as one datagram with
    its CRC appended and is delivered by every listening peer, a damaged one is
    not.

    The operating system's datagram socket is outside the repository.  It
    appears as the class [UdpSocket]: what reaches the wire for a sequence of
    [sendto] calls and what [recvfrom] puts into a buffer, with the documented
    behaviour of both as laws. *)

From stdpp Require Import base list numbers.
From Stdlib Require Import ZArith Lia.
From S2P Require Import Prelude Crc Phy.

Definition MAX_PACKET : nat := 256.

(** ** The socket *)

(** A [sendto] call: its data, and whether [MSG_MORE] was given. *)
Record sendto_call := mk_sendto { sd_data : list Z; sd_more : bool }.

Class UdpSocket := {
  transmit : list sendto_call -> list (list Z);
  recvfrom : nat -> list Z -> list Z;
  (** [MSG_MORE] on a UDP socket packages the data of the calls, up to the
      first without the flag, into a single datagram. *)
  transmit_corked : forall chunks last,
    transmit (map (fun c => mk_sendto c true) chunks ++ [mk_sendto last false]) =
    [concat chunks ++ last];
  (** A datagram longer than the buffer loses its excess bytes. *)
  recvfrom_take : forall n d, recvfrom n d = take n d
}.

(** ** State and operations *)

Record phy_t := mk_phy {
  phy_sock : Z;
  phy_recv_cb : bool;       (* registered or NULL *)
  phy_listening : bool
}.

Definition phy_static : phy_t := mk_phy 0 false false.

(** [sock] and [bound] are the results of [socket] and [bind]. *)
Definition phy_init (sock bound : Z) (st : phy_t) : Z * phy_t :=
  let st := mk_phy sock (phy_recv_cb st) (phy_listening st) in
  if sock <? 0 then (-1, st)
  else if bound <? 0 then (-1, st)
  else (0, mk_phy sock (phy_recv_cb st) true).

Definition phy_suspend (st : phy_t) : Z * phy_t := (0, st).
Definition phy_resume (st : phy_t) : Z * phy_t := (0, st).
Definition phy_listen (st : phy_t) : Z * phy_t := (0, mk_phy (phy_sock st) (phy_recv_cb st) true).
Definition phy_standby (st : phy_t) : Z * phy_t := (0, st).
Definition phy_delayed_standby (us : Z) (st : phy_t) : Z * phy_t := (0, st).
Definition phy_register_recv_cb (cb : bool) (st : phy_t) : phy_t :=
  mk_phy (phy_sock st) cb (phy_listening st).
Definition phy_set_power (dbm : Z) : Z := 0.
Definition phy_set_channel (n : Z) : Z := 0.
Definition phy_get_mtu : Z := Z.of_nat MAX_PACKET - 2.
Definition phy_get_fd (st : phy_t) : Z := phy_sock st.

(** The checksum loop of [phy_send]: one [update_crc] per fragment. *)
Definition crc_bufs (bufs : list (list Z)) : Z :=
  fold_left (fun crc buf => update_crc crc buf) bufs 0.

(** The [sendto] calls made, and the return value. *)
Definition phy_send (bufs : list (list Z)) (flags : Z) : list sendto_call * Z :=
  let crc := crc_bufs bufs in
  (map (fun buf => mk_sendto buf true) bufs ++ [mk_sendto (le_bytes 2 crc) false], 0).

(** What the socket has for [phy_event_handler]. *)
Inductive phy_input :=
| NoEvent                       (* poll() <= 0 *)
| RecvError                     (* recvfrom() < 0 *)
| Datagram (d : list Z).

(** The call made to the receive callback, if one is made. *)
Definition phy_event_handler `{UdpSocket} (st : phy_t) (input : phy_input)
    : option (list Z * Z) :=
  match input with
  | NoEvent | RecvError => None
  | Datagram d =>
      let payload := recvfrom MAX_PACKET d in
      let size := length payload in
      if (size <? 2)%nat then None else            (* Must have at least a CRC *)
      let ourcrc := update_crc 0 (take (size - 2) payload) in
      let theircrc := le_val (drop (size - 2) payload) in
      if negb (ourcrc =? theircrc) then None else
      if phy_recv_cb st && phy_listening st
      then Some (take (size - 2) payload, PHY_RSSI_NONE) else None
  end.

(** ** Lemmas *)

Definition frame (p : list Z) : list Z := p ++ le_bytes 2 (update_crc 0 p).

Lemma crc_bufs_concat bufs : crc_bufs bufs = update_crc 0 (concat bufs).
Proof.
  unfold crc_bufs. generalize 0 as c. induction bufs as [|b bufs IH]; intros c; [done|].
  cbn [fold_left concat]. by rewrite IH, update_crc_app.
Qed.

Lemma update_crc_zero_u16 p : is_u16 (update_crc 0 p).
Proof. apply update_crc_u16. widths; lia. Qed.

Lemma le_bytes2 c : is_u16 c -> le_val (le_bytes 2 c) = c.
Proof. intros H. apply le_val_bytes_id. widths. simpl; lia. Qed.

Lemma frame_length p : length (frame p) = (length p + 2)%nat.
Proof. unfold frame. by rewrite length_app, le_bytes_length. Qed.

Section Link.
Context `{S : UdpSocket}.

Definition ready (st : phy_t) : Prop := phy_recv_cb st = true /\ phy_listening st = true.

Lemma phy_send_datagram bufs flags :
  transmit (fst (phy_send bufs flags)) = [frame (concat bufs)].
Proof. unfold phy_send, frame. simpl fst. by rewrite transmit_corked, crc_bufs_concat. Qed.

(** What the handler does with a datagram whose last two bytes are split off. *)
Lemma event_handler_split st p t :
  length t = 2%nat -> (length p <= 254)%nat ->
  phy_event_handler st (Datagram (p ++ t)) =
  if (update_crc 0 p =? le_val t) && (phy_recv_cb st && phy_listening st)
  then Some (p, PHY_RSSI_NONE) else None.
Proof.
  intros Ht Hp. unfold phy_event_handler. rewrite recvfrom_take.
  rewrite take_ge by (rewrite length_app; unfold MAX_PACKET; lia).
  cbv zeta. rewrite length_app, Ht.
  replace (length p + 2 <? 2)%nat with false by (symmetry; apply Nat.ltb_ge; lia).
  replace (length p + 2 - 2)%nat with (length p) by lia.
  rewrite take_app_length, drop_app_length.
  destruct (_ =? le_val t); [|done]. done.
Qed.

Lemma frame_delivered st p :
  ready st -> (length p <= 254)%nat ->
  phy_event_handler st (Datagram (frame p)) = Some (p, PHY_RSSI_NONE).
Proof.
  intros [Hc Hl] Hp. unfold frame. rewrite event_handler_split by (done || apply le_bytes_length).
  by rewrite le_bytes2, Z.eqb_refl, Hc, Hl by apply update_crc_zero_u16.
Qed.

Lemma udp_link_law st :
  ready st -> forall bufs flags,
  bufs <> [] -> bytes (concat bufs) -> Z.of_nat (length (concat bufs)) <= phy_get_mtu ->
  exists d rssi, transmit (fst (phy_send bufs flags)) = [d] /\
                 phy_event_handler st (Datagram d) = Some (concat bufs, rssi).
Proof.
  intros Hr bufs flags _ _ Hl. exists (frame (concat bufs)), PHY_RSSI_NONE.
  split; [apply phy_send_datagram|]. apply frame_delivered; [done|].
  unfold phy_get_mtu, MAX_PACKET in Hl. lia.
Qed.

(** The driver provides the interface to every peer that listens. *)
Definition udp_link (st : phy_t) (Hst : ready st) : PhyLink := {|
  link_mtu := phy_get_mtu;
  link_send := fun bufs flags => transmit (fst (phy_send bufs flags));
  link_deliver := fun d => phy_event_handler st (Datagram d);
  link_law := udp_link_law st Hst
|}.

(** ** Theorems *)

(** The event handler delivers [p] for a datagram [d] exactly when a
    callback is registered, the driver is listening, and what fits the buffer
    of [d] is [p] followed by the two bytes of the CRC of [p]; everything else
    (no event, receive error, fewer than two bytes, CRC mismatch) is dropped. *)
Theorem event_handler_accepts st d p rssi :
  bytes d ->
  phy_event_handler st (Datagram d) = Some (p, rssi) <->
  ready st /\ rssi = PHY_RSSI_NONE /\ take MAX_PACKET d = frame p.
Proof.
  intros Hb. unfold phy_event_handler. rewrite recvfrom_take. set (q := take MAX_PACKET d).
  assert (Hq : bytes q) by (by apply Forall_take). cbv zeta. split.
  - destruct (Nat.ltb_spec (length q) 2) as [|Hlen]; [done|].
    destruct (Z.eqb_spec (update_crc 0 (take (length q - 2) q)) (le_val (drop (length q - 2) q)))
      as [Hcrc|]; [|done]. simpl negb. cbv iota.
    destruct (phy_recv_cb st) eqn:E1, (phy_listening st) eqn:E2; simpl; try done.
    intros [= <- <-]. split_and!; [by split|done|]. unfold frame. rewrite Hcrc.
    pose proof (le_bytes_val (drop (length q - 2) q)) as Hv. rewrite length_drop in Hv.
    replace (length q - (length q - 2))%nat with 2%nat in Hv by lia.
    rewrite Hv by (by apply Forall_drop). by rewrite take_drop.
  - intros ([H1 H2] & -> & Hf). rewrite Hf, frame_length.
    replace (length p + 2 <? 2)%nat with false by (symmetry; apply Nat.ltb_ge; lia).
    replace (length p + 2 - 2)%nat with (length p) by lia. unfold frame.
    rewrite take_app_length, drop_app_length, le_bytes2, Z.eqb_refl by apply update_crc_zero_u16.
    by rewrite H1, H2.
Qed.

(** C32: no packet damaged in transit by a burst of at most 16 bits within its
    data, its CRC bytes intact, is delivered, and none whose data are intact and
    whose CRC bytes are altered in any way. *)
Theorem damaged_packet_dropped st p p' t :
  bytes p -> bytes p' -> bytes t -> (length p <= 254)%nat ->
  length p' = length p -> length t = 2%nat ->
  (p' = p /\ t <> le_bytes 2 (update_crc 0 p)) \/
  (burst16 (xor_bits (bits_of p) (bits_of p')) /\ t = le_bytes 2 (update_crc 0 p)) ->
  phy_event_handler st (Datagram (p' ++ t)) = None.
Proof.
  intros Hp Hp' Ht Hl Hl' Hlt H. rewrite event_handler_split by (done || lia).
  destruct (Z.eqb_spec (update_crc 0 p') (le_val t)) as [Hcrc|]; [|done]. exfalso.
  destruct H as [[-> Hne]|[Hburst ->]].
  - apply Hne. rewrite Hcrc. replace 2%nat with (length t). by rewrite le_bytes_val.
  - rewrite le_bytes2 in Hcrc by apply update_crc_zero_u16.
    eapply update_crc_burst; [exact Hp|exact Hp'|done|exact Hburst|done].
Qed.

(** The 16-bit burst guarantee does not extend across the boundary between
    data and CRC, because the CRC goes out low byte first: inverting the last
    data bit and two CRC bits - a burst of 13 bits - makes a packet that is
    delivered with the wrong data. *)
Lemma boundary_burst_delivered st :
  ready st ->
  let sent := frame [1; 2; 3] in
  let damaged := [1; 2; 2] ++ le_bytes 2 (Z.lxor (update_crc 0 [1; 2; 3]) 0x1021) in
  xor_bits (bits_of sent) (bits_of damaged) =
    replicate 23 false ++
    [true; false; false; true; false; false; false; false; true; false; false; false; true] ++
    replicate 4 false /\
  phy_event_handler st (Datagram damaged) = Some ([1; 2; 2], PHY_RSSI_NONE).
Proof.
  intros [H1 H2]. cbv zeta. split; [vm_compute; reflexivity|].
  rewrite event_handler_split by (simpl; lia). rewrite H1, H2. done.
Qed.

(** Standby does not stop reception: whatever sequence of standby calls is
    made, a driver that would deliver a packet still delivers it. *)
Lemma standby_still_receives st us d :
  phy_event_handler (snd (phy_standby st)) (Datagram d) = phy_event_handler st (Datagram d) /\
  phy_event_handler (snd (phy_delayed_standby us st)) (Datagram d) = phy_event_handler st (Datagram d).
Proof. done. Qed.
End Link.

(** C33: the table-driven CRC of the driver is the CRC-16 of the polynomial
    0x1021 computed bit by bit, most significant bit first, on every buffer and
    from every initial value. *)
Theorem crc_table_is_polynomial_division c buf :
  is_u16 c -> bytes buf -> update_crc c buf = crc_ref c (bits_of buf).
Proof. apply update_crc_ref_eq. Qed.

(** ** Instances *)

(** A socket: the data of all calls up to one without [MSG_MORE]. *)
Fixpoint uncork (acc : list Z) (calls : list sendto_call) : list (list Z) :=
  match calls with
  | [] => []
  | c :: calls =>
      if sd_more c then uncork (acc ++ sd_data c) calls
      else (acc ++ sd_data c) :: uncork [] calls
  end.

Lemma uncork_corked acc chunks last :
  uncork acc (map (fun c => mk_sendto c true) chunks ++ [mk_sendto last false]) =
  [acc ++ concat chunks ++ last].
Proof.
  revert acc; induction chunks as [|c chunks IH]; intros acc; [done|].
  simpl. rewrite IH. by rewrite <- !app_assoc.
Qed.

#[export] Instance socket_model : UdpSocket := {|
  transmit := uncork [];
  recvfrom := fun n d => take n d;
  transmit_corked := uncork_corked [];
  recvfrom_take := fun n d => eq_refl
|}.

Definition phy_up : phy_t := phy_register_recv_cb true (snd (phy_init 3 0 phy_static)).

Lemma phy_up_ready : ready phy_up.
Proof. by split. Qed.

Lemma event_handler_accepts_witness :
  phy_event_handler phy_up (Datagram (frame [9; 8])) = Some ([9; 8], 0).
Proof.
  refine (proj2 (event_handler_accepts phy_up (frame [9; 8]) [9; 8] 0 _) _).
  - repeat constructor; vm_compute; congruence.
  - split; [split; reflexivity|]. split; vm_compute; reflexivity.
Defined.

Lemma damaged_packet_dropped_witness :
  phy_event_handler phy_up (Datagram ([9; 12] ++ le_bytes 2 (update_crc 0 [9; 8]))) = None.
Proof.
  refine (damaged_packet_dropped phy_up [9; 8] [9; 12] _ _ _ _ _ _ _ _).
  - repeat constructor; vm_compute; congruence.
  - repeat constructor; vm_compute; congruence.
  - apply le_bytes_bytes.
  - simpl; lia.
  - reflexivity.
  - reflexivity.
  - right. split; [|reflexivity]. exists 13%nat, [true], 2%nat. split_and!; [vm_compute; reflexivity|simpl; lia|].
    intros Hf. by inversion Hf.
Defined.

Lemma crc_table_is_polynomial_division_witness :
  update_crc 0 [0x31; 0x32; 0x33] = crc_ref 0 (bits_of [0x31; 0x32; 0x33]).
Proof.
  apply (crc_table_is_polynomial_division 0 [0x31; 0x32; 0x33]).
  - split; lia.
  - repeat constructor; vm_compute; congruence.
Defined.
