(* ===== verification/Sniffer.v ===== *)
(** * The sniffer ([tools/phy-sniffer/tinyhan-sniffer.c])

    A program that prints every packet the PHY delivers.  The text of the time
    stamp, which [printf] makes of a floating-point number, is an argument, and so
    is the number [tinymacType_Data], which no header of the repository declares.
    The result is the text printed, or [None] when the array [pending] is
    overrun. *)

From stdpp Require Import base list numbers strings.
From Stdlib Require Import ZArith Lia.
From S2P Require Import Prelude Printf Ansi Crc Wire Phy PhyUdp.

(** ** Printing a packet *)

(** The macro [log]: the header, then the format [f] with its arguments. *)
Definition log (stamp : text) (f : text) (hdr : tinymac_header_t) (args : list arg) : text :=
  printf (str "%s: %04X N: %02X D:%02X S:%02X [%03u] - " ++ f ++ ATTR_RESET ++ newline)
    ([AStr stamp; AInt (h_flags hdr); AInt (h_net_id hdr); AInt (h_dest_addr hdr);
      AInt (h_src_addr hdr); AInt (h_seq hdr)] ++ args).

(** [ptr += sprintf(ptr, ...)] into an array of [size] characters that holds
    [buf] so far. *)
Definition sprintf_at (size : nat) (buf : text) (fmt : text) (args : list arg) : option text :=
  let out := printf fmt args in
  if (length buf + length out + 1 <=? size)%nat then Some (buf ++ out) else None.

(** The loop that builds the address list. *)
Fixpoint address_list (size : nat) (addrs : list Z) (buf : text) : option text :=
  match addrs with
  | [] => Some buf
  | a :: addrs =>
      match sprintf_at size buf (str "%02X ") [AInt a] with
      | Some buf => address_list size addrs buf
      | None => None
      end
  end.

Definition sizeof_pending : nat := 256.

Definition pending_text (addrs : list Z) : option text :=
  match sprintf_at sizeof_pending [] (str "{") [] with
  | Some buf =>
      match address_list sizeof_pending addrs buf with
      | Some buf => sprintf_at sizeof_pending buf (str "}") []
      | None => None
      end
  | None => None
  end.

(** The case for beacons. *)
Definition rx_beacon (stamp : text) (hdr : tinymac_header_t) (size : Z) (payload : list Z) : option text :=
  if size <? sizeof_header + sizeof_beacon then
    Some (log stamp (BG_RED ++ FG_WHITE ++ str "SHORT (Beacon)") hdr [])
  else
    let beacon := beacon_of payload in
    match pending_text (address_list_of payload) with
    | None => None
    | Some pending =>
        let kind := if b_flags beacon &? TINYMAC_BEACON_FLAGS_SYNC then str "Sync" else str "Advertisement" in
        let args := [AStr kind; AInt (h_net_id hdr); AInt (b_uuid beacon); AStr pending] in
        Some (if b_flags beacon &? TINYMAC_BEACON_FLAGS_PERMIT_ATTACH
              then log stamp (FG_GREEN ++ str "%s Beacon from %02X %016llX (Attach permitted): %s") hdr args
              else log stamp (FG_YELLOW ++ str "%s Beacon from %02X %016llX: %s") hdr args)
    end.

Section Sniffer.
Context (tinymacType_Data : Z).

Definition rx_func (stamp : text) (buf : list Z) : option text :=
  let size := Z.of_nat (length buf) in
  if size <? sizeof_header then
    Some (printf (str "%s: " ++ BG_RED ++ FG_WHITE ++ str "SHORT" ++ ATTR_RESET ++ newline) [AStr stamp])
  else
    let hdr := header_of buf in
    let payload := payload_of buf in
    let type := Z.land (h_flags hdr) TINYMAC_FLAGS_TYPE_MASK in
    let short s := Some (log stamp (BG_RED ++ FG_WHITE ++ str s) hdr []) in
    if type =? type_code tinymacType_Beacon then rx_beacon stamp hdr size payload
    else if type =? type_code tinymacType_BeaconRequest then Some (log stamp (str "Beacon request") hdr [])
    else if type =? type_code tinymacType_Ack then
      Some (log stamp (str "Acknowledgement for [%03u]") hdr [AInt (h_seq hdr)])
    else if type =? type_code tinymacType_RegistrationRequest then
      if size <? sizeof_header + sizeof_reg_request then short "SHORT (registration request)"
      else Some (log stamp (str "Registration request from %016llX") hdr [AInt (rq_uuid (reg_request_of payload))])
    else if type =? type_code tinymacType_DeregistrationRequest then
      if size <? sizeof_header + sizeof_dereg_request then short "SHORT (detach request)"
      else
        let detach := dereg_request_of payload in
        Some (log stamp (str "Detachment request from %016llX (reason=%u)") hdr
                [AInt (dr_uuid detach); AInt (dr_reason detach)])
    else if type =? type_code tinymacType_RegistrationResponse then
      if size <? sizeof_header + sizeof_reg_response then short "SHORT (address update)"
      else
        let addr := reg_response_of payload in
        Some (log stamp (BG_GREEN ++ FG_RED ++ str "Address assignment %02X %02X to device %016llX") hdr
                [AInt (h_net_id hdr); AInt (rs_addr addr); AInt (rs_uuid addr)])
    else if type =? type_code tinymacType_Poll then
      Some (log stamp (BG_BLUE ++ FG_WHITE ++ str "Poll request") hdr [])
    else if type =? tinymacType_Data then Some (log stamp (str "Data") hdr [])
    else Some (log stamp [] hdr []).

(** The loop of [main]: one event of the PHY after another, each with the time
    it is printed at; the text printed, or [None] once [pending] is overrun. *)
Fixpoint sniff `{UdpSocket} (st : phy_t) (inputs : list (text * phy_input)) : option text :=
  match inputs with
  | [] => Some []
  | (stamp, i) :: inputs =>
      match phy_event_handler st i with
      | None => sniff st inputs
      | Some (buf, _) =>
          match rx_func stamp buf with
          | None => None
          | Some t => (fun rest => t ++ rest) <$> sniff st inputs
          end
      end
  end.
End Sniffer.

Definition sniffer_init (sock bound : Z) : phy_t :=
  phy_register_recv_cb true (snd (phy_init sock bound phy_static)).

(** ** The address list *)

Lemma print_byte a : is_u8 a -> print_unsigned 16 true 2 false a = field_of 16 2 a.
Proof. intros H. apply print_fixed; [lia|widths; lia|unfold max_digits; lia|widths; lia]. Qed.

(** Three characters an address. *)
Lemma address_list_spec size addrs buf :
  bytes addrs ->
  address_list size addrs buf =
  if (length addrs =? 0)%nat || (length buf + 3 * length addrs + 1 <=? size)%nat
  then Some (buf ++ concat (map (fun a => field_of 16 2 a ++ [32]) addrs)) else None.
Proof.
  intros Ha. revert buf; induction Ha as [|a addrs Hb _ IH]; intros buf; cbn [address_list].
  { cbn. by rewrite app_nil_r. }
  unfold sprintf_at.
  assert (E : printf (str "%02X ") [AInt a] = field_of 16 2 a ++ [32]).
  { rewrite <- print_byte by done. reflexivity. }
  rewrite E, length_app, field_length. cbn [length map concat]. cbn [Nat.eqb orb].
  destruct (Nat.leb_spec (length buf + (2 + 1) + 1) size) as [H|H].
  - rewrite IH, !length_app, field_length. cbn [length].
    replace (length buf + (2 + 1) + 3 * length addrs + 1)%nat
      with (length buf + 3 * S (length addrs) + 1)%nat by lia.
    destruct (Nat.eqb_spec (length addrs) 0) as [E0|E0]; cbn [orb].
    + destruct (Nat.leb_spec (length buf + 3 * S (length addrs) + 1) size); [|lia]. by rewrite <- !app_assoc.
    + destruct (Nat.leb_spec (length buf + 3 * S (length addrs) + 1) size); [|done]. by rewrite <- !app_assoc.
  - destruct (Nat.leb_spec (length buf + 3 * S (length addrs) + 1) size); [lia|done].
Qed.

(** The array holds the braces, 84 addresses and the terminator. *)
Lemma pending_text_spec addrs :
  bytes addrs ->
  pending_text addrs =
  if (length addrs <=? 84)%nat
  then Some (str "{" ++ concat (map (fun a => field_of 16 2 a ++ [32]) addrs) ++ str "}") else None.
Proof.
  intros Ha. unfold pending_text, sizeof_pending.
  change (sprintf_at 256 [] (str "{") []) with (Some (str "{")). cbv iota.
  rewrite address_list_spec by done. unfold sprintf_at.
  change (printf (str "}") []) with (str "}"). cbv zeta.
  assert (Hc : length (concat (map (fun a => field_of 16 2 a ++ [32]) addrs)) = (3 * length addrs)%nat).
  { clear Ha. induction addrs as [|a addrs IH]; [done|]. cbn [map concat length].
    rewrite !length_app, field_length, IH. cbn. lia. }
  change (length (str "{")) with 1%nat. change (length (str "}")) with 1%nat.
  destruct (Nat.eqb_spec (length addrs) 0) as [E0|E0]; cbn [orb].
  - destruct addrs; [done|cbn in E0; lia].
  - destruct (Nat.leb_spec (1 + 3 * length addrs + 1) 256) as [H|H];
      [|destruct (Nat.leb_spec (length addrs) 84); [lia|done]].
    rewrite length_app, Hc. change (length (str "{")) with 1%nat.
    destruct (Nat.leb_spec (1 + 3 * length addrs + 1 + 1) 256), (Nat.leb_spec (length addrs) 84);
      first [lia | done | by rewrite <- app_assoc].
Qed.

(** ** The line of a packet *)

(** What precedes the text for the packet's type. *)
Definition line_prefix (stamp : text) (hdr : tinymac_header_t) : text :=
  stamp ++ str ": " ++ field_of 16 4 (h_flags hdr) ++ str " N: " ++ field_of 16 2 (h_net_id hdr) ++
  str " D:" ++ field_of 16 2 (h_dest_addr hdr) ++ str " S:" ++ field_of 16 2 (h_src_addr hdr) ++
  str " [" ++ field_of 10 3 (h_seq hdr) ++ str "] - ".

Lemma log_prefix stamp f hdr args :
  header_ok hdr ->
  log stamp f hdr args = line_prefix stamp hdr ++ printf (f ++ ATTR_RESET ++ newline) args.
Proof.
  intros (Hf & Hn & Hd & Hs & Hq). unfold line_prefix.
  rewrite <- (print_byte (h_net_id hdr)), <- (print_byte (h_dest_addr hdr)),
    <- (print_byte (h_src_addr hdr)) by done.
  rewrite <- (print_fixed 16 4 (h_flags hdr) false), <- (print_fixed 10 3 (h_seq hdr) false);
    try (unfold max_digits; widths; lia).
  rewrite <- !app_assoc. reflexivity.
Qed.

Lemma app_fixed (a b c d : text) : length a = length b -> a ++ c = b ++ d -> a = b /\ c = d.
Proof. intros Hl H. by apply app_inj_1. Qed.

Lemma line_prefix_inj stamp hdr hdr' t t' :
  header_ok hdr -> header_ok hdr' ->
  line_prefix stamp hdr ++ t = line_prefix stamp hdr' ++ t' -> hdr = hdr' /\ t = t'.
Proof.
  intros (Hf & Hn & Hd & Hs & Hq) (Hf' & Hn' & Hd' & Hs' & Hq'). unfold line_prefix.
  rewrite <- !app_assoc. intros H. apply app_inv_head in H.
  repeat match type of H with
    | str _ ++ _ = str _ ++ _ => apply app_inv_head in H
    | field_of _ _ _ ++ _ = field_of _ _ _ ++ _ =>
        let F := fresh "F" in apply app_fixed in H as [F H]; [|by rewrite !field_length]
    end.
  apply field_inj in F, F0, F1, F2; try (widths; lia).
  apply field_inj in F3; try (widths; lia).
  split; [|done]. destruct hdr, hdr'; cbn in *; congruence.
Qed.

(** ** Theorems *)

Section Printed.
Context (tinymacType_Data : Z).

(** What [rx_func] prints for a packet with a whole header: a line that starts
    with the header, unless the address list does not fit. *)
Lemma rx_func_line stamp buf :
  bytes buf -> (6 <= length buf)%nat ->
  rx_func tinymacType_Data stamp buf =
  if bool_decide (Z.land (h_flags (header_of buf)) TINYMAC_FLAGS_TYPE_MASK = type_code tinymacType_Beacon)
     && (102 <? length buf)%nat
  then None
  else Some (line_prefix stamp (header_of buf) ++
             drop (length (line_prefix stamp (header_of buf))) (default [] (rx_func tinymacType_Data stamp buf))).
Proof.
  intros Hb Hl. pose proof (header_of_ok buf Hb) as Hh.
  assert (Hlog : forall f args, Some (log stamp f (header_of buf) args) =
    Some (line_prefix stamp (header_of buf) ++
      drop (length (line_prefix stamp (header_of buf))) (log stamp f (header_of buf) args))).
  { intros f args. rewrite (log_prefix stamp f (header_of buf) args Hh), drop_app_length. done. }
  unfold rx_func at 1 2. replace (_ <? sizeof_header) with false
    by (symmetry; apply Z.ltb_ge; unfold sizeof_header; lia). cbv zeta.
  set (ty := Z.land _ _). destruct (Z.eqb_spec ty (type_code tinymacType_Beacon)) as [E|E].
  - rewrite bool_decide_eq_true_2 by done. cbn [andb]. unfold rx_beacon.
    destruct (Z.ltb_spec (Z.of_nat (length buf)) (sizeof_header + sizeof_beacon)) as [Hs|Hs];
      unfold sizeof_header, sizeof_beacon in Hs.
    { destruct (Nat.ltb_spec 102 (length buf)); [lia|]. apply Hlog. }
    cbv zeta. rewrite pending_text_spec.
    2: { unfold address_list_of, payload_of. by do 2 apply Forall_drop. }
    unfold address_list_of, payload_of. rewrite !length_drop.
    destruct (Nat.leb_spec (length buf - 6 - 12) 84), (Nat.ltb_spec 102 (length buf)); try lia; [|done].
    destruct (_ &? TINYMAC_BEACON_FLAGS_PERMIT_ATTACH); apply Hlog.
  - rewrite bool_decide_eq_false_2 by done. cbn [andb].
    repeat match goal with |- context [if ?b then _ else _] => destruct b end; apply Hlog.
Qed.

(** C36: the sniffer overruns its buffer for exactly the beacons of more than
    84 addresses; for every other packet, of whatever bytes and length, it prints
    one text. *)
Theorem sniffer_overruns_iff stamp buf :
  bytes buf ->
  rx_func tinymacType_Data stamp buf = None <->
  (102 < length buf)%nat /\
  Z.land (h_flags (header_of buf)) TINYMAC_FLAGS_TYPE_MASK = type_code tinymacType_Beacon.
Proof.
  intros Hb. destruct (le_lt_dec 6 (length buf)) as [Hl|Hl].
  - rewrite rx_func_line by done. case_bool_decide as E; cbn [andb];
      [destruct (Nat.ltb_spec 102 (length buf))|].
    + by split.
    + split; [done|lia].
    + split; [done|]. by intros [_ H].
  - unfold rx_func. replace (_ <? sizeof_header) with true
      by (symmetry; apply Z.ltb_lt; unfold sizeof_header; lia). split; [done|lia].
Qed.

(** A line of the sniffer tells the packet's header: two packets printed
    alike at the same time have the same flags, network, addresses and sequence
    number. *)
Theorem sniffer_line_identifies stamp buf buf' t :
  bytes buf -> bytes buf' -> (6 <= length buf)%nat -> (6 <= length buf')%nat ->
  rx_func tinymacType_Data stamp buf = Some t -> rx_func tinymacType_Data stamp buf' = Some t ->
  header_of buf = header_of buf'.
Proof.
  intros Hb Hb' Hl Hl'. rewrite (rx_func_line stamp buf), (rx_func_line stamp buf') by done.
  destruct (_ && _); [done|]. intros [= E]. destruct (_ && _); [done|]. intros [= E'].
  rewrite <- E' in E. apply line_prefix_inj in E as [E _]; auto using header_of_ok.
Qed.

(** Anybody in range can stop the sniffer with one valid packet. *)
Theorem sniffer_stopped stamp inputs hdr b addrs sock :
  header_ok hdr -> Z.land (h_flags hdr) TINYMAC_FLAGS_TYPE_MASK = type_code tinymacType_Beacon ->
  bytes addrs -> (84 < length addrs <= 236)%nat -> 0 <= sock ->
  sniff tinymacType_Data (sniffer_init sock 0)
    ((stamp, Datagram (frame (header_bytes hdr ++ beacon_bytes b ++ addrs))) :: inputs) = None.
Proof.
  intros Hh Ht Ha Hl Hs. cbn [sniff].
  assert (Hr : ready (sniffer_init sock 0)).
  { unfold ready, sniffer_init, phy_init. cbv zeta.
    replace (sock <? 0) with false by (symmetry; apply Z.ltb_ge; lia). done. }
  set (buf := header_bytes hdr ++ beacon_bytes b ++ addrs).
  assert (Hlen : length buf = (18 + length addrs)%nat).
  { unfold buf. rewrite !length_app, header_bytes_length. change (length (beacon_bytes b)) with 12%nat. lia. }
  rewrite frame_delivered by (done || lia). cbn [fst].
  rewrite rx_func_line.
  - assert (header_of buf = hdr) as -> by (by apply header_roundtrip).
    rewrite bool_decide_eq_true_2 by done. cbn [andb].
    destruct (Nat.ltb_spec 102 (length buf)); [done|lia].
  - unfold buf, beacon_bytes. auto 10 with width.
  - lia.
Qed.
End Printed.

(** ** Instances *)

Definition ex_stamp : text := str "12.50".

(** A beacon with three addresses. *)
Definition ex_sniffed (flags : Z) (addrs : list Z) : list Z :=
  header_bytes (mk_header (type_code tinymacType_Beacon) 7 0xFF 0 5) ++
  beacon_bytes (mk_beacon 0x1122 3 flags 0x0f) ++ addrs.

Example sniffed_beacon :
  rx_func 16 ex_stamp (ex_sniffed (TINYMAC_BEACON_FLAGS_SYNC) [1; 2; 31]) =
  Some (str "12.50: 0000 N: 07 D:FF S:00 [005] - " ++ FG_YELLOW ++
        str "Sync Beacon from 07 0000000000001122: {01 02 1F }" ++ ATTR_RESET ++ newline).
Proof. vm_compute. reflexivity. Qed.

Lemma sniffer_overruns_iff_witness :
  rx_func 16 ex_stamp (ex_sniffed 0 (replicate 85 1)) = None.
Proof.
  apply (sniffer_overruns_iff 16 ex_stamp (ex_sniffed 0 (replicate 85 1))).
  - unfold ex_sniffed. apply Forall_app. split; [apply header_bytes_bytes|]. apply Forall_app. split.
    + vm_compute. repeat constructor; discriminate.
    + apply Forall_replicate. widths; lia.
  - split; [cbn; lia|vm_compute; reflexivity].
Defined.

Lemma sniffer_line_identifies_witness :
  exists t, rx_func 16 ex_stamp (header_bytes (mk_header 0x43 7 0 1 9)) = Some t /\
    header_of (header_bytes (mk_header 0x43 7 0 1 9)) = header_of (header_bytes (mk_header 0x43 7 0 1 9) ++ [0]).
Proof.
  eexists. split; [vm_compute; reflexivity|].
  eapply (sniffer_line_identifies 16 ex_stamp).
  - apply header_bytes_bytes.
  - apply Forall_app. split; [apply header_bytes_bytes|]. repeat constructor; widths; lia.
  - cbn. lia.
  - cbn. lia.
  - vm_compute. reflexivity.
  - vm_compute. reflexivity.
Defined.
