(* ===== verification/MacSends.v ===== *)
(** * The MAC on the PHY

    Everything the MAC hands to [phy_send], in any reachable history, is a
    string of bytes within the MTU the driver has announced (and of at most 134
    bytes, header included); over a PHY that keeps the link interface, as the
    UDP and the Si443x drivers do, it is therefore delivered intact to the
    receive callback of every listening peer.

    The proof is a second, smaller program logic over the event log. *)

From stdpp Require Import base list numbers.
From Stdlib Require Import ZArith Lia.
From S2P Require Import Prelude Crc Wire MacState Mac MacInv MacRun MacEx Phy PhyUdp.

Section Sends.
Context `{E : Env}.

(** ** What is maintained *)

(** Beacons, at most 50 bytes, are the only packets not checked against the
    driver's MTU. *)
Definition max_frame : Z := Z.max 50 (Z.min 134 phy_mtu).

Definition sendable (bufs : list (list Z)) : Prop :=
  bufs <> [] /\ bytes (concat bufs) /\ Z.of_nat (length (concat bufs)) <= max_frame.

Definition event_fits (e : event) : Prop :=
  match e with EvPhySend bufs _ => sendable bufs | _ => True end.

(** A node whose stored packet and address can be transmitted. *)
Definition node_fits (n : tinymac_node_t) : Prop :=
  0 <= n_pending_size n <= max_frame - sizeof_header /\ bytes (n_pending n) /\ is_u8 (n_addr n).

Record world_fits (w : world) : Prop := {
  wf_coord : node_fits (m_coord (ctx w));
  wf_nodes : Forall node_fits (m_nodes (ctx w));
  wf_length : length (m_nodes (ctx w)) = TINYMAC_MAX_NODES;
  wf_mtu : m_phy_mtu (ctx w) <= Z.max 50 phy_mtu;
  wf_local : node_fits (local w);
  wf_log : Forall event_fits (log w)
}.

Definition fitting {A} (m : M A) : Prop := forall w, world_fits w -> world_fits (snd (m w)).

(** ** Rules *)

Create HintDb fit discriminated.

Lemma fitting_ret {A} (a : A) : fitting (ret a).
Proof. by intros w H. Qed.
Lemma fitting_bind {A B} (m : M A) (k : A -> M B) :
  fitting m -> (forall a, fitting (k a)) -> fitting (bind m k).
Proof. intros Hm Hk w Hw. rewrite bind_run. apply Hk, Hm, Hw. Qed.
Lemma fitting_get_ctx {B} (k : tinymac_t -> M B) :
  (forall c, Forall node_fits (m_nodes c) -> length (m_nodes c) = TINYMAC_MAX_NODES ->
     m_phy_mtu c <= Z.max 50 phy_mtu -> fitting (k c)) ->
  fitting (bind get_ctx k).
Proof. intros Hk w Hw. apply Hk; [apply Hw..|exact Hw]. Qed.
Lemma fitting_get_log : fitting get_log.
Proof. by intros w H. Qed.

Lemma node_zero_fits a : is_u8 a -> node_fits (set_n_addr a node_zero).
Proof.
  intros Ha. split; [unfold max_frame, sizeof_header; simpl; lia|]. split; [|done].
  apply (Forall_replicate is_u8 128 0). widths; lia.
Qed.

Lemma node_at_fits p w : world_fits w -> node_fits (node_at p w).
Proof.
  intros []. destruct p as [|i|]; simpl; auto. rewrite nth_lookup.
  destruct (m_nodes (ctx w) !! i) eqn:Ei; simpl.
  - eapply Forall_lookup_1; eauto.
  - apply (node_zero_fits 0). widths; lia.
Qed.

Lemma fitting_read_node {B} p (k : tinymac_node_t -> M B) :
  (forall n, node_fits n -> fitting (k n)) -> fitting (bind (read_node p) k).
Proof. intros Hk w Hw. apply Hk; [by apply node_at_fits|done]. Qed.

Lemma fitting_mod_node p f : (forall n, node_fits n -> node_fits (f n)) -> fitting (mod_node p f).
Proof.
  intros Hf w []. destruct p as [|i|]; split; simpl; auto; try by rewrite length_alter.
  apply Forall_alter; [done|]. intros x _. apply Hf.
Qed.

Lemma fitting_mod_ctx f :
  (forall c, m_coord (f c) = m_coord c /\ m_nodes (f c) = m_nodes c /\ m_phy_mtu (f c) = m_phy_mtu c) ->
  fitting (mod_ctx f).
Proof.
  intros Hf w []. destruct (Hf (ctx w)) as (E1 & E2 & E3). split; simpl; by rewrite ?E1, ?E2, ?E3.
Qed.

Lemma fitting_emit e : event_fits e -> fitting (emit e).
Proof. intros He w []. split; simpl; auto. Qed.

Lemma fitting_when b m : (b = true -> fitting m) -> fitting (when b m).
Proof. destruct b; [auto|]. intros _; apply fitting_ret. Qed.

Lemma fitting_for_each {A} (l : list A) body :
  (forall x, fitting (body x)) -> fitting (for_each l body).
Proof. intros Hb. induction l; simpl; [apply fitting_ret|]. by apply fitting_bind. Qed.

Lemma fitting_mod_timer t f : fitting (mod_timer t f).
Proof.
  destruct t; simpl; [apply fitting_mod_node; by intros n []..|]. by apply fitting_mod_ctx.
Qed.
Lemma fitting_read_timer t : fitting (read_timer t).
Proof. by destruct t; intros w Hw. Qed.
Lemma fitting_cancel_timer t : fitting (tinymac_cancel_timer t).
Proof. apply fitting_mod_timer. Qed.

#[local] Hint Resolve fitting_ret fitting_get_log fitting_mod_timer fitting_read_timer
  fitting_cancel_timer : fit.
#[local] Hint Extern 1 (event_fits _) => exact I : fit.
#[local] Hint Extern 2 (fitting (emit _)) => apply fitting_emit : fit.
#[local] Hint Extern 2 (fitting (mod_node _ _)) => apply fitting_mod_node; by intros ? [] : fit.
#[local] Hint Extern 2 (fitting (mod_ctx _)) => by apply fitting_mod_ctx : fit.

Ltac fit_step :=
  lazymatch goal with
  | |- fitting (bind get_ctx _) => apply fitting_get_ctx; intros ? ? ? ?
  | |- fitting (bind (read_node _) _) => apply fitting_read_node; intros ? ?
  | |- fitting (bind _ _) => apply fitting_bind; [|intros ?]
  | |- fitting (when _ _) => apply fitting_when; intros ?
  | |- fitting (if ?b then _ else _) => let E := fresh "E" in destruct b eqn:E
  | |- fitting (match ?x with _ => _ end) => let E := fresh "E" in destruct x eqn:E
  | |- fitting (let _ := _ in _) => cbn zeta
  end.
Ltac fit_auto := repeat first [solve [eauto 4 with fit] | fit_step].

(** ** The handlers *)

Lemma sendable_header hdr rest :
  bytes (concat rest) -> Z.of_nat (length (concat rest)) <= max_frame - sizeof_header ->
  sendable (header_bytes hdr :: rest).
Proof.
  intros Hb Hl. split; [done|]. split; cbn [concat].
  - apply Forall_app. split; [|done]. apply header_bytes_bytes.
  - rewrite length_app, header_bytes_length. unfold sizeof_header in *. lia.
Qed.

Lemma sendable_payload hdr buf :
  bytes buf -> Z.of_nat (length buf) <= max_frame - sizeof_header -> sendable [header_bytes hdr; buf].
Proof.
  intros Hb Hl. apply sendable_header; cbn [concat]; rewrite app_nil_r; [done|lia].
Qed.

Lemma sendable_pending hdr n : node_fits n -> sendable (pending_bufs hdr n).
Proof.
  intros (Hs & Hb & _). apply sendable_payload; [by apply Forall_take|].
  rewrite length_take. lia.
Qed.

Lemma fitting_set_timer t cb arg d : fitting (tinymac_set_timer t cb arg d).
Proof. unfold tinymac_set_timer. fit_auto. Qed.
Hint Resolve fitting_set_timer : fit.

Lemma fitting_phy_send bufs fl : sendable bufs -> fitting (tinymac_phy_send bufs fl).
Proof. intros H. unfold tinymac_phy_send, phy_send. fit_auto. by apply fitting_emit. Qed.
Hint Resolve fitting_phy_send sendable_pending : fit.

Lemma fitting_tx_packet d ft buf v cb : bytes buf -> fitting (tinymac_tx_packet d ft buf v cb).
Proof.
  intros Hb. unfold tinymac_tx_packet. fit_step.
  destruct (_ || _) eqn:Eg; [auto with fit|]. boolify.
  assert (Hfit : Z.of_nat (length buf) <= max_frame - sizeof_header)
    by (unfold max_frame, sizeof_header, TINYMAC_MAX_PAYLOAD in *; lia).
  assert (Hs : forall hdr, sendable [header_bytes hdr; buf])
    by (intros; apply sendable_payload; [done|lia]).
  fit_auto. apply fitting_mod_node. intros m (? & ? & ?). split; [|split]; simpl; auto; [lia|].
  by apply memcpy_bytes.
Qed.
Hint Resolve fitting_tx_packet : fit.

Lemma fitting_send d t buf v cb : bytes buf -> fitting (tinymac_send d t buf v cb).
Proof. intros Hb. unfold tinymac_send. fit_auto. Qed.
Hint Resolve fitting_send map_u8_bytes : fit.

Lemma fitting_run_app prog : fitting (run_app prog).
Proof. induction prog; simpl; unfold tinymac_permit_attach; fit_auto. Qed.
Hint Resolve fitting_run_app : fit.

Lemma fitting_upcall e : event_fits e -> fitting (upcall e).
Proof. intros He. unfold upcall. fit_auto. Qed.
Hint Resolve fitting_upcall : fit.

Lemma fitting_call_send_cb p r : fitting (call_send_cb p r).
Proof. unfold call_send_cb. fit_auto. Qed.
Hint Resolve fitting_call_send_cb : fit.

Lemma fitting_deregister p : fitting (tinymac_deregister_node p).
Proof. unfold tinymac_deregister_node. fit_auto. Qed.
Hint Resolve fitting_deregister : fit.

Lemma fitting_run_timer_fn fn arg : fitting (run_timer_fn fn arg).
Proof.
  unfold run_timer_fn, tinymac_request_timeout, tinymac_validity_timeout, tinymac_ack_timeout.
  fit_auto.
Qed.
Hint Resolve fitting_run_timer_fn : fit.

Lemma fitting_despatch t : fitting (tinymac_despatch_timer t).
Proof. unfold tinymac_despatch_timer. fit_auto. Qed.
Hint Resolve fitting_despatch : fit.

Lemma fitting_tx_pending p : fitting (tinymac_tx_pending p).
Proof. unfold tinymac_tx_pending. fit_auto. Qed.
Hint Resolve fitting_tx_pending : fit.

Lemma sendable_ack hdr : sendable [header_bytes hdr].
Proof. apply sendable_header; simpl; [constructor|unfold max_frame, sizeof_header; lia]. Qed.
Hint Resolve sendable_ack : fit.

Lemma fitting_tx_ack p q : fitting (tinymac_tx_ack p q).
Proof. unfold tinymac_tx_ack. fit_auto. Qed.
Hint Resolve fitting_tx_ack : fit.

Lemma pending_addresses_fit c :
  Forall node_fits (m_nodes c) -> length (m_nodes c) = TINYMAC_MAX_NODES ->
  bytes (pending_addresses c) /\ (length (pending_addresses c) <= 32)%nat.
Proof.
  intros Hn Hl. unfold pending_addresses. split.
  - apply Forall_map, list.Forall_forall. intros x Hx. apply list_elem_of_filter in Hx as [_ Hx].
    rewrite list.Forall_forall in Hn. by apply Hn in Hx as (_ & _ & ?).
  - rewrite length_map.
    pose proof (length_filter (fun n => n_state n = tinymacNodeState_SendPending) (m_nodes c)).
    rewrite Hl in *. unfold TINYMAC_MAX_NODES in *. lia.
Qed.

Lemma fitting_tx_beacon b : fitting (tinymac_tx_beacon b).
Proof.
  unfold tinymac_tx_beacon. apply fitting_get_ctx; intros c Hn Hl _.
  destruct (negb _); [auto with fit|]. cbn zeta. apply fitting_bind; [auto with fit|intros _].
  apply fitting_phy_send. destruct (pending_addresses_fit c Hn Hl) as [Ha Hla].
  assert (H : bytes (if b then pending_addresses c else []) /\
              (length (if b then pending_addresses c else []) <= 32)%nat)
    by (destruct b; [done|split; [constructor|simpl; lia]]).
  destruct H as [H1 H2]. apply sendable_header; cbn [concat]; rewrite app_nil_r.
  - apply Forall_app. split; [|done]. unfold beacon_bytes. repeat apply app_bytes; apply le_bytes_bytes.
  - rewrite length_app. change (length (beacon_bytes _)) with 12%nat.
    unfold max_frame, sizeof_header. lia.
Qed.
Hint Resolve fitting_tx_beacon reg_request_bytes_bytes reg_response_bytes_bytes nil_bytes : fit.

Lemma fitting_rx_beacon hdr pl : header_ok hdr -> fitting (tinymac_rx_beacon hdr pl).
Proof.
  intros (_ & _ & _ & Ha & _). unfold tinymac_rx_beacon, rx_beacon_attach. fit_auto.
  all: apply fitting_mod_node; by intros n (? & ? & ?).
Qed.

Lemma fitting_rx_registration_response hdr pl : fitting (tinymac_rx_registration_response hdr pl).
Proof. unfold tinymac_rx_registration_response. fit_auto. Qed.

Lemma fitting_rx_registration_request hdr pl : fitting (tinymac_rx_registration_request hdr pl).
Proof. unfold tinymac_rx_registration_request. fit_auto. Qed.

Lemma fitting_rx_deregistration_request hdr pl : fitting (tinymac_rx_deregistration_request hdr pl).
Proof. unfold tinymac_rx_deregistration_request. fit_auto. Qed.
Hint Resolve fitting_rx_beacon fitting_rx_registration_response fitting_rx_registration_request
  fitting_rx_deregistration_request : fit.

Lemma fitting_rx_despatch hdr node buf : header_ok hdr -> fitting (rx_despatch hdr node buf).
Proof. intros Hh. unfold rx_despatch, rx_ack. fit_auto. Qed.

Lemma fitting_rx_known_source hdr p rssi : fitting (rx_known_source hdr p rssi).
Proof. unfold rx_known_source. fit_auto. Qed.

Lemma fitting_rx_unknown_source hdr : header_ok hdr -> fitting (rx_unknown_source hdr).
Proof.
  intros (_ & _ & _ & Ha & _). unfold rx_unknown_source. fit_auto.
  apply fitting_mod_node. intros n _. by apply (node_zero_fits (h_src_addr hdr)) in Ha as (? & ? & ?).
Qed.
Hint Resolve fitting_rx_despatch fitting_rx_known_source fitting_rx_unknown_source : fit.

Lemma fitting_recv_cb buf rssi : bytes buf -> fitting (tinymac_recv_cb buf rssi).
Proof.
  intros Hb. pose proof (header_of_ok buf Hb). unfold tinymac_recv_cb. fit_auto.
Qed.

Lemma fitting_tick_handler : fitting tinymac_tick_handler.
Proof.
  unfold tinymac_tick_handler, tick_coordinator, tick_client. fit_auto.
  apply fitting_for_each. intros i. unfold tick_node. fit_auto.
Qed.

Lemma fitting_set_mtu : fitting (mod_ctx (set_m_phy_mtu phy_mtu)).
Proof. intros w []. split; simpl; auto. lia. Qed.
Hint Resolve fitting_set_mtu : fit.

Lemma init_fits P r1 r2 r3 w : world_fits w -> world_fits (snd (tinymac_init P r1 r2 r3 w)).
Proof.
  intros Hw. unfold tinymac_init.
  assert (Hn : fitting (mod_ctx (fun c => set_m_nodes (init_nodes (m_nodes c)) c))).
  { intros v []. split; simpl; auto.
    - apply Forall_lookup. intros i x Hi. apply init_nodes_lookup in Hi as (n & Hn & ->).
      pose proof (lookup_lt_Some _ _ _ Hn) as Hlt. rewrite wf_length0 in Hlt.
      pose proof (Forall_lookup_1 _ _ _ _ wf_nodes0 Hn) as (? & ? & _). split; [done|]. split; [done|]. simpl.
      unfold TINYMAC_MAX_NODES in Hlt. widths; lia.
    - unfold init_nodes. by rewrite length_imap. }
  match goal with |- world_fits (snd (?m w)) => assert (Hm : fitting m); [|by apply Hm] end.
  fit_auto.
Qed.

Lemma world_zero_fits : world_fits world_zero.
Proof.
  assert (Hz : node_fits node_zero) by (apply (node_zero_fits 0); widths; lia).
  split; try done; [|simpl; lia]. by apply (Forall_replicate node_fits 32 node_zero).
Qed.

Lemma reachable_fits P w : reachable P w -> world_fits w.
Proof.
  induction 1 as [| |P w w' _ IH Hs]; [apply init_fits, world_zero_fits|by apply init_fits|].
  destruct Hs; [by apply fitting_recv_cb|by apply fitting_tick_handler|by apply fitting_send|..];
    unfold tinymac_permit_attach, tinymac_register_recv_cb, tinymac_register_reg_cb,
      tinymac_register_dereg_cb; by apply fitting_mod_ctx.
Qed.

(** ** Theorems *)

(** In every reachable history every packet the MAC has handed to the PHY -
    immediate, deferred or retransmitted data, acknowledgements, beacons with
    their address lists, registration traffic - is a byte string of at most 134
    bytes that, unless it is a beacon of at most 50 bytes, fits the MTU the
    driver announced, whatever the application asked to be sent. *)
Theorem transmitted_packets_bounded P w bufs flags :
  reachable P w -> EvPhySend bufs flags ∈ log w ->
  bytes (concat bufs) /\ Z.of_nat (length (concat bufs)) <= Z.max 50 (Z.min 134 phy_mtu).
Proof.
  intros Hr Hin. apply reachable_fits in Hr as [_ _ _ _ _ Hl].
  rewrite list.Forall_forall in Hl. apply (Hl _ Hin).
Qed.

(** C25: over any PHY that keeps the link interface with an MTU of at least 50
    bytes, and that announces no more to the MAC than it can carry (the UDP
    driver's MTU is 254, the Si443x driver's 62), every packet any MAC has
    transmitted leaves as one frame, and a listening peer's event handler hands exactly the
    transmitted bytes to that peer's receive callback. *)
Theorem mac_packets_delivered `{L : PhyLink} P w bufs flags :
  50 <= link_mtu -> phy_mtu <= link_mtu -> reachable P w -> EvPhySend bufs flags ∈ log w ->
  exists d rssi, link_send bufs flags = [d] /\ link_deliver d = Some (concat bufs, rssi).
Proof.
  intros Hm Hm' Hr Hin. apply reachable_fits in Hr as [_ _ _ _ _ Hl].
  rewrite list.Forall_forall in Hl. destruct (Hl _ Hin) as (Hne & Hb & Hlen).
  apply link_law; [done|done|]. unfold max_frame in *. lia.
Qed.
End Sends.

(** ** Instances *)

(** The data packet in flight in [coord_waitack]. *)
Definition ex_bufs : list (list Z) := [header_bytes (mk_header 80 7 1 0 22); [1; 2; 3]].

Lemma transmitted_packets_bounded_witness :
  bytes (concat ex_bufs) /\
  Z.of_nat (length (concat ex_bufs)) <= Z.max 50 (Z.min 134 (@phy_mtu env_quiet)).
Proof.
  apply (@transmitted_packets_bounded env_quiet coord_params coord_waitack _ 0).
  - apply coord_waitack_reachable.
  - apply (list_elem_of_lookup_2 _ 0). vm_compute. reflexivity.
Defined.

Lemma mac_packets_delivered_witness :
  exists d rssi, transmit (fst (PhyUdp.phy_send ex_bufs 0)) = [d] /\
    phy_event_handler phy_up (Datagram d) = Some (concat ex_bufs, rssi).
Proof.
  apply (@mac_packets_delivered env_quiet (udp_link phy_up phy_up_ready) coord_params coord_waitack).
  - vm_compute. discriminate.
  - vm_compute. discriminate.
  - apply coord_waitack_reachable.
  - apply (list_elem_of_lookup_2 _ 0). vm_compute. reflexivity.
Defined.
