(* ===== verification/MacHandshake.v ===== *)
(** * The registration handshake of two MACs over a link

    A coordinator and a client, each in any state it can have reached and with
    its own PHY results and application, exchange the packets of a
    registration over a PHY that keeps the link law. *)

From stdpp Require Import base list numbers sets.
From Stdlib Require Import ZArith Lia.
From S2P Require Import Prelude Wire MacState Mac MacInv MacRun MacEx MacTx MacReg MacTick Phy PhyUdp.

(** ** The application cannot unregister or rename a device *)

Definition keeps_registry {A} (m : M A) : Prop := forall w, registry (snd (m w)) = registry w.

Lemma registry_upd_same p f w :
  (forall i n, p = PNode i -> m_nodes (ctx w) !! i = Some n ->
     n_uuid (f n) = n_uuid n /\ live (f n) = live n) ->
  registry (upd_node p f w) = registry w.
Proof.
  intros Hf. destruct p as [|i|]; try done. unfold registry; simpl. apply list_eq. intros j.
  rewrite !list_lookup_fmap. destruct (decide (i = j)) as [<-|Hne].
  - rewrite list_lookup_alter_eq. destruct (_ !! i) as [n|] eqn:En; [|done]. simpl.
    by destruct (Hf i n eq_refl En) as [-> ->].
  - by rewrite list_lookup_alter_ne.
Qed.

Lemma registry_bind {A B} (m : M A) (k : A -> M B) :
  keeps_registry m -> (forall a, keeps_registry (k a)) -> keeps_registry (bind m k).
Proof. intros Hm Hk w. rewrite bind_run, Hk. apply Hm. Qed.

Section Registry.
Context `{E : Env}.

Lemma registry_phy_send bufs fl : keeps_registry (tinymac_phy_send bufs fl).
Proof. intros w. by rewrite phy_send_run. Qed.

(** Marking a registered node busy keeps it live. *)
Lemma registry_tx_packet d ft buf v cb : keeps_registry (tinymac_tx_packet d ft buf v cb).
Proof.
  intros w. unfold tinymac_tx_packet. autorewrite with run. destruct (_ || _); [done|].
  autorewrite with run. fold (bump w). destruct d as [p|]; [|by rewrite registry_phy_send].
  autorewrite with run. rewrite node_at_bump. case_bool_decide as Hs; [|done].
  change (negb true) with false. cbv iota.
  assert (Hn : forall i n, p = PNode i -> m_nodes (ctx (bump w)) !! i = Some n ->
                 n_state n = tinymacNodeState_Registered).
  { intros i n -> Hi. apply node_at_lookup in Hi. by rewrite node_at_bump in Hi; subst n. }
  assert (Hu : forall f, (forall n, n_uuid (f n) = n_uuid n) ->
     (forall n, n_state n = tinymacNodeState_Registered -> live (f n) = true) ->
     registry (upd_node p f (bump w)) = registry w).
  { intros f Hf Hl. change (registry w) with (registry (bump w)). apply registry_upd_same.
    intros i n -> Hi. split; [done|]. rewrite Hl by eauto. unfold live.
    by rewrite (Hn _ _ eq_refl Hi). }
  unfold when, tinymac_set_timer, mod_timer.
  destruct (_ &? _), (sleepy _); simpl orb; cbv iota; autorewrite with run;
    rewrite ?registry_phy_send, ?upd_upd; try (by apply Hu); try done.
  all: apply Hu; [done|]. all: intros n Hreg; unfold live; simpl; by rewrite Hreg.
Qed.

Lemma registry_run_app prog : keeps_registry (run_app prog).
Proof.
  induction prog; simpl; [done| |]; (apply registry_bind; [|auto]); [|done].
  intros w. unfold tinymac_send. destruct (_ <? _); [done|]. autorewrite with run.
  destruct (tinymac_get_node_by_addr _ _); [|done]. autorewrite with run. apply registry_tx_packet.
Qed.

Lemma registry_upcall e : keeps_registry (upcall e).
Proof.
  unfold upcall. apply registry_bind; [done|intros _]. apply registry_bind; [done|intros l].
  apply registry_run_app.
Qed.
End Registry.

(** ** Packets from or to a node without an address *)

Section Anonymous.
Context `{E : Env}.

Record heard_anonymous (hdr : tinymac_header_t) (w : world) : Prop := {
  ha_header : header_ok hdr;
  ha_loopback : h_src_addr hdr <> m_addr (ctx w);
  ha_dest : dest_accepted (ctx w) hdr = true;
  ha_permitted : anonymous_refused (ctx w) hdr = false;
  ha_unassigned : m_addr (ctx w) = TINYMAC_ADDR_UNASSIGNED \/
                  h_src_addr hdr = TINYMAC_ADDR_UNASSIGNED
}.

Lemma recv_anonymous hdr payload rssi w :
  heard_anonymous hdr w ->
  tinymac_recv_cb (header_bytes hdr ++ payload) rssi w =
  rx_despatch hdr None (header_bytes hdr ++ payload) (set_log (rx_power_log hdr w) w).
Proof.
  intros [Hh Hl Hd Hp Hu]. unfold tinymac_recv_cb. rewrite header_roundtrip by done.
  rewrite length_app, header_bytes_length.
  replace (Z.of_nat (6 + length payload) <? sizeof_header) with false
    by (symmetry; apply Z.ltb_ge; unfold sizeof_header; lia).
  autorewrite with run.
  replace (h_src_addr hdr =? m_addr (ctx w)) with false by (symmetry; by apply Z.eqb_neq).
  rewrite Hd, Hp. change (negb true) with false. cbv iota.
  replace (negb (m_addr (ctx w) =? TINYMAC_ADDR_UNASSIGNED) &&
           negb (h_src_addr hdr =? TINYMAC_ADDR_UNASSIGNED)) with false.
  2: { symmetry. apply andb_false_iff. destruct Hu as [-> | ->]; [by left|by right]. }
  unfold rx_power_log. rewrite bind_run. unfold when.
  destruct (sleepy _); [destruct (_ &? _)|]; [done|done|]. by destruct w.
Qed.

(** *** The coordinator is asked for a beacon *)

Definition advert_header (c : tinymac_t) : tinymac_header_t :=
  mk_header (type_code tinymacType_Beacon) (m_net_id c) TINYMAC_ADDR_BROADCAST (m_addr c)
    (u8 (m_bseq c + 1)).

Definition advert_beacon (c : tinymac_t) : tinymac_beacon_t :=
  mk_beacon (p_uuid (m_params c)) (m_slot c)
    (if m_permit_attach c then TINYMAC_BEACON_FLAGS_PERMIT_ATTACH else 0)
    TINYMAC_BEACON_INTERVAL_NO_BEACON.

Definition advertisement (w : world) : list (list Z) :=
  [header_bytes (advert_header (ctx w)); beacon_bytes (advert_beacon (ctx w)); []].

Definition beacon_request (seq : Z) : tinymac_header_t :=
  mk_header (type_code tinymacType_BeaconRequest) TINYMAC_NETWORK_ANY TINYMAC_ADDR_BROADCAST
    TINYMAC_ADDR_UNASSIGNED seq.

Lemma recv_beacon_request P seq rssi w :
  inv P w -> p_coordinator P = true -> is_u8 seq -> m_permit_attach (ctx w) = true ->
  snd (tinymac_recv_cb (header_bytes (beacon_request seq)) rssi w) =
  set_ctx (set_m_bseq (u8 (m_bseq (ctx w) + 1)) (ctx w))
    (set_log (phy_log (sleepy (p_flags P)) (advertisement w) 0 (rx_power_log (beacon_request seq) w)) w).
Proof.
  intros [Hc _] Hp Hq Hperm. rewrite <- (app_nil_r (header_bytes _)), recv_anonymous.
  - unfold rx_despatch. change (type_code tinymacType_RawData <=? _) with false. cbv iota.
    change (type_of _) with tinymacType_BeaconRequest. cbv iota. unfold tinymac_tx_beacon.
    autorewrite with run. simpl m_params. rewrite (ok_params _ _ Hc), Hp.
    change (negb true) with false. cbv iota. autorewrite with run. rewrite bind_run, phy_send_run.
    simpl. unfold advertisement, advert_beacon. by rewrite (ok_params _ _ Hc).
  - pose proof (ok_role _ _ Hc) as Hrole. unfold role_ok in Hrole. rewrite Hp in Hrole.
    destruct Hrole as [_ Ha]. split; simpl; auto.
    + apply mk_header_ok; auto; widths; vm_compute; split; congruence.
    + rewrite Ha. done.
    + unfold dest_accepted; simpl. by rewrite orb_true_r.
    + unfold anonymous_refused. by rewrite (ok_params _ _ Hc), Hp, Hperm, andb_false_r.
Qed.

(** *** The client hears a beacon that permits attachment *)

(** The registration request a client broadcasts its wish with. *)
Definition attach_request (hdr : tinymac_header_t) (w : world) : list (list Z) :=
  [header_bytes (mk_header (type_code tinymacType_RegistrationRequest) (h_net_id hdr)
                   (h_src_addr hdr) (m_addr (ctx w)) (u8 (m_dseq (ctx w) + 1)));
   reg_request_bytes (mk_reg_request (p_uuid (m_params (ctx w))) (p_flags (m_params (ctx w))))].

(** The client is about to attach to the sender of [hdr]. *)
Record attaching (hdr : tinymac_header_t) (w w1 : world) : Prop := {
  at_params : m_params (ctx w1) = m_params (ctx w);
  at_state : m_state (ctx w1) = tinymacClientState_Registering;
  at_addr : m_addr (ctx w1) = m_addr (ctx w);
  at_net : m_net_id (ctx w1) = h_net_id hdr;
  at_coord : n_state (m_coord (ctx w1)) = tinymacNodeState_Registered;
  at_coord_addr : n_addr (m_coord (ctx w1)) = h_src_addr hdr
}.

Lemma rx_beacon_attach_run hdr b w :
  16 <= m_phy_mtu (ctx w) ->
  let w1 := snd (rx_beacon_attach hdr b w) in
  attaching hdr w w1 /\
  log w1 = phy_log (sleepy (p_flags (m_params (ctx w)))) (attach_request hdr w) 0 (log w).
Proof.
  intros Hm. cbv zeta. unfold rx_beacon_attach. autorewrite with run.
  rewrite bind_run, tx_packet_plain; [|split; simpl; unfold TINYMAC_MAX_PAYLOAD, sizeof_header; lia|done..].
  rewrite phy_send_run. unfold tinymac_set_timer. autorewrite with run. done.
Qed.

Lemma recv_beacon_attach C hdr b rest rssi w :
  inv C w -> p_coordinator C = false ->
  m_state (ctx w) = tinymacClientState_Unregistered \/
    m_state (ctx w) = tinymacClientState_BeaconRequest ->
  16 <= m_phy_mtu (ctx w) -> header_ok hdr -> is_type tinymacType_Beacon hdr ->
  h_dest_addr hdr = TINYMAC_ADDR_BROADCAST -> h_net_id hdr <> TINYMAC_NETWORK_ANY ->
  h_src_addr hdr <> TINYMAC_ADDR_UNASSIGNED -> beacon_ok b ->
  (b_flags b &? TINYMAC_BEACON_FLAGS_PERMIT_ATTACH) = true ->
  let w1 := snd (tinymac_recv_cb (header_bytes hdr ++ beacon_bytes b ++ rest) rssi w) in
  attaching hdr w w1 /\
  log w1 = phy_log (sleepy (p_flags C)) (attach_request hdr w) 0 (rx_power_log hdr w).
Proof.
  intros [Hc _] Hp Hs Hm Hh Ht Hd Hn Hsrc Hb Hperm. cbv zeta.
  assert (Ha : m_addr (ctx w) = TINYMAC_ADDR_UNASSIGNED /\ m_net_id (ctx w) = TINYMAC_NETWORK_ANY).
  { pose proof (ok_role _ _ Hc) as Hr. unfold role_ok in Hr. rewrite Hp in Hr.
    by destruct Hs as [E1|E1]; rewrite E1 in Hr. }
  destruct Ha as [Ha Hnet]. rewrite recv_anonymous.
  2: { split; auto; [by rewrite Ha|..].
       - unfold dest_accepted. by rewrite Hd, Hnet, Z.eqb_refl, orb_true_r.
       - unfold anonymous_refused. by rewrite (proj2 (Z.eqb_neq _ _) Hn), (proj2 (Z.eqb_neq _ _) Hsrc). }
  unfold rx_despatch. rewrite Ht. change (type_code tinymacType_RawData <=? _) with false. cbv iota.
  rewrite type_roundtrip. cbv iota.
  replace (_ <? sizeof_header + sizeof_beacon) with false.
  2: { symmetry. apply Z.ltb_ge. rewrite !length_app, header_bytes_length.
       change (length (beacon_bytes b)) with 12%nat. unfold sizeof_header, sizeof_beacon; lia. }
  rewrite payload_of_header. unfold tinymac_rx_beacon. autorewrite with run.
  change (ctx (set_log (rx_power_log hdr w) w)) with (ctx w).
  rewrite (ok_params _ _ Hc), Hp. destruct (beacon_roundtrip b rest Hb) as [-> _]. cbv zeta.
  rewrite bind_run. set (w0 := snd (when _ _ _)).
  assert (H0 : m_phy_mtu (ctx w0) = m_phy_mtu (ctx w) /\ log w0 = rx_power_log hdr w /\
     m_params (ctx w0) = C /\ attach_request hdr w0 = attach_request hdr w /\
     m_addr (ctx w0) = m_addr (ctx w)).
  { rewrite <- (ok_params _ _ Hc). unfold w0. by destruct (bool_decide _). }
  destruct H0 as (H1 & H2 & H3 & H4 & H5).
  replace (match m_state (ctx w) with tinymacClientState_Unregistered | _ => _ end)
    with (rx_beacon_attach hdr b).
  2: { destruct Hs as [-> | ->]; by rewrite Hperm. }
  destruct (rx_beacon_attach_run hdr b w0) as [[] Hl]; [by rewrite H1|].
  rewrite Hl, H2, H3, H4. pose proof (ok_params _ _ Hc). split; [split; congruence|done].
Qed.

(** *** The coordinator hears the request *)

Lemma recv_attach_request P hdr u fl rssi w :
  inv P w -> p_coordinator P = true -> m_permit_attach (ctx w) = true ->
  is_u64 u -> is_u16 fl -> 16 <= m_phy_mtu (ctx w) ->
  header_ok hdr -> is_type tinymacType_RegistrationRequest hdr ->
  h_net_id hdr = m_net_id (ctx w) -> h_dest_addr hdr = m_addr (ctx w) ->
  h_src_addr hdr = TINYMAC_ADDR_UNASSIGNED ->
  let w1 := snd (tinymac_recv_cb (header_bytes hdr ++ reg_request_bytes (mk_reg_request u fl)) rssi w) in
  registry w1 = spec_register (registry w) u /\
  phy_log (sleepy (p_flags P))
    [header_bytes (tx_header w (type_code tinymacType_RegistrationResponse) TINYMAC_ADDR_BROADCAST);
     reg_response_bytes (spec_response (registry w) u)] 0 (rx_power_log hdr w)
    `suffix_of` log w1.
Proof.
  intros Hw Hp Hperm Hu Hfl Hm Hh Ht Hn Hd Hsrc. pose proof Hw as [Hc _]. cbv zeta.
  pose proof (ok_role _ _ Hc) as Hr. unfold role_ok in Hr. rewrite Hp in Hr. destruct Hr as [_ Ha].
  rewrite recv_anonymous.
  2: { split; auto; [by rewrite Hsrc, Ha|..].
       - unfold dest_accepted. by rewrite Hn, Hd, !Z.eqb_refl.
       - unfold anonymous_refused. by rewrite (ok_params _ _ Hc), Hp, Hperm, andb_false_r. }
  unfold rx_despatch. rewrite Ht. change (type_code tinymacType_RawData <=? _) with false. cbv iota.
  rewrite type_roundtrip. cbv iota. change (_ <? sizeof_header + sizeof_reg_request) with false.
  cbv iota. rewrite payload_of_header, <- (app_nil_r (reg_request_bytes _)).
  destruct (registration_run P (set_log (rx_power_log hdr w) w) hdr u fl [] Hw Hp Hu Hfl Hm)
    as (w1 & -> & Hreg & Hlog).
  change (registry w1 = spec_register (registry w) u) in Hreg. rewrite <- Hreg.
  destruct (m_reg_cb _); [rewrite when_true|split; [done|]; unfold when, ret; simpl snd; by rewrite Hlog].
  split; [apply registry_upcall|]. etrans; [|apply grows_upcall]. by rewrite Hlog.
Qed.

(** *** The client hears the response *)

Lemma recv_attach_response C hdr r rssi w :
  inv C w -> p_coordinator C = false -> m_state (ctx w) = tinymacClientState_Registering ->
  header_ok hdr -> is_type tinymacType_RegistrationResponse hdr ->
  h_net_id hdr = m_net_id (ctx w) -> h_dest_addr hdr = TINYMAC_ADDR_BROADCAST ->
  h_src_addr hdr <> TINYMAC_ADDR_UNASSIGNED ->
  reg_response_ok r -> rs_uuid r = p_uuid C -> rs_addr r <> TINYMAC_ADDR_UNASSIGNED ->
  rs_status r = status_code tinymacRegistrationStatus_Success ->
  let w1 := snd (tinymac_recv_cb (header_bytes hdr ++ reg_response_bytes r) rssi w) in
  m_state (ctx w1) = tinymacClientState_Registered /\ m_addr (ctx w1) = rs_addr r /\
  m_net_id (ctx w1) = m_net_id (ctx w) /\ m_coord (ctx w1) = m_coord (ctx w) /\
  m_params (ctx w1) = C.
Proof.
  intros [Hc _] Hp Hs Hh Ht Hn Hd Hsrc Hok Hu Ha Hst. cbv zeta.
  pose proof (ok_role _ _ Hc) as Hr. unfold role_ok in Hr. rewrite Hp, Hs in Hr.
  destruct Hr as [Haddr Hnet]. rewrite recv_anonymous.
  2: { split; auto; [by rewrite Haddr|..].
       - unfold dest_accepted. by rewrite Hn, Hd, !Z.eqb_refl, orb_true_r.
       - unfold anonymous_refused. rewrite Hn. by rewrite (proj2 (Z.eqb_neq _ _) Hnet),
           (proj2 (Z.eqb_neq _ _) Hsrc). }
  unfold rx_despatch. rewrite Ht. change (type_code tinymacType_RawData <=? _) with false. cbv iota.
  rewrite type_roundtrip. cbv iota. change (_ <? sizeof_header + sizeof_reg_response) with false.
  cbv iota. rewrite payload_of_header, <- (app_nil_r (reg_response_bytes _)).
  unfold tinymac_rx_registration_response. autorewrite with run.
  change (ctx (set_log (rx_power_log hdr w) w)) with (ctx w).
  rewrite (ok_params _ _ Hc), Hp, reg_response_roundtrip by done. cbv zeta.
  rewrite Hu, Z.eqb_refl, Hs, bool_decide_eq_true_2, Hst by done.
  rewrite (proj2 (Z.eqb_neq _ _) Ha). simpl negb. cbv iota. simpl orb. cbv iota.
  unfold when, tinymac_cancel_timer, mod_timer. autorewrite with run. simpl.
  by rewrite Hn, (ok_params _ _ Hc).
Qed.
End Anonymous.

(** ** The handshake *)

(** A packet handed to the PHY between two points of a sender's log is carried
    by the link and received in [w], which becomes [w'].  The link is between PHYs
    in receive mode; that the receiver is on is for the user of this relation to
    say ([received] in [MacExchange.v] requires it). *)
Definition heard `{L : PhyLink} (E : Env) (before after : list event) (w w' : world) : Prop :=
  exists new bufs flags d buf rssi,
    after = new ++ before /\ EvPhySend bufs flags ∈ new /\
    link_send bufs flags = [d] /\ link_deliver d = Some (buf, rssi) /\
    w' = snd (@tinymac_recv_cb E buf rssi w).

Lemma heard_phy_log `{L : PhyLink} (E E' : Env) s bufs flags l before after w :
  before `suffix_of` l -> @phy_log E s bufs flags l `suffix_of` after ->
  bytes (concat bufs) -> 0 < Z.of_nat (length (concat bufs)) <= link_mtu ->
  exists rssi, heard E' before after w (snd (@tinymac_recv_cb E' (concat bufs) rssi w)).
Proof.
  intros [l1 ->] [l2 ->] Hb [H0 Hl]. assert (Hne : bufs <> []) by (by intros ->).
  destruct (link_law bufs flags Hne Hb Hl) as (d & rssi & Hd & Hr).
  exists rssi. unfold phy_log.
  destruct s;
    [exists (l2 ++ [if @phy_send_rc E (EvPhySend bufs flags :: l1 ++ before) <? 0 then EvPhyStandby
                    else EvPhyDelayedStandby TINYMAC_LISTEN_PERIOD_US; EvPhySend bufs flags] ++ l1)
    |exists (l2 ++ [EvPhySend bufs flags] ++ l1)];
    exists bufs, flags, d, (concat bufs), rssi; rewrite <- !app_assoc; split_and!; try done; set_solver.
Qed.

Lemma advertisement_sendable w :
  bytes (concat (advertisement w)) /\ length (concat (advertisement w)) = 18%nat.
Proof.
  split; [|done]. unfold advertisement, beacon_bytes. cbn [concat]. rewrite app_nil_r.
  auto 10 with width.
Qed.

Lemma spec_response_ok reg u i :
  is_u64 u -> spec_slot reg u = Some i -> (i < 32)%nat ->
  reg_response_ok (spec_response reg u) /\ rs_uuid (spec_response reg u) = u /\
  rs_addr (spec_response reg u) = Z.of_nat i + 1 /\
  rs_status (spec_response reg u) = status_code tinymacRegistrationStatus_Success.
Proof.
  intros Hu Hs Hi. unfold spec_response. rewrite Hs. split_and!; try done.
  unfold reg_response_ok; simpl. split_and!; [done|widths; lia|widths; vm_compute; split; congruence].
Qed.

(** The headers of the exchange are those of well-formed packets. *)
Lemma coordinator_addr P w : inv P w -> p_coordinator P = true -> m_addr (ctx w) = 0.
Proof.
  intros [Hc _] Hp. pose proof (ok_role _ _ Hc) as Hr. unfold role_ok in Hr.
  rewrite Hp in Hr. apply Hr.
Qed.

Lemma u16_type t : is_u16 (type_code t).
Proof. pose proof (type_code_range t). widths; lia. Qed.
Hint Resolve u16_type : width.

Lemma u8_broadcast : is_u8 TINYMAC_ADDR_BROADCAST.
Proof. widths. unfold TINYMAC_ADDR_BROADCAST. lia. Qed.
Hint Resolve u8_broadcast : width.

Lemma advert_ok P w :
  inv P w -> params_ok P -> header_ok (advert_header (ctx w)) /\ beacon_ok (advert_beacon (ctx w)).
Proof.
  intros [Hc _] (Hu & _). split.
  - destruct Hc. unfold advert_header. auto with width.
  - unfold beacon_ok, advert_beacon; simpl. rewrite (ok_params _ _ Hc). split_and!; [done|apply Hc|..].
    + destruct (m_permit_attach _); widths; vm_compute; split; congruence.
    + widths; vm_compute; split; congruence.
Qed.

Lemma tx_header_ok P w t d : inv P w -> is_u8 d -> header_ok (tx_header w (type_code t) d).
Proof. intros [[] _] Hd. unfold tx_header. auto with width. Qed.

(** The three exchanges. *)
Section Exchanges.
Context `{L : PhyLink} (Ek Ec : Env) (P C : tinymac_params_t).
Context (Hp : p_coordinator P = true) (Hpc : p_coordinator C = false).
Context (HP : params_ok P) (HC : params_ok C) (Hlink : 18 <= link_mtu).

Lemma beacon_heard wk wc seq rssi :
  inv P wk -> m_permit_attach (ctx wk) = true -> m_net_id (ctx wk) <> TINYMAC_NETWORK_ANY ->
  is_u8 seq -> inv C wc ->
  m_state (ctx wc) = tinymacClientState_Unregistered \/
    m_state (ctx wc) = tinymacClientState_BeaconRequest ->
  16 <= m_phy_mtu (ctx wc) ->
  let wk1 := snd (@tinymac_recv_cb Ek (header_bytes (beacon_request seq)) rssi wk) in
  let hdr := advert_header (ctx wk) in
  exists wc1, heard Ec (log wk) (log wk1) wc wc1 /\ inv C wc1 /\ attaching hdr wc wc1 /\
    log wc1 = @phy_log Ec (sleepy (p_flags C)) (attach_request hdr wc) 0 (rx_power_log hdr wc).
Proof.
  intros Hk Hperm Hnet Hseq Hc Hs Hm wk1 hdr.
  assert (E1 := @recv_beacon_request Ek P seq rssi wk Hk Hp Hseq Hperm). fold wk1 in E1.
  destruct (advertisement_sendable wk) as [Hab Hal].
  destruct (@heard_phy_log L Ek Ec (sleepy (p_flags P)) (advertisement wk) 0
              (rx_power_log (beacon_request seq) wk) (log wk) (log wk1) wc)
    as [r1 H1]; [apply rx_power_suffix|by rewrite E1|done|rewrite Hal; lia|].
  destruct (advert_ok P wk Hk HP) as [Hh Hb].
  eexists; split; [exact H1|]. split; [by apply (pres_recv_cb C)|].
  apply (@recv_beacon_attach Ec C hdr (advert_beacon (ctx wk)) []); try done.
  - simpl. by rewrite (coordinator_addr P).
  - simpl. by rewrite Hperm.
Qed.

Lemma request_heard wk wc wc1 before hdr :
  inv P wk -> m_permit_attach (ctx wk) = true -> 16 <= m_phy_mtu (ctx wk) -> inv C wc ->
  m_addr (ctx wc) = TINYMAC_ADDR_UNASSIGNED ->
  h_net_id hdr = m_net_id (ctx wk) -> h_src_addr hdr = m_addr (ctx wk) ->
  before `suffix_of` rx_power_log hdr wc ->
  log wc1 = @phy_log Ec (sleepy (p_flags C)) (attach_request hdr wc) 0 (rx_power_log hdr wc) ->
  exists wk2 l, heard Ek before (log wc1) wk wk2 /\ inv P wk2 /\
    registry wk2 = spec_register (registry wk) (p_uuid C) /\ log wk `suffix_of` l /\
    @phy_log Ek (sleepy (p_flags P))
      [header_bytes (tx_header wk (type_code tinymacType_RegistrationResponse) TINYMAC_ADDR_BROADCAST);
       reg_response_bytes (spec_response (registry wk) (p_uuid C))] 0 l `suffix_of` log wk2.
Proof.
  intros Hk Hperm Hm [Hc _] Ha Hn Hsrc Hbef Hlog.
  destruct HC as (Hu & Hfl & _). pose proof Hk as [Hkc _].
  assert (Hb : bytes (concat (attach_request hdr wc))).
  { unfold attach_request, reg_request_bytes. cbn [concat]. rewrite app_nil_r. auto with width. }
  destruct (@heard_phy_log L Ec Ek (sleepy (p_flags C)) (attach_request hdr wc) 0
              (rx_power_log hdr wc) before (log wc1) wk) as [r1 H1];
    [done|by rewrite Hlog|done|change (length _) with 16%nat; lia|].
  eexists; eexists; split; [exact H1|]. split; [by apply (pres_recv_cb P)|].
  unfold attach_request. cbn [concat]. rewrite app_nil_r, (ok_params _ _ Hc).
  set (rq := mk_header (type_code _) _ _ _ _).
  destruct (@recv_attach_request Ek P rq (p_uuid C) (p_flags C) r1 wk) as [H2 H3]; try done.
  - unfold rq. rewrite Hn, Hsrc. destruct Hkc, Hc. auto with width.
  - split; [exact H2|]. split; [|exact H3]. apply rx_power_suffix.
Qed.

Lemma response_heard wk before after wc i l :
  inv P wk -> inv C wc -> m_state (ctx wc) = tinymacClientState_Registering ->
  m_net_id (ctx wc) = m_net_id (ctx wk) ->
  spec_slot (registry wk) (p_uuid C) = Some i -> (i < 32)%nat ->
  before `suffix_of` l ->
  @phy_log Ek (sleepy (p_flags P))
    [header_bytes (tx_header wk (type_code tinymacType_RegistrationResponse) TINYMAC_ADDR_BROADCAST);
     reg_response_bytes (spec_response (registry wk) (p_uuid C))] 0 l `suffix_of` after ->
  exists wc2, heard Ec before after wc wc2 /\
    m_state (ctx wc2) = tinymacClientState_Registered /\ m_addr (ctx wc2) = Z.of_nat i + 1 /\
    m_net_id (ctx wc2) = m_net_id (ctx wc) /\ m_coord (ctx wc2) = m_coord (ctx wc) /\
    m_params (ctx wc2) = C.
Proof.
  intros Hk Hc Hs Hn Hslot Hi Hbef Hl. destruct HC as (Hu & _).
  destruct (spec_response_ok _ _ _ Hu Hslot Hi) as (R1 & R2 & R3 & R4).
  match type of Hl with phy_log _ ?b _ _ `suffix_of` _ =>
    destruct (@heard_phy_log L Ek Ec (sleepy (p_flags P)) b 0 l before after wc) as [r1 H1] end;
    [done|done| |change (length _) with 16%nat; lia|].
  { cbn [concat]. rewrite app_nil_r. unfold reg_response_bytes. auto with width. }
  eexists; split; [exact H1|]. cbn [concat]. rewrite app_nil_r, <- R3.
  apply (@recv_attach_response Ec C); try done.
  - eapply tx_header_ok; [done|auto with width].
  - simpl. by rewrite (coordinator_addr P).
  - rewrite R3. unfold TINYMAC_ADDR_UNASSIGNED. lia.
Qed.
End Exchanges.

(** A client without a network has no address. *)
Lemma searching_addr C w :
  inv C w -> p_coordinator C = false ->
  m_state (ctx w) = tinymacClientState_Unregistered \/
    m_state (ctx w) = tinymacClientState_BeaconRequest ->
  m_addr (ctx w) = TINYMAC_ADDR_UNASSIGNED.
Proof.
  intros [Hc _] Hp Hs. pose proof (ok_role _ _ Hc) as Hr. unfold role_ok in Hr. rewrite Hp in Hr.
  destruct Hs as [Hs|Hs]; rewrite Hs in Hr; apply Hr.
Qed.

(** What the registry says of a slot is what the searches find. *)
Lemma registered_found P w i u reg :
  inv P w -> p_coordinator P = true -> (i < 32)%nat -> (i < length reg)%nat ->
  registry w = <[i := (u, true)]> reg ->
  tinymac_get_node_by_addr (ctx w) (Z.of_nat i + 1) = Some (PNode i) /\
  n_uuid (node_at (PNode i) w) = u.
Proof.
  intros Hw Hp Hi Hl Hr.
  assert (Hv : valid (PNode i) w) by (eapply ptr_ok_valid; [exact Hw|exact Hi]).
  assert (Hx : registry w !! i = Some (u, true)) by (by rewrite Hr, list_lookup_insert_eq).
  unfold registry in Hx. rewrite list_lookup_fmap, lookup_node_at in Hx by done.
  injection Hx as Hu Hlive. split; [|done]. apply (lookup_addr_spec P); [done|done|].
  exists i. split_and!; try done. unfold live in Hlive. by case_bool_decide.
Qed.


(** ** Instance: both roles over the UDP driver *)

