(* ===== verification/TinyApp.v ===== *)
(** * The application layer ([lib/tinyapp.c], [lib/tinyapp.h])

    Serialisation of tagged items into a caller's buffer, deserialisation of a
    packet into callback calls, and the name tables of profiles and items.

    A failed [assert] and a write outside the buffer end a serialiser with
    [None].  The deserialiser reads memory: the packet and, past its end, bytes
    that may be anything; it goes on with what it finds there, as the code does,
    and every offset it reads is recorded. *)

From stdpp Require Import base list numbers.
From Stdlib Require Import ZArith Lia.
From Stdlib Require String Ascii.
Import String.StringSyntax.
From S2P Require Import Prelude.

Open Scope Z_scope.

(** ** Protocol constants *)

Definition TINYAPP_FLAGS_NONE : Z := 0.
Definition TINYAPP_ITEM_ID_MASK : Z := 0x3f.
Definition TINYAPP_ITEM_ID_PROFILE : Z := 0x3f.
Definition TINYAPP_LENGTH_1 : Z := Z.shiftl 0 6.
Definition TINYAPP_LENGTH_2 : Z := Z.shiftl 1 6.
Definition TINYAPP_LENGTH_4 : Z := Z.shiftl 2 6.
Definition TINYAPP_LENGTH_VAR : Z := Z.shiftl 3 6.
Definition TINYAPP_LENGTH_MASK : Z := Z.shiftl 3 6.

(** ** Serialisation *)

(** The context: the buffer's contents, and [packet_ptr] and [packet_end] as
    offsets from [packet_start]. *)
Record tinyapp_t := mk_app {
  a_buf : list Z;
  packet_ptr : nat;
  packet_end : nat
}.

(** [*ctx->packet_ptr++ = v] for each byte in turn. *)
Definition put (ctx : tinyapp_t) (vs : list Z) : tinyapp_t :=
  mk_app (list_inserts (packet_ptr ctx) vs (a_buf ctx)) (packet_ptr ctx + length vs)
    (packet_end ctx).

(** [size] is the length of the buffer, whose first byte is written unchecked. *)
Definition tinyapp_init (flags : Z) (buf : list Z) : option tinyapp_t :=
  match buf with
  | [] => None
  | _ => Some (put (mk_app buf 0 (length buf)) [flags])
  end.

Definition tinyapp_serialise8 (ctx : tinyapp_t) (type value : Z) : option tinyapp_t :=
  if (packet_ptr ctx + 2 <=? packet_end ctx)%nat
  then Some (put (put ctx [u8 (Z.lor TINYAPP_LENGTH_1 type)]) [value])
  else None.

Definition tinyapp_serialise16 (ctx : tinyapp_t) (type value : Z) : option tinyapp_t :=
  if (packet_ptr ctx + 3 <=? packet_end ctx)%nat
  then Some (put (put ctx [u8 (Z.lor TINYAPP_LENGTH_2 type)]) (le_bytes 2 value))
  else None.

Definition tinyapp_serialise32 (ctx : tinyapp_t) (type value : Z) : option tinyapp_t :=
  if (packet_ptr ctx + 5 <=? packet_end ctx)%nat
  then Some (put (put ctx [u8 (Z.lor TINYAPP_LENGTH_4 type)]) (le_bytes 4 value))
  else None.

Definition tinyapp_serialise_string (ctx : tinyapp_t) (type : Z) (str : list Z) : option tinyapp_t :=
  if (256 <=? length str)%nat then None else
  if (packet_ptr ctx + 2 + length str <=? packet_end ctx)%nat
  then Some (put (put (put ctx [u8 (Z.lor TINYAPP_LENGTH_VAR type)]) [u8 (Z.of_nat (length str))]) str)
  else None.

Definition tinyapp_size (ctx : tinyapp_t) : nat := packet_ptr ctx.

(** ** Deserialisation *)

(** A call of the item callback; the value is given by its place in the packet. *)
Record item_call := mk_call { c_profile : Z; c_item : Z; c_offset : nat; c_len : Z }.

(** The loop left by its own guard, or was cut off by the fuel. *)
Inductive ending := Done | OutOfFuel.

(** A run of the loop: the callback calls in order, the offsets it read, and
    how it ended. *)
Record run := mk_run { r_calls : list item_call; r_reads : list nat; r_ending : ending }.

(** Memory from the packet's first byte on: the packet, then whatever follows
    it there. *)
Definition memory (buf : list Z) (beyond : nat -> Z) (ofs : nat) : Z :=
  match buf !! ofs with Some b => b | None => beyond ofs end.

(** The item header at [ptr]: the offsets read, then identifier, data length,
    and the pointer and remaining size after it.  [size] is a 64-bit
    [size_t]. *)
Definition item_header (m : nat -> Z) (ptr : nat) (size : Z) : list nat * (Z * Z * nat * Z) :=
  let id := Z.land (m ptr) TINYAPP_ITEM_ID_MASK in
  let type := Z.land (m ptr) TINYAPP_LENGTH_MASK in
  let size := u64 (size - 1) in
  if type =? TINYAPP_LENGTH_1 then ([ptr], (id, 1, S ptr, size))
  else if type =? TINYAPP_LENGTH_2 then ([ptr], (id, 2, S ptr, size))
  else if type =? TINYAPP_LENGTH_4 then ([ptr], (id, 4, S ptr, size))
  else (* Variable length - consume another byte *)
    ([ptr; S ptr], (id, m (S ptr), S (S ptr), u64 (size - 1))).

(** The [while ((int)size > 0)] loop. *)
Fixpoint deserialise_loop (fuel : nat) (m : nat -> Z) (ptr : nat) (size profile : Z) : run :=
  match fuel with
  | O => mk_run [] [] OutOfFuel
  | S fuel =>
      if 0 <? i32 size then
        let '(rd, (id, len, ptr, size)) := item_header m ptr size in
        if id =? TINYAPP_ITEM_ID_PROFILE then
          (* Decode profile selection *)
          let r := deserialise_loop fuel m (ptr + Z.to_nat len) (u64 (size - len)) (m ptr) in
          mk_run (r_calls r) (rd ++ ptr :: r_reads r) (r_ending r)
        else
          (* Everything else gets routed to callback *)
          let r := deserialise_loop fuel m (ptr + Z.to_nat len) (u64 (size - len)) profile in
          mk_run (mk_call profile id ptr len :: r_calls r) (rd ++ r_reads r) (r_ending r)
      else mk_run [] [] Done
  end.

(** The buffer is exactly the [size] bytes passed.  One iteration consumes at
    least one byte, so one unit of fuel per byte and one for the exit suffice. *)
Definition tinyapp_deserialise (buf : list Z) (beyond : nat -> Z) : run :=
  deserialise_loop (S (length buf)) (memory buf beyond) 1 (u64 (Z.of_nat (length buf) - 1)) 0.

(** What a callback that reads its value sees. *)
Definition call_value (buf : list Z) (c : item_call) : Z * Z * list Z :=
  (c_profile c, c_item c, take (Z.to_nat (c_len c)) (drop (c_offset c) buf)).

(** ** Specification: items and their encoding *)

Inductive item :=
| Item8 (id v : Z)
| Item16 (id v : Z)
| Item32 (id v : Z)
| ItemString (id : Z) (str : list Z).

Definition item_id (i : item) : Z :=
  match i with Item8 id _ | Item16 id _ | Item32 id _ | ItemString id _ => id end.

Definition item_data (i : item) : list Z :=
  match i with
  | Item8 _ v => [v]
  | Item16 _ v => le_bytes 2 v
  | Item32 _ v => le_bytes 4 v
  | ItemString _ str => str
  end.

Definition item_head (i : item) : list Z :=
  match i with
  | Item8 id _ => [id]
  | Item16 id _ => [64 + id]
  | Item32 id _ => [128 + id]
  | ItemString id str => [192 + id; Z.of_nat (length str)]
  end.

Definition encode (i : item) : list Z := item_head i ++ item_data i.

Definition item_ok (i : item) : Prop :=
  0 <= item_id i < 64 /\ bytes (item_data i) /\ (length (item_data i) < 256)%nat /\
  (item_id i = TINYAPP_ITEM_ID_PROFILE -> item_data i <> []).

Definition serialise (ctx : tinyapp_t) (i : item) : option tinyapp_t :=
  match i with
  | Item8 id v => tinyapp_serialise8 ctx id v
  | Item16 id v => tinyapp_serialise16 ctx id v
  | Item32 id v => tinyapp_serialise32 ctx id v
  | ItemString id str => tinyapp_serialise_string ctx id str
  end.

Fixpoint serialise_all (ctx : tinyapp_t) (items : list item) : option tinyapp_t :=
  match items with
  | [] => Some ctx
  | i :: items => match serialise ctx i with Some ctx => serialise_all ctx items | None => None end
  end.

(** The values a receiver is to be told: a profile item selects the profile of
    the items after it. *)
Fixpoint meaning (profile : Z) (items : list item) : list (Z * Z * list Z) :=
  match items with
  | [] => []
  | i :: items =>
      if item_id i =? TINYAPP_ITEM_ID_PROFILE then meaning (hd 0 (item_data i)) items
      else (profile, item_id i, item_data i) :: meaning profile items
  end.

(** ** Serialisation writes the encoding *)

Lemma put_put ctx l1 l2 : put (put ctx l1) l2 = put ctx (l1 ++ l2).
Proof.
  unfold put; simpl. rewrite length_app, Nat.add_assoc. f_equal.
  generalize (packet_ptr ctx) as n. revert l2. induction l1 as [|x l1 IH]; intros l2 n; simpl.
  - by rewrite Nat.add_0_r.
  - rewrite list_insert_inserts_lt by lia.
    replace (n + S (length l1))%nat with (S n + length l1)%nat by lia.
    rewrite <- IH. rewrite !list_insert_inserts_lt; [|lia|lia]. done.
Qed.

(** A context between operations. *)
Definition app_wf (ctx : tinyapp_t) : Prop :=
  packet_end ctx = length (a_buf ctx) /\ (packet_ptr ctx <= packet_end ctx)%nat.

(** The packet so far. *)
Definition packet (ctx : tinyapp_t) : list Z := take (tinyapp_size ctx) (a_buf ctx).

(** The outcome of one write of [vs] that fits. *)
Definition wrote (ctx : tinyapp_t) (vs : list Z) (ctx' : tinyapp_t) : Prop :=
  app_wf ctx' /\ packet_end ctx' = packet_end ctx /\ packet ctx' = packet ctx ++ vs /\
  drop (tinyapp_size ctx') (a_buf ctx') = drop (tinyapp_size ctx') (a_buf ctx).

Lemma packet_length ctx : app_wf ctx -> length (packet ctx) = packet_ptr ctx.
Proof. intros [H1 H2]. unfold packet, tinyapp_size. rewrite length_take. lia. Qed.

Lemma put_wrote ctx vs :
  app_wf ctx -> (packet_ptr ctx + length vs <= packet_end ctx)%nat -> wrote ctx vs (put ctx vs).
Proof.
  intros [He Hp] Hl. rewrite He in *. unfold wrote, app_wf, packet, tinyapp_size, put; cbn.
  rewrite length_inserts, inserts_split by done.
  assert (Ht : length (take (packet_ptr ctx) (a_buf ctx)) = packet_ptr ctx)
    by (rewrite length_take; lia).
  split_and!; [done|lia|done|..].
  - rewrite app_assoc. rewrite <- (take_app_length (take (packet_ptr ctx) (a_buf ctx) ++ vs)) at 2.
    by rewrite length_app, Ht.
  - rewrite app_assoc. rewrite <- Ht at 1. rewrite <- length_app. apply drop_app_length.
Qed.

(** The tag byte, and its two fields read back: for all 64 identifiers. *)
Definition tag_checks (id : Z) : bool :=
  forallb (fun k => let b := u8 (Z.lor (Z.shiftl k 6) id) in
    (b =? 64 * k + id) && (Z.land b TINYAPP_ITEM_ID_MASK =? id) &&
    (Z.land b TINYAPP_LENGTH_MASK =? Z.shiftl k 6)) [0; 1; 2; 3].

Lemma tag_byte k id :
  0 <= id < 64 -> k ∈ [0; 1; 2; 3] ->
  let b := u8 (Z.lor (Z.shiftl k 6) id) in
  b = 64 * k + id /\ Z.land b TINYAPP_ITEM_ID_MASK = id /\ Z.land b TINYAPP_LENGTH_MASK = Z.shiftl k 6.
Proof.
  intros Hid Hk. assert (H : forallb tag_checks (map Z.of_nat (seq 0 64)) = true)
    by (vm_compute; reflexivity).
  rewrite forallb_forall in H. assert (Hc : tag_checks id = true).
  { apply H, in_map_iff. exists (Z.to_nat id). split; [lia|]. apply in_seq. lia. }
  unfold tag_checks in Hc. rewrite forallb_forall in Hc. apply list_elem_of_In in Hk.
  apply Hc in Hk. cbv zeta in *. boolify. auto.
Qed.

(** Whether an item still fits. *)
Definition item_fits (ctx : tinyapp_t) (i : item) : Prop :=
  (packet_ptr ctx + length (encode i) <= packet_end ctx)%nat.

Lemma serialise_wrote ctx i :
  app_wf ctx -> item_ok i ->
  match serialise ctx i with
  | Some ctx' => item_fits ctx i /\ wrote ctx (encode i) ctx'
  | None => ~ item_fits ctx i
  end.
Proof.
  intros Hw (Hid & Hb & Hl & _). unfold item_fits.
  destruct i as [id v|id v|id v|id str]; cbn [serialise item_id item_data] in *;
    unfold tinyapp_serialise8, tinyapp_serialise16, tinyapp_serialise32, tinyapp_serialise_string.
  1, 2, 3: match goal with |- context [(?x <=? ?y)%nat] => destruct (Nat.leb_spec x y) end;
      [|cbn; lia].
  - destruct (tag_byte 0 id) as (E & _); [done|by apply list_elem_of_In; simpl; auto|]. unfold TINYAPP_LENGTH_1. rewrite E.
    rewrite put_put. split; [cbn; lia|]. by apply put_wrote.
  - destruct (tag_byte 1 id) as (E & _); [done|by apply list_elem_of_In; simpl; auto|]. unfold TINYAPP_LENGTH_2. rewrite E.
    rewrite put_put. split; [cbn; lia|]. by apply put_wrote.
  - destruct (tag_byte 2 id) as (E & _); [done|by apply list_elem_of_In; simpl; auto|]. unfold TINYAPP_LENGTH_4. rewrite E.
    rewrite put_put. split; [cbn; lia|]. by apply put_wrote.
  - replace (256 <=? length str)%nat with false by (symmetry; apply Nat.leb_gt; lia).
    destruct (Nat.leb_spec (packet_ptr ctx + 2 + length str) (packet_end ctx)) as [Hle|Hgt];
      [|cbn; lia].
    destruct (tag_byte 3 id) as (E & _); [done|by apply list_elem_of_In; simpl; auto|]. unfold TINYAPP_LENGTH_VAR. rewrite E.
    rewrite u8_id by (widths; lia). rewrite !put_put.
    split; [cbn; lia|]. apply put_wrote; [done|]. cbn. lia.
Qed.

Lemma wrote_trans ctx vs ctx1 vs' ctx2 :
  app_wf ctx -> wrote ctx vs ctx1 -> wrote ctx1 vs' ctx2 -> wrote ctx (vs ++ vs') ctx2.
Proof.
  intros W0 (W1 & E1 & P1 & D1) (W2 & E2 & P2 & D2).
  split_and!; [done|congruence|by rewrite P2, P1, app_assoc|].
  apply packet_length in W1 as L1. apply packet_length in W2 as L2.
  rewrite P2, length_app in L2. rewrite D2.
  unfold tinyapp_size in *.
  replace (packet_ptr ctx2) with (packet_ptr ctx1 + length vs')%nat by lia.
  rewrite <- !drop_drop. by rewrite D1.
Qed.

Lemma serialise_all_wrote items ctx ctx' :
  app_wf ctx -> Forall item_ok items -> serialise_all ctx items = Some ctx' ->
  wrote ctx (concat (map encode items)) ctx'.
Proof.
  intros Hw Hi. revert ctx Hw. induction Hi as [|i items Hi _ IH]; intros ctx Hw; cbn [serialise_all].
  - intros [= <-]. split_and!; try done. by rewrite app_nil_r.
  - pose proof (serialise_wrote ctx i Hw Hi) as Hs. destruct (serialise ctx i) as [ctx1|]; [|done].
    intros Hr. destruct Hs as [_ Hs]. apply IH in Hr; [|apply Hs].
    cbn [map concat]. by eapply wrote_trans.
Qed.

Lemma init_wrote flags buf ctx :
  tinyapp_init flags buf = Some ctx ->
  app_wf ctx /\ packet_end ctx = length buf /\ packet ctx = [flags].
Proof.
  unfold tinyapp_init. destruct buf as [|b buf]; [done|]. intros [= <-].
  assert (Hw : app_wf (mk_app (b :: buf) 0 (length (b :: buf)))) by (split; cbn; lia).
  destruct (put_wrote _ [flags] Hw) as (W & E & P & _); [cbn; lia|]. by split_and!.
Qed.

(** ** Deserialisation reads it back *)

Definition small (n : nat) : Prop := Z.of_nat n < 2 ^ 31.

Lemma size_positive n : (0 < n)%nat -> small n -> (0 <? i32 (Z.of_nat n)) = true.
Proof. intros H1 H2. unfold small in H2. rewrite i32_small by lia. apply Z.ltb_lt. lia. Qed.

Lemma encode_length i : length (encode i) = (length (item_head i) + length (item_data i))%nat.
Proof. apply length_app. Qed.

Lemma memory_at buf beyond ofs b : buf !! ofs = Some b -> memory buf beyond ofs = b.
Proof. unfold memory. by intros ->. Qed.

Lemma memory_byte buf beyond ofs :
  bytes buf -> (forall n, 0 <= beyond n < 256) -> 0 <= memory buf beyond ofs < 256.
Proof.
  intros Hb Hy. unfold memory. destruct (buf !! ofs) as [b|] eqn:E; [|apply Hy].
  pose proof (Forall_lookup_1 _ _ _ _ Hb E). widths. lia.
Qed.

Lemma data_lookup (pre d rest : list Z) beyond :
  d <> [] -> memory (pre ++ d ++ rest) beyond (length pre) = hd 0 d.
Proof.
  destruct d as [|x d]; [done|]. intros _. apply memory_at. cbn [app]. by rewrite list_lookup_middle.
Qed.

Lemma data_value (pre d rest : list Z) : take (length d) (drop (length pre) (pre ++ d ++ rest)) = d.
Proof. by rewrite drop_app_length, take_app_length. Qed.

(** The header of an encoded item is read from its own bytes. *)
Lemma item_header_encode i pre rest beyond :
  item_ok i -> small (length (encode i ++ rest)) ->
  item_header (memory (pre ++ encode i ++ rest) beyond) (length pre)
    (Z.of_nat (length (encode i ++ rest))) =
  (seq (length pre) (length (item_head i)),
   (item_id i, Z.of_nat (length (item_data i)), (length pre + length (item_head i))%nat,
    Z.of_nat (length (item_data i) + length rest))).
Proof.
  intros (Hid & Hb & Hl & _) Hs. rewrite length_app, encode_length in *. unfold small in Hs.
  assert (Hsub : forall n : nat, (n = length (item_head i) + length (item_data i) + length rest)%nat ->
            u64 (Z.of_nat n - 1) = Z.of_nat (n - 1)).
  { intros n ->. rewrite u64_id; [|widths]; destruct i; cbn in *; lia. }
  unfold item_header, encode. rewrite Hsub by done. clear Hsub.
  destruct i as [id v|id v|id v|id str]; cbn [item_id item_head item_data] in *; cbn [app];
    erewrite (memory_at _ _ (length pre)) by (by apply list_lookup_middle).
  1: destruct (tag_byte 0 id) as (E & E1 & E2); [done|by apply list_elem_of_In; simpl; auto|].
  2: destruct (tag_byte 1 id) as (E & E1 & E2); [done|by apply list_elem_of_In; simpl; auto|].
  3: destruct (tag_byte 2 id) as (E & E1 & E2); [done|by apply list_elem_of_In; simpl; auto|].
  4: destruct (tag_byte 3 id) as (E & E1 & E2); [done|by apply list_elem_of_In; simpl; auto|].
  all: rewrite E in *; cbn [Z.mul] in E1, E2; cbv zeta.
  1: change (64 * 0 + id) with id in *.
  2: change (64 * 1 + id) with (64 + id) in *.
  3: change (64 * 2 + id) with (128 + id) in *.
  4: change (64 * 3 + id) with (192 + id) in *.
  all: rewrite E1, E2.
  all: repeat match goal with
         | |- context [Z.shiftl ?k 6 =? ?c] =>
             let v := eval vm_compute in (Z.shiftl k 6 =? c) in
             change (Z.shiftl k 6 =? c) with v
         end; cbv iota.
  1, 2, 3: cbn; rewrite !pair_equal_spec; split_and!; done || lia.
  rewrite (cons_middle (192 + id)), app_assoc.
  erewrite (memory_at _ _ (S (length pre)))
    by (apply list_lookup_middle; rewrite length_app; cbn; lia).
  rewrite u64_id by (widths; cbn in *; lia). cbn.
  rewrite !pair_equal_spec; split_and!; done || lia.
Qed.

(** The offsets below a bound. *)
Definition below (n : nat) (reads : list nat) : Prop := Forall (fun ofs => (ofs < n)%nat) reads.

Lemma below_seq a k n : (a + k <= n)%nat -> below n (seq a k).
Proof. intros H. apply Forall_forall. intros x Hx. apply in_seq in Hx. lia. Qed.

(** The whole loop on a sequence of encoded items. *)
Lemma loop_meaning beyond items : forall fuel pre profile,
  Forall item_ok items -> (length items < fuel)%nat ->
  small (length (concat (map encode items))) ->
  let buf := pre ++ concat (map encode items) in
  let r := deserialise_loop fuel (memory buf beyond) (length pre)
             (Z.of_nat (length (concat (map encode items)))) profile in
  r_ending r = Done /\ below (length buf) (r_reads r) /\
  map (call_value buf) (r_calls r) = meaning profile items.
Proof.
  cbv zeta. induction items as [|i items IH]; intros [|fuel] pre profile Hi Hf Hs; try (cbn in Hf; lia).
  { split_and!; [done|constructor|done]. }
  inversion Hi as [|? ? Hi0 His]; subst; clear Hi; rename Hi0 into Hi. cbn [map concat meaning] in *.
  set (rest := concat (map encode items)) in *.
  assert (Hs' : small (length rest)) by (unfold small in *; rewrite length_app in Hs; lia).
  assert (Hpos : (0 < length (encode i ++ rest))%nat)
    by (rewrite length_app, encode_length; destruct i; cbn; lia).
  destruct (IH fuel (pre ++ encode i) (if item_id i =? TINYAPP_ITEM_ID_PROFILE
              then hd 0 (item_data i) else profile) His) as (Hend & Hrd & Hval);
    [cbn in Hf; lia|done|].
  rewrite <- app_assoc in Hend, Hrd, Hval.
  assert (Hptr : length (pre ++ encode i) =
                 (length pre + length (item_head i) + length (item_data i))%nat)
    by (rewrite length_app, encode_length; lia).
  rewrite Hptr in Hend, Hrd, Hval.
  cbn [deserialise_loop]. rewrite size_positive, item_header_encode by done.
  rewrite Nat2Z.id.
  replace (u64 (Z.of_nat (length (item_data i) + length rest) - Z.of_nat (length (item_data i))))
    with (Z.of_nat (length rest)).
  2: { unfold small in *. rewrite u64_id; [lia|]. widths; lia. }
  assert (Hd : (length pre + length (item_head i) + length (item_data i) <=
                length (pre ++ encode i ++ rest))%nat)
    by (rewrite app_assoc, length_app, Hptr; lia).
  assert (Hhd : below (length (pre ++ encode i ++ rest)) (seq (length pre) (length (item_head i))))
    by (apply below_seq; lia).
  destruct (Z.eqb_spec (item_id i) TINYAPP_ITEM_ID_PROFILE) as [Hp|Hp].
  - assert (Hne : item_data i <> []) by (by apply Hi).
    assert (Hlk : memory (pre ++ encode i ++ rest) beyond (length pre + length (item_head i)) =
                  hd 0 (item_data i)).
    { unfold encode. by rewrite <- length_app, <- (app_assoc (item_head i)), app_assoc, data_lookup. }
    rewrite Hlk. cbn [r_calls r_reads r_ending]. split_and!; [done| |done].
    apply Forall_app. split; [done|]. constructor; [|done].
    destruct (item_data i); cbn in *; [done|lia].
  - cbn [r_calls r_reads r_ending map]. split_and!; [done| |].
    { apply Forall_app. by split. }
    rewrite Hval. f_equal.
    unfold call_value; cbn [c_profile c_item c_len c_offset]. f_equal. rewrite Nat2Z.id.
    unfold encode. rewrite <- length_app, <- (app_assoc (item_head i)), app_assoc. apply data_value.
Qed.

(** ** The loop on arbitrary packets *)

Lemma i32_u64 z : i32 (u64 z) = i32 z.
Proof.
  rewrite <- (i32_u32 (u64 z)), <- (i32_u32 z). f_equal. unfold u32, u64.
  replace (2 ^ 64) with (2 ^ 32 * 2 ^ 32) by lia.
  rewrite Z.rem_mul_r by lia. rewrite Z.mul_comm, Z_mod_plus_full. apply Z.mod_mod. lia.
Qed.

Lemma u64_sub z k : u64 (u64 z - k) = u64 (z - k).
Proof. unfold u64. apply Zminus_mod_idemp_l. Qed.

(** The remaining size is always the distance to the end, wrapped once the
    pointer has passed it. *)
Lemma item_header_shape m ptr rd id len ptr' size' n :
  (forall ofs, 0 <= m ofs < 256) ->
  item_header m ptr (u64 (Z.of_nat n - Z.of_nat ptr)) = (rd, (id, len, ptr', size')) ->
  (ptr < ptr' <= S (S ptr))%nat /\ below ptr' rd /\ 0 <= len < 256 /\ 0 <= id < 64 /\
  size' = u64 (Z.of_nat n - Z.of_nat ptr').
Proof.
  intros Hm. unfold item_header. cbv zeta.
  assert (Hid : 0 <= Z.land (m ptr) TINYAPP_ITEM_ID_MASK < 64).
  { change TINYAPP_ITEM_ID_MASK with (Z.ones 6). rewrite Z.land_ones by lia.
    by apply Z.mod_pos_bound. }
  pose proof (Hm (S ptr)).
  rewrite !u64_sub.
  destruct (_ =? TINYAPP_LENGTH_1); [|destruct (_ =? TINYAPP_LENGTH_2); [|destruct (_ =? TINYAPP_LENGTH_4)]].
  all: intros [= <- <- <- <- <-]; split_and!; try lia; [repeat constructor; lia|f_equal; lia].
Qed.

(** A call for a proper item, whose value starts at most one byte past a
    packet of [n] bytes. *)
Definition call_bounded (n : nat) (c : item_call) : Prop :=
  0 <= c_item c < TINYAPP_ITEM_ID_PROFILE /\ 0 <= c_len c < 256 /\ (c_offset c <= S n)%nat.

Lemma loop_total m n : (forall ofs, 0 <= m ofs < 256) -> small n ->
  forall fuel ptr profile, (ptr <= n + 257)%nat -> (n < fuel + ptr)%nat -> (0 < fuel)%nat ->
  let r := deserialise_loop fuel m ptr (u64 (Z.of_nat n - Z.of_nat ptr)) profile in
  r_ending r = Done /\ below (n + 2) (r_reads r) /\ Forall (call_bounded n) (r_calls r).
Proof.
  intros Hm Hs. unfold small in Hs. cbv zeta.
  induction fuel as [|fuel IH]; intros ptr profile Hp Hf H0; [lia|]. cbn [deserialise_loop].
  rewrite i32_u64, i32_small by lia.
  destruct (Z.ltb_spec 0 (Z.of_nat n - Z.of_nat ptr)); [|split_and!; done || constructor].
  destruct (item_header _ _ _) as [rd [[[id len] ptr'] size']] eqn:Eh.
  apply item_header_shape in Eh as (Hptr & Hrd & Hlen & Hid & ->); [|done].
  rewrite u64_sub. replace (Z.of_nat n - Z.of_nat ptr' - len) with
    (Z.of_nat n - Z.of_nat (ptr' + Z.to_nat len)) by lia.
  assert (Hrd' : below (n + 2) rd) by (eapply Forall_impl; [|exact Hrd]; cbn; lia).
  destruct (Z.eqb_spec id TINYAPP_ITEM_ID_PROFILE) as [|Hne].
  - destruct (IH (ptr' + Z.to_nat len)%nat (m ptr')) as (He & Hr & Hc); [lia..|].
    cbn [r_calls r_reads r_ending]. split_and!; [done| |done].
    apply Forall_app. split; [done|]. constructor; [lia|done].
  - destruct (IH (ptr' + Z.to_nat len)%nat profile) as (He & Hr & Hc); [lia..|].
    cbn [r_calls r_reads r_ending]. split_and!; [done|by apply Forall_app|].
    constructor; [|done]. unfold call_bounded, TINYAPP_ITEM_ID_PROFILE in *. cbn. lia.
Qed.

(** ** Theorems *)

(** C26: what was serialised is what a receiver is told: for every sequence of
    items that fits the buffer, and whatever bytes follow the packet in memory,
    deserialising the packet leaves its loop, reads nothing outside the packet
    and calls the item callback once per item, in order, with the profile
    selected last, the item's identifier and exactly its data. *)
Theorem serialise_deserialise flags buf ctx ctx' items beyond :
  tinyapp_init flags buf = Some ctx -> Forall item_ok items ->
  serialise_all ctx items = Some ctx' -> small (length buf) ->
  let r := tinyapp_deserialise (packet ctx') beyond in
  r_ending r = Done /\ Forall (fun ofs => (ofs < length (packet ctx'))%nat) (r_reads r) /\
  map (call_value (packet ctx')) (r_calls r) = meaning 0 items.
Proof.
  intros Hinit Hi Hs Hl. apply init_wrote in Hinit as (Hw & He & Hp).
  apply serialise_all_wrote in Hs as (Hw' & He' & Hp' & _); [|done|done].
  cbv zeta. unfold tinyapp_deserialise.
  assert (Hlen : (length (packet ctx') <= length buf)%nat).
  { rewrite packet_length by done. destruct Hw' as [_ Hle]. lia. }
  rewrite Hp', Hp in *. rewrite length_app in Hlen. cbn [length] in Hlen. unfold small in Hl.
  assert (Hcount : (length items <= length (concat (map encode items)))%nat).
  { clear. induction items as [|i items IH]; cbn [map concat length]; [lia|].
    rewrite length_app, encode_length. destruct i; cbn; lia. }
  pose proof (loop_meaning beyond items (S (length ([flags] ++ concat (map encode items)))) [flags] 0 Hi)
    as H. cbv zeta in H.
  replace (u64 (Z.of_nat (length ([flags] ++ concat (map encode items))) - 1))
    with (Z.of_nat (length (concat (map encode items))))
    by (rewrite length_app; cbn [length]; rewrite u64_id by (widths; lia); lia).
  apply H; [rewrite length_app; cbn; lia|unfold small; lia].
Qed.

(** Serialisation never writes outside the buffer: an item is refused
    exactly when its encoding does not fit in what is left; otherwise exactly
    the encoding is appended to the packet, and nothing else of the buffer
    changes. *)
Theorem serialise_bounded ctx i :
  app_wf ctx -> item_ok i ->
  (serialise ctx i = None <-> ~ item_fits ctx i) /\
  (forall ctx', serialise ctx i = Some ctx' ->
     app_wf ctx' /\ packet ctx' = packet ctx ++ encode i /\
     drop (tinyapp_size ctx') (a_buf ctx') = drop (tinyapp_size ctx') (a_buf ctx)).
Proof.
  intros Hw Hi. pose proof (serialise_wrote ctx i Hw Hi) as H. split.
  - destruct (serialise ctx i); [|done]. split; [done|]. destruct H as [H _]. tauto.
  - intros ctx' E. rewrite E in H. destruct H as (_ & H1 & _ & H2 & H3). auto.
Qed.

(** C37: deserialisation of any received packet (of less than 2^31 bytes) ends:
    whatever the packet holds and whatever bytes follow it in memory, the loop leaves by its
    own guard, after at most one iteration per byte of the packet.  On the way
    it reads at most two bytes past the packet's end, and every callback is for
    a proper item identifier, a length below 256, and a value that starts at
    most one byte past the packet. *)
Theorem deserialise_terminates buf beyond :
  bytes buf -> small (length buf) -> (forall ofs, 0 <= beyond ofs < 256) ->
  let r := tinyapp_deserialise buf beyond in
  r_ending r = Done /\ Forall (fun ofs => (ofs < length buf + 2)%nat) (r_reads r) /\
  Forall (fun c => 0 <= c_item c < TINYAPP_ITEM_ID_PROFILE /\ 0 <= c_len c < 256 /\
                   (c_offset c <= S (length buf))%nat) (r_calls r).
Proof.
  intros Hb Hs Hy. apply (loop_total (memory buf beyond) (length buf)); [|done|lia..].
  intros ofs. by apply memory_byte.
Qed.

(** A truncated packet makes the deserialiser report a value that is not in
    the packet (a 16-bit item of which no byte was received); of a
    variable-length item it reads the length byte past the end, and reports a
    value of whatever length it finds there. *)
Lemma truncated_item_overruns beyond :
  tinyapp_deserialise [0; 0x41] beyond = mk_run [mk_call 0 1 2 2] [1%nat] Done /\
  tinyapp_deserialise [0; 0xC1] (fun _ => 200) = mk_run [mk_call 0 1 3 200] [1; 2]%nat Done.
Proof. split; reflexivity. Qed.

(** ** Profiles and item names (coordinator build) *)

Inductive tinyapp_type_t :=
| tinyappType_Unsigned | tinyappType_Signed | tinyappType_SingleFloat | tinyappType_DoubleFloat
| tinyappType_String | tinyappType_Binary.

Inductive tinyapp_profile_t :=
| tinyappProfile_NodeStatus | tinyappProfile_NodeInfo | tinyappProfile_Generic
| tinyappProfile_Environmental | tinyappProfile_HVAC | tinyappProfile_Energy | tinyappProfile_HA.

Inductive tinyapp_profile_hvac_t :=
| tinyappHVAC_RoomTemperature | tinyappHVAC_TargetTemperature | tinyappHVAC_HeatingDemand
| tinyappHVAC_CoolingDemand | tinyappHVAC_FanSpeed | tinyappHVAC_FlowTemperature
| tinyappHVAC_ReturnTemperature | tinyappHVAC_BurnerPower.

(** Enumerators have the values of their declaration order. *)
Definition profile_code (p : tinyapp_profile_t) : Z :=
  match p with
  | tinyappProfile_NodeStatus => 0 | tinyappProfile_NodeInfo => 1 | tinyappProfile_Generic => 2
  | tinyappProfile_Environmental => 3 | tinyappProfile_HVAC => 4 | tinyappProfile_Energy => 5
  | tinyappProfile_HA => 6
  end.

Definition hvac_code (i : tinyapp_profile_hvac_t) : Z :=
  match i with
  | tinyappHVAC_RoomTemperature => 0 | tinyappHVAC_TargetTemperature => 1
  | tinyappHVAC_HeatingDemand => 2 | tinyappHVAC_CoolingDemand => 3 | tinyappHVAC_FanSpeed => 4
  | tinyappHVAC_FlowTemperature => 5 | tinyappHVAC_ReturnTemperature => 6
  | tinyappHVAC_BurnerPower => 7
  end.

Record tinyapp_item_info_t := mk_info { tag : String.string; i_type : tinyapp_type_t }.

Open Scope string_scope.

(** The tables, without their [{ NULL }] terminators. *)
Definition tinyapp_item_info_status : list tinyapp_item_info_t :=
  [mk_info "battery" tinyappType_Unsigned; mk_info "runtime" tinyappType_Unsigned;
   mk_info "coord_rssi" tinyappType_Signed].

Definition tinyapp_item_info_devinfo : list tinyapp_item_info_t :=
  [mk_info "type" tinyappType_Unsigned; mk_info "name" tinyappType_String;
   mk_info "update_rate" tinyappType_Unsigned].

Definition tinyapp_item_info_generic : list tinyapp_item_info_t :=
  [mk_info "ana0" tinyappType_Signed; mk_info "ana1" tinyappType_Signed;
   mk_info "ana2" tinyappType_Signed; mk_info "ana3" tinyappType_Signed;
   mk_info "ana4" tinyappType_Signed; mk_info "ana5" tinyappType_Signed;
   mk_info "ana6" tinyappType_Signed; mk_info "ana7" tinyappType_Signed;
   mk_info "digin" tinyappType_Unsigned; mk_info "digout" tinyappType_Unsigned;
   mk_info "floattest" tinyappType_SingleFloat; mk_info "doubletest" tinyappType_DoubleFloat].

Definition tinyapp_item_info_env : list tinyapp_item_info_t :=
  [mk_info "temperature" tinyappType_Signed; mk_info "rh" tinyappType_Unsigned;
   mk_info "visible_lux" tinyappType_Unsigned; mk_info "uv_lux" tinyappType_Unsigned;
   mk_info "ir_lux" tinyappType_Unsigned; mk_info "ph" tinyappType_Signed;
   mk_info "level" tinyappType_Signed; mk_info "wind_speed_avg" tinyappType_Unsigned;
   mk_info "wind_speed_gust" tinyappType_Unsigned; mk_info "wind_direction" tinyappType_Unsigned;
   mk_info "rainfall" tinyappType_Unsigned; mk_info "pressure" tinyappType_Signed;
   mk_info "spl_rms" tinyappType_Signed; mk_info "spl_peak" tinyappType_Signed].

Definition tinyapp_item_info_hvac : list tinyapp_item_info_t :=
  [mk_info "temperature" tinyappType_Signed; mk_info "target" tinyappType_Signed;
   mk_info "heat_demand" tinyappType_Unsigned; mk_info "cool_demand" tinyappType_Unsigned;
   mk_info "flow_temp" tinyappType_Signed; mk_info "return_temp" tinyappType_Signed;
   mk_info "fan_speed" tinyappType_Unsigned; mk_info "burner_power" tinyappType_Unsigned].

Definition tinyapp_item_info_energy : list tinyapp_item_info_t := [].
Definition tinyapp_item_info_ha : list tinyapp_item_info_t := [].

Definition tinyapp_profile_tags : list String.string :=
  ["status"; "info"; "generic"; "env"; "hvac"; "energy"; "ha"].

Definition tinyapp_nodetype_str : list String.string :=
  ["Generic"; "Generic Sensor"; "Generic Actuator"; "Environmental Sensor"; "Heating Control";
   "Lighting Control"; "Energy Monitoring"; "Occupancy Detector"; "Switch"].

Definition tinyapp_profile_items : list (list tinyapp_item_info_t) :=
  [tinyapp_item_info_status; tinyapp_item_info_devinfo; tinyapp_item_info_generic;
   tinyapp_item_info_env; tinyapp_item_info_hvac; tinyapp_item_info_energy; tinyapp_item_info_ha].

Close Scope string_scope.

(** [strcasecmp(a, b) == 0] in the C locale. *)
Definition lower (c : Ascii.ascii) : Ascii.ascii :=
  let n := Ascii.nat_of_ascii c in
  if (65 <=? n)%nat && (n <=? 90)%nat then Ascii.ascii_of_nat (n + 32) else c.

Fixpoint strcaseeq (a b : String.string) : bool :=
  match a, b with
  | String.EmptyString, String.EmptyString => true
  | String.String x a, String.String y b => Ascii.eqb (lower x) (lower y) && strcaseeq a b
  | _, _ => false
  end.

(** The search loops: the index of the first match, or [-1]. *)
Fixpoint search {A} (name : A -> String.string) (key : String.string) (n : Z) (l : list A) : Z :=
  match l with
  | [] => -1
  | x :: l => if strcaseeq key (name x) then n else search name key (n + 1) l
  end.

Definition tinyapp_get_profile_id (key : String.string) : Z :=
  search (fun t => t) key 0 tinyapp_profile_tags.

Definition tinyapp_get_profile_tag (profile : Z) : option String.string :=
  if profile <? Z.of_nat (length tinyapp_profile_tags)
  then tinyapp_profile_tags !! Z.to_nat profile else None.

Definition tinyapp_get_item_id (profile : Z) (key : String.string) : Z :=
  if profile <? Z.of_nat (length tinyapp_profile_tags)
  then search tag key 0 (nth (Z.to_nat profile) tinyapp_profile_items []) else -1.

(** The result is a pointer: a table and an index into it, not checked. *)
Definition tinyapp_get_item_info (profile item : Z) : option (list tinyapp_item_info_t * nat) :=
  if profile <? Z.of_nat (length tinyapp_profile_items)
  then Some (nth (Z.to_nat profile) tinyapp_profile_items [], Z.to_nat item) else None.

Definition deref (p : list tinyapp_item_info_t * nat) : option tinyapp_item_info_t := p.1 !! p.2.

(** ** Name tables *)

Lemma search_range {A} (name : A -> String.string) key l : forall n,
  search name key n l = -1 \/
  (n <= search name key n l < n + Z.of_nat (length l) /\
   exists x, l !! Z.to_nat (search name key n l - n) = Some x /\ strcaseeq key (name x) = true).
Proof.
  induction l as [|x l IH]; intros n; cbn [search]; [by left|].
  destruct (strcaseeq key (name x)) eqn:E.
  - right. split; [cbn; lia|]. rewrite Z.sub_diag. by exists x.
  - destruct (IH (n + 1)) as [->|(Hr & y & Hy & Hc)]; [by left|]. right. split; [cbn; lia|].
    exists y. split; [|done].
    replace (Z.to_nat (search name key (n + 1) l - n)) with
      (S (Z.to_nat (search name key (n + 1) l - (n + 1)))) by lia. done.
Qed.

(** Name and number of a profile or of an item of a profile correspond: the
    identifier found for a name is that of an entry with this name (case
    aside), and the name at every position of every table is found at that
    position. *)
Theorem name_tables_roundtrip :
  (forall key, tinyapp_get_profile_id key = -1 \/
     exists t, tinyapp_get_profile_tag (tinyapp_get_profile_id key) = Some t /\ strcaseeq key t = true) /\
  (forall profile, 0 <= profile < 7 -> exists t, tinyapp_get_profile_tag profile = Some t /\
     tinyapp_get_profile_id t = profile) /\
  (forall profile item info ptr, 0 <= profile -> 0 <= item ->
     tinyapp_get_item_info profile item = Some ptr -> deref ptr = Some info ->
     tinyapp_get_item_id profile (tag info) = item).
Proof.
  split_and!.
  - intros key. unfold tinyapp_get_profile_id, tinyapp_get_profile_tag.
    destruct (search_range (fun t => t) key tinyapp_profile_tags 0) as [->|(Hr & t & Ht & Hc)]; [by left|].
    right. exists t. rewrite Z.sub_0_r in Ht. split; [|done].
    replace (_ <? _) with true by (symmetry; apply Z.ltb_lt; lia). done.
  - intros profile Hp. assert (profile = 0 \/ profile = 1 \/ profile = 2 \/ profile = 3 \/
      profile = 4 \/ profile = 5 \/ profile = 6) by lia.
    repeat (destruct H as [->|H]; [by eexists|]). subst. by eexists.
  - intros profile item info ptr Hp Hi. unfold tinyapp_get_item_info, tinyapp_get_item_id.
    destruct (Z.ltb_spec profile (Z.of_nat (length tinyapp_profile_items))) as [Hlt|]; [|done].
    intros Eptr. apply (inj Some) in Eptr. subst ptr. unfold deref. cbn [fst snd]. intros Hd.
    replace (_ <? _) with true by (symmetry; by apply Z.ltb_lt).
    assert (Hall : forallb (fun t => forallb (fun k => match t !! k with
              | Some x => search tag (tag x) 0 t =? Z.of_nat k | None => true end)
              (seq 0 (length t))) tinyapp_profile_items = true) by (vm_compute; reflexivity).
    set (t := nth _ _ _) in *. rewrite forallb_forall in Hall.
    assert (Hin : In t tinyapp_profile_items) by (apply nth_In; lia).
    apply Hall in Hin. rewrite forallb_forall in Hin.
    specialize (Hin (Z.to_nat item)). rewrite Hd in Hin. apply lookup_lt_Some in Hd.
    rewrite Z.eqb_eq in Hin. rewrite Hin; [lia|]. apply in_seq. lia.
Qed.

Open Scope string_scope.

(** The HVAC item table is not in the order of its enumeration: the fan
    speed is published under the name of the flow temperature, the flow
    temperature under that of the return temperature, and the return
    temperature under that of the fan speed. *)
Lemma hvac_names_permuted :
  let name i := tag <$> (tinyapp_get_item_info (profile_code tinyappProfile_HVAC) (hvac_code i) ≫= deref) in
  name tinyappHVAC_FanSpeed = Some "flow_temp" /\
  name tinyappHVAC_FlowTemperature = Some "return_temp" /\
  name tinyappHVAC_ReturnTemperature = Some "fan_speed".
Proof. by vm_compute. Qed.

Close Scope string_scope.

(** ** Instances *)

Definition ex_items : list item :=
  [Item16 0 3300; Item8 TINYAPP_ITEM_ID_PROFILE 3; Item16 0 2150; ItemString 1 [72; 105]].

Definition ex_start : tinyapp_t := put (mk_app (replicate 32 0) 0 32) [0].
Definition ex_done : tinyapp_t :=
  match serialise_all ex_start ex_items with Some ctx => ctx | None => ex_start end.

Lemma ex_items_ok : Forall item_ok ex_items.
Proof.
  repeat constructor; try (vm_compute; congruence); try (cbn; lia);
    try (intros _; vm_compute; congruence).
Qed.

Lemma serialise_deserialise_witness :
  let r := tinyapp_deserialise (packet ex_done) (fun _ => 0xFF) in
  r_ending r = Done /\ Forall (fun ofs => (ofs < length (packet ex_done))%nat) (r_reads r) /\
  map (call_value (packet ex_done)) (r_calls r) = meaning 0 ex_items.
Proof.
  refine (serialise_deserialise 0 (replicate 32 0) ex_start ex_done ex_items (fun _ => 0xFF) _ _ _ _).
  - reflexivity.
  - apply ex_items_ok.
  - vm_compute. reflexivity.
  - vm_compute. reflexivity.
Defined.

Lemma serialise_bounded_witness :
  serialise (mk_app (replicate 4 0) 1 4) (Item32 0 5) = None.
Proof.
  refine (proj2 (proj1 (serialise_bounded (mk_app (replicate 4 0) 1 4) (Item32 0 5) _ _)) _).
  - split; cbn; lia.
  - repeat constructor; try (vm_compute; congruence); cbn; lia.
  - vm_compute. lia.
Defined.

(** A packet that ends in the tag of a variable-length item. *)
Lemma deserialise_terminates_witness :
  r_ending (tinyapp_deserialise [0; 0x41; 7; 7; 0xC3] (fun _ => 0xFF)) = Done.
Proof.
  refine (proj1 (deserialise_terminates [0; 0x41; 7; 7; 0xC3] (fun _ => 0xFF) _ _ _)).
  - repeat constructor; vm_compute; congruence.
  - vm_compute. reflexivity.
  - intros ofs. cbv beta. lia.
Defined.
