(* ===== verification/AppNames.v ===== *)
(** * Application enumerations and their names ([lib/tinyapp.h], [lib/tinyapp.c])

    The node types and the items of the status, device information, generic and
    environmental profiles, and their names in the tables of [TinyApp.v], which
    "must be in the same order". *)

From stdpp Require Import base list numbers strings.
From Stdlib Require Import ZArith Lia.
From S2P Require Import Prelude Wire TinyApp.

(** ** Enumerations

    Enumerators have the values of their declaration order. *)

Inductive tinyapp_nodetype_t : Set :=
| tinyappNodeType_Generic
| tinyappNodeType_GenericSensor
| tinyappNodeType_GenericActuator
| tinyappNodeType_Environmental
| tinyappNodeType_Heating
| tinyappNodeType_Lighting
| tinyappNodeType_Energy
| tinyappNodeType_Occupancy
| tinyappNodeType_Switch.

#[export] Instance nodetype_eq_dec : EqDecision tinyapp_nodetype_t.
Proof. solve_decision. Defined.

Definition nodetype_items : list tinyapp_nodetype_t :=
  [tinyappNodeType_Generic; tinyappNodeType_GenericSensor; tinyappNodeType_GenericActuator;
   tinyappNodeType_Environmental; tinyappNodeType_Heating; tinyappNodeType_Lighting;
   tinyappNodeType_Energy; tinyappNodeType_Occupancy; tinyappNodeType_Switch].

Definition nodetype_code (i : tinyapp_nodetype_t) : Z := Z.of_nat (index_of i nodetype_items).

Inductive tinyapp_profile_status_t : Set :=
| tinyappNodeStatus_Battery
| tinyappNodeStatus_Runtime
| tinyappNodeStatus_CoordRSSI.

#[export] Instance nodestatus_eq_dec : EqDecision tinyapp_profile_status_t.
Proof. solve_decision. Defined.

Definition nodestatus_items : list tinyapp_profile_status_t :=
  [tinyappNodeStatus_Battery; tinyappNodeStatus_Runtime; tinyappNodeStatus_CoordRSSI].

Definition nodestatus_code (i : tinyapp_profile_status_t) : Z := Z.of_nat (index_of i nodestatus_items).

Inductive tinyapp_profile_devinfo_t : Set :=
| tinyappNodeInfo_Type
| tinyappNodeInfo_Name
| tinyappNodeInfo_UpdateRate.

#[export] Instance devinfo_eq_dec : EqDecision tinyapp_profile_devinfo_t.
Proof. solve_decision. Defined.

Definition devinfo_items : list tinyapp_profile_devinfo_t :=
  [tinyappNodeInfo_Type; tinyappNodeInfo_Name; tinyappNodeInfo_UpdateRate].

Definition devinfo_code (i : tinyapp_profile_devinfo_t) : Z := Z.of_nat (index_of i devinfo_items).

Inductive tinyapp_profile_generic_t : Set :=
| tinyappGeneric_Analogue0
| tinyappGeneric_Analogue1
| tinyappGeneric_Analogue2
| tinyappGeneric_Analogue3
| tinyappGeneric_Analogue4
| tinyappGeneric_Analogue5
| tinyappGeneric_Analogue6
| tinyappGeneric_Analogue7
| tinyappGeneric_DigitalIn
| tinyappGeneric_DigitalOut
| tinyappGeneric_FloatTest
| tinyappGeneric_DoubleTest.

#[export] Instance generic_eq_dec : EqDecision tinyapp_profile_generic_t.
Proof. solve_decision. Defined.

Definition generic_items : list tinyapp_profile_generic_t :=
  [tinyappGeneric_Analogue0; tinyappGeneric_Analogue1; tinyappGeneric_Analogue2;
   tinyappGeneric_Analogue3; tinyappGeneric_Analogue4; tinyappGeneric_Analogue5;
   tinyappGeneric_Analogue6; tinyappGeneric_Analogue7; tinyappGeneric_DigitalIn;
   tinyappGeneric_DigitalOut; tinyappGeneric_FloatTest; tinyappGeneric_DoubleTest].

Definition generic_code (i : tinyapp_profile_generic_t) : Z := Z.of_nat (index_of i generic_items).

Inductive tinyapp_profile_environmental_t : Set :=
| tinyappEnvironmental_Temperature
| tinyappEnvironmental_RelativeHumidity
| tinyappEnvironmental_IlluminanceVisible
| tinyappEnvironmental_IlluminanceUV
| tinyappEnvironmental_IlluminanceIR
| tinyappEnvironmental_pH
| tinyappEnvironmental_FluidLevel
| tinyappEnvironmental_WindSpeedAverage
| tinyappEnvironmental_WindSpeedGust
| tinyappEnvironmental_WindDirection
| tinyappEnvironmental_Rainfall
| tinyappEnvironmental_AtmosphericPressure
| tinyappEnvironmental_SPLRMS
| tinyappEnvironmental_SPLPeak.

#[export] Instance environmental_eq_dec : EqDecision tinyapp_profile_environmental_t.
Proof. solve_decision. Defined.

Definition environmental_items : list tinyapp_profile_environmental_t :=
  [tinyappEnvironmental_Temperature; tinyappEnvironmental_RelativeHumidity;
   tinyappEnvironmental_IlluminanceVisible; tinyappEnvironmental_IlluminanceUV;
   tinyappEnvironmental_IlluminanceIR; tinyappEnvironmental_pH; tinyappEnvironmental_FluidLevel;
   tinyappEnvironmental_WindSpeedAverage; tinyappEnvironmental_WindSpeedGust;
   tinyappEnvironmental_WindDirection; tinyappEnvironmental_Rainfall;
   tinyappEnvironmental_AtmosphericPressure; tinyappEnvironmental_SPLRMS;
   tinyappEnvironmental_SPLPeak].

Definition environmental_code (i : tinyapp_profile_environmental_t) : Z := Z.of_nat (index_of i environmental_items).

(** ** Names *)

#[local] Open Scope string_scope.

Definition nodestatus_name (i : tinyapp_profile_status_t) : String.string :=
  match i with
  | tinyappNodeStatus_Battery => "battery"
  | tinyappNodeStatus_Runtime => "runtime"
  | tinyappNodeStatus_CoordRSSI => "coord_rssi"
  end.

Definition devinfo_name (i : tinyapp_profile_devinfo_t) : String.string :=
  match i with
  | tinyappNodeInfo_Type => "type"
  | tinyappNodeInfo_Name => "name"
  | tinyappNodeInfo_UpdateRate => "update_rate"
  end.

Definition generic_name (i : tinyapp_profile_generic_t) : String.string :=
  match i with
  | tinyappGeneric_Analogue0 => "ana0" | tinyappGeneric_Analogue1 => "ana1"
  | tinyappGeneric_Analogue2 => "ana2" | tinyappGeneric_Analogue3 => "ana3"
  | tinyappGeneric_Analogue4 => "ana4" | tinyappGeneric_Analogue5 => "ana5"
  | tinyappGeneric_Analogue6 => "ana6" | tinyappGeneric_Analogue7 => "ana7"
  | tinyappGeneric_DigitalIn => "digin" | tinyappGeneric_DigitalOut => "digout"
  | tinyappGeneric_FloatTest => "floattest" | tinyappGeneric_DoubleTest => "doubletest"
  end.

Definition environmental_name (i : tinyapp_profile_environmental_t) : String.string :=
  match i with
  | tinyappEnvironmental_Temperature => "temperature"
  | tinyappEnvironmental_RelativeHumidity => "rh"
  | tinyappEnvironmental_IlluminanceVisible => "visible_lux"
  | tinyappEnvironmental_IlluminanceUV => "uv_lux"
  | tinyappEnvironmental_IlluminanceIR => "ir_lux"
  | tinyappEnvironmental_pH => "ph"
  | tinyappEnvironmental_FluidLevel => "level"
  | tinyappEnvironmental_WindSpeedAverage => "wind_speed_avg"
  | tinyappEnvironmental_WindSpeedGust => "wind_speed_gust"
  | tinyappEnvironmental_WindDirection => "wind_direction"
  | tinyappEnvironmental_Rainfall => "rainfall"
  | tinyappEnvironmental_AtmosphericPressure => "pressure"
  | tinyappEnvironmental_SPLRMS => "spl_rms"
  | tinyappEnvironmental_SPLPeak => "spl_peak"
  end.

Definition nodetype_name (t : tinyapp_nodetype_t) : String.string :=
  match t with
  | tinyappNodeType_Generic => "Generic"
  | tinyappNodeType_GenericSensor => "Generic Sensor"
  | tinyappNodeType_GenericActuator => "Generic Actuator"
  | tinyappNodeType_Environmental => "Environmental Sensor"
  | tinyappNodeType_Heating => "Heating Control"
  | tinyappNodeType_Lighting => "Lighting Control"
  | tinyappNodeType_Energy => "Energy Monitoring"
  | tinyappNodeType_Occupancy => "Occupancy Detector"
  | tinyappNodeType_Switch => "Switch"
  end.

#[local] Close Scope string_scope.

(** The table's name for an item. *)
Definition item_name (p : tinyapp_profile_t) (item : Z) : option String.string :=
  tag <$> (tinyapp_get_item_info (profile_code p) item ≫= deref).

(** Outside the HVAC profile, whose table is in another order, every item of
    every enumeration is published under its own name and found under it again,
    the tables have no further entries, and every node type has its text. *)
Theorem enumerations_named :
  (forall i, item_name tinyappProfile_NodeStatus (nodestatus_code i) = Some (nodestatus_name i) /\
     tinyapp_get_item_id (profile_code tinyappProfile_NodeStatus) (nodestatus_name i) = nodestatus_code i) /\
  (forall i, item_name tinyappProfile_NodeInfo (devinfo_code i) = Some (devinfo_name i) /\
     tinyapp_get_item_id (profile_code tinyappProfile_NodeInfo) (devinfo_name i) = devinfo_code i) /\
  (forall i, item_name tinyappProfile_Generic (generic_code i) = Some (generic_name i) /\
     tinyapp_get_item_id (profile_code tinyappProfile_Generic) (generic_name i) = generic_code i) /\
  (forall i, item_name tinyappProfile_Environmental (environmental_code i) = Some (environmental_name i) /\
     tinyapp_get_item_id (profile_code tinyappProfile_Environmental) (environmental_name i) =
       environmental_code i) /\
  (forall t, tinyapp_nodetype_str !! Z.to_nat (nodetype_code t) = Some (nodetype_name t)) /\
  map length [tinyapp_item_info_status; tinyapp_item_info_devinfo; tinyapp_item_info_generic;
              tinyapp_item_info_env] =
    [length nodestatus_items; length devinfo_items; length generic_items; length environmental_items].
Proof.
  repeat split; try (intros []); try destruct i; vm_compute; reflexivity.
Qed.
