(* ===== verification/MqttSn.v ===== *)
(** * The MQTT-SN client ([lib/mqttsn-client.c], [lib/mqttsn-client.h], [lib/mqttsn.h])

    One definition per function of the client.  The context is a record; its
    outgoing [message] is the 64-byte array of the code, written in place, so
    that what a retry or a stale field picks up is what the code picks up.  An
    access outside an array or string is a fault ([None]).

    The clock is read once per entry into the client: [now] is the value of
    [get_seconds()] during that call. *)

From stdpp Require Import base list numbers.
From Stdlib Require Import ZArith Lia.
From S2P Require Import Prelude Wire.

(** ** Protocol constants *)

Definition mqttsn_htons (a : Z) : Z := u16 (Z.lor (Z.shiftr a 8) (Z.shiftl a 8)).
Definition mqttsn_ntohs (a : Z) : Z := mqttsn_htons a.

Definition MQTTSN_MAX_CLIENT_ID : nat := 16.
Definition MQTTSN_MAX_CLIENT_TOPICS : nat := 16.
Definition MQTTSN_MAX_PACKET : nat := 64.
Definition MQTTSN_T_RETRY : Z := 5.
Definition MQTTSN_N_RETRY : Z := 3.
Definition MQTTSN_KEEP_ALIVE : Z := 10.

Definition MQTTSN_CONNECT : Z := 0x04.
Definition MQTTSN_CONNACK : Z := 0x05.
Definition MQTTSN_REGISTER : Z := 0x0A.
Definition MQTTSN_REGACK : Z := 0x0B.
Definition MQTTSN_PUBLISH : Z := 0x0C.
Definition MQTTSN_PUBACK : Z := 0x0D.
Definition MQTTSN_SUBSCRIBE : Z := 0x12.
Definition MQTTSN_SUBACK : Z := 0x13.
Definition MQTTSN_PINGREQ : Z := 0x16.
Definition MQTTSN_DISCONNECT : Z := 0x18.

Definition MQTTSN_FLAG_DUP : Z := Z.shiftl 1 7.
Definition MQTTSN_FLAG_QOS_0 : Z := Z.shiftl 0 5.
Definition MQTTSN_FLAG_QOS_1 : Z := Z.shiftl 1 5.
Definition MQTTSN_FLAG_TOPIC_ID_NORM : Z := Z.shiftl 0 0.
Definition MQTTSN_RC_ACCEPTED : Z := 0.
Definition MQTTSN_PROTOCOL_ID : Z := 1.

Definition MQTTSN_REG_SUBSCRIBE : Z := Z.shiftl 1 7.
Definition MQTTSN_REG_QOS_MASK : Z := Z.shiftl 3 0.

(** Sizes of the packed structures; that of [mqttsn_subscribe_t] includes the
    two bytes of its union. *)
Definition sizeof_mq_header : nat := 2.
Definition sizeof_connect : nat := 6.
Definition sizeof_connack : nat := 3.
Definition sizeof_register : nat := 6.
Definition sizeof_regack : nat := 7.
Definition sizeof_publish : nat := 7.
Definition sizeof_puback : nat := 7.
Definition sizeof_subscribe : nat := 7.
Definition sizeof_suback : nat := 8.
Definition sizeof_pingreq : nat := 2.

(** ** State *)

Inductive mqttsn_c_state_t : Set :=
| mqttsnDisconnected
| mqttsnConnecting
| mqttsnRegistering
| mqttsnConnected
| mqttsnBusy
| mqttsnDisconnecting.

#[export] Instance mq_state_eq_dec : EqDecision mqttsn_c_state_t.
Proof. solve_decision. Defined.

Inductive mqttsn_c_result_t : Set := mqttsnOK | mqttsnError.

(** An entry of the application's dictionary; a [NULL] name ends it. *)
Record mqttsn_c_topic_t := mk_topic { topic : option (list Z); t_flags : Z }.

Record mqttsn_c_t := mk_mq {
  q_state : mqttsn_c_state_t;
  q_count : nat;                      (* unsigned int *)
  q_message : list Z;                 (* char[MQTTSN_MAX_PACKET] *)
  q_n_retries : Z;                    (* unsigned int *)
  q_t_retry : Z;                      (* time_t, 0 for none *)
  q_next_ping : Z;                    (* time_t *)
  q_next_id : Z;                      (* uint16_t *)
  q_topics : list mqttsn_c_topic_t;   (* the array, its terminator included *)
  q_topic_ids : list Z;               (* uint16_t[MQTTSN_MAX_CLIENT_TOPICS] *)
  q_is_registered : bool;
  q_client_id : list Z;               (* char[MQTTSN_MAX_CLIENT_ID] *)
  q_cb_publish : bool;
  q_cb_puback : bool
}.

(** Calls out of the client. *)
Inductive mq_event :=
| MqSend (msg : list Z)
| MqPublish (topic_index : nat) (data : list Z)
| MqPuback (msg_id : Z) (result : mqttsn_c_result_t).

Record mq_world := mk_mqw { mq : mqttsn_c_t; mq_log : list mq_event }.

Definition set_q_state v c := mk_mq v (q_count c) (q_message c) (q_n_retries c) (q_t_retry c)
  (q_next_ping c) (q_next_id c) (q_topics c) (q_topic_ids c) (q_is_registered c) (q_client_id c)
  (q_cb_publish c) (q_cb_puback c).
Definition set_q_count v c := mk_mq (q_state c) v (q_message c) (q_n_retries c) (q_t_retry c)
  (q_next_ping c) (q_next_id c) (q_topics c) (q_topic_ids c) (q_is_registered c) (q_client_id c)
  (q_cb_publish c) (q_cb_puback c).
Definition set_q_message v c := mk_mq (q_state c) (q_count c) v (q_n_retries c) (q_t_retry c)
  (q_next_ping c) (q_next_id c) (q_topics c) (q_topic_ids c) (q_is_registered c) (q_client_id c)
  (q_cb_publish c) (q_cb_puback c).
Definition set_q_n_retries v c := mk_mq (q_state c) (q_count c) (q_message c) v (q_t_retry c)
  (q_next_ping c) (q_next_id c) (q_topics c) (q_topic_ids c) (q_is_registered c) (q_client_id c)
  (q_cb_publish c) (q_cb_puback c).
Definition set_q_t_retry v c := mk_mq (q_state c) (q_count c) (q_message c) (q_n_retries c) v
  (q_next_ping c) (q_next_id c) (q_topics c) (q_topic_ids c) (q_is_registered c) (q_client_id c)
  (q_cb_publish c) (q_cb_puback c).
Definition set_q_next_ping v c := mk_mq (q_state c) (q_count c) (q_message c) (q_n_retries c)
  (q_t_retry c) v (q_next_id c) (q_topics c) (q_topic_ids c) (q_is_registered c) (q_client_id c)
  (q_cb_publish c) (q_cb_puback c).
Definition set_q_next_id v c := mk_mq (q_state c) (q_count c) (q_message c) (q_n_retries c)
  (q_t_retry c) (q_next_ping c) v (q_topics c) (q_topic_ids c) (q_is_registered c) (q_client_id c)
  (q_cb_publish c) (q_cb_puback c).
Definition set_q_topic_ids v c := mk_mq (q_state c) (q_count c) (q_message c) (q_n_retries c)
  (q_t_retry c) (q_next_ping c) (q_next_id c) (q_topics c) v (q_is_registered c) (q_client_id c)
  (q_cb_publish c) (q_cb_puback c).
Definition set_q_is_registered v c := mk_mq (q_state c) (q_count c) (q_message c) (q_n_retries c)
  (q_t_retry c) (q_next_ping c) (q_next_id c) (q_topics c) (q_topic_ids c) v (q_client_id c)
  (q_cb_publish c) (q_cb_puback c).
Definition set_q_cb_publish v c := mk_mq (q_state c) (q_count c) (q_message c) (q_n_retries c)
  (q_t_retry c) (q_next_ping c) (q_next_id c) (q_topics c) (q_topic_ids c) (q_is_registered c)
  (q_client_id c) v (q_cb_puback c).
Definition set_q_cb_puback v c := mk_mq (q_state c) (q_count c) (q_message c) (q_n_retries c)
  (q_t_retry c) (q_next_ping c) (q_next_id c) (q_topics c) (q_topic_ids c) (q_is_registered c)
  (q_client_id c) (q_cb_publish c) v.

(** ** State and fault monad *)

Definition Q (A : Type) : Type := mq_world -> option (A * mq_world).

Definition qret {A} (a : A) : Q A := fun w => Some (a, w).
Definition qbind {A B} (m : Q A) (k : A -> Q B) : Q B :=
  fun w => match m w with Some (a, w') => k a w' | None => None end.
Definition fault {A} : Q A := fun _ => None.

Declare Scope mq_scope.
Delimit Scope mq_scope with mq.
Notation "x <- m ;; k" := (qbind m (fun x => k))
  (at level 100, m at next level, right associativity) : mq_scope.
Notation "m ;; k" := (qbind m (fun _ => k)) (at level 100, right associativity) : mq_scope.
#[local] Open Scope mq_scope.

Definition qget : Q mqttsn_c_t := fun w => Some (mq w, w).
Definition qmod (f : mqttsn_c_t -> mqttsn_c_t) : Q unit :=
  fun w => Some (tt, mk_mqw (f (mq w)) (mq_log w)).
Definition qemit (e : mq_event) : Q unit := fun w => Some (tt, mk_mqw (mq w) (e :: mq_log w)).
Definition qlog : Q (list mq_event) := fun w => Some (mq_log w, w).
Definition qwhen (b : bool) (m : Q unit) : Q unit := if b then m else qret tt.
(** An access that is only defined if [b] holds. *)
Definition guard (b : bool) : Q unit := if b then qret tt else fault.

(** Stores into the message array. *)
Definition poke (off : nat) (vs : list Z) : Q unit :=
  guard (off + length vs <=? MQTTSN_MAX_PACKET)%nat ;;
  qmod (fun c => set_q_message (list_inserts off vs (q_message c)) c).

(** [strlen] of the string in an array: a fault if it has no terminator. *)
Fixpoint c_strlen (l : list Z) : option nat :=
  match l with
  | [] => None
  | b :: l => if b =? 0 then Some O else S <$> c_strlen l
  end.

(** [strncpy(dst, str, n)]: the string cut to [n] bytes or padded with zeros. *)
Definition strncpy (str : list Z) (n : nat) : list Z :=
  take n str ++ replicate (n - length str) 0.

(** ** What the application does in a callback *)

Inductive mq_prog :=
| MqReturn
| MqCallPublish (topic_index : nat) (qos : Z) (data : list Z) (k : Z -> mq_prog)
| MqCallConnect (k : mq_prog)
| MqCallDisconnect (duration : Z) (k : mq_prog).

Class MqEnv := {
  mq_send_rc : list mq_event -> Z;
  mq_app : list mq_event -> mq_prog
}.

Section Client.
Context `{E : MqEnv}.
Variable now : Z.

(** ** Sending *)

Definition cb_send (size : nat) : Q Z :=
  guard (size <=? MQTTSN_MAX_PACKET)%nat ;;
  c <- qget ;;
  qemit (MqSend (take size (q_message c))) ;;
  l <- qlog ;;
  qret (mq_send_rc l).

Definition mqttsn_send (msg_type : Z) (size : nat) (do_retry : bool) : Q Z :=
  poke 0 [u8 (Z.of_nat size)] ;;
  poke 1 [msg_type] ;;
  qwhen do_retry
    (qmod (fun c => set_q_t_retry (now + MQTTSN_T_RETRY) (set_q_n_retries MQTTSN_N_RETRY c))) ;;
  qmod (set_q_next_ping (now + MQTTSN_KEEP_ALIVE)) ;;
  cb_send size.

(** The state changes; pending sends are aborted. *)
Definition mqttsn_to_state (st : mqttsn_c_state_t) : Q unit :=
  qmod (fun c => set_q_t_retry 0 (set_q_n_retries 0 (set_q_state st c))).

(** ** Interface functions *)

(** [memset], then [strncpy] of the name into the 16-byte member. *)
Definition mqttsn_c_init (client_id : list Z) (topics : list mqttsn_c_topic_t) : mqttsn_c_t :=
  mk_mq mqttsnDisconnected 0 (replicate MQTTSN_MAX_PACKET 0) 0 0 0 0 topics
    (replicate MQTTSN_MAX_CLIENT_TOPICS 0) false (strncpy client_id MQTTSN_MAX_CLIENT_ID) false false.

Definition mqttsn_c_set_publish_callback (cb : bool) : Q unit := qmod (set_q_cb_publish cb).
Definition mqttsn_c_set_puback_callback (cb : bool) : Q unit := qmod (set_q_cb_puback cb).

Definition mqttsn_c_connect : Q unit :=
  c <- qget ;;
  if negb (bool_decide (q_state c = mqttsnDisconnected)) then qret tt else   (* Already connected *)
  poke 2 [0] ;;
  poke 3 [MQTTSN_PROTOCOL_ID] ;;
  poke 4 (le_bytes 2 (mqttsn_htons MQTTSN_KEEP_ALIVE)) ;;
  match c_strlen (q_client_id c) with
  | None => fault
  | Some len =>
      poke sizeof_connect (strncpy (take len (q_client_id c)) (MQTTSN_MAX_PACKET - sizeof_connect)) ;;
      mqttsn_to_state mqttsnConnecting ;;
      mqttsn_send MQTTSN_CONNECT (sizeof_connect + len) true ;;
      qret tt
  end.

Definition mqttsn_c_disconnect (duration : Z) : Q unit :=
  c <- qget ;;
  if bool_decide (q_state c = mqttsnDisconnected) then qret tt else   (* Already disconnected *)
  mqttsn_to_state mqttsnDisconnecting ;;
  poke 2 (le_bytes 2 (mqttsn_htons duration)) ;;
  (* duration field is only sent by sleeping clients *)
  mqttsn_send MQTTSN_DISCONNECT (sizeof_mq_header + (if duration =? 0 then 0 else 2)) true ;;
  qret tt.

Definition publish_flags (qos : Z) : Z :=
  Z.lor MQTTSN_FLAG_TOPIC_ID_NORM (if qos =? 0 then MQTTSN_FLAG_QOS_0 else MQTTSN_FLAG_QOS_1).

Definition mqttsn_c_publish (topic_index : nat) (qos : Z) (data : list Z) : Q Z :=
  c <- qget ;;
  if negb (bool_decide (q_state c = mqttsnConnected)) then qret 0 else   (* Not connected or busy *)
  if (MQTTSN_MAX_PACKET <? sizeof_publish + length data)%nat then qret 0 else   (* Packet too large *)
  (* Only if we expect to get a PUBACK back, otherwise fire and forget *)
  qwhen (0 <? qos) (mqttsn_to_state mqttsnBusy) ;;
  poke 2 [publish_flags qos] ;;
  match q_topic_ids c !! topic_index with
  | None => fault
  | Some topic_id =>
      poke 3 (le_bytes 2 (mqttsn_htons topic_id)) ;;
      (* Pre-increment - 0 is used to indicate failure *)
      qmod (fun c => set_q_next_id (u16 (q_next_id c + 1)) c) ;;
      poke 5 (le_bytes 2 (mqttsn_htons (u16 (q_next_id c + 1)))) ;;
      poke sizeof_publish data ;;
      mqttsn_send MQTTSN_PUBLISH (sizeof_publish + length data) (negb (qos =? 0)) ;;
      (* Set DUP bit in case we retry *)
      poke 2 [Z.lor (publish_flags qos) MQTTSN_FLAG_DUP] ;;
      c <- qget ;;
      qret (field 5 2 (q_message c))
  end.

Definition mqttsn_c_get_state (c : mqttsn_c_t) : mqttsn_c_state_t := q_state c.

(** ** Callbacks *)

(** Arguments are converted to the parameter types by the call. *)
Fixpoint run_mq_app (prog : mq_prog) : Q unit :=
  match prog with
  | MqReturn => qret tt
  | MqCallPublish i qos data k =>
      r <- mqttsn_c_publish i (i32 qos) (map u8 data) ;;
      run_mq_app (k r)
  | MqCallConnect k => mqttsn_c_connect ;; run_mq_app k
  | MqCallDisconnect d k => mqttsn_c_disconnect (u16 d) ;; run_mq_app k
  end.

Definition mq_upcall (e : mq_event) : Q unit :=
  qemit e ;;
  l <- qlog ;;
  run_mq_app (mq_app l).

(** ** Inbound messages *)

Definition msg_type_of (msg : list Z) : Z := field 1 1 msg.

Definition mqttsn_connack_handler (buf : list Z) : Q unit :=
  if (length buf <? sizeof_connack)%nat then qret tt else
  c <- qget ;;
  if negb (bool_decide (q_state c = mqttsnConnecting)) ||
     negb (msg_type_of (q_message c) =? MQTTSN_CONNECT) then qret tt else
  if field 2 1 buf =? MQTTSN_RC_ACCEPTED then
    qmod (set_q_count 0) ;;
    if q_is_registered c then mqttsn_to_state mqttsnConnected
    else mqttsn_to_state mqttsnRegistering
  else mqttsn_to_state mqttsnDisconnected.

(** Not implemented in the code either. *)
Definition mqttsn_register_handler (buf : list Z) : Q unit := qret tt.

(** [ctx->topic_ids[i] = id] *)
Definition set_topic_id (i : Z) (id : Z) : Q unit :=
  guard (i <? Z.of_nat MQTTSN_MAX_CLIENT_TOPICS) ;;
  qmod (fun c => set_q_topic_ids (<[Z.to_nat i := id]> (q_topic_ids c)) c).

Definition mqttsn_regack_handler (buf : list Z) : Q unit :=
  if (length buf <? sizeof_regack)%nat then qret tt else
  c <- qget ;;
  if negb (bool_decide (q_state c = mqttsnBusy)) ||
     negb (msg_type_of (q_message c) =? MQTTSN_REGISTER) then qret tt else
  if negb (field 4 2 buf =? field 4 2 (q_message c)) then qret tt else
  (if field 6 1 buf =? MQTTSN_RC_ACCEPTED
   then set_topic_id (mqttsn_ntohs (field 4 2 buf)) (mqttsn_ntohs (field 2 2 buf))
   else qret tt) ;;
  (* Register next topic *)
  mqttsn_to_state mqttsnRegistering.

Definition mqttsn_suback_handler (buf : list Z) : Q unit :=
  if (length buf <? sizeof_suback)%nat then qret tt else
  c <- qget ;;
  if negb (bool_decide (q_state c = mqttsnBusy)) ||
     negb (msg_type_of (q_message c) =? MQTTSN_SUBSCRIBE) then qret tt else
  if negb (field 5 2 buf =? field 3 2 (q_message c)) then qret tt else
  (if field 7 1 buf =? MQTTSN_RC_ACCEPTED
   then set_topic_id (mqttsn_ntohs (field 5 2 buf)) (mqttsn_ntohs (field 3 2 buf))
   else qret tt) ;;
  (* Register next topic *)
  mqttsn_to_state mqttsnRegistering.

(** The search for the subscription from index [i], with [n] indices left:
    [None] is a read past the dictionary, [Some None] no match. *)
Fixpoint find_subscription (c : mqttsn_c_t) (topic_id : Z) (i n : nat) : option (option nat) :=
  match n with
  | O => Some None
  | S n =>
      if default 0 (q_topic_ids c !! i) =? topic_id then
        match q_topics c !! i with
        | None => None
        | Some t => if t_flags t &? MQTTSN_REG_SUBSCRIBE then Some (Some i)
                    else find_subscription c topic_id (S i) n
        end
      else find_subscription c topic_id (S i) n
  end.

Definition mqttsn_publish_handler (buf : list Z) : Q unit :=
  if (length buf <? sizeof_publish)%nat then qret tt else
  c <- qget ;;
  match find_subscription c (mqttsn_ntohs (field 3 2 buf)) 0 MQTTSN_MAX_CLIENT_TOPICS with
  | None => fault
  | Some None => qret tt   (* unknown subscription ID *)
  | Some (Some subscription) =>
      qwhen (q_cb_publish c) (mq_upcall (MqPublish subscription (drop sizeof_publish buf)))
  end.

Definition mqttsn_puback_handler (buf : list Z) : Q unit :=
  if (length buf <? sizeof_puback)%nat then qret tt else
  c <- qget ;;
  if negb (bool_decide (q_state c = mqttsnBusy)) then qret tt else
  if negb (field 4 2 buf =? field 5 2 (q_message c)) then qret tt else
  qwhen (q_cb_puback c)
    (mq_upcall (MqPuback (field 4 2 buf)
       (if field 6 1 buf =? MQTTSN_RC_ACCEPTED then mqttsnOK else mqttsnError))) ;;
  mqttsn_to_state mqttsnConnected.

Definition mqttsn_disconnect_handler (buf : list Z) : Q unit := mqttsn_to_state mqttsnDisconnected.

(** ** Registration *)

Definition mqttsn_register (msg_id : nat) (name : list Z) : Q unit :=
  mqttsn_to_state mqttsnBusy ;;
  poke 2 (le_bytes 2 0) ;;
  poke 4 (le_bytes 2 (mqttsn_htons (u16 (Z.of_nat msg_id)))) ;;
  poke sizeof_register (name ++ [0]) ;;
  mqttsn_send MQTTSN_REGISTER (sizeof_register + length name) true ;;
  qret tt.

Definition subscribe_flags (qos : Z) : Z := if qos =? 0 then MQTTSN_FLAG_QOS_0 else MQTTSN_FLAG_QOS_1.

Definition mqttsn_subscribe (msg_id : nat) (name : list Z) (qos : Z) : Q unit :=
  mqttsn_to_state mqttsnBusy ;;
  poke 2 [subscribe_flags qos] ;;
  poke 3 (le_bytes 2 (mqttsn_htons (u16 (Z.of_nat msg_id)))) ;;
  poke 5 (name ++ [0]) ;;
  mqttsn_send MQTTSN_SUBSCRIBE (sizeof_subscribe + length name) true ;;
  (* Set DUP bit in case we retry *)
  poke 2 [Z.lor (subscribe_flags qos) MQTTSN_FLAG_DUP].

(** The registration stage of the handler. *)
Definition handle_registrations : Q unit :=
  c <- qget ;;
  if bool_decide (q_state c = mqttsnRegistering) then
    match q_topics c !! q_count c with
    | None => fault
    | Some (mk_topic None _) =>
        (* All done *)
        qmod (fun c => set_q_is_registered true (set_q_count 0 c)) ;;
        mqttsn_to_state mqttsnConnected
    | Some (mk_topic (Some name) flags) =>
        (* Register/subscribe next *)
        (if flags &? MQTTSN_REG_SUBSCRIBE
         then mqttsn_subscribe (q_count c) name (Z.land flags MQTTSN_REG_QOS_MASK)
         else mqttsn_register (q_count c) name) ;;
        qmod (fun c => set_q_count (S (q_count c)) c)
    end
  else qret tt.

(** ** The state machine *)

Definition handle_retry : Q unit :=
  c <- qget ;;
  if negb (q_t_retry c =? 0) && (q_t_retry c <=? now) then
    if negb (q_n_retries c =? 0) then
      (* Re-send pending message *)
      qmod (fun c => set_q_next_ping (now + MQTTSN_KEEP_ALIVE)
              (set_q_t_retry (now + MQTTSN_T_RETRY) (set_q_n_retries (q_n_retries c - 1) c))) ;;
      cb_send (Z.to_nat (field 0 1 (q_message c))) ;;
      qret tt
    else
      (* Give up *)
      mqttsn_to_state mqttsnDisconnected
  else qret tt.

(** Client must send something at least every KEEP_ALIVE period while connected. *)
Definition handle_ping : Q unit :=
  c <- qget ;;
  if bool_decide (q_state c = mqttsnConnected) && (q_next_ping c <=? now)
  then mqttsn_send MQTTSN_PINGREQ sizeof_pingreq false ;; qret tt
  else qret tt.

(** The inbound packet, [None] for the periodic call with a NULL buffer. *)
Definition handle_inbound (packet : option (list Z)) : Q unit :=
  match packet with
  | None => qret tt
  | Some buf =>
      if (length buf <? sizeof_mq_header)%nat || (Z.of_nat (length buf) <? field 0 1 buf)
      then qret tt else
      let msg_type := field 1 1 buf in
      if msg_type =? MQTTSN_CONNACK then mqttsn_connack_handler buf
      else if msg_type =? MQTTSN_REGISTER then mqttsn_register_handler buf
      else if msg_type =? MQTTSN_REGACK then mqttsn_regack_handler buf
      else if msg_type =? MQTTSN_PUBLISH then mqttsn_publish_handler buf
      else if msg_type =? MQTTSN_PUBACK then mqttsn_puback_handler buf
      else if msg_type =? MQTTSN_SUBACK then mqttsn_suback_handler buf
      else if msg_type =? MQTTSN_DISCONNECT then mqttsn_disconnect_handler buf
      else qret tt   (* unexpected message type *)
  end.

Definition mqttsn_c_handler (packet : option (list Z)) : Q unit :=
  handle_retry ;;
  handle_ping ;;
  handle_inbound packet ;;
  handle_registrations.

End Client.
