(* ===== verification/MqttInv.v ===== *)
(** * The MQTT-SN client: safety and invariant

    With a dictionary of at most 16 topics whose names fit the message array, a
    client ID of at most 15 characters, and topic ID 0 never published by the
    gateway, no call makes the client access memory it does not own; and in
    every reachable context each waiting state has its retry timer armed and
    the message it waits for an answer to in the message array. *)

From stdpp Require Import base list numbers.
From Stdlib Require Import ZArith Lia.
From S2P Require Import Prelude Wire MqttSn.

#[local] Open Scope mq_scope.
#[local] Arguments field : simpl never.
#[local] Arguments list_inserts : simpl never.

(** ** Network byte order *)

Definition swap_checks (hi : Z) : bool :=
  forallb (fun lo => mqttsn_htons (256 * hi + lo) =? 256 * lo + hi) all_bytes.

Lemma htons_bytes hi lo : is_u8 hi -> is_u8 lo -> mqttsn_htons (256 * hi + lo) = 256 * lo + hi.
Proof.
  intros Hh Hl.
  assert (H : forallb swap_checks all_bytes = true) by (vm_compute; reflexivity).
  pose proof (byte_exhaustive swap_checks H hi Hh) as Hc.
  pose proof (byte_exhaustive _ Hc lo Hl) as Hz. by apply Z.eqb_eq in Hz.
Qed.

Lemma u16_split a : is_u16 a -> is_u8 (a / 256) /\ is_u8 (a mod 256) /\ a = 256 * (a / 256) + a mod 256.
Proof. widths. intros H. split_and!; Z.div_mod_to_equations; lia. Qed.

Lemma htons_u16 a : is_u16 (mqttsn_htons a).
Proof. apply u16_range. Qed.

Lemma htons_involutive a : is_u16 a -> mqttsn_ntohs (mqttsn_htons a) = a.
Proof.
  intros Ha. destruct (u16_split a Ha) as (H1 & H2 & E). unfold mqttsn_ntohs.
  rewrite E at 1. rewrite htons_bytes, htons_bytes by done. lia.
Qed.

(** On the wire the high byte comes first. *)
Lemma htons_wire a : is_u16 a -> le_bytes 2 (mqttsn_htons a) = [a / 256; a mod 256].
Proof.
  intros Ha. destruct (u16_split a Ha) as (H1 & H2 & E). rewrite E at 1. rewrite htons_bytes by done.
  cbn [le_bytes]. widths. f_equal; [|f_equal]; Z.div_mod_to_equations; lia.
Qed.

(** ** Fields of an array after a store *)

Lemma field_store_same off n vs l :
  length vs = n -> (off + n <= length l)%nat -> field off n (list_inserts off vs l) = le_val vs.
Proof.
  intros Hn Hl. unfold field. rewrite inserts_split by lia.
  assert (Ht : length (take off l) = off) by (rewrite length_take; lia).
  rewrite drop_app_length' by done. by rewrite take_app_length' by done.
Qed.

Lemma field_store_other off n off' vs l :
  (off' + length vs <= length l)%nat -> (off + n <= off')%nat \/ (off' + length vs <= off)%nat ->
  field off n (list_inserts off' vs l) = field off n l.
Proof.
  intros Hl H. unfold field. f_equal. apply list_eq. intros i.
  destruct (decide (i < n)%nat); [|rewrite !lookup_take_ge by lia; done].
  rewrite !lookup_take_lt, !lookup_drop by lia.
  destruct H; [rewrite list_lookup_inserts_lt by lia|rewrite list_lookup_inserts_ge by lia]; done.
Qed.

Lemma store_bytes off vs l : bytes vs -> bytes l -> bytes (list_inserts off vs l).
Proof.
  intros Hv. revert off. induction Hv as [|v vs Hv _ IH]; intros off Hl; [done|].
  change (list_inserts off (v :: vs) l) with (<[off:=v]> (list_inserts (S off) vs l)).
  apply Forall_insert; [by apply IH|done].
Qed.

(** ** The invariant *)

(** [n] topics, then the terminator. *)
Definition dictionary_ok (n : nat) (ts : list mqttsn_c_topic_t) : Prop :=
  (n <= MQTTSN_MAX_CLIENT_TOPICS)%nat /\ length ts = S n /\
  (forall t, ts !! n = Some t -> topic t = None) /\
  forall i t, (i < n)%nat -> ts !! i = Some t ->
    exists name, topic t = Some name /\ (length name <= 57)%nat /\ bytes name.

Record mq_base (n : nat) (c : mqttsn_c_t) : Prop := {
  mb_message : length (q_message c) = MQTTSN_MAX_PACKET;
  mb_bytes : bytes (q_message c);
  mb_length : field 0 1 (q_message c) <= Z.of_nat MQTTSN_MAX_PACKET;
  mb_count : (q_count c <= n)%nat;
  mb_retries : 0 <= q_n_retries c <= MQTTSN_N_RETRY;
  mb_next_id : is_u16 (q_next_id c);
  mb_topics : dictionary_ok n (q_topics c);
  mb_ids_length : length (q_topic_ids c) = MQTTSN_MAX_CLIENT_TOPICS;
  mb_ids : Forall is_u16 (q_topic_ids c);
  mb_ids_unused : forall i v, (n <= i)%nat -> q_topic_ids c !! i = Some v -> v = 0;
  mb_client_id : exists len, c_strlen (q_client_id c) = Some len /\ (len <= 15)%nat;
  mb_client_bytes : bytes (q_client_id c)
}.

(** The message in the array is the one the state waits for. *)
Definition awaits (n : nat) (st : mqttsn_c_state_t) (msg : list Z) : Prop :=
  match st with
  | mqttsnConnecting => msg_type_of msg = MQTTSN_CONNECT
  | mqttsnBusy =>
      (msg_type_of msg = MQTTSN_REGISTER /\ mqttsn_ntohs (field 4 2 msg) < Z.of_nat n) \/
      (msg_type_of msg = MQTTSN_SUBSCRIBE /\ mqttsn_ntohs (field 3 2 msg) < Z.of_nat n) \/
      msg_type_of msg = MQTTSN_PUBLISH
  | mqttsnDisconnecting => msg_type_of msg = MQTTSN_DISCONNECT
  | _ => True
  end.

Definition waiting (st : mqttsn_c_state_t) : bool :=
  match st with mqttsnConnecting | mqttsnBusy | mqttsnDisconnecting => true | _ => false end.

Record mq_ok (n : nat) (c : mqttsn_c_t) : Prop := {
  mo_base : mq_base n c;
  mo_armed : q_t_retry c <> 0 <-> waiting (q_state c) = true;
  mo_awaits : awaits n (q_state c) (q_message c)
}.

(** Total correctness: no fault, and the postcondition. *)
Definition total {A} (Pre : mqttsn_c_t -> Prop) (m : Q A) (Post : mqttsn_c_t -> Prop) : Prop :=
  forall w, Pre (mq w) -> exists a w', m w = Some (a, w') /\ Post (mq w').

Lemma total_bind {A B} Pre Mid Post (m : Q A) (k : A -> Q B) :
  total Pre m Mid -> (forall a, total Mid (k a) Post) -> total Pre (qbind m k) Post.
Proof.
  intros Hm Hk w Hw. destruct (Hm w Hw) as (a & w1 & E & H1). unfold qbind. rewrite E. by apply Hk.
Qed.
Lemma total_ret {A} Pre (a : A) : total Pre (qret a) Pre.
Proof. intros w Hw. by eexists _, _. Qed.
Lemma total_get {B} Pre Post (k : mqttsn_c_t -> Q B) :
  (forall c, Pre c -> total (fun c' => c' = c) (k c) Post) -> total Pre (qbind qget k) Post.
Proof. intros Hk w Hw. by apply (Hk (mq w)). Qed.
Lemma total_mod Pre Post f : (forall c, Pre c -> Post (f c)) -> total Pre (qmod f) Post.
Proof. intros Hf w Hw. eexists _, _. split; [done|]. by apply Hf. Qed.
Lemma total_emit Pre e : total Pre (qemit e) Pre.
Proof. intros w Hw. by eexists _, _. Qed.
Lemma total_log Pre : total Pre qlog Pre.
Proof. intros w Hw. by eexists _, _. Qed.
Lemma total_weaken {A} (Pre Pre' Post Post' : mqttsn_c_t -> Prop) (m : Q A) :
  total Pre m Post -> (forall c, Pre' c -> Pre c) -> (forall c, Post c -> Post' c) -> total Pre' m Post'.
Proof. intros Hm H1 H2 w Hw. destruct (Hm w (H1 _ Hw)) as (a & w' & E & H). eauto. Qed.
Lemma total_when Pre Post b m :
  total Pre m Post -> (forall c, Pre c -> Post c) -> total Pre (qwhen b m) Post.
Proof.
  intros Hm Hp. destruct b; [done|]. eapply total_weaken; [apply total_ret|exact (fun c H => H)|done].
Qed.

(** ** Building a message *)

Definition stored (off : nat) (vs : list Z) (c : mqttsn_c_t) : mqttsn_c_t :=
  set_q_message (list_inserts off vs (q_message c)) c.

Lemma poke_run off vs w :
  (off + length vs <= MQTTSN_MAX_PACKET)%nat ->
  poke off vs w = Some (tt, mk_mqw (stored off vs (mq w)) (mq_log w)).
Proof. intros H. unfold poke, guard. apply Nat.leb_le in H. by rewrite H. Qed.

Lemma stored_base n off vs c :
  mq_base n c -> (2 <= off)%nat -> bytes vs -> (off + length vs <= MQTTSN_MAX_PACKET)%nat ->
  mq_base n (stored off vs c).
Proof.
  intros [] Ho Hv Hl. split; cbn; auto.
  - by rewrite length_inserts.
  - by apply store_bytes.
  - rewrite field_store_other; [done|lia|left; lia].
Qed.

Section Sending.
Context `{E : MqEnv}.
Variable now : Z.

(** The context after [mqttsn_send]. *)
Definition sent (ty : Z) (size : nat) (retry : bool) (c : mqttsn_c_t) : mqttsn_c_t :=
  let c := stored 1 [ty] (stored 0 [u8 (Z.of_nat size)] c) in
  let c := if retry then set_q_t_retry (now + MQTTSN_T_RETRY) (set_q_n_retries MQTTSN_N_RETRY c) else c in
  set_q_next_ping (now + MQTTSN_KEEP_ALIVE) c.

Lemma send_run ty size retry w :
  (size <= MQTTSN_MAX_PACKET)%nat ->
  exists rc, mqttsn_send now ty size retry w =
    Some (rc, mk_mqw (sent ty size retry (mq w))
                (MqSend (take size (q_message (sent ty size retry (mq w)))) :: mq_log w)).
Proof.
  intros H. unfold mqttsn_send, qbind at 1. rewrite poke_run by (cbn; unfold MQTTSN_MAX_PACKET; lia).
  unfold qbind at 1. rewrite poke_run by (cbn; unfold MQTTSN_MAX_PACKET; lia).
  apply Nat.leb_le in H. unfold sent, cb_send, guard.
  destruct retry; cbn; rewrite H; by eexists.
Qed.

Lemma sent_base n ty size retry c :
  mq_base n c -> is_u8 ty -> (size <= MQTTSN_MAX_PACKET)%nat -> mq_base n (sent ty size retry c).
Proof.
  intros [] Ht Hs. unfold MQTTSN_MAX_PACKET in *.
  assert (Hb : bytes [u8 (Z.of_nat size)]) by (repeat constructor; apply u8_range).
  assert (Hb' : bytes [ty]) by (constructor; [exact Ht|constructor]).
  destruct retry; split; cbn; auto; try (rewrite !length_inserts; done);
    try (apply (store_bytes 1 [ty]); [done|]; by apply (store_bytes 0 [u8 (Z.of_nat size)]));
    try (unfold MQTTSN_N_RETRY; lia).
  all: rewrite field_store_other by (rewrite ?length_inserts; cbn; lia);
    rewrite field_store_same by (cbn; lia); cbn [le_val]; rewrite u8_id; [unfold MQTTSN_MAX_PACKET; lia|widths; lia].
Qed.

(** Fields of the message after sending: only the header changed. *)
Lemma sent_type n ty size retry c :
  mq_base n c -> is_u8 ty -> msg_type_of (q_message (sent ty size retry c)) = ty.
Proof.
  intros [] Ht. unfold msg_type_of. assert (E1 : q_message (sent ty size retry c) =
    list_inserts 1 [ty] (list_inserts 0 [u8 (Z.of_nat size)] (q_message c))) by (by destruct retry).
  rewrite E1, field_store_same by (rewrite ?length_inserts, ?mb_message0; cbn; unfold MQTTSN_MAX_PACKET; lia).
  cbn; lia.
Qed.

Lemma sent_field n off k ty size retry c :
  mq_base n c -> (2 <= off)%nat ->
  field off k (q_message (sent ty size retry c)) = field off k (q_message c).
Proof.
  intros [] Ho. assert (E1 : q_message (sent ty size retry c) =
    list_inserts 1 [ty] (list_inserts 0 [u8 (Z.of_nat size)] (q_message c))) by (by destruct retry).
  unfold MQTTSN_MAX_PACKET in *.
  rewrite E1, !field_store_other; try done; rewrite ?length_inserts, ?mb_message0; cbn; lia.
Qed.
End Sending.

(** ** Straight-line code, from a given context *)

Section Lines.
Context `{E : MqEnv}.
Variable now : Z.

Lemma line_poke c off vs :
  (off + length vs <= MQTTSN_MAX_PACKET)%nat ->
  total (fun x => x = c) (poke off vs) (fun x => x = stored off vs c).
Proof. intros H w <-. eexists _, _. split; [by apply poke_run|done]. Qed.

Lemma line_mod c f : total (fun x => x = c) (qmod f) (fun x => x = f c).
Proof. apply total_mod. by intros ? ->. Qed.

Lemma line_send c ty size retry :
  (size <= MQTTSN_MAX_PACKET)%nat ->
  total (fun x => x = c) (mqttsn_send now ty size retry) (fun x => x = sent now ty size retry c).
Proof.
  intros H w <-. destruct (send_run now ty size retry w H) as [rc Hr]. eexists _, _. by split.
Qed.

Definition entered (st : mqttsn_c_state_t) (c : mqttsn_c_t) : mqttsn_c_t :=
  set_q_t_retry 0 (set_q_n_retries 0 (set_q_state st c)).

Lemma line_to_state c st : total (fun x => x = c) (mqttsn_to_state st) (fun x => x = entered st c).
Proof. apply line_mod. Qed.

Lemma line_end {A} c (a : A) (Post : mqttsn_c_t -> Prop) : Post c -> total (fun x => x = c) (qret a) Post.
Proof. intros H w <-. by eexists _, _. Qed.

(** Lines are strung together until the last one. *)
Lemma line_last {A} c c' (m : Q A) (Post : mqttsn_c_t -> Prop) :
  total (fun x => x = c) m (fun x => x = c') -> Post c' -> total (fun x => x = c) m Post.
Proof. intros Hm H. eapply total_weaken; [exact Hm|done|]. by intros ? ->. Qed.
End Lines.

Ltac line :=
  first [ apply line_poke; rewrite ?length_app, ?le_bytes_length; cbn [length];
          unfold MQTTSN_MAX_PACKET, sizeof_publish, sizeof_connect, sizeof_register in *; try lia
        | apply line_to_state
        | apply line_send; unfold MQTTSN_MAX_PACKET, sizeof_connect, sizeof_mq_header, sizeof_publish,
            sizeof_register, sizeof_subscribe, sizeof_pingreq in *; try lia
        | apply line_mod ].
Ltac lines := repeat (eapply total_bind; [line|intros ?; cbv beta]).

(** ** Preservation *)

Section Safety.
Context `{E : MqEnv}.
Variable n : nat.
Variable now : Z.
Hypothesis Hnow : 0 <= now.

Lemma entered_base st c : mq_base n c -> mq_base n (entered st c).
Proof. intros []. split; cbn; auto. unfold MQTTSN_N_RETRY; lia. Qed.

(** A context that does not wait. *)
Lemma entered_ok st c : mq_base n c -> waiting st = false -> mq_ok n (entered st c).
Proof.
  intros H Hst. split; [by apply entered_base| |by destruct st].
  cbn. rewrite Hst. done.
Qed.

Lemma total_to_state st Pre :
  (forall c, Pre c -> mq_base n c) -> waiting st = false -> total Pre (mqttsn_to_state st) (mq_ok n).
Proof. intros Hp Hst. apply total_mod. intros c Hc. apply entered_ok; auto. Qed.

(** A message sent from a waiting state. *)
Lemma sent_ok ty size c :
  mq_base n c -> is_u8 ty -> (size <= MQTTSN_MAX_PACKET)%nat -> waiting (q_state c) = true ->
  awaits n (q_state c) (q_message (sent now ty size true c)) -> mq_ok n (sent now ty size true c).
Proof.
  intros Hb Ht Hs Hw Ha. split; [by apply sent_base| |done]. cbn. rewrite Hw.
  unfold MQTTSN_T_RETRY. split; [done|lia].
Qed.

Lemma strncpy_length str k : length (strncpy str k) = k.
Proof. unfold strncpy. rewrite length_app, length_take, length_replicate. lia. Qed.
Lemma strncpy_bytes str k : bytes str -> bytes (strncpy str k).
Proof.
  intros H. apply app_bytes; [by apply take_bytes|]. apply Forall_replicate. widths; lia.
Qed.

Lemma one_byte b : is_u8 b -> bytes [b].
Proof. intros H. constructor; [done|constructor]. Qed.

(** Closes the structural side of a chain of stores. *)
Ltac bytes_tac :=
  first [ assumption | apply le_bytes_bytes | apply one_byte; split; vm_compute; congruence ].
Ltac size_tac :=
  rewrite ?strncpy_length, ?length_app, ?le_bytes_length; cbn [length];
  unfold MQTTSN_MAX_PACKET, sizeof_mq_header, sizeof_connect, sizeof_register, sizeof_subscribe,
    sizeof_publish, sizeof_pingreq in *; lia.
Ltac base_tac :=
  repeat first [ assumption | apply entered_base | apply stored_base; [| size_tac | bytes_tac | size_tac] ].

Lemma total_connect : total (mq_ok n) (mqttsn_c_connect now) (mq_ok n).
Proof.
  unfold mqttsn_c_connect. apply total_get; intros c Hc.
  destruct (negb _); [by apply line_end|]. pose proof (mo_base _ _ Hc) as Hb.
  lines. destruct (mb_client_id _ _ Hb) as (len & -> & Hlen).
  assert (Hcb : bytes (strncpy (take len (q_client_id c)) (MQTTSN_MAX_PACKET - sizeof_connect)))
    by (apply strncpy_bytes, take_bytes, Hb).
  eapply total_bind; [apply line_poke; size_tac|intros _].
  lines. apply line_end.
  match goal with |- mq_ok n (sent _ _ _ _ ?x) => assert (Hx : mq_base n x) by base_tac end.
  apply sent_ok; try done; [size_tac|].
  cbn [awaits entered q_state set_q_t_retry set_q_n_retries set_q_state]. by eapply sent_type.
Qed.

Lemma total_disconnect d : total (mq_ok n) (mqttsn_c_disconnect now d) (mq_ok n).
Proof.
  unfold mqttsn_c_disconnect. apply total_get; intros c Hc.
  destruct (bool_decide _); [by apply line_end|]. pose proof (mo_base _ _ Hc) as Hb.
  assert (Hsz : (sizeof_mq_header + (if (d =? 0)%Z then 0 else 2) <= MQTTSN_MAX_PACKET)%nat)
    by (destruct (d =? 0)%Z; size_tac).
  eapply total_bind; [apply line_to_state|intros _].
  eapply total_bind; [apply line_poke; size_tac|intros _].
  eapply total_bind; [by apply line_send|intros _]. apply line_end.
  match goal with |- mq_ok n (sent _ _ _ _ ?x) => assert (Hx : mq_base n x) by base_tac end.
  apply sent_ok; try done. eapply (sent_type now n); done.
Qed.

(** Setting the DUP bit afterwards changes nothing that matters. *)
Lemma stored_flags_ok b c : mq_ok n c -> is_u8 b -> mq_ok n (stored 2 [b] c).
Proof.
  intros [Hb Ha Hw] Hu. assert (Hb' := Hb). destruct Hb' as [Hl].
  split; [apply stored_base; [done|lia|by apply one_byte|size_tac]|done|].
  assert (Hf : forall off k, (off + k <= 2 \/ 3 <= off)%nat ->
     field off k (q_message (stored 2 [b] c)) = field off k (q_message c)).
  { intros off k Hok. cbn. apply field_store_other; cbn; rewrite ?Hl; unfold MQTTSN_MAX_PACKET; lia. }
  revert Hw. unfold awaits, msg_type_of.
  change (q_state (stored 2 [b] c)) with (q_state c). rewrite !Hf by lia. done.
Qed.

Lemma sent_quiet_ok ty size c :
  mq_ok n c -> is_u8 ty -> (size <= MQTTSN_MAX_PACKET)%nat -> waiting (q_state c) = false ->
  mq_ok n (sent now ty size false c).
Proof.
  intros [Hb Ha Hw] Ht Hs Hst. split; [by apply sent_base|done|].
  change (q_state (sent now ty size false c)) with (q_state c). by destruct (q_state c).
Qed.

Lemma publish_flags_u8 qos : is_u8 (publish_flags qos) /\ is_u8 (Z.lor (publish_flags qos) MQTTSN_FLAG_DUP).
Proof. unfold publish_flags. destruct (qos =? 0); split; split; vm_compute; congruence. Qed.

Lemma next_id_base c v : mq_base n c -> is_u16 v -> mq_base n (set_q_next_id v c).
Proof. intros [] Hv. by split. Qed.

Lemma total_publish i qos data :
  (i < MQTTSN_MAX_CLIENT_TOPICS)%nat -> 0 <= qos -> bytes data ->
  total (mq_ok n) (mqttsn_c_publish now i qos data) (mq_ok n).
Proof.
  intros Hi Hq Hd. unfold mqttsn_c_publish. apply total_get; intros c Hc.
  destruct (negb _) eqn:Es; [by apply line_end|].
  boolify. apply bool_decide_eq_true in Es.
  destruct (Nat.ltb_spec MQTTSN_MAX_PACKET (sizeof_publish + length data)) as [|Hsz]; [by apply line_end|].
  pose proof (mo_base _ _ Hc) as Hb. destruct (publish_flags_u8 qos) as [Hf Hf'].
  assert (Hid : exists v, q_topic_ids c !! i = Some v)
    by (apply lookup_lt_is_Some; rewrite (mb_ids_length _ _ Hb); done).
  destruct Hid as [v Hv].
  set (c1 := if 0 <? qos then entered mqttsnBusy c else c).
  assert (Hc1 : mq_base n c1) by (unfold c1; destruct (0 <? qos); [by apply entered_base|done]).
  eapply (total_bind _ (fun x => x = c1)).
  { unfold c1. destruct (0 <? qos); [apply line_to_state|by apply line_end]. }
  intros _. eapply total_bind; [apply line_poke; size_tac|intros _]. rewrite Hv.
  eapply total_bind; [apply line_poke; size_tac|intros _].
  eapply total_bind; [apply line_mod|intros _].
  eapply total_bind; [apply line_poke; size_tac|intros _].
  eapply total_bind; [apply line_poke; unfold sizeof_publish in *; lia|intros _].
  eapply total_bind; [by apply line_send|intros _].
  eapply total_bind; [apply line_poke; size_tac|intros _].
  apply total_get. intros ? ->. apply line_end. apply stored_flags_ok; [|done].
  match goal with |- mq_ok n (sent _ _ _ _ ?x) => assert (Hx : mq_base n x) end.
  { apply stored_base; [|size_tac|done|unfold sizeof_publish in *; lia].
    apply stored_base; [|lia|apply le_bytes_bytes|size_tac]. apply next_id_base; [|apply u16_range].
    apply stored_base; [|lia|apply le_bytes_bytes|size_tac].
    apply stored_base; [done|lia|by apply one_byte|size_tac]. }
  unfold c1 in *. destruct (Z.ltb_spec 0 qos) as [Hpos|Hz].
  - replace (qos =? 0) with false by (symmetry; apply Z.eqb_neq; lia).
    apply sent_ok; try done. right; right. by eapply sent_type.
  - replace (qos =? 0) with true by (symmetry; apply Z.eqb_eq; lia).
    apply sent_quiet_ok; [|done|done|by cbn; rewrite Es]. destruct Hc as [_ Ha _].
    split; [done|done|]. cbn. by rewrite Es.
Qed.

(** What the application may do in a callback: documented arguments only. *)
Inductive prog_ok : mq_prog -> Prop :=
| prog_return : prog_ok MqReturn
| prog_publish i qos data k :
    (i < MQTTSN_MAX_CLIENT_TOPICS)%nat -> 0 <= i32 qos -> (forall r, prog_ok (k r)) ->
    prog_ok (MqCallPublish i qos data k)
| prog_connect k : prog_ok k -> prog_ok (MqCallConnect k)
| prog_disconnect d k : prog_ok k -> prog_ok (MqCallDisconnect d k).

Hypothesis Happ : forall l, prog_ok (mq_app l).

Lemma map_u8_bytes' l : bytes (map u8 l).
Proof. apply Forall_map, Forall_true. apply u8_range. Qed.

Lemma total_run_app prog : prog_ok prog -> total (mq_ok n) (run_mq_app now prog) (mq_ok n).
Proof.
  induction 1 as [|i qos data k Hi Hq _ IH|k _ IH|d k _ IH]; cbn [run_mq_app].
  - apply total_ret.
  - eapply total_bind; [by apply total_publish; [..|apply map_u8_bytes']|]. intros r. apply IH.
  - eapply total_bind; [apply total_connect|]. intros _. apply IH.
  - eapply total_bind; [apply total_disconnect|]. intros _. apply IH.
Qed.

Lemma total_upcall e : total (mq_ok n) (mq_upcall now e) (mq_ok n).
Proof.
  unfold mq_upcall. eapply total_bind; [apply total_emit|intros _].
  eapply total_bind; [apply total_log|intros l]. by apply total_run_app.
Qed.

(** ** Inbound messages *)

Lemma total_connack buf : total (mq_ok n) (mqttsn_connack_handler buf) (mq_ok n).
Proof.
  unfold mqttsn_connack_handler. destruct (_ <? _)%nat; [apply total_ret|].
  apply total_get; intros c Hc. destruct (_ || _); [by apply line_end|].
  pose proof (mo_base _ _ Hc) as Hb.
  assert (Hb0 : mq_base n (set_q_count 0 c)) by (destruct Hb; split; cbn; auto; lia).
  destruct (_ =? _).
  - eapply total_bind; [apply line_mod|intros _].
    destruct (q_is_registered c); (apply total_to_state; [by intros ? ->|done]).
  - apply total_to_state; [by intros ? ->|done].
Qed.

Lemma topic_id_base i v c :
  mq_base n c -> 0 <= i < Z.of_nat n -> is_u16 v ->
  mq_base n (set_q_topic_ids (<[Z.to_nat i := v]> (q_topic_ids c)) c).
Proof.
  intros [] Hi Hv. split; cbn; auto.
  - by rewrite length_insert.
  - by apply Forall_insert.
  - intros j x Hj. rewrite list_lookup_insert_ne by lia. by apply mb_ids_unused0.
Qed.

Lemma total_set_topic_id i v c :
  mq_base n c -> 0 <= i < Z.of_nat n -> is_u16 v ->
  total (fun x => x = c) (set_topic_id i v) (mq_base n).
Proof.
  intros Hb Hi Hv. unfold set_topic_id.
  destruct (mb_topics _ _ Hb) as (Hn & _). unfold MQTTSN_MAX_CLIENT_TOPICS in *.
  replace (i <? Z.of_nat 16) with true by (symmetry; apply Z.ltb_lt; lia).
  eapply total_bind; [apply total_ret|intros _]. apply total_mod. intros ? ->.
  by apply topic_id_base.
Qed.

Lemma total_regack buf : bytes buf -> total (mq_ok n) (mqttsn_regack_handler buf) (mq_ok n).
Proof.
  intros Hbuf. unfold mqttsn_regack_handler. destruct (_ <? _)%nat; [apply total_ret|].
  apply total_get; intros c Hc. destruct (_ || _) eqn:Eo; [by apply line_end|].
  destruct (negb (_ =? field _ 2 _)) eqn:Eid; [by apply line_end|].
  apply orb_false_iff in Eo as [Es Et]. boolify. apply bool_decide_eq_true in Es.
  pose proof Hc as [Hb _ Ha]. rewrite Es in Ha. cbn [awaits] in Ha. rewrite <- Eid in Ha.
  assert (Hlt : mqttsn_ntohs (field 4 2 buf) < Z.of_nat n) by
    (rewrite Et in Ha; destruct Ha as [[? ?]|[[? ?]|?]]; done || discriminate).
  eapply (total_bind _ (mq_base n)).
  - destruct (_ =? _); [|by apply line_end]. apply total_set_topic_id; [done| |apply htons_u16].
    split; [apply htons_u16|done].
  - intros _. by apply total_to_state.
Qed.

Lemma total_suback buf : bytes buf -> total (mq_ok n) (mqttsn_suback_handler buf) (mq_ok n).
Proof.
  intros Hbuf. unfold mqttsn_suback_handler. destruct (_ <? _)%nat; [apply total_ret|].
  apply total_get; intros c Hc. destruct (_ || _) eqn:Eo; [by apply line_end|].
  destruct (negb (_ =? field _ 2 _)) eqn:Eid; [by apply line_end|].
  apply orb_false_iff in Eo as [Es Et]. boolify. apply bool_decide_eq_true in Es.
  pose proof Hc as [Hb _ Ha]. rewrite Es in Ha. cbn [awaits] in Ha. rewrite <- Eid in Ha.
  assert (Hlt : mqttsn_ntohs (field 5 2 buf) < Z.of_nat n) by
    (rewrite Et in Ha; destruct Ha as [[? ?]|[[? ?]|?]]; done || discriminate).
  eapply (total_bind _ (mq_base n)).
  - destruct (_ =? _); [|by apply line_end]. apply total_set_topic_id; [done| |apply htons_u16].
    split; [apply htons_u16|done].
  - intros _. by apply total_to_state.
Qed.

(** A non-zero topic ID is only ever found at a registered index. *)
Lemma find_subscription_safe c id k : forall i,
  mq_base n c -> id <> 0 -> (i + k <= MQTTSN_MAX_CLIENT_TOPICS)%nat ->
  exists r, find_subscription c id i k = Some r /\
    (forall j, r = Some j -> (j < n)%nat /\ q_topic_ids c !! j = Some id).
Proof.
  induction k as [|k IH]; intros i Hb Hid Hik; cbn [find_subscription]; [by exists None|].
  destruct (IH (S i) Hb Hid) as (r & Hr & Hj); [lia|].
  assert (Hi : (i < length (q_topic_ids c))%nat) by (rewrite (mb_ids_length _ _ Hb); lia).
  apply lookup_lt_is_Some in Hi as [v Hv]. rewrite Hv. change (default 0 (Some v)) with v.
  destruct (Z.eqb_spec v id) as [->|]; [|eauto].
  assert (Hin : (i < n)%nat).
  { destruct (decide (i < n)%nat); [done|]. exfalso. apply Hid.
    eapply (mb_ids_unused _ _ Hb i); [lia|done]. }
  destruct (mb_topics _ _ Hb) as (_ & Hlen & _).
  assert (Ht : (i < length (q_topics c))%nat) by lia. apply lookup_lt_is_Some in Ht as [t ->].
  destruct (_ &? _); [|eauto]. exists (Some i). split; [done|]. intros j [= <-]. auto.
Qed.

(** A received packet: bytes, and no publication to topic ID 0. *)
Definition inbound_ok (buf : list Z) : Prop :=
  bytes buf /\ (field 1 1 buf = MQTTSN_PUBLISH -> field 3 2 buf <> 0).

Lemma ntohs_zero a : is_u16 a -> mqttsn_ntohs a = 0 -> a = 0.
Proof. intros Ha H. rewrite <- (htons_involutive a Ha). unfold mqttsn_ntohs in *. by rewrite H. Qed.

Lemma total_publish_handler buf :
  bytes buf -> field 3 2 buf <> 0 -> total (mq_ok n) (mqttsn_publish_handler now buf) (mq_ok n).
Proof.
  intros Hb Hz. unfold mqttsn_publish_handler. destruct (_ <? _)%nat; [apply total_ret|].
  apply total_get; intros c Hc.
  destruct (find_subscription_safe c (mqttsn_ntohs (field 3 2 buf)) MQTTSN_MAX_CLIENT_TOPICS 0)
    as (r & -> & _); [apply Hc|intros H0; apply Hz; apply ntohs_zero; [by apply field_u16|done]|lia|].
  destruct r as [j|]; [|by apply line_end].
  apply total_when; [|by intros ? ->].
  eapply total_weaken; [apply total_upcall|by intros ? ->|done].
Qed.

Lemma total_puback buf : total (mq_ok n) (mqttsn_puback_handler now buf) (mq_ok n).
Proof.
  unfold mqttsn_puback_handler. destruct (_ <? _)%nat; [apply total_ret|].
  apply total_get; intros c Hc. do 2 (destruct (negb _); [by apply line_end|]).
  eapply (total_bind _ (mq_ok n)).
  - apply total_when; [|by intros ? ->].
    eapply total_weaken; [apply total_upcall|by intros ? ->|done].
  - intros _. apply total_to_state; [intros x Hx; apply Hx|done].
Qed.

(** ** Registration of the topics *)

Lemma msg_id_wire k : (k < n)%nat -> (n <= MQTTSN_MAX_CLIENT_TOPICS)%nat ->
  mqttsn_ntohs (le_val (le_bytes 2 (mqttsn_htons (u16 (Z.of_nat k))))) = Z.of_nat k.
Proof.
  intros Hk Hn. unfold MQTTSN_MAX_CLIENT_TOPICS in Hn. rewrite le_val_bytes_id by apply htons_u16.
  rewrite u16_id by (widths; lia). apply htons_involutive. widths; lia.
Qed.

Lemma count_base c : mq_base n c -> (q_count c < n)%nat -> mq_base n (set_q_count (S (q_count c)) c).
Proof. intros [] H. split; cbn; auto. Qed.

Lemma count_ok c : mq_ok n c -> (q_count c < n)%nat -> mq_ok n (set_q_count (S (q_count c)) c).
Proof. intros [Hb Ha Hw] H. split; [by apply count_base|done|done]. Qed.

Lemma total_register k name c :
  mq_base n c -> (k < n)%nat -> (length name <= 57)%nat -> bytes name ->
  total (fun x => x = c) (mqttsn_register now k name)
    (fun x => mq_ok n x /\ q_count x = q_count c).
Proof.
  intros Hb Hk Hl Hn. unfold mqttsn_register. destruct (mb_topics _ _ Hb) as (Hmax & _).
  assert (Hname : bytes (name ++ [0])) by (apply app_bytes; [done|apply one_byte; split; lia]).
  lines. apply line_end.
  match goal with |- mq_ok n (sent _ _ _ _ ?x) /\ _ => set (c1 := x) end.
  assert (Hc1 : mq_base n c1) by (unfold c1; base_tac).
  split; [|done]. apply sent_ok; try done; [size_tac|]. left.
  split; [by eapply sent_type|]. rewrite (sent_field now n) by (done || lia). unfold c1.
  assert (Hlen : length (q_message c) = 64%nat) by apply Hb.
  cbn [q_message stored set_q_message].
  rewrite field_store_other by (rewrite ?length_app, ?length_inserts; cbn; rewrite ?Hlen; unfold sizeof_register in *; cbn; lia).
  rewrite field_store_same by (rewrite ?le_bytes_length, ?length_inserts; cbn; rewrite ?Hlen; lia).
  rewrite msg_id_wire by done. lia.
Qed.

Lemma subscribe_flags_u8 q : is_u8 (subscribe_flags q) /\ is_u8 (Z.lor (subscribe_flags q) MQTTSN_FLAG_DUP).
Proof. unfold subscribe_flags. destruct (q =? 0); split; split; vm_compute; congruence. Qed.

Lemma total_subscribe k name q c :
  mq_base n c -> (k < n)%nat -> (length name <= 57)%nat -> bytes name ->
  total (fun x => x = c) (mqttsn_subscribe now k name q)
    (fun x => mq_ok n x /\ q_count x = q_count c).
Proof.
  intros Hb Hk Hl Hn. unfold mqttsn_subscribe. destruct (mb_topics _ _ Hb) as (Hmax & _).
  destruct (subscribe_flags_u8 q) as [Hf Hf']. apply one_byte in Hf as Hfb.
  assert (Hname : bytes (name ++ [0])) by (apply app_bytes; [done|apply one_byte; split; lia]).
  lines. eapply line_last; [apply line_poke; size_tac|].
  split; [|done]. apply stored_flags_ok; [|done].
  match goal with |- mq_ok n (sent _ _ _ _ ?x) => set (c1 := x) end.
  assert (Hc1 : mq_base n c1) by (unfold c1; base_tac).
  apply sent_ok; try done; [size_tac|]. right; left.
  split; [by eapply sent_type|]. rewrite (sent_field now n) by (done || lia). unfold c1.
  assert (Hlen : length (q_message c) = 64%nat) by apply Hb.
  cbn [q_message stored set_q_message].
  rewrite field_store_other by (rewrite ?length_app, ?length_inserts; cbn; rewrite ?Hlen; cbn; lia).
  rewrite field_store_same by (rewrite ?le_bytes_length, ?length_inserts; cbn; rewrite ?Hlen; lia).
  rewrite msg_id_wire by done. lia.
Qed.

Lemma total_registrations : total (mq_ok n) (handle_registrations now) (mq_ok n).
Proof.
  unfold handle_registrations. apply total_get; intros c Hc.
  destruct (bool_decide _); [|by apply line_end]. pose proof (mo_base _ _ Hc) as Hb.
  destruct (mb_topics _ _ Hb) as (Hmax & Hlen & Hend & Hnames).
  pose proof (mb_count _ _ Hb) as Hcount.
  assert (Hlk : (q_count c < length (q_topics c))%nat) by lia.
  apply lookup_lt_is_Some in Hlk as [[nm fl] Ht]. rewrite Ht.
  destruct nm as [name|].
  - assert (Hk : (q_count c < n)%nat).
    { destruct (decide (q_count c = n)) as [He|]; [|lia]. rewrite He in Ht. by apply Hend in Ht. }
    destruct (Hnames _ _ Hk Ht) as (name' & E' & Hl & Hbn). cbn in E'. simplify_eq.
    eapply (total_bind _ (fun x => mq_ok n x /\ q_count x = q_count c)).
    + destruct (_ &? _); [by apply total_subscribe|by apply total_register].
    + intros _. apply total_mod. intros x [Hx Hcx]. apply count_ok; [done|by rewrite Hcx].
  - eapply total_bind; [apply line_mod|intros _]. apply total_to_state; [|done].
    intros ? ->. destruct Hb. split; cbn; auto. lia.
Qed.

(** ** The periodic part *)

Lemma total_cb_send size :
  (size <= MQTTSN_MAX_PACKET)%nat -> forall Pre, total Pre (cb_send size) Pre.
Proof.
  intros Hs Pre. unfold cb_send, guard. apply Nat.leb_le in Hs. rewrite Hs.
  eapply total_bind; [apply total_ret|intros _]. apply total_get; intros c Hc.
  eapply total_bind; [apply total_emit|intros _]. eapply total_bind; [apply total_log|intros l].
  by apply line_end.
Qed.

Lemma total_retry : total (mq_ok n) (handle_retry now) (mq_ok n).
Proof.
  unfold handle_retry. apply total_get; intros c Hc. pose proof Hc as [Hb Ha Hw].
  destruct (negb (q_t_retry c =? 0) && _) eqn:Ed; [|by apply line_end]. boolify.
  destruct (negb _) eqn:Er; boolify.
  - eapply total_bind; [apply line_mod|intros _].
    eapply total_bind; [apply total_cb_send|intros _].
    { pose proof (mb_length _ _ Hb). lia. }
    apply line_end. destruct Hb. split; [split; cbn; auto; lia| |done].
    cbn. unfold MQTTSN_T_RETRY. split; [by intros _; apply Ha|lia].
  - apply total_to_state; [by intros ? ->|done].
Qed.

Lemma total_ping : total (mq_ok n) (handle_ping now) (mq_ok n).
Proof.
  unfold handle_ping. apply total_get; intros c Hc.
  destruct (_ && _) eqn:Ed; [|by apply line_end]. boolify. apply bool_decide_eq_true in H.
  lines. apply line_end. apply sent_quiet_ok; try done; [size_tac|by rewrite H].
Qed.

Lemma total_inbound packet :
  (forall buf, packet = Some buf -> inbound_ok buf) ->
  total (mq_ok n) (handle_inbound now packet) (mq_ok n).
Proof.
  intros Hp. destruct packet as [buf|]; cbn [handle_inbound]; [|apply total_ret].
  destruct (Hp buf eq_refl) as [Hb Hpub]. destruct (_ || _); [apply total_ret|].
  destruct (field 1 1 buf =? MQTTSN_CONNACK); [apply total_connack|].
  destruct (field 1 1 buf =? MQTTSN_REGISTER); [apply total_ret|].
  destruct (field 1 1 buf =? MQTTSN_REGACK); [by apply total_regack|].
  destruct (Z.eqb_spec (field 1 1 buf) MQTTSN_PUBLISH); [by apply total_publish_handler; auto|].
  destruct (field 1 1 buf =? MQTTSN_PUBACK); [apply total_puback|].
  destruct (field 1 1 buf =? MQTTSN_SUBACK); [by apply total_suback|].
  destruct (field 1 1 buf =? MQTTSN_DISCONNECT); [|apply total_ret].
  apply total_to_state; [by intros ? []|done].
Qed.

Lemma total_handler packet :
  (forall buf, packet = Some buf -> inbound_ok buf) ->
  total (mq_ok n) (mqttsn_c_handler now packet) (mq_ok n).
Proof.
  intros Hp. unfold mqttsn_c_handler.
  eapply total_bind; [apply total_retry|intros _]. eapply total_bind; [apply total_ping|intros _].
  eapply total_bind; [by apply total_inbound|intros _]. apply total_registrations.
Qed.
End Safety.
