(* ===== verification/MqttProps.v ===== *)
(** * The MQTT-SN client: theorems

    Memory safety and the invariant over every history, bounded waiting,
    keep-alive, topic registration, publication, and behaviours that depart
    from the intent of the code. *)

From stdpp Require Import base list numbers.
From Stdlib Require Import ZArith Lia.
From S2P Require Import Prelude Wire MqttSn MqttInv.

#[local] Open Scope mq_scope.
#[local] Arguments field : simpl never.
#[local] Arguments list_inserts : simpl never.

(** ** Histories *)

(** One call into the client, with the clock at that time. *)
Inductive mq_op :=
| OpHandler (now : Z) (packet : option (list Z))
| OpConnect (now : Z)
| OpDisconnect (now : Z) (duration : Z)
| OpPublish (now : Z) (topic_index : nat) (qos : Z) (data : list Z)
| OpSetPublishCallback (cb : bool)
| OpSetPubackCallback (cb : bool).

Definition op_ok (op : mq_op) : Prop :=
  match op with
  | OpHandler now packet => 0 <= now /\ forall buf, packet = Some buf -> inbound_ok buf
  | OpConnect now => 0 <= now
  | OpDisconnect now _ => 0 <= now
  | OpPublish now i qos data => 0 <= now /\ (i < MQTTSN_MAX_CLIENT_TOPICS)%nat /\ 0 <= qos /\ bytes data
  | _ => True
  end.

Section Props.
Context `{E : MqEnv}.

Definition exec (op : mq_op) : Q unit :=
  match op with
  | OpHandler now packet => mqttsn_c_handler now packet
  | OpConnect now => mqttsn_c_connect now
  | OpDisconnect now d => mqttsn_c_disconnect now d
  | OpPublish now i qos data => mqttsn_c_publish now i qos data ;; qret tt
  | OpSetPublishCallback cb => mqttsn_c_set_publish_callback cb
  | OpSetPubackCallback cb => mqttsn_c_set_puback_callback cb
  end.

Fixpoint run_ops (ops : list mq_op) (w : mq_world) : option mq_world :=
  match ops with
  | [] => Some w
  | op :: ops => match exec op w with Some (_, w') => run_ops ops w' | None => None end
  end.

Definition mq_boot (client_id : list Z) (topics : list mqttsn_c_topic_t) : mq_world :=
  mk_mqw (mqttsn_c_init client_id topics) [].

(** A C string. *)
Definition c_string (s : list Z) : Prop := bytes s /\ Forall (fun b => b <> 0) s.

Lemma c_strlen_app s rest : Forall (fun b => b <> 0) s -> c_strlen (s ++ 0 :: rest) = Some (length s).
Proof.
  induction 1 as [|b s Hb _ IH]; [done|]. cbn [app c_strlen length]. apply Z.eqb_neq in Hb.
  by rewrite Hb, IH.
Qed.

Lemma init_ok n client_id topics :
  c_string client_id -> (length client_id <= 15)%nat -> dictionary_ok n topics ->
  mq_ok n (mqttsn_c_init client_id topics).
Proof.
  intros [Hb Hz] Hl Hd. unfold mqttsn_c_init.
  assert (Hid : strncpy client_id MQTTSN_MAX_CLIENT_ID =
                client_id ++ 0 :: replicate (15 - length client_id) 0).
  { unfold strncpy, MQTTSN_MAX_CLIENT_ID. rewrite take_ge by lia.
    replace (16 - length client_id)%nat with (S (15 - length client_id)) by lia. done. }
  split; [split|done|done]; cbn [q_message q_count q_n_retries q_next_id q_topics q_topic_ids q_client_id];
    try done; try lia.
  - apply (Forall_replicate is_u8 64 0). widths; lia.
  - apply (Forall_replicate is_u16 16 0). widths; lia.
  - intros i v _ Hv. by apply lookup_replicate in Hv as [-> _].
  - exists (length client_id). split; [|done]. rewrite Hid. by apply c_strlen_app.
  - by apply strncpy_bytes.
Qed.

Hypothesis Happ : forall l, prog_ok (mq_app l).

Lemma total_exec n op : op_ok op -> total (mq_ok n) (exec op) (mq_ok n).
Proof.
  destruct op as [now p|now|now d|now i q data|cb|cb]; cbn [op_ok exec].
  - intros [Hn Hp]. by apply total_handler.
  - intros Hn. by apply total_connect.
  - intros Hn. by apply total_disconnect.
  - intros (Hn & Hi & Hq & Hd). eapply total_bind; [by apply total_publish|intros ?; apply total_ret].
  - intros _. apply total_mod. intros c [[] ? ?]. split; [by split|done|done].
  - intros _. apply total_mod. intros c [[] ? ?]. split; [by split|done|done].
Qed.

Lemma run_ops_total n ops : Forall op_ok ops -> forall w, mq_ok n (mq w) ->
  exists w', run_ops ops w = Some w' /\ mq_ok n (mq w').
Proof.
  induction 1 as [|op ops Hop _ IH]; intros w Hw; cbn [run_ops]; [eauto|].
  destruct (total_exec n op Hop w Hw) as (a & w' & -> & Hw'). by apply IH.
Qed.

(** C27: memory safety and invariant of the MQTT-SN client: started with a client
    ID of at most 15 characters and a dictionary of at most 16 topics whose
    names have at most 57 characters, no sequence of interface calls and
    received packets - whatever the gateway sends, short of a publication to
    topic ID 0, and whatever documented calls the application makes from its
    callbacks - makes the client touch memory outside its arrays; and in every
    context so reached a state that waits for an answer has its retry timer
    armed and the message awaiting the answer in place, while the other states
    have no timer armed. *)
Theorem client_never_faults n client_id topics ops :
  c_string client_id -> (length client_id <= 15)%nat -> dictionary_ok n topics ->
  Forall op_ok ops ->
  exists w, run_ops ops (mq_boot client_id topics) = Some w /\ mq_ok n (mq w).
Proof.
  intros Hc Hl Hd Hops. apply run_ops_total; [done|]. by apply init_ok.
Qed.

(** ** Bounded waiting *)

(** The message that would be sent again. *)
Definition pending_message (c : mqttsn_c_t) : list Z :=
  take (Z.to_nat (field 0 1 (q_message c))) (q_message c).

(** Without a packet, only [Connected] and [Registering] have work left. *)
Lemma rest_idle now w :
  q_state (mq w) <> mqttsnConnected -> q_state (mq w) <> mqttsnRegistering ->
  (handle_ping now ;; handle_inbound now None ;; handle_registrations now) w = Some (tt, w).
Proof.
  intros H1 H2. unfold handle_ping, handle_inbound, handle_registrations, qbind, qget.
  rewrite bool_decide_eq_false_2 by done. rewrite andb_false_l. unfold qret.
  by rewrite bool_decide_eq_false_2.
Qed.

Lemma poll_retry now w :
  waiting (q_state (mq w)) = true -> q_t_retry (mq w) <> 0 -> q_t_retry (mq w) <= now ->
  field 0 1 (q_message (mq w)) <= Z.of_nat MQTTSN_MAX_PACKET ->
  mqttsn_c_handler now None w =
  Some (tt, if q_n_retries (mq w) =? 0
            then mk_mqw (entered mqttsnDisconnected (mq w)) (mq_log w)
            else mk_mqw (set_q_next_ping (now + MQTTSN_KEEP_ALIVE)
                           (set_q_t_retry (now + MQTTSN_T_RETRY)
                              (set_q_n_retries (q_n_retries (mq w) - 1) (mq w))))
                   (MqSend (pending_message (mq w)) :: mq_log w)).
Proof.
  intros Hst Hz Ht Hl. unfold mqttsn_c_handler, qbind at 1.
  assert (Hr : handle_retry now w = Some (tt, if q_n_retries (mq w) =? 0
            then mk_mqw (entered mqttsnDisconnected (mq w)) (mq_log w)
            else mk_mqw (set_q_next_ping (now + MQTTSN_KEEP_ALIVE)
                           (set_q_t_retry (now + MQTTSN_T_RETRY)
                              (set_q_n_retries (q_n_retries (mq w) - 1) (mq w))))
                   (MqSend (pending_message (mq w)) :: mq_log w))).
  { unfold handle_retry, qbind at 1, qget at 1.
    replace (q_t_retry (mq w) =? 0) with false by (symmetry; by apply Z.eqb_neq).
    replace (q_t_retry (mq w) <=? now) with true by (symmetry; by apply Z.leb_le). cbn [negb andb].
    destruct (q_n_retries (mq w) =? 0); cbn [negb]; [done|].
    unfold cb_send, guard, qmod, qbind, qget, qemit, qlog, qret. cbn [mq mq_log q_message].
    replace (Z.to_nat (field 0 1 (q_message (mq w))) <=? MQTTSN_MAX_PACKET)%nat with true
      by (symmetry; apply Nat.leb_le; lia). done. }
  rewrite Hr. destruct (q_n_retries (mq w) =? 0); apply rest_idle; cbn; try done.
  all: revert Hst; by destruct (q_state (mq w)).
Qed.

(** Polling at each of a list of times. *)
Fixpoint polls (times : list Z) (w : mq_world) : option mq_world :=
  match times with
  | [] => Some w
  | t :: times => match mqttsn_c_handler t None w with Some (_, w') => polls times w' | None => None end
  end.

(** The times are at least the retry interval apart. *)
Fixpoint spaced (from : Z) (times : list Z) : Prop :=
  match times with
  | [] => True
  | t :: times => from <= t /\ spaced (t + MQTTSN_T_RETRY) times
  end.

Lemma last_cons_default (x d : Z) l : List.last (x :: l) d = List.last l x.
Proof.
  revert x d. induction l as [|y l IH]; intros x d; [done|].
  change (List.last (x :: y :: l) d) with (List.last (y :: l) d). by rewrite !IH.
Qed.

Lemma polls_retry times : forall w,
  waiting (q_state (mq w)) = true -> 0 < q_t_retry (mq w) -> spaced (q_t_retry (mq w)) times ->
  field 0 1 (q_message (mq w)) <= Z.of_nat MQTTSN_MAX_PACKET ->
  q_n_retries (mq w) = Z.of_nat (length times) ->
  exists w', polls times w = Some w' /\ q_state (mq w') = q_state (mq w) /\
    q_message (mq w') = q_message (mq w) /\ q_n_retries (mq w') = 0 /\ 0 < q_t_retry (mq w') /\
    q_t_retry (mq w') = List.last times (q_t_retry (mq w) - MQTTSN_T_RETRY) + MQTTSN_T_RETRY /\
    mq_log w' = replicate (length times) (MqSend (pending_message (mq w))) ++ mq_log w.
Proof.
  induction times as [|t times IH]; intros w Hst Hz Hsp Hl Hr.
  { exists w. split_and!; try done. cbn; lia. }
  cbn [polls spaced] in *. destruct Hsp as [Ht Hsp].
  rewrite poll_retry by (done || lia). rewrite Hr.
  replace (Z.of_nat (length (t :: times)) =? 0) with false by (symmetry; apply Z.eqb_neq; cbn; lia).
  set (w1 := mk_mqw _ _). unfold MQTTSN_T_RETRY in *.
  destruct (IH w1) as (w' & H1 & H2 & H3 & H4 & H5 & H6 & H7);
    [done|cbn; lia|done|done|cbn in *; lia|].
  exists w'. split_and!; try done.
  - rewrite H6, last_cons_default. change (q_t_retry (mq w1)) with (t + 5).
    by replace (t + 5 - 5) with t by lia.
  - rewrite H7. change (pending_message (mq w1)) with (pending_message (mq w)).
    change (mq_log w1) with ([MqSend (pending_message (mq w))] ++ mq_log w).
    rewrite app_assoc, <- replicate_cons_app. done.
Qed.

(** C29: a request that is never answered is sent again exactly as often as there
    are retries left - the same bytes each time and nothing else - if the
    handler is called when each retry is due, and at the next call after that
    the client gives up and is disconnected. *)
Theorem unanswered_request_gives_up n w times t :
  mq_ok n (mq w) -> waiting (q_state (mq w)) = true -> 0 < q_t_retry (mq w) ->
  Z.of_nat (length times) = q_n_retries (mq w) ->
  spaced (q_t_retry (mq w)) (times ++ [t]) ->
  exists w1 w2, polls times w = Some w1 /\ polls [t] w1 = Some w2 /\
    mq_log w1 = replicate (length times) (MqSend (pending_message (mq w))) ++ mq_log w /\
    q_state (mq w1) = q_state (mq w) /\
    mq_log w2 = mq_log w1 /\ q_state (mq w2) = mqttsnDisconnected /\ q_t_retry (mq w2) = 0.
Proof.
  intros Hok Hst Hz Hr Hsp.
  assert (Hsplit : forall l from, spaced from (l ++ [t]) ->
            spaced from l /\ List.last l (from - MQTTSN_T_RETRY) + MQTTSN_T_RETRY <= t).
  { clear. induction l as [|x l IH]; intros from; cbn [app spaced].
    - cbn. lia.
    - intros [H1 H2]. apply IH in H2 as [H2 H3]. split; [done|].
      rewrite last_cons_default.
      by replace (x + MQTTSN_T_RETRY - MQTTSN_T_RETRY) with x in H3 by lia. }
  apply Hsplit in Hsp as [Hsp Hlast]. pose proof (mb_length _ _ (mo_base _ _ Hok)) as Hlen.
  destruct (polls_retry times w Hst Hz Hsp Hlen (eq_sym Hr)) as (w1 & H1 & H2 & H3 & H4 & H5 & H6 & H7).
  exists w1. eexists. split; [done|]. cbn [polls].
  rewrite poll_retry; [|congruence|lia|lia|by rewrite H3]. rewrite H4. split; [done|]. done.
Qed.

(** Keep-alive: a connected client polled before the ping is due does
    nothing at all; polled when it is due, it sends exactly one PINGREQ and next
    has to send in [MQTTSN_KEEP_ALIVE] seconds, staying connected. *)
Theorem keep_alive n now w :
  mq_ok n (mq w) -> q_state (mq w) = mqttsnConnected ->
  exists w', mqttsn_c_handler now None w = Some (tt, w') /\
    q_state (mq w') = mqttsnConnected /\
    (now < q_next_ping (mq w) -> w' = w) /\
    (q_next_ping (mq w) <= now ->
       mq_log w' = MqSend [2; MQTTSN_PINGREQ] :: mq_log w /\
       q_next_ping (mq w') = now + MQTTSN_KEEP_ALIVE).
Proof.
  intros [Hb Ha _] Hs. rewrite Hs in Ha. cbn [waiting] in Ha.
  assert (Hz : q_t_retry (mq w) = 0).
  { destruct (decide (q_t_retry (mq w) = 0)); [done|]. exfalso. by apply Ha in n0. }
  unfold mqttsn_c_handler, handle_retry, qbind at 1 2, qget at 1. rewrite Hz.
  change (negb (0 =? 0)) with false. rewrite andb_false_l. unfold qret at 1.
  unfold handle_ping, qbind at 1 2, qget at 1. rewrite Hs, bool_decide_eq_true_2 by done.
  rewrite andb_true_l. destruct (Z.leb_spec (q_next_ping (mq w)) now) as [Hle|Hlt].
  - destruct (send_run now MQTTSN_PINGREQ sizeof_pingreq false w) as [rc Hr];
      [unfold sizeof_pingreq, MQTTSN_MAX_PACKET; lia|].
    unfold qbind at 1. rewrite Hr. unfold qret at 1.
    unfold handle_inbound, handle_registrations, qbind, qget, qret. cbn [mq].
    rewrite bool_decide_eq_false_2 by (cbn; rewrite Hs; done).
    eexists; split_and!; [done|by cbn|lia|]. intros _. split; [|done]. cbn [mq_log]. f_equal. f_equal.
    pose proof (mb_message _ _ Hb) as Hl. cbn [sent q_message set_q_next_ping stored set_q_message].
    destruct (q_message (mq w)) as [|b0 [|b1 msg]]; [done|done|]. done.
  - unfold qret at 1. unfold handle_inbound, handle_registrations, qbind, qget, qret.
    rewrite Hs, bool_decide_eq_false_2 by done. eexists; split_and!; [done|done|done|lia].
Qed.

(** ** Wire format of the messages the client builds *)

(** Six leading bytes of a message array. *)
Lemma message_split (m : list Z) :
  length m = MQTTSN_MAX_PACKET ->
  exists b0 b1 b2 b3 b4 b5 b6 rest, m = b0 :: b1 :: b2 :: b3 :: b4 :: b5 :: b6 :: rest /\ length rest = 57%nat.
Proof.
  intros H. do 7 (destruct m as [|? m]; [done|]). do 8 eexists. split; [done|].
  unfold MQTTSN_MAX_PACKET in H. cbn in H. lia.
Qed.

Lemma register_wire m size ty k name :
  length m = MQTTSN_MAX_PACKET -> (length name <= 57)%nat -> is_u16 k ->
  take (6 + length name)
    (list_inserts 1 [ty] (list_inserts 0 [size]
      (list_inserts 6 (name ++ [0])
        (list_inserts 4 (le_bytes 2 (mqttsn_htons k)) (list_inserts 2 (le_bytes 2 0) m))))) =
  [size; ty; 0; 0; k / 256; k mod 256] ++ name.
Proof.
  intros Hm Hn Hk. rewrite htons_wire by done.
  destruct (message_split m Hm) as (b0 & b1 & b2 & b3 & b4 & b5 & b6 & rest & -> & Hr).
  rewrite (inserts_split 6).
  - change (take 6 _) with [b0; b1; 0; 0; k / 256; k mod 256]. rewrite <- app_assoc.
    change (list_inserts 1 [ty] _) with
      (size :: ty :: 0 :: 0 :: k / 256 :: k mod 256 :: name ++ [0] ++
         drop (6 + length (name ++ [0])) (list_inserts 4 [k / 256; k mod 256]
           (list_inserts 2 (le_bytes 2 0) (b0 :: b1 :: b2 :: b3 :: b4 :: b5 :: b6 :: rest)))).
    cbn [take Nat.add app]. do 6 f_equal. by rewrite take_app_length.
  - rewrite length_app, !length_inserts. cbn. lia.
Qed.

Lemma subscribe_wire m size ty fl k name :
  length m = MQTTSN_MAX_PACKET -> (length name <= 57)%nat -> is_u16 k ->
  exists stale,
  take (7 + length name)
    (list_inserts 1 [ty] (list_inserts 0 [size]
      (list_inserts 5 (name ++ [0])
        (list_inserts 3 (le_bytes 2 (mqttsn_htons k)) (list_inserts 2 [fl] m))))) =
  [size; ty; fl; k / 256; k mod 256] ++ name ++ [0; stale].
Proof.
  intros Hm Hn Hk. rewrite htons_wire by done.
  destruct (message_split m Hm) as (b0 & b1 & b2 & b3 & b4 & b5 & b6 & rest & -> & Hr).
  rewrite (inserts_split 5).
  - change (take 5 _) with [b0; b1; fl; k / 256; k mod 256].
    set (tl := drop _ _).
    assert (Htl : exists x tl', tl = x :: tl').
    { destruct tl as [|x tl'] eqn:Et; [|eauto]. exfalso. apply (f_equal length) in Et.
      unfold tl in Et. rewrite length_drop, !length_inserts, length_app in Et. cbn in Et. lia. }
    destruct Htl as (x & tl' & ->). exists x. rewrite <- app_assoc.
    change (list_inserts 1 [ty] _) with
      (size :: ty :: fl :: k / 256 :: k mod 256 :: name ++ [0; x] ++ tl').
    cbn [take Nat.add]. rewrite app_assoc. cbn [app]. do 5 f_equal.
    rewrite take_app_length' by (rewrite length_app; cbn; lia). done.
  - rewrite length_app, !length_inserts. cbn. lia.
Qed.

Lemma publish_wire m size ty fl tid id data :
  length m = MQTTSN_MAX_PACKET -> (length data <= 57)%nat -> is_u16 tid -> is_u16 id ->
  take (7 + length data)
    (list_inserts 1 [ty] (list_inserts 0 [size]
      (list_inserts 7 data
        (list_inserts 5 (le_bytes 2 (mqttsn_htons id))
          (list_inserts 3 (le_bytes 2 (mqttsn_htons tid)) (list_inserts 2 [fl] m)))))) =
  [size; ty; fl; tid / 256; tid mod 256; id / 256; id mod 256] ++ data.
Proof.
  intros Hm Hn Ht Hi. rewrite !htons_wire by done.
  destruct (message_split m Hm) as (b0 & b1 & b2 & b3 & b4 & b5 & b6 & rest & -> & Hr).
  rewrite (inserts_split 7).
  - change (take 7 _) with [b0; b1; fl; tid / 256; tid mod 256; id / 256; id mod 256].
    set (tl := drop _ _).
    change (list_inserts 1 [ty] _) with
      (size :: ty :: fl :: tid / 256 :: tid mod 256 :: id / 256 :: id mod 256 :: data ++ tl).
    cbn [take Nat.add app]. do 7 f_equal. by rewrite take_app_length.
  - rewrite !length_inserts. cbn. lia.
Qed.

(** ** Publication *)

Definition publish_message (qos tid id : Z) (data : list Z) : list Z :=
  [Z.of_nat (7 + length data); MQTTSN_PUBLISH; publish_flags qos; tid / 256; tid mod 256;
   id / 256; id mod 256] ++ data.

Lemma publish_run n now w i qos data tid :
  mq_ok n (mq w) -> q_state (mq w) = mqttsnConnected -> q_topic_ids (mq w) !! i = Some tid ->
  (length data <= 57)%nat -> 0 <= qos ->
  let id := u16 (q_next_id (mq w) + 1) in
  exists w', mqttsn_c_publish now i qos data w = Some (mqttsn_htons id, w') /\
    mq_log w' = MqSend (publish_message qos tid id data) :: mq_log w /\
    q_state (mq w') = (if 0 <? qos then mqttsnBusy else mqttsnConnected) /\
    (0 < qos -> q_n_retries (mq w') = MQTTSN_N_RETRY /\ q_t_retry (mq w') = now + MQTTSN_T_RETRY).
Proof.
  intros [Hb _ _] Hs Hi Hd Hq id. pose proof (mb_message _ _ Hb) as Hm.
  assert (Htid : is_u16 tid) by (eapply Forall_lookup_1; [apply (mb_ids _ _ Hb)|exact Hi]).
  assert (Hid : is_u16 id) by apply u16_range.
  unfold mqttsn_c_publish. unfold qbind at 1, qget at 1. rewrite Hs, bool_decide_eq_true_2 by done.
  cbn [negb]. replace (MQTTSN_MAX_PACKET <? sizeof_publish + length data)%nat with false
    by (symmetry; apply Nat.ltb_ge; unfold MQTTSN_MAX_PACKET, sizeof_publish; lia).
  set (c1 := if 0 <? qos then entered mqttsnBusy (mq w) else mq w).
  assert (E1 : qwhen (0 <? qos) (mqttsn_to_state mqttsnBusy) w = Some (tt, mk_mqw c1 (mq_log w))).
  { unfold c1. destruct (0 <? qos); [done|]. by destruct w. }
  assert (Em1 : q_message c1 = q_message (mq w)) by (unfold c1; by destruct (0 <? qos)).
  assert (Es1 : q_state c1 = if 0 <? qos then mqttsnBusy else mqttsnConnected)
    by (unfold c1; by destruct (0 <? qos)).
  assert (En1 : q_next_id c1 = q_next_id (mq w)) by (unfold c1; by destruct (0 <? qos)).
  unfold qbind at 1. rewrite E1. unfold qbind at 1. rewrite poke_run by (cbn; unfold MQTTSN_MAX_PACKET; lia).
  rewrite Hi. unfold qbind at 1. rewrite poke_run by (cbn; unfold MQTTSN_MAX_PACKET; lia).
  unfold qbind at 1, qmod at 1. unfold qbind at 1.
  rewrite poke_run by (cbn; unfold MQTTSN_MAX_PACKET; lia). fold id.
  unfold qbind at 1. rewrite poke_run by (unfold MQTTSN_MAX_PACKET, sizeof_publish; lia).
  cbn [mq mq_log]. set (c2 := stored sizeof_publish data _).
  destruct (send_run now MQTTSN_PUBLISH (sizeof_publish + length data) (negb (qos =? 0))
              (mk_mqw c2 (mq_log w))) as [rc Hr];
    [unfold MQTTSN_MAX_PACKET, sizeof_publish; lia|].
  unfold qbind at 1. rewrite Hr. unfold qbind at 1. rewrite poke_run by (cbn; unfold MQTTSN_MAX_PACKET; lia).
  unfold qbind, qget, qret. cbn [mq mq_log].
  assert (Emsg : forall retry, q_message (sent now MQTTSN_PUBLISH (sizeof_publish + length data) retry c2) =
    list_inserts 1 [MQTTSN_PUBLISH] (list_inserts 0 [u8 (Z.of_nat (sizeof_publish + length data))]
      (list_inserts 7 data (list_inserts 5 (le_bytes 2 (mqttsn_htons id))
        (list_inserts 3 (le_bytes 2 (mqttsn_htons tid))
          (list_inserts 2 [publish_flags qos] (q_message (mq w)))))))).
  { intros retry. rewrite <- Em1. by destruct retry. }
  assert (Hw : take (sizeof_publish + length data)
     (q_message (sent now MQTTSN_PUBLISH (sizeof_publish + length data) (negb (qos =? 0)) c2)) =
     publish_message qos tid id data).
  { rewrite Emsg. unfold sizeof_publish. rewrite publish_wire by done. unfold publish_message.
    rewrite u8_id; [done|]. widths; lia. }
  eexists. split; [|split; [|split]].
  - f_equal. f_equal. cbn [q_message stored set_q_message].
    rewrite field_store_other; [|rewrite Emsg, !length_inserts, Hm; cbn; unfold MQTTSN_MAX_PACKET; lia|cbn; lia].
    rewrite Emsg. rewrite !field_store_other by (rewrite ?length_inserts, ?Hm; cbn; unfold MQTTSN_MAX_PACKET; lia).
    rewrite field_store_same by (rewrite ?length_inserts, ?Hm, ?le_bytes_length; cbn; unfold MQTTSN_MAX_PACKET; lia).
    apply le_val_bytes_id. apply htons_u16.
  - cbn [mq_log]. by rewrite Hw.
  - cbn [mq]. rewrite <- Es1. by destruct (negb (qos =? 0)).
  - intros Hpos. replace (qos =? 0) with false by (symmetry; apply Z.eqb_neq; lia). done.
Qed.

(** Publishing while connected transmits exactly the PUBLISH message of the
    topic's registered ID, a fresh message ID and the data, in network byte
    order; with QoS 1 the client then waits for the acknowledgement with all
    retries ahead of it, with QoS 0 it remains connected; and the value returned
    is the message ID as it is on the wire, which is what the acknowledgement
    callback is later given. *)
Theorem publish_message_correct n now w i qos data tid :
  mq_ok n (mq w) -> q_state (mq w) = mqttsnConnected -> q_topic_ids (mq w) !! i = Some tid ->
  (length data <= 57)%nat -> 0 <= qos ->
  let id := u16 (q_next_id (mq w) + 1) in
  exists w', mqttsn_c_publish now i qos data w = Some (mqttsn_htons id, w') /\
    mq_log w' = MqSend (publish_message qos tid id data) :: mq_log w /\
    q_state (mq w') = (if 0 <? qos then mqttsnBusy else mqttsnConnected) /\
    (0 < qos -> q_n_retries (mq w') = MQTTSN_N_RETRY /\ q_t_retry (mq w') = now + MQTTSN_T_RETRY).
Proof. apply publish_run. Qed.

Lemma publish_message_fields qos tid id data :
  is_u16 tid -> (length data <= 57)%nat ->
  let m := publish_message qos tid id data in
  length m = (7 + length data)%nat /\ field 0 1 m = Z.of_nat (length m) /\
  field 1 1 m = MQTTSN_PUBLISH /\ mqttsn_ntohs (field 3 2 m) = tid /\ drop sizeof_publish m = data.
Proof.
  intros Ht Hd. cbv zeta. split_and!; try done.
  - change (field 3 2 (publish_message qos tid id data)) with (tid / 256 + 256 * (tid mod 256 + 256 * 0)).
    destruct (u16_split tid Ht) as (H1 & H2 & He).
    replace (tid / 256 + 256 * (tid mod 256 + 256 * 0)) with (256 * (tid mod 256) + tid / 256) by lia.
    unfold mqttsn_ntohs. rewrite htons_bytes by done. lia.
Qed.

(** The dictionary's entry [k] has the topic's ID, and is a subscription or
    not: bit 7 of its flags. *)
Definition entry_subscribes (c : mqttsn_c_t) (tid : Z) (k : nat) (yes : bool) : Prop :=
  q_topic_ids c !! k = Some tid /\
  exists t, q_topics c !! k = Some t /\ Z.testbit (t_flags t) 7 = yes.

(** [j] is the first subscription among the entries with the topic's ID. *)
Definition subscribed (c : mqttsn_c_t) (tid : Z) (j : nat) : Prop :=
  entry_subscribes c tid j true /\
  forall k, (k < j)%nat -> q_topic_ids c !! k = Some tid -> entry_subscribes c tid k false.

(** No entry with the topic's ID is a subscription. *)
Definition unsubscribed (c : mqttsn_c_t) (tid : Z) : Prop :=
  forall k, q_topic_ids c !! k = Some tid -> entry_subscribes c tid k false.

Lemma subscribe_bit f : (f &? MQTTSN_REG_SUBSCRIBE) = Z.testbit f 7.
Proof.
  unfold bit_set, MQTTSN_REG_SUBSCRIBE. rewrite Z.shiftl_1_l.
  destruct (Z.testbit f 7) eqn:Hf.
  - apply negb_true_iff, Z.eqb_neq. intros H0. apply (f_equal (fun z => Z.testbit z 7)) in H0.
    rewrite Z.land_spec, Hf, Z.pow2_bits_true in H0 by lia. done.
  - apply negb_false_iff, Z.eqb_eq. apply Z.bits_inj'. intros k Hk.
    rewrite Z.land_spec, Z.bits_0, Z.pow2_bits_eqb by lia.
    destruct (Z.eqb_spec 7 k) as [<-|]; [by rewrite Hf|apply andb_false_r].
Qed.

(** An entry that is no subscription to the topic is passed over. *)
Lemma find_subscription_skip c tid i n :
  (i < length (q_topic_ids c))%nat ->
  (q_topic_ids c !! i = Some tid -> entry_subscribes c tid i false) ->
  find_subscription c tid i (S n) = find_subscription c tid (S i) n.
Proof.
  intros Hi H. cbn [find_subscription]. apply lookup_lt_is_Some in Hi as [v Hv].
  rewrite Hv. change (default 0 (Some v)) with v. destruct (Z.eqb_spec v tid) as [->|]; [|done].
  destruct (H Hv) as (_ & t & -> & Hb). by rewrite subscribe_bit, Hb.
Qed.

Lemma find_subscription_first c tid j : subscribed c tid j ->
  forall n i, (i <= j < i + n)%nat -> find_subscription c tid i n = Some (Some j).
Proof.
  intros [Hj Hpre]. pose proof (lookup_lt_Some _ _ _ (proj1 Hj)) as Hl.
  induction n as [|n IH]; intros i Hi; [lia|]. destruct (decide (i = j)) as [->|Hne].
  - cbn [find_subscription]. destruct Hj as (-> & t & -> & Hb). change (default 0 (Some tid)) with tid.
    by rewrite Z.eqb_refl, subscribe_bit, Hb.
  - rewrite find_subscription_skip; [apply IH; lia|lia|apply Hpre; lia].
Qed.

Lemma find_subscription_none c tid : unsubscribed c tid ->
  forall n i, (i + n <= length (q_topic_ids c))%nat -> find_subscription c tid i n = Some None.
Proof.
  intros Hu. induction n as [|n IH]; intros i Hi; [done|].
  rewrite find_subscription_skip; [apply IH; lia|lia|apply Hu].
Qed.

(** C31: what one client publishes another receives: the message a connected
    client transmits for a publication of at most 57 bytes, which is all its
    buffer holds, relayed to a client with a publish callback, makes that client
    invoke the callback with the index of its subscription to the topic (the
    first entry of its dictionary that has the topic's ID and whose subscription
    flag is set) and exactly the data; and a client none of whose entries with
    the topic's ID is a subscription ignores the message. *)
Theorem publication_delivered n m now now' w w2 i qos data tid :
  mq_ok n (mq w) -> q_state (mq w) = mqttsnConnected -> q_topic_ids (mq w) !! i = Some tid ->
  (length data <= 57)%nat -> 0 <= qos ->
  mq_ok m (mq w2) -> q_cb_publish (mq w2) = true ->
  exists w' msg, snd <$> mqttsn_c_publish now i qos data w = Some w' /\
    mq_log w' = MqSend msg :: mq_log w /\
    (forall j, subscribed (mq w2) tid j ->
       handle_inbound now' (Some msg) w2 = mq_upcall now' (MqPublish j data) w2) /\
    (unsubscribed (mq w2) tid -> handle_inbound now' (Some msg) w2 = Some (tt, w2)).
Proof.
  intros Hok Hs Hi Hd Hq Hok2 Hcb.
  pose proof (mb_ids_length _ _ (mo_base _ _ Hok2)) as Hlen.
  assert (Htid : is_u16 tid)
    by (eapply Forall_lookup_1; [apply (mb_ids _ _ (mo_base _ _ Hok))|exact Hi]).
  destruct (publish_run n now w i qos data tid Hok Hs Hi Hd Hq) as (w' & Hrun & Hlog & _).
  exists w', (publish_message qos tid (u16 (q_next_id (mq w) + 1)) data).
  rewrite Hrun. split; [done|]. split; [done|].
  destruct (publish_message_fields qos tid (u16 (q_next_id (mq w) + 1)) data Htid Hd)
    as (F1 & F2 & F3 & F4 & F5).
  set (msg := publish_message _ _ _ _) in *.
  assert (Hin : handle_inbound now' (Some msg) w2 = mqttsn_publish_handler now' msg w2).
  { unfold handle_inbound. rewrite F2, F3.
    replace (length msg <? sizeof_mq_header)%nat with false
      by (symmetry; apply Nat.ltb_ge; unfold sizeof_mq_header; lia).
    rewrite Z.ltb_irrefl. done. }
  unfold mqttsn_publish_handler in Hin.
  replace (length msg <? sizeof_publish)%nat with false in Hin
    by (symmetry; apply Nat.ltb_ge; unfold sizeof_publish; lia).
  unfold qbind, qget in Hin. rewrite F4, F5, Hcb in Hin. rewrite Hin. split.
  - intros j Hj. rewrite (find_subscription_first _ _ _ Hj); [done|].
    pose proof (lookup_lt_Some _ _ _ (proj1 (proj1 Hj))). lia.
  - intros Hu. by rewrite find_subscription_none by (done || lia).
Qed.

(** ** Acknowledgements *)

Definition ack_unexpected (buf : list Z) (c : mqttsn_c_t) : Prop :=
  (field 1 1 buf = MQTTSN_CONNACK /\
     (q_state c <> mqttsnConnecting \/ msg_type_of (q_message c) <> MQTTSN_CONNECT)) \/
  (field 1 1 buf = MQTTSN_REGACK /\
     (q_state c <> mqttsnBusy \/ msg_type_of (q_message c) <> MQTTSN_REGISTER \/
      field 4 2 buf <> field 4 2 (q_message c))) \/
  (field 1 1 buf = MQTTSN_SUBACK /\
     (q_state c <> mqttsnBusy \/ msg_type_of (q_message c) <> MQTTSN_SUBSCRIBE \/
      field 5 2 buf <> field 3 2 (q_message c))) \/
  (field 1 1 buf = MQTTSN_PUBACK /\
     (q_state c <> mqttsnBusy \/ field 4 2 buf <> field 5 2 (q_message c))).

(** An acknowledgement the client does not wait for changes nothing and
    triggers nothing: a CONNACK unless a CONNECT is in flight, a REGACK or SUBACK
    unless such a request is in flight and has the same message ID, a PUBACK
    unless the client is busy and the ID matches that of the stored message. *)
Theorem unexpected_ack_ignored now buf w :
  ack_unexpected buf (mq w) -> handle_inbound now (Some buf) w = Some (tt, w).
Proof.
  intros H. unfold handle_inbound. destruct (_ || _); [done|]. cbv zeta.
  destruct H as [[Ht H]|[[Ht H]|[[Ht H]|[Ht H]]]]; rewrite Ht; cbn -[q_message];
    unfold mqttsn_connack_handler, mqttsn_regack_handler, mqttsn_suback_handler, mqttsn_puback_handler;
    (destruct (_ <? _)%nat; [done|]); unfold qbind, qget, qret.
  - replace (_ || _) with true; [done|]. symmetry. apply orb_true_iff.
    destruct H; [left; rewrite bool_decide_eq_false_2 by done; done|right].
    apply negb_true_iff. by apply Z.eqb_neq.
  - destruct (_ || _) eqn:Eo; [done|]. apply orb_false_iff in Eo as [E1 E2]. boolify.
    apply bool_decide_eq_true in E1. replace (negb _) with true; [done|].
    symmetry. apply negb_true_iff, Z.eqb_neq. tauto.
  - destruct (_ || _) eqn:Eo; [done|]. apply orb_false_iff in Eo as [E1 E2]. boolify.
    apply bool_decide_eq_true in E1. replace (negb _) with true; [done|].
    symmetry. apply negb_true_iff, Z.eqb_neq. tauto.
  - destruct (negb _) eqn:E1; [done|]. boolify. apply bool_decide_eq_true in E1.
    replace (negb _) with true; [done|]. symmetry. apply negb_true_iff, Z.eqb_neq. tauto.
Qed.

(** ** Registration of topics *)

(** What the registration stage sends for the topic at [k]. *)
Definition registration_sent (k : nat) (t : mqttsn_c_topic_t) (msg : list Z) : Prop :=
  exists name, topic t = Some name /\
    if t_flags t &? MQTTSN_REG_SUBSCRIBE then
      exists stale, msg = [Z.of_nat (7 + length name); MQTTSN_SUBSCRIBE;
        subscribe_flags (Z.land (t_flags t) MQTTSN_REG_QOS_MASK);
        Z.of_nat k / 256; Z.of_nat k mod 256] ++ name ++ [0; stale]
    else msg = [Z.of_nat (6 + length name); MQTTSN_REGISTER; 0; 0;
                Z.of_nat k / 256; Z.of_nat k mod 256] ++ name.

Lemma registrations_run n now w t :
  mq_base n (mq w) -> q_state (mq w) = mqttsnRegistering ->
  q_topics (mq w) !! q_count (mq w) = Some t ->
  exists w', handle_registrations now w = Some (tt, w') /\
    q_topic_ids (mq w') = q_topic_ids (mq w) /\
    match topic t with
    | None => q_state (mq w') = mqttsnConnected /\ q_is_registered (mq w') = true /\
              mq_log w' = mq_log w
    | Some _ => q_state (mq w') = mqttsnBusy /\ q_count (mq w') = S (q_count (mq w)) /\
                exists msg, mq_log w' = MqSend msg :: mq_log w /\
                            registration_sent (q_count (mq w)) t msg
    end.
Proof.
  intros Hb Hs Ht. destruct (mb_topics _ _ Hb) as (Hmax & Hlen & Hend & Hnames).
  pose proof (mb_message _ _ Hb) as Hm. pose proof (mb_count _ _ Hb) as Hcount.
  unfold handle_registrations, qbind at 1, qget at 1. rewrite Hs, bool_decide_eq_true_2, Ht by done.
  destruct t as [[name|] fl]; cbn [topic].
  2: { eexists; split; [reflexivity|]. done. }
  assert (Hk : (q_count (mq w) < n)%nat).
  { destruct (decide (q_count (mq w) = n)) as [He|]; [|lia]. rewrite He in Ht. by apply Hend in Ht. }
  destruct (Hnames _ _ Hk Ht) as (name' & E' & Hl & Hbn). cbn in E'. simplify_eq.
  set (k := u16 (Z.of_nat (q_count (mq w)))).
  assert (Hku : k = Z.of_nat (q_count (mq w)))
    by (unfold k, MQTTSN_MAX_CLIENT_TOPICS in *; apply u16_id; widths; lia).
  assert (Hk16 : is_u16 k) by apply u16_range.
  unfold registration_sent; cbn [topic t_flags]. destruct (fl &? MQTTSN_REG_SUBSCRIBE).
  - set (qf := subscribe_flags _).
    destruct (subscribe_wire (q_message (mq w)) (u8 (Z.of_nat (7 + length name'))) MQTTSN_SUBSCRIBE qf k
                name' Hm Hl Hk16) as [stale Hw].
    unfold mqttsn_subscribe. unfold qbind at 1 2, mqttsn_to_state, qmod at 1.
    unfold qbind at 1. rewrite poke_run by (cbn; unfold MQTTSN_MAX_PACKET; lia).
    unfold qbind at 1. rewrite poke_run by (cbn; unfold MQTTSN_MAX_PACKET; lia).
    unfold qbind at 1. rewrite poke_run by (rewrite length_app; cbn; unfold MQTTSN_MAX_PACKET; lia).
    unfold qbind at 1. fold k qf. cbn [mq mq_log].
    match goal with |- context [mqttsn_send now ?ty ?sz ?r ?x] =>
      destruct (send_run now ty sz r x) as [rc ->]; [unfold sizeof_subscribe, MQTTSN_MAX_PACKET; lia|] end.
    rewrite poke_run by (cbn; unfold MQTTSN_MAX_PACKET; lia).
    eexists; split; [reflexivity|]. split; [done|]. split; [done|]. split; [done|].
    eexists; split; [reflexivity|]. exists name'. split; [done|]. exists stale. cbn [mq_log].
    rewrite <- Hku, <- (u8_id (Z.of_nat (7 + length name'))) by (widths; lia). exact Hw.
  - pose proof (register_wire (q_message (mq w)) (u8 (Z.of_nat (6 + length name'))) MQTTSN_REGISTER k
                  name' Hm Hl Hk16) as Hw.
    unfold mqttsn_register. unfold qbind at 1 2, mqttsn_to_state, qmod at 1.
    unfold qbind at 1. rewrite poke_run by (cbn; unfold MQTTSN_MAX_PACKET; lia).
    unfold qbind at 1. rewrite poke_run by (cbn; unfold MQTTSN_MAX_PACKET; lia).
    unfold qbind at 1.
    rewrite poke_run by (rewrite length_app; cbn; unfold sizeof_register, MQTTSN_MAX_PACKET; lia).
    unfold qbind at 1. fold k. cbn [mq mq_log].
    match goal with |- context [mqttsn_send now ?ty ?sz ?r ?x] =>
      destruct (send_run now ty sz r x) as [rc ->]; [unfold sizeof_register, MQTTSN_MAX_PACKET; lia|] end.
    eexists; split; [reflexivity|]. split; [done|]. split; [done|]. split; [done|].
    eexists; split; [reflexivity|]. exists name'. split; [done|]. cbn [mq_log].
    rewrite <- Hku, <- (u8_id (Z.of_nat (6 + length name'))) by (widths; lia). exact Hw.
Qed.

Lemma retry_not_due now w : now < q_t_retry (mq w) -> handle_retry now w = Some (tt, w).
Proof.
  intros H. unfold handle_retry, qbind, qget. replace (q_t_retry (mq w) <=? now) with false
    by (symmetry; apply Z.leb_gt; lia). by rewrite andb_false_r.
Qed.

Lemma ping_not_connected now w : q_state (mq w) <> mqttsnConnected -> handle_ping now w = Some (tt, w).
Proof. intros H. unfold handle_ping, qbind, qget. by rewrite bool_decide_eq_false_2. Qed.

(** C30: registration of the topics goes through the dictionary: the accepted
    acknowledgement of a REGISTER records the topic ID under the index that was
    sent as the message ID, and in the same call the client sends the
    REGISTER or SUBSCRIBE for the next entry, or, at the end of the dictionary,
    becomes connected. *)
Theorem registration_advances n now w buf t :
  mq_ok n (mq w) -> q_state (mq w) = mqttsnBusy -> msg_type_of (q_message (mq w)) = MQTTSN_REGISTER ->
  now < q_t_retry (mq w) -> bytes buf -> (sizeof_regack <= length buf)%nat ->
  field 0 1 buf <= Z.of_nat (length buf) -> field 1 1 buf = MQTTSN_REGACK ->
  field 4 2 buf = field 4 2 (q_message (mq w)) -> field 6 1 buf = MQTTSN_RC_ACCEPTED ->
  q_topics (mq w) !! q_count (mq w) = Some t ->
  exists w', mqttsn_c_handler now (Some buf) w = Some (tt, w') /\
    q_topic_ids (mq w') = <[Z.to_nat (mqttsn_ntohs (field 4 2 buf)) := mqttsn_ntohs (field 2 2 buf)]>
                            (q_topic_ids (mq w)) /\
    match topic t with
    | None => q_state (mq w') = mqttsnConnected /\ q_is_registered (mq w') = true /\
              mq_log w' = mq_log w
    | Some _ => q_state (mq w') = mqttsnBusy /\ q_count (mq w') = S (q_count (mq w)) /\
                exists msg, mq_log w' = MqSend msg :: mq_log w /\
                            registration_sent (q_count (mq w)) t msg
    end.
Proof.
  intros Hok Hs Hty Hdue Hbuf Hlen Hl0 Ht Hid Hrc Htop. pose proof Hok as [Hb _ Ha].
  rewrite Hs in Ha. cbn [awaits] in Ha. rewrite <- Hid in Ha.
  assert (Hlt : mqttsn_ntohs (field 4 2 buf) < Z.of_nat n)
    by (rewrite Hty in Ha; destruct Ha as [[? ?]|[[? ?]|?]]; done || discriminate).
  destruct (mb_topics _ _ Hb) as (Hmax & _).
  set (id := mqttsn_ntohs (field 4 2 buf)) in *.
  assert (Hid16 : is_u16 id) by apply htons_u16.
  set (c1 := entered mqttsnRegistering (set_q_topic_ids
               (<[Z.to_nat id := mqttsn_ntohs (field 2 2 buf)]> (q_topic_ids (mq w))) (mq w))).
  assert (Hb1 : mq_base n c1).
  { apply entered_base, topic_id_base; [done|widths; lia|apply htons_u16]. }
  assert (Hin : handle_inbound now (Some buf) w = Some (tt, mk_mqw c1 (mq_log w))).
  { unfold handle_inbound. unfold sizeof_regack in Hlen.
    replace (length buf <? sizeof_mq_header)%nat with false
      by (symmetry; apply Nat.ltb_ge; unfold sizeof_mq_header; lia).
    replace (Z.of_nat (length buf) <? field 0 1 buf) with false by (symmetry; apply Z.ltb_ge; lia).
    cbn [orb]. cbv zeta. rewrite Ht. change (MQTTSN_REGACK =? MQTTSN_CONNACK) with false.
    change (MQTTSN_REGACK =? MQTTSN_REGISTER) with false.
    change (MQTTSN_REGACK =? MQTTSN_REGACK) with true. cbv iota. unfold mqttsn_regack_handler.
    replace (length buf <? sizeof_regack)%nat with false
      by (symmetry; apply Nat.ltb_ge; unfold sizeof_regack; lia).
    unfold qbind at 1, qget. rewrite Hs, Hty, bool_decide_eq_true_2 by done.
    replace (field 4 2 buf =? field 4 2 (q_message (mq w))) with true by (symmetry; by apply Z.eqb_eq).
    rewrite !Z.eqb_refl. cbn [negb orb]. rewrite Hrc.
    change (MQTTSN_RC_ACCEPTED =? MQTTSN_RC_ACCEPTED) with true. cbv iota. fold id.
    unfold set_topic_id, guard. unfold MQTTSN_MAX_CLIENT_TOPICS in *.
    replace (id <? Z.of_nat 16) with true by (symmetry; apply Z.ltb_lt; lia). done. }
  unfold mqttsn_c_handler, qbind at 1. rewrite retry_not_due by done.
  unfold qbind at 1. rewrite ping_not_connected by (by rewrite Hs).
  unfold qbind at 1. rewrite Hin.
  destruct (registrations_run n now (mk_mqw c1 (mq_log w)) t Hb1 eq_refl Htop) as (w' & Hr & Hids & Hm).
  exists w'. rewrite Hr. split; [done|]. split; [exact Hids|]. exact Hm.
Qed.
End Props.

(** ** Concrete clients *)

Definition mq_quiet : MqEnv := {| mq_send_rc := fun _ => 0; mq_app := fun _ => MqReturn |}.

Lemma mq_quiet_ok l : prog_ok (@mq_app mq_quiet l).
Proof. constructor. Qed.

(** "test01", with a topic "t" to publish and "s" to subscribe to. *)
Definition ex_client_id : list Z := [116; 101; 115; 116; 48; 49].
Definition ex_topics : list mqttsn_c_topic_t :=
  [mk_topic (Some [116]) 0; mk_topic (Some [115]) 128; mk_topic None 0].

Definition connack_msg : list Z := [3; MQTTSN_CONNACK; 0].
Definition regack_msg (k tid rc : Z) : list Z :=
  [7; MQTTSN_REGACK; tid / 256; tid mod 256; k / 256; k mod 256; rc].
Definition suback_msg (k tid rc : Z) : list Z :=
  [8; MQTTSN_SUBACK; 0; tid / 256; tid mod 256; k / 256; k mod 256; rc].

Definition ex_run (ops : list mq_op) : mq_world :=
  default (mq_boot [] []) (@run_ops mq_quiet ops (mq_boot ex_client_id ex_topics)).

Definition ex_connecting : list mq_op := [OpSetPublishCallback true; OpConnect 100].
Definition ex_registering : list mq_op := ex_connecting ++ [OpHandler 101 (Some connack_msg)].
Definition ex_connected : list mq_op :=
  ex_registering ++ [OpHandler 102 (Some (regack_msg 0 500 0)); OpHandler 103 (Some (suback_msg 1 600 0))].

Lemma ex_dictionary : dictionary_ok 2 ex_topics.
Proof.
  split; [vm_compute; lia|]. split; [done|]. split.
  - by intros t [= <-].
  - intros [|[|i]] t Hi; [| |lia]; intros [= <-]; eexists; (split; [reflexivity|]);
      (split; [cbn; lia|]); repeat constructor; vm_compute; congruence.
Qed.

Lemma ex_string : c_string ex_client_id.
Proof. split; repeat constructor; vm_compute; congruence. Qed.

Lemma inbound_check buf :
  forallb (fun b => (0 <=? b) && (b <? 256)) buf = true -> field 1 1 buf <> MQTTSN_PUBLISH -> inbound_ok buf.
Proof.
  intros H Hp. split; [|done]. apply List.Forall_forall. intros x Hx. rewrite forallb_forall in H.
  apply H in Hx. boolify. widths; lia.
Qed.

Lemma ex_connected_ok : Forall op_ok ex_connected.
Proof.
  unfold ex_connected, ex_registering, ex_connecting. cbn [app].
  repeat (apply Forall_cons_2; [cbn [op_ok]|]); [done|lia| | | |by apply Forall_nil_2].
  all: split; [lia|]; intros ? [= <-]; apply inbound_check; [vm_compute; reflexivity|vm_compute; congruence].
Qed.

(** Worlds given by prefixes of the connection satisfy the invariant. *)
Lemma ex_prefix_ok k : mq_ok 2 (mq (ex_run (take k ex_connected))).
Proof.
  unfold ex_run.
  destruct (@run_ops_total mq_quiet mq_quiet_ok 2 (take k ex_connected)) with
    (w := mq_boot ex_client_id ex_topics) as (w & -> & Hw); [| |exact Hw].
  - apply Forall_take, ex_connected_ok.
  - apply init_ok; [apply ex_string|vm_compute; lia|apply ex_dictionary].
Qed.

(** ** Behaviours that depart from the intent *)

(** The message ID wraps to 0, the value documented to indicate failure:
    after 65535 publications the next one is transmitted and yet returns 0. *)
Lemma message_id_wraps_to_zero :
  let w := ex_run ex_connected in
  let w := mk_mqw (set_q_next_id 65535 (mq w)) [] in
  exists w', @mqttsn_c_publish mq_quiet 200 0 1 [1; 2] w = Some (0, w') /\
    mq_log w' = [MqSend (publish_message 1 500 0 [1; 2])] /\ q_state (mq w') = mqttsnBusy.
Proof. vm_compute. eexists; split; [reflexivity|]. done. Qed.

(** The handler of PUBACK does not check that a PUBLISH is in flight: while
    the first topic is being registered, a PUBACK whose message ID equals the
    two bytes at the place of a PUBLISH's message ID ends the registration, and
    the client is connected with no topic registered. *)
Theorem puback_aborts_registration :
  let w := ex_run ex_registering in
  exists w', @mqttsn_c_handler mq_quiet 102 (Some [7; MQTTSN_PUBACK; 0; 0; 0; 116; 0]) w = Some (tt, w') /\
    q_state (mq w) = mqttsnBusy /\ msg_type_of (q_message (mq w)) = MQTTSN_REGISTER /\
    q_state (mq w') = mqttsnConnected /\ q_topic_ids (mq w') = replicate 16 0.
Proof. vm_compute. eexists; split; [reflexivity|]. done. Qed.

(** Outside the contract of [client_never_faults] the client does fault: a
    publication to topic ID 0 makes it read its topic dictionary past the end,
    since every unused entry of the ID table matches; and a client ID of 16
    characters fills its array without a terminator, so that connecting reads
    past it. *)
Lemma client_faults_outside_contract :
  @mqttsn_c_handler mq_quiet 104 (Some [8; MQTTSN_PUBLISH; 0; 0; 0; 0; 9; 1]) (ex_run ex_connected) = None /\
  @mqttsn_c_connect mq_quiet 100 (mq_boot (replicate 16 65) ex_topics) = None.
Proof. by vm_compute. Qed.

(** ** Instances *)

Lemma client_never_faults_witness :
  exists w, @run_ops mq_quiet ex_connected (mq_boot ex_client_id ex_topics) = Some w /\ mq_ok 2 (mq w).
Proof.
  apply (@client_never_faults mq_quiet mq_quiet_ok 2).
  - apply ex_string.
  - vm_compute. lia.
  - apply ex_dictionary.
  - apply ex_connected_ok.
Defined.

Lemma unanswered_request_gives_up_witness :
  exists w1 w2, @polls mq_quiet [105; 110; 115] (ex_run ex_connecting) = Some w1 /\
    @polls mq_quiet [120] w1 = Some w2 /\
    mq_log w1 = replicate 3 (MqSend (pending_message (mq (ex_run ex_connecting)))) ++
                mq_log (ex_run ex_connecting) /\
    q_state (mq w1) = q_state (mq (ex_run ex_connecting)) /\
    mq_log w2 = mq_log w1 /\ q_state (mq w2) = mqttsnDisconnected /\ q_t_retry (mq w2) = 0.
Proof.
  apply (@unanswered_request_gives_up mq_quiet 2 (ex_run ex_connecting) [105; 110; 115] 120).
  - apply (ex_prefix_ok 2).
  - vm_compute. reflexivity.
  - vm_compute. reflexivity.
  - vm_compute. reflexivity.
  - vm_compute. repeat split; congruence.
Defined.

Lemma keep_alive_witness :
  exists w', @mqttsn_c_handler mq_quiet 150 None (ex_run ex_connected) = Some (tt, w') /\
    q_state (mq w') = mqttsnConnected /\
    (150 < q_next_ping (mq (ex_run ex_connected)) -> w' = ex_run ex_connected) /\
    (q_next_ping (mq (ex_run ex_connected)) <= 150 ->
       mq_log w' = MqSend [2; MQTTSN_PINGREQ] :: mq_log (ex_run ex_connected) /\
       q_next_ping (mq w') = 150 + MQTTSN_KEEP_ALIVE).
Proof.
  apply (@keep_alive mq_quiet 2 150 (ex_run ex_connected)).
  - apply (ex_prefix_ok 5).
  - vm_compute. reflexivity.
Defined.

Lemma publish_message_correct_witness :
  exists w', @mqttsn_c_publish mq_quiet 200 0 1 [7; 8] (ex_run ex_connected) =
             Some (mqttsn_htons (u16 (q_next_id (mq (ex_run ex_connected)) + 1)), w') /\
    mq_log w' = MqSend (publish_message 1 500 (u16 (q_next_id (mq (ex_run ex_connected)) + 1)) [7; 8]) ::
                mq_log (ex_run ex_connected) /\
    q_state (mq w') = (if 0 <? 1 then mqttsnBusy else mqttsnConnected) /\
    (0 < 1 -> q_n_retries (mq w') = MQTTSN_N_RETRY /\ q_t_retry (mq w') = 200 + MQTTSN_T_RETRY).
Proof.
  apply (@publish_message_correct mq_quiet 2 200 (ex_run ex_connected) 0 1 [7; 8] 500).
  - apply (ex_prefix_ok 5).
  - vm_compute. reflexivity.
  - vm_compute. reflexivity.
  - cbn. lia.
  - lia.
Defined.

(** The same client, but publishing on the topic it subscribes to. *)
Lemma publication_delivered_witness :
  exists w' msg, snd <$> @mqttsn_c_publish mq_quiet 200 1 0 [7; 8] (ex_run ex_connected) = Some w' /\
    mq_log w' = MqSend msg :: mq_log (ex_run ex_connected) /\
    @handle_inbound mq_quiet 201 (Some msg) (ex_run ex_connected) =
    @mq_upcall mq_quiet 201 (MqPublish 1 [7; 8]) (ex_run ex_connected).
Proof.
  destruct (@publication_delivered mq_quiet 2 2 200 201 (ex_run ex_connected) (ex_run ex_connected) 1 0
           [7; 8] 600) as (w' & msg & H1 & H2 & H3 & _).
  - apply (ex_prefix_ok 5).
  - vm_compute. reflexivity.
  - vm_compute. reflexivity.
  - cbn. lia.
  - lia.
  - apply (ex_prefix_ok 5).
  - vm_compute. reflexivity.
  - exists w', msg. split; [exact H1|]. split; [exact H2|]. apply H3. split.
    + split; [vm_compute; reflexivity|]. eexists. split; vm_compute; reflexivity.
    + intros [|k] Hk; [|lia]. intros H0. exfalso. revert H0. vm_compute. discriminate.
Defined.

Lemma unexpected_ack_ignored_witness :
  @handle_inbound mq_quiet 101 (Some (regack_msg 0 500 0)) (ex_run ex_connected) =
  Some (tt, ex_run ex_connected).
Proof.
  apply (@unexpected_ack_ignored mq_quiet). right; left. split; [vm_compute; reflexivity|].
  left. vm_compute. discriminate.
Defined.

Lemma registration_advances_witness :
  exists w', @mqttsn_c_handler mq_quiet 102 (Some (regack_msg 0 500 0)) (ex_run ex_registering) =
             Some (tt, w') /\ q_state (mq w') = mqttsnBusy.
Proof.
  destruct (@registration_advances mq_quiet 2 102 (ex_run ex_registering) (regack_msg 0 500 0)
              (mk_topic (Some [115]) 128)) as (w' & H1 & H2 & H3 & _).
  - apply (ex_prefix_ok 3).
  - vm_compute. reflexivity.
  - vm_compute. reflexivity.
  - vm_compute. reflexivity.
  - repeat constructor; vm_compute; congruence.
  - vm_compute. lia.
  - vm_compute. congruence.
  - vm_compute. reflexivity.
  - vm_compute. reflexivity.
  - vm_compute. reflexivity.
  - vm_compute. reflexivity.
  - exists w'. split; [exact H1|exact H3].
Defined.
