(* ===== verification/MqttWire.v ===== *)
(** * What the MQTT-SN client puts on the wire

    Every packet the client hands to its send callback, whatever call it comes
    from and whatever was received, is a sequence of at most 64 bytes, and a
    call only adds to the packets sent before.  This holds without the
    conditions under which the client is free of faults. *)

From stdpp Require Import base list numbers.
From Stdlib Require Import ZArith Lia.
From S2P Require Import Prelude Wire MqttSn MqttInv.

#[local] Open Scope mq_scope.
#[local] Arguments field : simpl never.
#[local] Arguments list_inserts : simpl never.

Definition topic_bytes (t : mqttsn_c_topic_t) : Prop :=
  forall name, topic t = Some name -> bytes name.

Record wired (c : mqttsn_c_t) : Prop := {
  wd_message : bytes (q_message c);
  wd_client_id : bytes (q_client_id c);
  wd_topics : Forall topic_bytes (q_topics c)
}.

Definition packet_ok (msg : list Z) : Prop := bytes msg /\ (length msg <= MQTTSN_MAX_PACKET)%nat.

Definition send_ok (e : mq_event) : Prop := match e with MqSend msg => packet_ok msg | _ => True end.

Definition wires {A} (m : Q A) : Prop :=
  forall w a w', m w = Some (a, w') -> wired (mq w) ->
    wired (mq w') /\ exists new, mq_log w' = new ++ mq_log w /\ Forall send_ok new.

(** ** Rules *)

Lemma wires_ret {A} (a : A) : wires (qret a).
Proof. intros w ? w' [= <- <-] Hw. split; [done|]. by exists []. Qed.
Lemma wires_fault {A} : wires (fault (A := A)).
Proof. by intros w a w'. Qed.
Lemma wires_log : wires qlog.
Proof. intros w ? w' [= <- <-] Hw. split; [done|]. by exists []. Qed.
Lemma wires_bind {A B} (m : Q A) (k : A -> Q B) : wires m -> (forall a, wires (k a)) -> wires (qbind m k).
Proof.
  intros Hm Hk w b w2. unfold qbind. destruct (m w) as [[a w1]|] eqn:E; [|done]. intros E2 Hw.
  destruct (Hm _ _ _ E Hw) as (Hw1 & n1 & L1 & F1). destruct (Hk _ _ _ _ E2 Hw1) as (Hw2 & n2 & L2 & F2).
  split; [done|]. exists (n2 ++ n1). rewrite L2, L1, app_assoc. split; [done|]. by apply Forall_app.
Qed.
Lemma wires_get {B} (k : mqttsn_c_t -> Q B) : (forall c, wired c -> wires (k c)) -> wires (qbind qget k).
Proof. intros Hk w b w' E Hw. exact (Hk (mq w) Hw w b w' E Hw). Qed.
Lemma wires_mod f : (forall c, wired c -> wired (f c)) -> wires (qmod f).
Proof. intros Hf w ? w' [= <- <-] Hw. split; [by apply Hf|]. by exists []. Qed.
Lemma wires_emit e : send_ok e -> wires (qemit e).
Proof. intros He w ? w' [= <- <-] Hw. split; [done|]. exists [e]. split; [done|]. by constructor. Qed.
Lemma wires_when b m : wires m -> wires (qwhen b m).
Proof. destruct b; [done|]. intros _. apply wires_ret. Qed.
Lemma wires_guard b : wires (guard b).
Proof. destruct b; [apply wires_ret|apply wires_fault]. Qed.
Lemma wires_guarded {B} (b : bool) (k : unit -> Q B) :
  (b = true -> wires (k tt)) -> wires (qbind (guard b) k).
Proof. destruct b; [intros H; by apply H|]. intros _ w a w' [=]. Qed.

Lemma wires_poke off vs : bytes vs -> wires (poke off vs).
Proof.
  intros Hv. unfold poke. apply wires_bind; [apply wires_guard|]. intros _. apply wires_mod.
  intros c []. split; [by apply store_bytes|done|done].
Qed.

Lemma wires_cb_send `{E : MqEnv} size : wires (cb_send size).
Proof.
  unfold cb_send. apply wires_guarded. intros Hs. apply Nat.leb_le in Hs.
  apply wires_get. intros c Hc. apply wires_bind.
  - apply wires_emit. split; [by apply Forall_take, Hc|]. rewrite length_take. lia.
  - intros _. apply wires_bind; [apply wires_log|]. intros l. apply wires_ret.
Qed.

(** A change of other members. *)
Lemma wires_frame f :
  (forall c, q_message (f c) = q_message c /\ q_client_id (f c) = q_client_id c /\
             q_topics (f c) = q_topics c) -> wires (qmod f).
Proof.
  intros Hf. apply wires_mod. intros c []. destruct (Hf c) as (H1 & H2 & H3).
  split; [by rewrite H1|by rewrite H2|by rewrite H3].
Qed.

Create HintDb wire discriminated.
#[export] Hint Resolve wires_ret wires_fault wires_log wires_cb_send : wire.
#[export] Hint Extern 2 (wires (qmod _)) => by apply wires_frame : wire.

Ltac wires_step :=
  lazymatch goal with
  | |- wires (qbind qget _) => apply wires_get; intros ? ?
  | |- wires (qbind _ _) => apply wires_bind; [|intros ?]
  | |- wires (qwhen _ _) => apply wires_when
  | |- wires (poke _ _) => apply wires_poke
  | |- wires (guard _) => apply wires_guard
  | |- wires (if ?b then _ else _) => destruct b
  | |- wires (match ?x with _ => _ end) => destruct x eqn:?
  | |- wires (let _ := _ in _) => cbn zeta
  end.
Ltac wires_auto := repeat first [solve [eauto 3 with wire] | wires_step].

(** ** The calls of the client *)

Section Wire.
Context `{E : MqEnv} (now : Z).

Lemma wires_to_state st : wires (mqttsn_to_state st).
Proof. unfold mqttsn_to_state. wires_auto. Qed.
Hint Resolve wires_to_state : wire.

Lemma wires_send ty size retry : is_u8 ty -> wires (mqttsn_send now ty size retry).
Proof. intros Ht. unfold mqttsn_send. wires_auto; apply one_byte; [apply u8_range|done]. Qed.

Lemma wires_connect : wires (mqttsn_c_connect now).
Proof.
  unfold mqttsn_c_connect. wires_auto; try (apply one_byte; vm_compute; split; congruence).
  - apply le_bytes_bytes.
  - apply strncpy_bytes. by apply Forall_take, wd_client_id.
  - apply wires_send. vm_compute; split; congruence.
Qed.

Lemma wires_disconnect d : wires (mqttsn_c_disconnect now d).
Proof.
  unfold mqttsn_c_disconnect. wires_auto; [apply le_bytes_bytes|].
  apply wires_send. vm_compute; split; congruence.
Qed.

Lemma wires_publish i qos data : bytes data -> wires (mqttsn_c_publish now i qos data).
Proof.
  intros Hd. unfold mqttsn_c_publish.
  wires_auto; try apply le_bytes_bytes; try apply one_byte, publish_flags_u8; try done;
    apply wires_send; vm_compute; split; congruence.
Qed.

Lemma wires_run_app prog : wires (run_mq_app now prog).
Proof.
  induction prog; cbn [run_mq_app]; [apply wires_ret|..]; (apply wires_bind; [|done]).
  - apply wires_publish, map_u8_bytes'.
  - apply wires_connect.
  - apply wires_disconnect.
Qed.

Lemma wires_upcall e : send_ok e -> wires (mq_upcall now e).
Proof.
  intros He. unfold mq_upcall. apply wires_bind; [by apply wires_emit|]. intros _.
  apply wires_bind; [apply wires_log|]. intros l. apply wires_run_app.
Qed.
Hint Extern 2 (wires (mq_upcall _ _)) => by apply wires_upcall : wire.

Lemma wires_set_topic_id i id : wires (set_topic_id i id).
Proof. unfold set_topic_id. wires_auto. Qed.
Hint Resolve wires_set_topic_id : wire.

Lemma wires_inbound packet : wires (handle_inbound now packet).
Proof.
  unfold handle_inbound, mqttsn_connack_handler, mqttsn_register_handler, mqttsn_regack_handler,
    mqttsn_publish_handler, mqttsn_puback_handler, mqttsn_suback_handler, mqttsn_disconnect_handler.
  wires_auto.
Qed.

Lemma name_bytes c k name fl :
  wired c -> q_topics c !! k = Some (mk_topic (Some name) fl) -> bytes (name ++ [0]).
Proof.
  intros Hc Hk. apply Forall_app. split; [|apply one_byte; widths; lia].
  by apply (Forall_lookup_1 _ _ _ _ (wd_topics _ Hc) Hk).
Qed.

Lemma wires_registrations : wires (handle_registrations now).
Proof.
  unfold handle_registrations, mqttsn_subscribe, mqttsn_register. apply wires_get; intros c Hc.
  destruct (bool_decide _); [|apply wires_ret].
  destruct (q_topics c !! q_count c) as [[[name|] fl]|] eqn:Et; wires_auto;
    try apply le_bytes_bytes; try apply one_byte, subscribe_flags_u8; try (by eapply name_bytes);
    apply wires_send; vm_compute; split; congruence.
Qed.

Lemma wires_handler packet : wires (mqttsn_c_handler now packet).
Proof.
  unfold mqttsn_c_handler. apply wires_bind.
  { unfold handle_retry. wires_auto. }
  intros _. apply wires_bind.
  { unfold handle_ping. wires_auto. apply wires_send. vm_compute; split; congruence. }
  intros _. apply wires_bind; [apply wires_inbound|]. intros _. apply wires_registrations.
Qed.
End Wire.
