(* ===== verification/MqttFormat.v ===== *)
(** * The MQTT-SN message format, the rest ([lib/mqttsn.h])

    The constants of the header that the client does not use, and the packed
    structures as the widths of their members, against which the sizes of
    [MqttSn.v] are checked; and the state names of the client's trace. *)

From stdpp Require Import base list numbers strings.
From Stdlib Require Import ZArith Lia.
From S2P Require Import Prelude Wire MqttSn MqttInv MqttProps.

(** ** Timers and counters *)

Definition MQTTSN_T_ADV : Z := 600.
Definition MQTTSN_N_ADV : Z := 3.
Definition MQTTSN_T_SEARCHGW : Z := 5.
Definition MQTTSN_T_GWINFO : Z := 5.
Definition MQTTSN_T_WAIT : Z := 300.

(** ** Message types *)

Definition MQTTSN_ADVERTISE : Z := 0x00.
Definition MQTTSN_SEARCHGW : Z := 0x01.
Definition MQTTSN_GWINFO : Z := 0x02.
Definition MQTTSN_WILLTOPICREQ : Z := 0x06.
Definition MQTTSN_WILLTOPIC : Z := 0x07.
Definition MQTTSN_WILLMSGREQ : Z := 0x08.
Definition MQTTSN_WILLMSG : Z := 0x09.
Definition MQTTSN_PUBCOMP : Z := 0x0E.
Definition MQTTSN_PUBREC : Z := 0x0F.
Definition MQTTSN_PUBREL : Z := 0x10.
Definition MQTTSN_UNSUBSCRIBE : Z := 0x14.
Definition MQTTSN_UNSUBACK : Z := 0x15.
Definition MQTTSN_PINGRESP : Z := 0x17.
Definition MQTTSN_WILLTOPICUPD : Z := 0x1A.
Definition MQTTSN_WILLTOPICRESP : Z := 0x1B.
Definition MQTTSN_WILLMSGUPD : Z := 0x1C.
Definition MQTTSN_WILLMSGRESPO : Z := 0x1D.

(** ** Flags and return codes *)

Definition MQTTSN_FLAG_RETAIN : Z := Z.shiftl 1 4.
Definition MQTTSN_FLAG_WILL : Z := Z.shiftl 1 3.
Definition MQTTSN_FLAG_CLEAN_SESSION : Z := Z.shiftl 1 2.
Definition MQTTSN_FLAG_QOS_M1 : Z := Z.shiftl 3 5.
Definition MQTTSN_FLAG_QOS_2 : Z := Z.shiftl 2 5.
Definition MQTTSN_FLAG_QOS_MASK : Z := Z.shiftl 3 5.
Definition MQTTSN_FLAG_TOPIC_ID_PRE : Z := Z.shiftl 1 0.
Definition MQTTSN_FLAG_TOPIC_ID_SHORT : Z := Z.shiftl 2 0.
Definition MQTTSN_FLAG_TOPIC_ID_MASK : Z := Z.shiftl 3 0.

Definition MQTTSN_RC_CONGESTION : Z := 0x01.
Definition MQTTSN_RC_INVALID_TOPIC : Z := 0x02.
Definition MQTTSN_RC_NOT_SUPPORTED : Z := 0x03.

(** ** Structures: the widths of the members, arrays of no length apart *)

Definition mqttsn_header_t : list nat := [1; 1]%nat.
Definition mqttsn_advertise_t : list nat := mqttsn_header_t ++ [1; 2]%nat.
Definition mqttsn_searchgw_t : list nat := mqttsn_header_t ++ [1]%nat.
Definition mqttsn_gwinfo_t : list nat := mqttsn_header_t ++ [1]%nat.
Definition mqttsn_connect_t : list nat := mqttsn_header_t ++ [1; 1; 2]%nat.
Definition mqttsn_connack_t : list nat := mqttsn_header_t ++ [1]%nat.
Definition mqttsn_register_t : list nat := mqttsn_header_t ++ [2; 2]%nat.
Definition mqttsn_regack_t : list nat := mqttsn_header_t ++ [2; 2; 1]%nat.
Definition mqttsn_publish_t : list nat := mqttsn_header_t ++ [1; 2; 2]%nat.
Definition mqttsn_puback_t : list nat := mqttsn_header_t ++ [2; 2; 1]%nat.
Definition mqttsn_subscribe_t : list nat := mqttsn_header_t ++ [1; 2; 2]%nat.
Definition mqttsn_suback_t : list nat := mqttsn_header_t ++ [1; 2; 2; 1]%nat.
Definition mqttsn_unsubscribe_t : list nat := mqttsn_subscribe_t.
Definition mqttsn_unsuback_t : list nat := mqttsn_header_t ++ [2]%nat.
Definition mqttsn_pingreq_t : list nat := mqttsn_header_t.
Definition mqttsn_pingresp_t : list nat := mqttsn_header_t.
Definition mqttsn_disconnect_t : list nat := mqttsn_header_t ++ [2]%nat.

Definition sizeof (layout : list nat) : nat := sum_list layout.

(** ** State names, for tracing *)

Definition mq_states : list mqttsn_c_state_t :=
  [mqttsnDisconnected; mqttsnConnecting; mqttsnRegistering; mqttsnConnected; mqttsnBusy;
   mqttsnDisconnecting].

Definition states : list String.string :=
  ["DISCONNECTED"; "CONNECTING"; "REGISTERING"; "CONNECTED"; "BUSY"; "DISCONNECTING"]%string.

(** ** Theorems *)

(** The trace of a state change prints the state entered. *)
Theorem states_named s : exists i,
  mq_states !! i = Some s /\
  states !! i = Some (match s with
    | mqttsnDisconnected => "DISCONNECTED" | mqttsnConnecting => "CONNECTING"
    | mqttsnRegistering => "REGISTERING" | mqttsnConnected => "CONNECTED"
    | mqttsnBusy => "BUSY" | mqttsnDisconnecting => "DISCONNECTING" end)%string.
Proof. destruct s; [exists 0%nat|exists 1%nat|exists 2%nat|exists 3%nat|exists 4%nat|exists 5%nat]; done. Qed.

(** The sizes the client uses are those of the structures. *)
Theorem client_sizes :
  [sizeof_mq_header; sizeof_connect; sizeof_connack; sizeof_register; sizeof_regack; sizeof_publish;
   sizeof_puback; sizeof_subscribe; sizeof_suback; sizeof_pingreq] =
  map sizeof [mqttsn_header_t; mqttsn_connect_t; mqttsn_connack_t; mqttsn_register_t; mqttsn_regack_t;
    mqttsn_publish_t; mqttsn_puback_t; mqttsn_subscribe_t; mqttsn_suback_t; mqttsn_pingreq_t].
Proof. reflexivity. Qed.

Definition message_types : list Z :=
  [MQTTSN_ADVERTISE; MQTTSN_SEARCHGW; MQTTSN_GWINFO; MQTTSN_CONNECT; MQTTSN_CONNACK;
   MQTTSN_WILLTOPICREQ; MQTTSN_WILLTOPIC; MQTTSN_WILLMSGREQ; MQTTSN_WILLMSG; MQTTSN_REGISTER;
   MQTTSN_REGACK; MQTTSN_PUBLISH; MQTTSN_PUBACK; MQTTSN_PUBCOMP; MQTTSN_PUBREC; MQTTSN_PUBREL;
   MQTTSN_SUBSCRIBE; MQTTSN_SUBACK; MQTTSN_UNSUBSCRIBE; MQTTSN_UNSUBACK; MQTTSN_PINGREQ;
   MQTTSN_PINGRESP; MQTTSN_DISCONNECT; MQTTSN_WILLTOPICUPD; MQTTSN_WILLTOPICRESP;
   MQTTSN_WILLMSGUPD; MQTTSN_WILLMSGRESPO].

Theorem message_types_distinct : NoDup message_types.
Proof. apply (bool_decide_unpack _). vm_compute. exact I. Qed.

(** The flag byte's fields are disjoint and fill it. *)
Theorem flag_fields_partition :
  let fields := [MQTTSN_FLAG_DUP; MQTTSN_FLAG_QOS_MASK; MQTTSN_FLAG_RETAIN; MQTTSN_FLAG_WILL;
                 MQTTSN_FLAG_CLEAN_SESSION; MQTTSN_FLAG_TOPIC_ID_MASK] in
  fold_right Z.lor 0 fields = 0xFF /\ fold_right Z.add 0 fields = 0xFF.
Proof. split; reflexivity. Qed.

(** The messages the client acts on. *)
Definition served_types : list Z :=
  [MQTTSN_CONNACK; MQTTSN_REGISTER; MQTTSN_REGACK; MQTTSN_PUBLISH; MQTTSN_PUBACK; MQTTSN_SUBACK;
   MQTTSN_DISCONNECT].

Section Unserved.
Context `{E : MqEnv}.

(** A message of any other type - those the client does not implement, and
    numbers that are no type at all - has the effect of no message: the call of
    the handler that carries it does what the periodic call does. *)
Theorem unserved_message_ignored now buf w :
  field 1 1 buf ∉ served_types ->
  mqttsn_c_handler now (Some buf) w = mqttsn_c_handler now None w.
Proof.
  intros H. assert (Hi : handle_inbound now (Some buf) = handle_inbound now None).
  { unfold handle_inbound. destruct (_ || _); [done|]. cbv zeta.
    repeat match goal with
      | |- context [field 1 1 buf =? ?t] =>
          destruct (Z.eqb_spec (field 1 1 buf) t) as [Heq|_];
            [exfalso; apply H; rewrite Heq; apply list_elem_of_In; cbn; auto 10|]
      end. done. }
  unfold mqttsn_c_handler. by rewrite Hi.
Qed.
End Unserved.

Example pingresp_ignored w :
  @mqttsn_c_handler mq_quiet 7 (Some [2; MQTTSN_PINGRESP]) w = @mqttsn_c_handler mq_quiet 7 None w.
Proof. apply unserved_message_ignored. by apply (bool_decide_unpack _). Qed.
