(* ===== verification/Si443xRegs.v ===== *)
(** * The register map of the Si443x ([lib/si443x_regs.h])

    The transceiver's register addresses, the fields of its registers and the
    macros that convert between physical quantities and register values.  The
    driver is built for the ATmega328 of the sensor example, with [HIGH_BAND]
    (set by [phy-si443x.c] from the channel-0 frequency) and without [SI4432]:
    there [int] has 16 bits and [long] 32; a signed C division is [Z.quot].

    Four groups of macros have no definition here because they cannot be
    expanded in C: [LBDT] and [VBAT] have unbalanced parentheses, and [FO] and
    [OFFSET] apply [&] to a floating-point operand. *)

From stdpp Require Import base list numbers.
From Stdlib Require Import ZArith Lia.
From S2P Require Import Prelude.

(** ** Addresses and fields *)

(** *** Registers *)
Definition WRITE : Z := 0x80.
Definition READ : Z := 0x00.
Definition R_DEVICE_TYPE : Z := 0x00.
Definition R_DEVICE_VERSION : Z := 0x01.
Definition R_DEVICE_STATUS : Z := 0x02.
Definition R_INT_STATUS1 : Z := 0x03.
Definition R_INT_STATUS2 : Z := 0x04.
Definition R_INT_STATUS : Z := R_INT_STATUS1.
Definition R_INT_ENABLE1 : Z := 0x05.
Definition R_INT_ENABLE2 : Z := 0x06.
Definition R_INT_ENABLE : Z := R_INT_ENABLE1.
Definition R_OP_CTRL1 : Z := 0x07.
Definition R_OP_CTRL2 : Z := 0x08.
Definition R_XTAL_LOAD : Z := 0x09.
Definition R_CLOCK_OUT : Z := 0x0a.
Definition R_GPIO0_CFG : Z := 0x0b.
Definition R_GPIO1_CFG : Z := 0x0c.
Definition R_GPIO2_CFG : Z := 0x0d.
Definition R_IO_CFG : Z := 0x0e.
Definition R_ADC_CFG : Z := 0x0f.
Definition R_ADC_OFFSET : Z := 0x10.
Definition R_ADC_VAL : Z := 0x11.
Definition R_TEMP_CTRL : Z := 0x12.
Definition R_TEMP_VAL : Z := 0x13.
Definition R_WU_PERIOD1 : Z := 0x14.
Definition R_WU_PERIOD2 : Z := 0x15.
Definition R_WU_PERIOD3 : Z := 0x16.
Definition R_WU_TIMER1 : Z := 0x17.
Definition R_WU_TIMER2 : Z := 0x18.
Definition R_WU_TIMER : Z := R_WU_TIMER1.
Definition R_LDCM_DURATION : Z := 0x19.
Definition R_LOW_BATT_THRESH : Z := 0x1a.
Definition R_BATT_VAL : Z := 0x1b.
Definition R_IF_BANDWIDTH : Z := 0x1c.
Definition R_AFC_OVERRIDE : Z := 0x1d.
Definition R_AFC_CTRL : Z := 0x1e.
Definition R_CR_OVERRIDE : Z := 0x1f.
Definition R_CR_OVERSAMPLING : Z := 0x20.
Definition R_CR_OFFSET2 : Z := 0x21.
Definition R_CR_OFFSET1 : Z := 0x22.
Definition R_CR_OFFSET0 : Z := 0x23.
Definition R_CR_GAIN1 : Z := 0x24.
Definition R_CR_GAIN0 : Z := 0x25.
Definition R_RSSI : Z := 0x26.
Definition R_RSSI_CCI_THRESH : Z := 0x27.
Definition R_DIVERSITY1 : Z := 0x28.
Definition R_DIVERSITY2 : Z := 0x29.
Definition R_AFC_LIMITER : Z := 0x2a.
Definition R_AFC_CORRECTION : Z := 0x2b.
Definition R_OOK_VAL1 : Z := 0x2c.
Definition R_OOK_VAL2 : Z := 0x2d.
Definition R_SLICER_PEAK_HOLD : Z := 0x2e.
Definition R_DATA_ACCESS_CTRL : Z := 0x30.
Definition R_EZMAC_STATUS : Z := 0x31.
Definition R_HEADER_CTRL1 : Z := 0x32.
Definition R_HEADER_CTRL2 : Z := 0x33.
Definition R_PREAMBLE_LENGTH : Z := 0x34.
Definition R_PREAMBLE_CTRL : Z := 0x35.
Definition R_SYNC_WORD3 : Z := 0x36.
Definition R_SYNC_WORD2 : Z := 0x37.
Definition R_SYNC_WORD1 : Z := 0x38.
Definition R_SYNC_WORD0 : Z := 0x39.
Definition R_SYNC_WORD : Z := R_SYNC_WORD3.
Definition R_TX_HEADER3 : Z := 0x3a.
Definition R_TX_HEADER2 : Z := 0x3b.
Definition R_TX_HEADER1 : Z := 0x3c.
Definition R_TX_HEADER0 : Z := 0x3d.
Definition R_TX_HEADER : Z := R_TX_HEADER3.
Definition R_TX_LENGTH : Z := 0x3e.
Definition R_CHECK_HEADER3 : Z := 0x3f.
Definition R_CHECK_HEADER2 : Z := 0x40.
Definition R_CHECK_HEADER1 : Z := 0x41.
Definition R_CHECK_HEADER0 : Z := 0x42.
Definition R_CHECK_HEADER : Z := R_CHECK_HEADER3.
Definition R_HEADER_ENABLE3 : Z := 0x43.
Definition R_HEADER_ENABLE2 : Z := 0x44.
Definition R_HEADER_ENABLE1 : Z := 0x45.
Definition R_HEADER_ENABLE0 : Z := 0x46.
Definition R_HEADER_ENABLE : Z := R_HEADER_ENABLE3.
Definition R_RX_HEADER3 : Z := 0x47.
Definition R_RX_HEADER2 : Z := 0x48.
Definition R_RX_HEADER1 : Z := 0x49.
Definition R_RX_HEADER0 : Z := 0x4a.
Definition R_RX_HEADER : Z := R_RX_HEADER3.
Definition R_RX_LENGTH : Z := 0x4b.
Definition R_ADC8_CTRL : Z := 0x4f.
Definition R_FILTER_ADDR : Z := 0x60.
Definition R_XTAL_CTRL : Z := 0x62.
Definition R_AGC_OVERRIDE1 : Z := 0x69.
Definition R_TX_POWER : Z := 0x6d.
Definition R_TX_RATE1 : Z := 0x6e.
Definition R_TX_RATE0 : Z := 0x6f.
Definition R_TX_RATE : Z := R_TX_RATE1.
Definition R_MOD_CTRL1 : Z := 0x70.
Definition R_MOD_CTRL2 : Z := 0x71.
Definition R_DEVIATION : Z := 0x72.
Definition R_FREQ_OFFSET1 : Z := 0x73.
Definition R_FREQ_OFFSET2 : Z := 0x74.
Definition R_FREQ_OFFSET : Z := R_FREQ_OFFSET1.
Definition R_BAND_SELECT : Z := 0x75.
Definition R_CARRIER_FREQ1 : Z := 0x76.
Definition R_CARRIER_FREQ0 : Z := 0x77.
Definition R_CARRIER_FREQ : Z := R_CARRIER_FREQ1.
Definition R_CHANNEL : Z := 0x79.
Definition R_STEP : Z := 0x7a.
Definition R_TX_FIFO_CTRL1 : Z := 0x7c.
Definition R_TX_FIFO_CTRL2 : Z := 0x7d.
Definition R_RX_FIFO_CTRL : Z := 0x7e.
Definition R_FIFO : Z := 0x7f.

(** *** 0x00 Device Type Code *)
Definition DT_MASK : Z := 31 ≪ 0.

(** *** 0x01 Device Version Code *)
Definition VC_MASK : Z := 31 ≪ 0.

(** *** 0x02 Device Status *)
Definition FFOVFL : Z := 1 ≪ 7.
Definition FFUNFL : Z := 1 ≪ 6.
Definition RXFFEM : Z := 1 ≪ 5.
Definition HEADERR : Z := 1 ≪ 4.
Definition FREQERR : Z := 1 ≪ 3.
Definition CPS_IDLE : Z := 0 ≪ 0.
Definition CPS_RX : Z := 1 ≪ 0.
Definition CPS_TX : Z := 2 ≪ 0.

(** *** 0x03/0x04 Interrupt Status *)
Definition IFFERR : Z := 1 ≪ 15.
Definition ITXFFAFULL : Z := 1 ≪ 14.
Definition ITXFFAEM : Z := 1 ≪ 13.
Definition IRXFFAFULL : Z := 1 ≪ 12.
Definition IEXT : Z := 1 ≪ 11.
Definition IPKSENT : Z := 1 ≪ 10.
Definition IPKVALID : Z := 1 ≪ 9.
Definition ICRCERROR : Z := 1 ≪ 8.
Definition ISWDET : Z := 1 ≪ 7.
Definition IPREAVAL : Z := 1 ≪ 6.
Definition IPREAINVAL : Z := 1 ≪ 5.
Definition IRSSI : Z := 1 ≪ 4.
Definition IWUT : Z := 1 ≪ 3.
Definition ILBD : Z := 1 ≪ 2.
Definition ICHIPRDY : Z := 1 ≪ 1.
Definition IPOR : Z := 1 ≪ 0.

(** *** 0x05/0x06 Interrupt Enable *)
Definition ENFFERR : Z := 1 ≪ 15.
Definition ENTXFFAFULL : Z := 1 ≪ 14.
Definition ENTXFFAEM : Z := 1 ≪ 13.
Definition ENRXFFAFULL : Z := 1 ≪ 12.
Definition ENEXT : Z := 1 ≪ 11.
Definition ENPKSENT : Z := 1 ≪ 10.
Definition ENPKVALID : Z := 1 ≪ 9.
Definition ENCRCERROR : Z := 1 ≪ 8.
Definition ENSWDET : Z := 1 ≪ 7.
Definition ENPREAVAL : Z := 1 ≪ 6.
Definition ENPREAINVAL : Z := 1 ≪ 5.
Definition ENRSSI : Z := 1 ≪ 4.
Definition ENWUT : Z := 1 ≪ 3.
Definition ENLBD : Z := 1 ≪ 2.
Definition ENCHIPRDY : Z := 1 ≪ 1.
Definition ENPOR : Z := 1 ≪ 0.

(** *** 0x07 Operating Mode and Function Control 1 *)
Definition SWRES : Z := 1 ≪ 7.
Definition ENWT : Z := 1 ≪ 5.
Definition X32KSEL : Z := 1 ≪ 4.
Definition TXON : Z := 1 ≪ 3.
Definition RXON : Z := 1 ≪ 2.
Definition PLLON : Z := 1 ≪ 1.
Definition XTON : Z := 1 ≪ 0.

(** *** 0x08 Operating Mode and Function Control 2 *)
Definition ANTDIV000 : Z := 0 ≪ 5.
Definition ANTDIV001 : Z := 1 ≪ 5.
Definition ANTDIV010 : Z := 2 ≪ 5.
Definition ANTDIV011 : Z := 3 ≪ 5.
Definition ANTDIV100 : Z := 4 ≪ 5.
Definition ANTDIV101 : Z := 5 ≪ 5.
Definition ANTDIV110 : Z := 6 ≪ 5.
Definition ANTDIV111 : Z := 7 ≪ 5.
Definition RXMPK : Z := 1 ≪ 4.
Definition AUTOTX : Z := 1 ≪ 3.
Definition ENLDM : Z := 1 ≪ 2.
Definition FFCLRRX : Z := 1 ≪ 1.
Definition FFCLRTX : Z := 1 ≪ 0.

(** *** 0x09 Crystal Oscillator Load Capacitance *)
Definition XTALSHFT : Z := 1 ≪ 7.
Definition XLC_MASK : Z := 127 ≪ 0.
Definition XLC_MIN : Z := 1800.
Definition XLC_STEP : Z := 85.
Definition XLC_MAX : Z := XLC_MIN + (XLC_STEP * 127).

(** *** 0x0A Microcontroller Clock Output *)
Definition CLKT_0 : Z := 0 ≪ 4.
Definition CLKT_128 : Z := 1 ≪ 4.
Definition CLKT_256 : Z := 2 ≪ 4.
Definition CLKT_512 : Z := 3 ≪ 4.
Definition ENLFC : Z := 1 ≪ 3.
Definition MCLK_30MHZ : Z := 0 ≪ 0.
Definition MCLK_15MHZ : Z := 1 ≪ 0.
Definition MCLK_10MHZ : Z := 2 ≪ 0.
Definition MCLK_4MHZ : Z := 3 ≪ 0.
Definition MCLK_3MHZ : Z := 4 ≪ 0.
Definition MCLK_2MHZ : Z := 5 ≪ 0.
Definition MCLK_1MHZ : Z := 6 ≪ 0.
Definition MCLK_32KHZ : Z := 7 ≪ 0.

(** *** 0x0B/0x0C/0x0D GPIO Configuration *)
Definition GPIODRV_0 : Z := 0 ≪ 6.
Definition GPIODRV_1 : Z := 1 ≪ 6.
Definition GPIODRV_2 : Z := 2 ≪ 6.
Definition GPIODRV_3 : Z := 3 ≪ 6.
Definition PUP : Z := 1 ≪ 5.
Definition GPIO_DEFAULT : Z := 0 ≪ 0.
Definition GPIO_WUT : Z := 1 ≪ 0.
Definition GPIO_LBD : Z := 2 ≪ 0.
Definition GPIO_DIGI_IN : Z := 3 ≪ 0.
Definition GPIO_INT_FALLING : Z := 4 ≪ 0.
Definition GPIO_INT_RISING : Z := 5 ≪ 0.
Definition GPIO_INT_BOTH : Z := 6 ≪ 0.
Definition GPIO_ADC_IN : Z := 7 ≪ 0.
Definition GPIO_DIGI_OUT : Z := 10 ≪ 0.
Definition GPIO_VREF_OUT : Z := 14 ≪ 0.
Definition GPIO_DCLK_OUT : Z := 15 ≪ 0.
Definition GPIO_TX_IN : Z := 16 ≪ 0.
Definition GPIO_RTX_REQ : Z := 17 ≪ 0.
Definition GPIO_TX_STATE : Z := 18 ≪ 0.
Definition GPIO_TX_FAF : Z := 19 ≪ 0.
Definition GPIO_RX_OUT : Z := 20 ≪ 0.
Definition GPIO_RX_STATE : Z := 21 ≪ 0.
Definition GPIO_RX_FAF : Z := 22 ≪ 0.
Definition GPIO_ANTENNA1 : Z := 23 ≪ 0.
Definition GPIO_ANTENNA2 : Z := 24 ≪ 0.
Definition GPIO_VALID_PREAMBLE : Z := 25 ≪ 0.
Definition GPIO_BAD_PREAMBLE : Z := 26 ≪ 0.
Definition GPIO_SYNC : Z := 27 ≪ 0.
Definition GPIO_CCA : Z := 28 ≪ 0.
Definition GPIO_VDD : Z := 29 ≪ 0.

(** *** 0x0E IO Port Configuration *)
Definition EXTITST2 : Z := 1 ≪ 6.
Definition EXTITST1 : Z := 1 ≪ 5.
Definition EXTITST0 : Z := 1 ≪ 4.
Definition ITSDO : Z := 1 ≪ 3.
Definition DIO2 : Z := 1 ≪ 2.
Definition DIO1 : Z := 1 ≪ 1.
Definition DIO0 : Z := 1 ≪ 0.

(** *** 0x0F ADC Configuration *)
Definition ADCSTART : Z := 1 ≪ 7.
Definition ADCSEL_TEMP : Z := 0 ≪ 4.
Definition ADCSEL_GPIO0 : Z := 1 ≪ 4.
Definition ADCSEL_GPIO1 : Z := 2 ≪ 4.
Definition ADCSEL_GPIO2 : Z := 3 ≪ 4.
Definition ADCSEL_GPIO0_1 : Z := 4 ≪ 4.
Definition ADCSEL_GPIO1_2 : Z := 5 ≪ 4.
Definition ADCSEL_GPIO0_2 : Z := 6 ≪ 4.
Definition ADCSEL_GND : Z := 7 ≪ 4.
Definition ADCREF_1V2 : Z := 0 ≪ 2.
Definition ADCREF_VDD_3 : Z := 2 ≪ 2.
Definition ADCREF_VDD_2 : Z := 3 ≪ 2.
Definition ADCGAIN_MASK : Z := 3 ≪ 0.

(** *** 0x10 ADC Sensor Amplifier Offset *)
Definition ADCOFFS_MASK : Z := 15 ≪ 0.

(** *** 0x12 Temperature Sensor Calibration *)
Definition TSRANGE00 : Z := 0 ≪ 6.
Definition TSRANGE01 : Z := 1 ≪ 6.
Definition TSRANGE10 : Z := 2 ≪ 6.
Definition TSRANGE11 : Z := 3 ≪ 6.
Definition ENTSOFFS : Z := 1 ≪ 5.
Definition ENTSTRIM : Z := 1 ≪ 4.
Definition TSTRIM_MASK : Z := 15 ≪ 0.

(** *** 0x14/0x15/0x16 Wake-Up Timer Period *)
Definition WTR_MASK : Z := 31 ≪ 0.

(** *** 0x1A Low-Battery Detector Threshold *)
Definition LBDT_MASK : Z := 31 ≪ 0.

(** *** 0x1B Battery Voltage Level *)
Definition VBAT_MASK : Z := 31 ≪ 0.

(** *** 0x30 Data Access Control *)
Definition ENPACRX : Z := 1 ≪ 7.
Definition LSBFRST : Z := 1 ≪ 6.
Definition CRCDONLY : Z := 1 ≪ 5.
Definition SKIP2PH : Z := 1 ≪ 4.
Definition ENPACTX : Z := 1 ≪ 3.
Definition ENCRC : Z := 1 ≪ 2.
Definition CRC_CCITT : Z := 0 ≪ 0.
Definition CRC_16 : Z := 1 ≪ 0.
Definition CRC_IEC16 : Z := 2 ≪ 0.
Definition CRC_BIACHEVA : Z := 3 ≪ 0.

(** *** 0x31 EZMAC Status *)
Definition RXCRC1 : Z := 1 ≪ 6.
Definition PKSRCH : Z := 1 ≪ 5.
Definition PKRX : Z := 1 ≪ 4.
Definition PKVALID : Z := 1 ≪ 3.
Definition CRCERROR : Z := 1 ≪ 2.
Definition PKTX : Z := 1 ≪ 1.
Definition PKSENT : Z := 1 ≪ 0.

(** *** 0x32 Header Control 1 *)
Definition BCEN_SHIFT : Z := 4.
Definition BCEN_MASK : Z := 15.
Definition HDCH_SHIFT : Z := 0.
Definition HDCH_MASK : Z := 15.

(** *** 0x33 Header Control 2 *)
Definition SKIPSYN : Z := 1 ≪ 7.
Definition HDLEN_SHIFT : Z := 4.
Definition HDLEN_MASK : Z := 7.
Definition FIXPKLEN : Z := 1 ≪ 3.
Definition SYNCLEN_SHIFT : Z := 1.
Definition SYNCLEN_MASK : Z := 3.
Definition PREALEN8 : Z := 1 ≪ 0.

(** *** 0x34 Preamble Length *)
Definition PREALEN_MAX : Z := 255.

(** *** 0x35 Preamble Threshold Control *)
Definition PREATH_SHIFT : Z := 3.
Definition PREATH_MASK : Z := 31.
Definition PREATH_MAX : Z := 31.

(** *** 0x63 AGC Override 1 *)
Definition SGIN : Z := 1 ≪ 6.
Definition AGCEN : Z := 1 ≪ 5.
Definition LNAGAIN : Z := 1 ≪ 4.
Definition PGA_MASK : Z := 15 ≪ 0.

(** *** 0x6D TX Power *)
Definition LNA_SW : Z := 1 ≪ 3.
Definition TXPOW_MASK : Z := 7 ≪ 0.
Definition TXPOW_MAX : Z := 13.

(** *** 0x6E/0x6F TX Data Rate *)
Definition TXDTRT_SCALE_MAX : Z := 30000.

(** *** 0x70 Modulation Mode Control 1 *)
Definition TXDTRTSCALE : Z := 1 ≪ 5.
Definition ENPHPWDN : Z := 1 ≪ 4.
Definition MANPPOL : Z := 1 ≪ 3.
Definition ENMANINV : Z := 1 ≪ 2.
Definition ENMANCH : Z := 1 ≪ 1.
Definition ENWHITE : Z := 1 ≪ 0.

(** *** 0x71 Modulation Mode Control 2 *)
Definition TRCLK_NONE : Z := 0 ≪ 6.
Definition TRCLK_GPIO : Z := 1 ≪ 6.
Definition TRCLK_SDO : Z := 2 ≪ 6.
Definition TRCLK_nIRQ : Z := 3 ≪ 6.
Definition DTMOD_GPIO : Z := 0 ≪ 4.
Definition DTMOD_SDI : Z := 1 ≪ 4.
Definition DTMOD_FIFO : Z := 2 ≪ 4.
Definition DTMOD_PN9 : Z := 3 ≪ 4.
Definition ENINV : Z := 1 ≪ 3.
Definition FD8 : Z := 1 ≪ 2.
Definition MODTYP_NONE : Z := 0 ≪ 0.
Definition MODTYP_OOK : Z := 1 ≪ 0.
Definition MODTYP_FSK : Z := 2 ≪ 0.
Definition MODTYP_GFSK : Z := 3 ≪ 0.
Definition MODTYP_MASK : Z := 3 ≪ 0.

(** *** 0x72 Deviation *)
Definition FD_MASK : Z := 255 ≪ 0.

(** *** 0x73/0x74 Frequency Offset *)
Definition FO_MASK : Z := 1023 ≪ 0.

(** *** 0x75 Band select *)
Definition SBSEL : Z := 1 ≪ 6.
Definition HBSEL : Z := 1 ≪ 5.
Definition FB_MASK : Z := 31 ≪ 0.

(** *** 0x7C TX FIFO Control 1 *)
Definition TXAFTHR_MASK : Z := 63 ≪ 0.

(** *** 0x7D TX FIFO Control 2 *)
Definition TXFAETHR_MASK : Z := 63 ≪ 0.

(** *** 0x7E RX FIFO Control *)
Definition RXAFTHR_MASK : Z := 63 ≪ 0.

(** ** Conversion macros *)

(** Crystal load capacitance, in fF. *)
Definition XLC (cint : Z) : Z := Z.land (Z.quot (cint - XLC_MIN) XLC_STEP) XLC_MASK.
Definition CINT (xlc : Z) : Z :=
  Z.land xlc XLC_MASK * XLC_STEP + XLC_MIN + Z.quot xlc XTALSHFT * 3700.

(** Thresholds back to mV. *)
Definition LBDT_MV (lbdt : Z) : Z := Z.land lbdt LBDT_MASK * 50 + 1700.
Definition VBAT_MV (vbat : Z) : Z := Z.land vbat VBAT_MASK * 50 + 1700.

(** Signal strength. *)
Definition RSSI_DBM (rssi : Z) : Z := Z.quot ((rssi - 241) * 100) 191.
Definition RSSITH (dbm : Z) : Z := 241 + Z.quot (dbm * 191) 100.

(** Header and preamble fields. *)
Definition BCEN (bcen : Z) : Z := Z.land bcen BCEN_MASK ≪ BCEN_SHIFT.
Definition HDCH (hdch : Z) : Z := Z.land hdch HDCH_MASK ≪ HDCH_SHIFT.
Definition HDLEN (hdlen : Z) : Z := Z.land hdlen HDLEN_MASK ≪ HDLEN_SHIFT.
Definition SYNCLEN (synclen : Z) : Z := Z.land (synclen - 1) SYNCLEN_MASK ≪ SYNCLEN_SHIFT.
Definition PREATH (th : Z) : Z := Z.land th PREATH_MASK ≪ PREATH_SHIFT.

(** Transmitter power, in dBm. *)
Definition TXPOW_MIN : Z := -8.
Definition TXPOW_STEP : Z := 3.
(** The difference is an [int]: [phy_set_power] guards it. *)
Definition TXPOW (dbm : Z) : Z := Z.land (Z.quot (dbm - TXPOW_MIN) TXPOW_STEP) TXPOW_MASK.
Definition TXDBM (txpow : Z) : Z := Z.land txpow TXPOW_MASK * TXPOW_STEP + TXPOW_MIN.

(** Data rate, in bit/s ([unsigned long long] arithmetic). *)
Definition TXDR_LOW (bps : Z) : Z := u64 (u64 bps ≪ 21) / 1000000.
Definition TXDR_HIGH (bps : Z) : Z := u64 (u64 bps ≪ 16) / 1000000.

(** Deviation, in Hz ([unsigned long]). *)
Definition FD (deviation_hz : Z) : Z := u32 deviation_hz / 625.
Definition DEVIATION (fd : Z) : Z := u32 (fd * 625).

(** Carrier frequency, in Hz, for [HIGH_BAND]. *)
Definition MHZ : Z := 1000000.
Definition KHZ : Z := 1000.
Definition BAND_OFFSET : Z := 480 * MHZ.
Definition BAND_STEP : Z := 20 * MHZ.
Definition BAND_FLAGS : Z := Z.lor SBSEL HBSEL.
Definition BAND (ch0_hz : Z) : Z := Z.land (Z.quot (ch0_hz - BAND_OFFSET) BAND_STEP) FB_MASK.
Definition FB (ch0_hz : Z) : Z := Z.lor BAND_FLAGS (BAND ch0_hz).
Definition FC (ch0_hz : Z) : Z :=
  u32 (u32 (ch0_hz - (BAND_OFFSET + BAND_STEP * BAND ch0_hz)) * 64) / Z.quot BAND_STEP KHZ.
