(* ===== verification/Si443x.v ===== *)
(** * The Si443x radio driver ([lib/phy-si443x.c], interface [lib/phy.h])

    The driver talks to the transceiver over SPI and one interrupt line.  Both,
    and the delays and power switches of the board, are macros of the platform's
    [tinyhan_platform.h]; what is behind them is hardware.  The model records
    every use of such a macro in a history and takes the answers - the level of
    the interrupt line, the byte shifted in - as functions of that history: the
    class [Platform].  No law is assumed of it here.

    The driver's static variables and the history are the record [radio]; a
    function of the driver is a function of it that may not return ([Blocked]:
    a loop has used up its fuel) or leave C's defined behaviour ([Fault]: a
    failed [assert] or a read past the end of an array).

    [Si443xBus.v] is the other end of the wires: it follows the select line and
    the bytes of a history and reconstructs the register accesses. *)

From stdpp Require Import base list numbers.
From Stdlib Require Import ZArith Lia.
From S2P Require Import Prelude Si443xRegs.

(** ** Configuration *)

Definition MAX_PACKET : Z := 64.
Definition DEF_CHANNEL : Z := 100.
Definition DEF_TX_POWER : Z := TXPOW_MIN.
Definition CFG_FREQUENCY_F0 : Z := 868 * MHZ.
Definition CFG_CHANNEL_STEP : Z := 10.
Definition CFG_DEVIATION : Z := 25000.
Definition CFG_BITRATE : Z := 50000.
Definition CFG_MODULATION : Z := MODTYP_GFSK.
Definition CFG_TX_PREAMBLE : Z := 8.
Definition CFG_PREAMBLE_THRESH : Z := 2.
Definition CFG_SYNC_WORD : Z := 0x2dd20000.
Definition CFG_SYNC_WORD_LEN : Z := 2.
Definition FIFO_SIZE : Z := 64.
Definition RX_BLOCK_SIZE : Z := Z.quot FIFO_SIZE 2.
Definition TX_WAIT_THRESH : Z := FIFO_SIZE - 6.
Definition TX_RESUME_THRESH : Z := Z.quot FIFO_SIZE 2.

Definition phy_si443x_config : list Z := [
  (* General setup *)
  R_GPIO0_CFG; 3;
  GPIO_RX_STATE; GPIO_TX_STATE; 0;

  R_DATA_ACCESS_CTRL; 1;
  Z.lor (Z.lor (Z.lor ENPACRX ENPACTX) ENCRC) CRC_CCITT;

  R_TX_FIFO_CTRL1; 3;
  Z.land TX_WAIT_THRESH TXAFTHR_MASK;
  Z.land TX_RESUME_THRESH TXFAETHR_MASK;
  Z.land (RX_BLOCK_SIZE - 1) RXAFTHR_MASK;

  R_HEADER_CTRL1; 8;
  Z.lor (BCEN 0) (HDCH 0);
  Z.lor (HDLEN 0) (SYNCLEN CFG_SYNC_WORD_LEN);
  CFG_TX_PREAMBLE;
  PREATH CFG_PREAMBLE_THRESH;
  u8 (CFG_SYNC_WORD ≫ 24);
  u8 (CFG_SYNC_WORD ≫ 16);
  u8 (CFG_SYNC_WORD ≫ 8);
  u8 (CFG_SYNC_WORD ≫ 0);

  (* Transmitter setup *)
  R_TX_POWER; 11;
  Z.lor (TXPOW DEF_TX_POWER) LNA_SW;
  u8 (TXDR_HIGH CFG_BITRATE ≫ 8);
  u8 (TXDR_HIGH CFG_BITRATE ≫ 0);
  0;
  Z.lor (Z.lor TRCLK_NONE DTMOD_FIFO) CFG_MODULATION;
  FD CFG_DEVIATION;
  0; 0;
  FB CFG_FREQUENCY_F0;
  u8 (FC CFG_FREQUENCY_F0 ≫ 8);
  u8 (FC CFG_FREQUENCY_F0 ≫ 0);

  R_CHANNEL; 2;
  DEF_CHANNEL;
  Z.quot CFG_CHANNEL_STEP 10;

  (* Receiver setup according to spreadsheet *)
  R_IF_BANDWIDTH; 10;
  0x05; 0x40; 0x0a; 0x03; 0x50; 0x01; 0x99; 0x9a; 0x06; 0x68;
  R_AFC_LIMITER; 5;
  0x28; 0x00; 0x28; 0x19; 0x29;

  0 (* END *)
].

(** ** The platform *)

(** Uses of the platform's macros. *)
Inductive io : Set :=
| PlatformInit
| SpiInit
| PowerUp
| PowerDown
| DelayMs (ms : Z)
| WaitEvent
| Irq (level : bool)            (* INP(nIRQ) *)
| Select
| Deselect
| SpiIo (mosi miso : Z).

(** The most recent use first. *)
Definition history := list io.

Class Platform := {
  irq_level : history -> bool;
  spi_miso : history -> Z -> Z
}.

(** ** State *)

Inductive si443x_state_t : Set :=
| stateStandby
| stateListen
| stateRx
| stateRxReady
| stateRxValid
| stateRxInvalid
| stateFifoError
| stateTx
| stateTxBusy.

#[export] Instance si443x_state_eq_dec : EqDecision si443x_state_t.
Proof. solve_decision. Defined.

(** The enumeration's values: "order is important here". *)
Definition state_val (s : si443x_state_t) : Z :=
  match s with
  | stateStandby => 0
  | stateListen => 1
  | stateRx => 2
  | stateRxReady => 3
  | stateRxValid => 4
  | stateRxInvalid => 5
  | stateFifoError => 6
  | stateTx => 7
  | stateTxBusy => 8
  end.

Record radio := mk_radio {
  phy_si443x_state : si443x_state_t;
  phy_si443x_rssi : Z;               (* int *)
  phy_si443x_recv_cb : bool;         (* registered or NULL *)
  hist : history
}.

(** Static storage at reset. *)
Definition radio_zero : radio := mk_radio stateStandby 0 false [].

(** ** Effects *)

Inductive result (A : Type) : Type :=
| Done (a : A) (w : radio)
| Blocked
| Fault.
Arguments Done {A} a w.
Arguments Blocked {A}.
Arguments Fault {A}.

Definition D (A : Type) : Type := radio -> result A.

Definition dret {A} (a : A) : D A := fun w => Done a w.
Definition dbind {A B} (m : D A) (k : A -> D B) : D B := fun w =>
  match m w with
  | Done a w' => k a w'
  | Blocked => Blocked
  | Fault => Fault
  end.
Definition blocked {A} : D A := fun _ => Blocked.
Definition fault {A} : D A := fun _ => Fault.

Declare Scope drv_scope.
Delimit Scope drv_scope with drv.
Notation "x <- m ;; k" := (dbind m (fun x => k))
  (at level 100, m at next level, right associativity) : drv_scope.
Notation "m ;; k" := (dbind m (fun _ => k)) (at level 100, right associativity) : drv_scope.
Local Open Scope drv_scope.

Definition get_state : D si443x_state_t := fun w => Done (phy_si443x_state w) w.
Definition get_rssi : D Z := fun w => Done (phy_si443x_rssi w) w.
Definition get_recv_cb : D bool := fun w => Done (phy_si443x_recv_cb w) w.
Definition set_state (s : si443x_state_t) : D unit := fun w =>
  Done tt (mk_radio s (phy_si443x_rssi w) (phy_si443x_recv_cb w) (hist w)).
Definition set_rssi (r : Z) : D unit := fun w =>
  Done tt (mk_radio (phy_si443x_state w) r (phy_si443x_recv_cb w) (hist w)).
Definition set_recv_cb (b : bool) : D unit := fun w =>
  Done tt (mk_radio (phy_si443x_state w) (phy_si443x_rssi w) b (hist w)).
Definition dwhen (b : bool) (m : D unit) : D unit := if b then m else dret tt.

Definition add_io (e : io) (w : radio) : radio :=
  mk_radio (phy_si443x_state w) (phy_si443x_rssi w) (phy_si443x_recv_cb w) (e :: hist w).
Definition perform (e : io) : D unit := fun w => Done tt (add_io e w).

Section Driver.
Context `{P : Platform}.

Definition SPI_IO (c : Z) : D Z := fun w =>
  let i := u8 (spi_miso (hist w) c) in Done i (add_io (SpiIo c i) w).
Definition INP_nIRQ : D bool := fun w =>
  let b := irq_level (hist w) in Done b (add_io (Irq b) w).

(** ** Register access *)

Fixpoint spi_read_bytes (n : nat) : D (list Z) :=
  match n with
  | O => dret []
  | S n => c <- SPI_IO 0 ;; l <- spi_read_bytes n ;; dret (c :: l)
  end.

Fixpoint spi_write_bytes (data : list Z) : D unit :=
  match data with
  | [] => dret tt
  | c :: data => SPI_IO c ;; spi_write_bytes data
  end.

Definition si443x_read (addr : Z) (size : Z) : D (list Z) :=
  perform Select ;;
  SPI_IO (Z.lor READ (Z.land addr 0x7f)) ;;
  data <- spi_read_bytes (Z.to_nat (u8 size)) ;;
  perform Deselect ;;
  dret data.

Definition si433x_write (addr : Z) (data : list Z) : D unit :=
  perform Select ;;
  SPI_IO (Z.lor WRITE (Z.land addr 0x7f)) ;;
  spi_write_bytes data ;;
  perform Deselect.

Definition si443x_read8 (addr : Z) : D Z :=
  data <- si443x_read addr 1 ;; dret (le_val data).

Definition si443x_read16 (addr : Z) : D Z :=
  data <- si443x_read addr 2 ;;
  let val := le_val data in
  dret (u16 (Z.lor (val ≫ 8) (val ≪ 8))).

Definition si443x_write8 (addr val : Z) : D unit := si433x_write addr [u8 val].

Definition si443x_write16 (addr val : Z) : D unit :=
  let val := u16 val in
  let val1 := u16 (Z.lor (val ≫ 8) (val ≪ 8)) in
  si433x_write addr (le_bytes 2 val1).

(** The access macros. *)
Definition SUPPORTED_DEVICE_TYPE : Z := 0x08.
Definition SI443X_DEVICE_TYPE : D Z := v <- si443x_read8 R_DEVICE_TYPE ;; dret (Z.land v DT_MASK).
Definition SUPPORTED_DEVICE_VERSION : Z := 0x06.
Definition SI443X_DEVICE_VERSION : D Z :=
  v <- si443x_read8 R_DEVICE_VERSION ;; dret (Z.land v VC_MASK).
Definition SI443X_STATUS : D Z := si443x_read16 R_INT_STATUS.
Definition SI443X_SWRESET : D unit := si443x_write8 R_OP_CTRL1 SWRES.
Definition SI443X_MODE_STANDBY : D unit := si443x_write8 R_OP_CTRL1 0.
Definition SI443X_MODE_SLEEP : D unit := si443x_write8 R_OP_CTRL1 ENWT.
Definition SI443X_MODE_SENSOR : D unit := si443x_write8 R_OP_CTRL1 ENLBD.
Definition SI443X_MODE_READY : D unit := si443x_write8 R_OP_CTRL1 XTON.
Definition SI443X_MODE_TUNE : D unit := si443x_write8 R_OP_CTRL1 PLLON.
Definition SI443X_MODE_TX : D unit := si443x_write8 R_OP_CTRL1 (Z.lor TXON XTON).
Definition SI443X_MODE_RX : D unit := si443x_write8 R_OP_CTRL1 (Z.lor RXON XTON).
Definition SI443X_CLEAR_TX_FIFO : D unit :=
  si443x_write8 R_OP_CTRL2 FFCLRTX ;; si443x_write8 R_OP_CTRL2 0.
Definition SI443X_CLEAR_RX_FIFO : D unit :=
  si443x_write8 R_OP_CTRL2 FFCLRRX ;; si443x_write8 R_OP_CTRL2 0.
Definition SI443X_CLEAR_FIFOS : D unit :=
  si443x_write8 R_OP_CTRL2 (Z.lor FFCLRTX FFCLRRX) ;; si443x_write8 R_OP_CTRL2 0.

(** ** Configuration table *)

(** [while (block_size--)]: what is left of the table. *)
Fixpoint init_block (block_size : nat) (ptr : list Z) : D (list Z) :=
  match block_size with
  | O => dret ptr
  | S n => match ptr with
           | c :: ptr => SPI_IO c ;; init_block n ptr
           | [] => fault
           end
  end.

Fixpoint device_init_loop (fuel : nat) (ptr : list Z) : D unit :=
  match fuel with
  | O => blocked
  | S fuel =>
      match ptr with
      | [] => fault
      | address :: ptr =>
          if address =? 0 then dret tt else
          match ptr with
          | [] => fault
          | block_size :: ptr =>
              perform Select ;;
              SPI_IO (Z.lor WRITE address) ;;
              ptr <- init_block (Z.to_nat block_size) ptr ;;
              perform Deselect ;;
              device_init_loop fuel ptr
          end
      end
  end.

Definition si443x_device_init : D unit :=
  device_init_loop (length phy_si443x_config) phy_si443x_config.

(** ** Operating modes *)

Definition phy_listen : D Z :=
  SI443X_CLEAR_FIFOS ;;
  SI443X_MODE_RX ;;
  set_state stateListen ;;
  dret 0.

Definition phy_standby : D Z :=
  SI443X_CLEAR_FIFOS ;;
  SI443X_MODE_STANDBY ;;
  set_state stateStandby ;;
  dret 0.

Definition phy_delayed_standby (us : Z) : D Z :=
  let m := u32 (us * 32768) / 4000000 in
  si443x_write8 R_WU_PERIOD1 0 ;;
  si443x_write16 R_WU_PERIOD2 m ;;
  si443x_write8 R_OP_CTRL1 (Z.lor (Z.lor ENWT RXON) XTON) ;;
  dret 0.

(** ** Events *)

(** The body of the loop of [si443x_event_handler] for one status word. *)
Definition handle_status (status : Z) : D unit :=
  st <- get_state ;;
  dwhen (bool_decide (st = stateListen) && (status &? ISWDET))
    (set_state stateRx ;;
     v <- si443x_read8 R_RSSI ;;
     set_rssi (RSSI_DBM v)) ;;
  dwhen (status &? IRXFFAFULL) (set_state stateRxReady) ;;
  dwhen (status &? IPKVALID) (set_state stateRxValid) ;;
  dwhen (status &? ICRCERROR) (set_state stateRxInvalid) ;;
  dwhen (status &? IFFERR) (set_state stateFifoError) ;;
  dwhen (status &? ITXFFAFULL) (set_state stateTxBusy) ;;
  dwhen (status &? ITXFFAEM) (set_state stateTx) ;;
  dwhen (status &? IPKSENT) (set_state stateStandby) ;;
  dwhen (status &? IWUT) (phy_standby ;; dret tt).

Fixpoint si443x_event_handler (fuel : nat) : D unit :=
  match fuel with
  | O => blocked
  | S fuel =>
      irq <- INP_nIRQ ;;
      if (irq : bool) then dret tt else
      status <- SI443X_STATUS ;;
      handle_status status ;;
      si443x_event_handler fuel
  end.

(** ** Start-up *)

(** [while (INP(nIRQ)) {}] *)
Fixpoint poll_reset (fuel : nat) : D unit :=
  match fuel with
  | O => blocked
  | S fuel => irq <- INP_nIRQ ;; if (irq : bool) then poll_reset fuel else dret tt
  end.

Definition int_enable_mask : Z :=
  Z.lor (Z.lor (Z.lor (Z.lor (Z.lor (Z.lor (Z.lor
    ENTXFFAFULL ENTXFFAEM) ENRXFFAFULL) ENPKSENT) ENSWDET) ENPKVALID) ENCRCERROR) ENWUT.

Definition phy_resume (fuel : nat) : D Z :=
  perform PowerUp ;;
  perform (DelayMs 50) ;;
  device <- SI443X_DEVICE_TYPE ;;
  version <- SI443X_DEVICE_VERSION ;;
  if negb (device =? SUPPORTED_DEVICE_TYPE) || negb (version =? SUPPORTED_DEVICE_VERSION)
  then dret (-1)
  else
    SI443X_SWRESET ;;
    poll_reset fuel ;;
    perform (DelayMs 1) ;;
    si443x_device_init ;;
    phy_standby ;;
    si443x_write16 R_INT_ENABLE 0 ;;
    si443x_write16 R_INT_ENABLE int_enable_mask ;;
    dret 0.

Definition phy_suspend : D Z := perform PowerDown ;; dret 0.

Definition phy_init (fuel : nat) : D Z :=
  perform PlatformInit ;;
  perform SpiInit ;;
  phy_resume fuel.

Definition phy_register_recv_cb (cb : bool) : D unit := set_recv_cb cb.

(** ** Reception *)

(** The call made to the receive callback, if one is made: it is the last
    action of the handler. *)
Definition phy_event_handler (fuel : nat) : D (option (list Z * Z)) :=
  si443x_event_handler fuel ;;
  st <- get_state ;;
  match st with
  | stateRxValid =>
      rxsize <- si443x_read8 R_RX_LENGTH ;;
      let rxsize := if MAX_PACKET <? rxsize then MAX_PACKET else rxsize in
      payload <- si443x_read R_FIFO rxsize ;;
      phy_listen ;;
      cb <- get_recv_cb ;;
      rssi <- get_rssi ;;
      dret (if (cb : bool) then Some (payload, rssi) else None)
  | stateRxInvalid | stateFifoError => phy_listen ;; dret None
  | _ => dret None
  end.

(** ** Transmission *)

(** [while (buf.size == 0) buf = *ptr++], then [*(buf.buf++)] and
    [buf.size--]: the next byte and the fragments after it. *)
Fixpoint next_byte (bufs : list (list Z)) : option (Z * list (list Z)) :=
  match bufs with
  | [] => None
  | [] :: bufs => next_byte bufs
  | (c :: buf) :: bufs => Some (c, buf :: bufs)
  end.

(** The loop [while (size)]: the size and the fragments left. *)
Fixpoint fill_fifo (size : nat) (bufs : list (list Z)) : D (nat * list (list Z)) :=
  match size with
  | O => dret (O, bufs)
  | S size =>
      match next_byte bufs with
      | None => fault
      | Some (c, bufs) =>
          SPI_IO (u8 c) ;;
          irq <- INP_nIRQ ;;
          if (irq : bool) then fill_fifo size bufs else dret (size, bufs)
      end
  end.

(** The loop [do ... while (size)]. *)
Fixpoint tx_fill (fuel : nat) (size : nat) (bufs : list (list Z)) (tx_started : bool) : D unit :=
  match fuel with
  | O => blocked
  | S fuel =>
      st <- get_state ;;
      left <- (if decide (st = stateTx) then
                 perform Select ;;
                 SPI_IO (Z.lor R_FIFO WRITE) ;;
                 left <- fill_fifo size bufs ;;
                 perform Deselect ;;
                 dret left
               else perform WaitEvent ;; dret (size, bufs)) ;;
      si443x_event_handler fuel ;;
      st <- get_state ;;
      let start := negb tx_started && (bool_decide (st = stateTxBusy) || (left.1 =? 0)%nat) in
      dwhen start SI443X_MODE_TX ;;
      if (left.1 =? 0)%nat then dret tt else tx_fill fuel left.1 left.2 (tx_started || start)
  end.

(** The loop [while (phy_si443x_state != stateStandby)]. *)
Fixpoint tx_complete (fuel : nat) : D unit :=
  match fuel with
  | O => blocked
  | S fuel =>
      st <- get_state ;;
      if decide (st = stateStandby) then dret tt else
      perform WaitEvent ;;
      si443x_event_handler fuel ;;
      tx_complete fuel
  end.

(** [unsigned int size]: the sum of the fragments' sizes. *)
Definition total_size (bufs : list (list Z)) : Z :=
  fold_left (fun size buf => u16 (size + Z.of_nat (length buf))) bufs 0.

Definition phy_send (fuel : nat) (bufs : list (list Z)) (flags : Z) : D Z :=
  match bufs with
  | [] => fault                                     (* assert(nbufs > 0) *)
  | _ =>
      let size := total_size bufs in
      si443x_event_handler fuel ;;
      st <- get_state ;;
      if state_val stateListen <? state_val st then dret (-1) else
      set_state stateTx ;;
      SI443X_CLEAR_TX_FIFO ;;
      si443x_write8 R_TX_LENGTH size ;;
      tx_fill fuel (Z.to_nat size) bufs false ;;
      tx_complete fuel ;;
      phy_listen ;;
      dret 0
  end.

(** ** Settings *)

(** An [int] of the target has 16 bits; a signed result outside it is
    undefined. *)
Definition int_fits (z : Z) : bool := (- 2 ^ 15 <=? z) && (z <? 2 ^ 15).

(** [TXPOW(dbm)] computes [dbm - TXPOW_MIN] as an [int]. *)
Definition phy_set_power (dbm : Z) : D Z :=
  if negb (int_fits (dbm - TXPOW_MIN)) then fault else
  si443x_write8 R_TX_POWER (Z.lor (TXPOW dbm) LNA_SW) ;;
  dret (TXDBM (TXPOW dbm)).

Definition phy_set_channel (n : Z) : D Z :=
  si443x_write8 R_CHANNEL n ;;
  dret (signed 16 n).

Definition phy_get_mtu : Z := MAX_PACKET - 2.
Definition phy_get_fd : Z := 0.

End Driver.
