(* ===== verification/Si443xBus.v ===== *)
(** * The other end of the wires of the Si443x

    [bus_of] follows the select line and the bytes of a history, as the
    transceiver does, and reconstructs the register accesses the driver makes,
    with the waits and power changes between them.  It also checks the protocol
    of the bus: transfers only while the chip is selected, no empty or nested
    transactions, bytes of eight bits, no waiting while selected.

    A [Chip] answers at the level of registers; [spi_slave] puts it behind the
    bus.  The weakest-precondition rules of this file lift the driver's register
    functions to that level; they hold for every [Platform]. *)

From stdpp Require Import base list numbers.
From Stdlib Require Import ZArith Lia.
From S2P Require Import Prelude Si443xRegs Si443x.
Local Open Scope drv_scope.

(** ** Register accesses *)

Inductive access : Set :=
| RdReg (addr : Z) (data : list Z)
| WrReg (addr : Z) (data : list Z)
| Waited
| Delayed (ms : Z)
| Powered (on : bool)
| Reinit.

Record bus := mk_bus {
  bus_open : option (list (Z * Z));   (* bytes of the transaction under way, (out, in) *)
  bus_log : list access;
  bus_ok : bool
}.

Definition bus_idle : bus := mk_bus None [] true.
Definition bus_fail (b : bus) : bus := mk_bus (bus_open b) (bus_log b) false.
Definition bus_note (a : access) (b : bus) : bus :=
  match bus_open b with
  | None => mk_bus None (bus_log b ++ [a]) (bus_ok b)
  | Some _ => bus_fail b
  end.

Definition decode (hd : Z) (data : list (Z * Z)) : access :=
  if hd &? WRITE then WrReg (Z.land hd 0x7f) (map fst data)
  else RdReg (Z.land hd 0x7f) (map snd data).

Definition byteb (z : Z) : bool := (0 <=? z) && (z <? 256).

Definition bus_step (e : io) (b : bus) : bus :=
  match e with
  | Select =>
      match bus_open b with
      | None => mk_bus (Some []) (bus_log b) (bus_ok b)
      | Some _ => bus_fail b
      end
  | SpiIo o i =>
      match bus_open b with
      | Some l => mk_bus (Some (l ++ [(o, i)])) (bus_log b) (bus_ok b && byteb o)
      | None => bus_fail b
      end
  | Deselect =>
      match bus_open b with
      | Some ((hd, _) :: data) => mk_bus None (bus_log b ++ [decode hd data]) (bus_ok b)
      | _ => bus_fail b
      end
  | Irq _ => b
  | WaitEvent => bus_note Waited b
  | DelayMs ms => bus_note (Delayed ms) b
  | PowerUp => bus_note (Powered true) b
  | PowerDown => bus_note (Powered false) b
  | PlatformInit | SpiInit => bus_note Reinit b
  end.

(** The history has its most recent element first. *)
Definition bus_of (h : history) : bus := fold_right bus_step bus_idle h.

Definition log (w : radio) : list access := bus_log (bus_of (hist w)).
Definition idle (w : radio) : Prop := bus_open (bus_of (hist w)) = None /\ bus_ok (bus_of (hist w)) = true.

(** ** A chip behind the bus *)

(** The interrupt line and the [i]th byte read from register [addr] on, given
    the register accesses so far. *)
Class Chip := {
  chip_irq : list access -> bool;
  chip_read : list access -> Z -> nat -> Z
}.

(** The accesses the chip has seen, the one under way included. *)
Definition bus_seen (b : bus) : list access :=
  bus_log b ++ match bus_open b with Some ((hd, _) :: data) => [decode hd data] | _ => [] end.

Definition spi_slave (c : Chip) : Platform := {|
  irq_level h := chip_irq (bus_seen (bus_of h));
  spi_miso h o :=
    match bus_open (bus_of h) with
    | Some ((hd, _) :: data) => chip_read (bus_log (bus_of h)) (Z.land hd 0x7f) (length data)
    | _ => 0
    end
|}.

Lemma idle_seen w : idle w -> bus_seen (bus_of (hist w)) = log w.
Proof. intros [H _]. unfold bus_seen. by rewrite H, app_nil_r. Qed.

Lemma slave_level c w : idle w -> @irq_level (spi_slave c) (hist w) = chip_irq (log w).
Proof. intros H. cbn. by rewrite idle_seen. Qed.

(** ** Weakest preconditions

    [wpb B m Q w]: run from [w], [m] leaves no defined behaviour, [Q] holds of
    its value and of the world it leaves if it returns, and [B] holds if it
    does not.  With [B] true this is partial correctness, [wp]; with [B] false
    total correctness, [twp]. *)

Definition wpb (B : Prop) {A} (m : D A) (Q : A -> radio -> Prop) (w : radio) : Prop :=
  match m w with
  | Done a w' => Q a w'
  | Blocked => B
  | Fault => False
  end.
Abbreviation wp := (wpb True).
Abbreviation twp := (wpb False).

Section Wp.
Context {B : Prop} {A : Type}.
Implicit Types (m : D A) (Q R : A -> radio -> Prop).

Lemma wp_ret (a : A) Q w : Q a w -> wpb B (dret a) Q w.
Proof. done. Qed.

Lemma wp_bind {C} (m : D C) (k : C -> D A) Q w :
  wpb B m (fun a w' => wpb B (k a) Q w') w -> wpb B (dbind m k) Q w.
Proof. unfold wpb, dbind. by destruct (m w). Qed.

Lemma wp_mono m Q R w :
  wpb B m Q w -> (forall a w', Q a w' -> R a w') -> wpb B m R w.
Proof. unfold wpb. destruct (m w); auto. Qed.

Lemma wp_done m Q w a w' : wpb B m Q w -> m w = Done a w' -> Q a w'.
Proof. unfold wpb. intros H E. by rewrite E in H. Qed.

Lemma wp_run m Q w : wpb B m Q w -> forall a w', m w = Done a w' -> Q a w'.
Proof. intros H a w'. by apply wp_done. Qed.

Lemma wp_no_fault m Q w : wpb B m Q w -> m w <> Fault.
Proof. unfold wpb. by destruct (m w). Qed.
End Wp.

Lemma wp_when {B : Prop} b m Q w :
  (b = true -> wpb B m Q w) -> (b = false -> Q tt w) -> wpb B (dwhen b m) Q w.
Proof. intros H1 H2. destruct b; [by apply H1|by apply H2]. Qed.

Lemma twp_done {A} (m : D A) Q w : twp m Q w -> exists a w', m w = Done a w' /\ Q a w'.
Proof. unfold wpb. destruct (m w); [eauto|done..]. Qed.

(** [moved w l w']: from an idle bus to an idle bus, with the accesses [l]
    made in between and the driver's variables as they were. *)
Record moved (w : radio) (l : list access) (w' : radio) : Prop := {
  mv_idle : idle w';
  mv_log : log w' = log w ++ l;
  mv_state : phy_si443x_state w' = phy_si443x_state w;
  mv_rssi : phy_si443x_rssi w' = phy_si443x_rssi w;
  mv_cb : phy_si443x_recv_cb w' = phy_si443x_recv_cb w
}.

Lemma moved_nil w : idle w -> moved w [] w.
Proof. intros H. split; auto. by rewrite app_nil_r. Qed.

Lemma moved_trans w1 l1 w2 l2 w3 : moved w1 l1 w2 -> moved w2 l2 w3 -> moved w1 (l1 ++ l2) w3.
Proof.
  intros [? L1 ? ? ?] [? L2 ? ? ?]. split; [done| |congruence..]. by rewrite L2, L1, app_assoc.
Qed.

(** Inside a transaction: [l] is what has been exchanged so far. *)
Record opened (w : radio) (l : list (Z * Z)) (w' : radio) : Prop := {
  op_open : bus_open (bus_of (hist w')) = Some l;
  op_ok : bus_ok (bus_of (hist w')) = true;
  op_log : bus_log (bus_of (hist w')) = log w;
  op_state : phy_si443x_state w' = phy_si443x_state w;
  op_rssi : phy_si443x_rssi w' = phy_si443x_rssi w;
  op_cb : phy_si443x_recv_cb w' = phy_si443x_recv_cb w
}.

Lemma bus_add e w : bus_of (hist (add_io e w)) = bus_step e (bus_of (hist w)).
Proof. done. Qed.

Lemma opened_select w : idle w -> opened w [] (add_io Select w).
Proof.
  intros [H1 H2]. split; rewrite ?bus_add; unfold bus_step; rewrite ?H1; done.
Qed.

Lemma byteb_u8 c : is_u8 c -> byteb c = true.
Proof. intros H. unfold byteb. widths. apply andb_true_iff. split; [apply Z.leb_le|apply Z.ltb_lt]; lia. Qed.

Lemma opened_io w l w' o i : opened w l w' -> is_u8 o -> opened w (l ++ [(o, i)]) (add_io (SpiIo o i) w').
Proof.
  intros [H1 H2 H3 ? ? ?] Ho.
  split; rewrite ?bus_add; unfold bus_step; rewrite ?H1; cbn [bus_open bus_log bus_ok]; auto.
  by rewrite H2, byteb_u8.
Qed.

Lemma opened_irq w l w' b : opened w l w' -> opened w l (add_io (Irq b) w').
Proof. by intros []. Qed.

Lemma opened_deselect w hd i data w' :
  opened w ((hd, i) :: data) w' -> moved w [decode hd data] (add_io Deselect w').
Proof.
  intros [H1 H2 H3 ? ? ?].
  split; auto; [split|]; unfold log in *; rewrite bus_add; unfold bus_step; rewrite ?H1;
    cbn [bus_open bus_log bus_ok]; congruence.
Qed.

Lemma moved_irq w b : idle w -> moved w [] (add_io (Irq b) w).
Proof. intros H. split; auto. unfold log. by rewrite bus_add, app_nil_r. Qed.

(** Events outside a transaction. *)
Definition access_of (e : io) : option access :=
  match e with
  | WaitEvent => Some Waited
  | DelayMs ms => Some (Delayed ms)
  | PowerUp => Some (Powered true)
  | PowerDown => Some (Powered false)
  | PlatformInit | SpiInit => Some Reinit
  | _ => None
  end.

Lemma moved_event w e a : idle w -> access_of e = Some a -> moved w [a] (add_io e w).
Proof.
  intros [H1 H2] He. destruct e; simplify_eq/=; split; auto; unfold idle, log;
    rewrite bus_add; unfold bus_step, bus_note; rewrite H1; auto.
Qed.

Lemma wp_perform {B : Prop} e a Q w :
  idle w -> access_of e = Some a -> (forall w', moved w [a] w' -> Q tt w') -> wpb B (perform e) Q w.
Proof. intros Hi He HQ. apply HQ. by apply moved_event. Qed.

Section Rules.
Context `{P : Platform} {B : Prop}.

Lemma wp_io c Q w :
  (forall i, is_u8 i -> Q i (add_io (SpiIo c i) w)) -> wpb B (SPI_IO c) Q w.
Proof. intros H. apply H, u8_range. Qed.

Lemma wp_irq Q w :
  (forall b, b = irq_level (hist w) -> Q b (add_io (Irq b) w)) -> wpb B INP_nIRQ Q w.
Proof. intros H. by apply H. Qed.

Lemma wp_read_bytes n w0 l w Q :
  opened w0 l w ->
  (forall data w', bytes data -> length data = n -> opened w0 (l ++ map (pair 0) data) w' -> Q data w') ->
  wpb B (spi_read_bytes n) Q w.
Proof.
  revert l w Q. induction n as [|n IH]; intros l w Q Hw HQ; cbn [spi_read_bytes].
  { apply wp_ret, HQ; [constructor|done|]. by rewrite app_nil_r. }
  apply wp_bind, wp_io. intros i Hi. apply wp_bind.
  eapply IH; [apply opened_io; [exact Hw|widths; lia]|].
  intros data w' Hd Hl Hop. apply wp_ret, HQ; [by constructor|simpl; lia|].
  by rewrite <- app_assoc in Hop.
Qed.

Lemma wp_write_bytes data w0 l w Q :
  opened w0 l w -> bytes data ->
  (forall ins w', map fst ins = data -> opened w0 (l ++ ins) w' -> Q tt w') ->
  wpb B (spi_write_bytes data) Q w.
Proof.
  revert l w Q. induction data as [|c data IH]; intros l w Q Hw Hd HQ; cbn [spi_write_bytes].
  { apply wp_ret, (HQ []); [done|]. by rewrite app_nil_r. }
  inversion Hd as [|? ? Hc Hd']; subst.
  apply wp_bind, wp_io. intros i _. eapply IH; [by apply opened_io|done|].
  intros ins w' Hins Hop. apply (HQ ((c, i) :: ins)); [by simpl; f_equal|].
  by rewrite <- app_assoc in Hop.
Qed.

(** *** Headers *)

Lemma land_7f a : Z.land a 0x7f = a mod 128.
Proof. change 0x7f with (Z.ones 7). by rewrite Z.land_ones. Qed.

Lemma header_exhaustive (Pr : Z -> bool) :
  forallb Pr (map Z.of_nat (seq 0 128)) = true -> forall a, 0 <= a < 128 -> Pr a = true.
Proof.
  intros H a Ha. rewrite forallb_forall in H. apply H, in_map_iff. exists (Z.to_nat a).
  split; [lia|]. apply in_seq. lia.
Qed.

Lemma read_header a : let hd := Z.lor READ (Z.land a 0x7f) in
  is_u8 hd /\ forall data, decode hd data = RdReg (Z.land a 0x7f) (map snd data).
Proof.
  cbv zeta. rewrite land_7f. change (Z.lor READ) with (Z.lor 0). rewrite Z.lor_0_l.
  pose proof (Z.mod_pos_bound a 128 eq_refl) as Hr. split; [widths; lia|]. intros data. unfold decode.
  rewrite land_7f, Z.mod_mod by lia.
  replace ((a mod 128) &? WRITE) with false; [done|]. symmetry. apply negb_true_iff.
  exact (header_exhaustive (fun a => negb (a &? WRITE)) eq_refl _ Hr).
Qed.

Lemma write_header a : 0 <= a < 128 -> let hd := Z.lor WRITE a in
  is_u8 hd /\ forall data, decode hd data = WrReg a (map fst data).
Proof.
  intros Hr. cbv zeta.
  pose proof (header_exhaustive (fun a => byteb (Z.lor WRITE a) && (Z.lor WRITE a &? WRITE)
    && (Z.land (Z.lor WRITE a) 0x7f =? a)) eq_refl a Hr) as H.
  apply andb_true_iff in H as [H H3]. apply andb_true_iff in H as [H1 H2].
  split; [unfold byteb in H1; boolify; widths; lia|]. intros data. unfold decode.
  rewrite H2. apply Z.eqb_eq in H3. by rewrite H3.
Qed.

(** *** Register functions *)

Lemma wp_read addr size Q w :
  idle w ->
  (forall data w', bytes data -> Z.of_nat (length data) = u8 size ->
     moved w [RdReg (Z.land addr 0x7f) data] w' -> Q data w') ->
  wpb B (si443x_read addr size) Q w.
Proof.
  intros Hi HQ. destruct (read_header addr) as [Hb Hdec]. unfold si443x_read.
  apply wp_bind. unfold wpb at 1, perform. apply wp_bind, wp_io. intros i _.
  apply wp_bind. eapply wp_read_bytes; [apply opened_io; [by apply opened_select|exact Hb]|].
  intros data w' Hd Hl Hop. apply wp_bind. unfold wpb at 1, perform. apply wp_ret, HQ; [done| |].
  - pose proof (u8_range size) as Hr. widths. lia.
  - apply opened_deselect in Hop. rewrite Hdec in Hop.
    rewrite map_map, map_id in Hop. exact Hop.
Qed.

Lemma wp_write addr data Q w :
  idle w -> bytes data ->
  (forall w', moved w [WrReg (Z.land addr 0x7f) data] w' -> Q tt w') ->
  wpb B (si433x_write addr data) Q w.
Proof.
  intros Hi Hd HQ. destruct (write_header (Z.land addr 0x7f)) as [Hb Hdec].
  { rewrite land_7f. by apply Z.mod_pos_bound. }
  unfold si433x_write. apply wp_bind. unfold wpb at 1, perform. apply wp_bind, wp_io. intros i _.
  apply wp_bind. eapply wp_write_bytes; [apply opened_io; [by apply opened_select|exact Hb]|done|].
  intros ins w' Hins Hop. unfold wpb, perform. apply HQ.
  apply opened_deselect in Hop. rewrite Hdec, Hins in Hop. exact Hop.
Qed.

Lemma wp_read8 addr Q w :
  idle w ->
  (forall v w', is_u8 v -> moved w [RdReg (Z.land addr 0x7f) [v]] w' -> Q v w') ->
  wpb B (si443x_read8 addr) Q w.
Proof.
  intros Hi HQ. apply wp_bind, wp_read; [done|]. intros data w' Hd Hl Hm.
  change (u8 1) with 1 in Hl. destruct data as [|v [|]]; simpl in Hl; try lia.
  inversion Hd; subst. apply wp_ret. cbn [le_val]. rewrite Z.mul_0_r, Z.add_0_r. by apply HQ.
Qed.

(** *** Sixteen-bit registers, most significant byte first *)

Lemma lor_shift8 b c : is_u8 b -> Z.lor b (c ≪ 8) = b + 256 * c.
Proof.
  intros Hb. assert (Hl : Z.land b (c ≪ 8) = 0).
  { apply Z.bits_inj'. intros n Hn. rewrite Z.land_spec, Z.bits_0, Z.shiftl_spec by lia.
    destruct (Z.ltb_spec n 8).
    - by rewrite (Z.testbit_neg_r c) , andb_false_r by lia.
    - rewrite <- (Z.mod_small b (2 ^ 8)) by (widths; lia).
      by rewrite Z.mod_pow2_bits_high by lia. }
  rewrite <- Z.lxor_lor, <- Z.add_nocarry_lxor, Z.shiftl_mul_pow2 by (done || lia). lia.
Qed.

Lemma swap_bytes a b :
  is_u8 a -> is_u8 b ->
  let v := a + 256 * b in u16 (Z.lor (v ≫ 8) (v ≪ 8)) = b + 256 * a.
Proof.
  intros Ha Hb. cbv zeta. rewrite Z.shiftr_div_pow2 by lia. change (2 ^ 8) with 256.
  replace ((a + 256 * b) / 256) with b by (widths; apply (Z.div_unique _ _ b a); lia).
  rewrite lor_shift8 by done. widths. symmetry. apply (Z.mod_unique _ _ b); lia.
Qed.

(** The value of two bytes as the chip sends them. *)
Definition be16 (hi lo : Z) : Z := 256 * hi + lo.

Lemma wp_read16 addr Q w :
  idle w ->
  (forall hi lo w', is_u8 hi -> is_u8 lo ->
     moved w [RdReg (Z.land addr 0x7f) [hi; lo]] w' -> Q (be16 hi lo) w') ->
  wpb B (si443x_read16 addr) Q w.
Proof.
  intros Hi HQ. apply wp_bind, wp_read; [done|]. intros data w' Hd Hl Hm.
  change (u8 2) with 2 in Hl. destruct data as [|hi [|lo [|]]]; simpl in Hl; try lia.
  inversion Hd as [|? ? Hhi Hd']; subst. inversion Hd' as [|? ? Hlo _]; subst.
  apply wp_ret. cbn [le_val]. rewrite Z.mul_0_r, Z.add_0_r, swap_bytes by done.
  rewrite Z.add_comm. by apply HQ.
Qed.

Lemma wp_write8 addr v Q w :
  idle w -> (forall w', moved w [WrReg (Z.land addr 0x7f) [u8 v]] w' -> Q tt w') ->
  wpb B (si443x_write8 addr v) Q w.
Proof. intros. apply wp_write; auto. repeat constructor; apply u8_range. Qed.

Lemma wp_write16 addr v Q w :
  idle w ->
  (forall w', moved w [WrReg (Z.land addr 0x7f) [u16 v / 256; u16 v mod 256]] w' -> Q tt w') ->
  wpb B (si443x_write16 addr v) Q w.
Proof.
  intros Hi HQ. apply wp_write; [done|apply le_bytes_bytes|]. intros w' Hm.
  pose proof (u16_range v) as Hr.
  assert (Hq : is_u8 (u16 v / 256)) by (widths; Z.div_mod_to_equations; lia).
  assert (Hm' : is_u8 (u16 v mod 256)) by (widths; apply Z.mod_pos_bound; lia).
  pose proof (swap_bytes (u16 v mod 256) (u16 v / 256) Hm' Hq) as Hs. cbv zeta in Hs.
  rewrite <- (Z.add_comm (256 * _)), <- Z.div_mod in Hs by lia.
  cbv zeta in Hm. rewrite Hs in Hm. apply HQ.
  replace (le_bytes 2 (u16 v / 256 + 256 * (u16 v mod 256))) with [u16 v / 256; u16 v mod 256] in Hm;
    [done|].
  revert Hq Hm'. generalize (u16 v / 256) as q, (u16 v mod 256) as r. intros q r Hq Hr'.
  cbn [le_bytes]. rewrite (Z.mul_comm 256), Z.mod_add, Z.div_add by lia.
  by rewrite (Z.div_small q), Z.add_0_l, !Z.mod_small by (widths; lia).
Qed.

End Rules.
