(* ===== verification/Si443xSpec.v ===== *)
(** * What the functions of the Si443x driver do to the chip

    One lemma per function of [Si443x.v], for every [Platform]: the register
    accesses it makes and the state it leaves, starting from an idle bus.  The
    event handler is specified by [status_next], the effect of one interrupt
    status word on the driver's state. *)

From stdpp Require Import base list numbers.
From Stdlib Require Import ZArith Lia.
From S2P Require Import Prelude Si443xRegs Si443x Si443xBus.
Local Open Scope drv_scope.

(** ** Runs

    [went w l w']: like [moved], but the driver's state may change, and its RSSI
    within the range of the conversion from the register. *)
Definition rssi_ok (w : radio) : Prop := -126 <= phy_si443x_rssi w <= 7.

Record went (w : radio) (l : list access) (w' : radio) : Prop := {
  wt_idle : idle w';
  wt_log : log w' = log w ++ l;
  wt_cb : phy_si443x_recv_cb w' = phy_si443x_recv_cb w;
  wt_rssi : rssi_ok w -> rssi_ok w'
}.

Lemma moved_went w l w' : moved w l w' -> went w l w'.
Proof. intros [? ? ? Hr ?]. split; auto. unfold rssi_ok. by rewrite Hr. Qed.

Lemma went_nil w : idle w -> went w [] w.
Proof. intros. by apply moved_went, moved_nil. Qed.

Lemma went_trans w1 l1 w2 l2 w3 : went w1 l1 w2 -> went w2 l2 w3 -> went w1 (l1 ++ l2) w3.
Proof. intros [? L1 ? ?] [? L2 ? ?]. split; [done| |congruence|auto]. by rewrite L2, L1, app_assoc. Qed.

Definition with_state (s : si443x_state_t) (w : radio) : radio :=
  mk_radio s (phy_si443x_rssi w) (phy_si443x_recv_cb w) (hist w).
Definition with_rssi (r : Z) (w : radio) : radio :=
  mk_radio (phy_si443x_state w) r (phy_si443x_recv_cb w) (hist w).

Lemma went_state s w l w' : went w l w' -> went w l (with_state s w').
Proof. by intros []. Qed.
Lemma went_rssi r w l w' : -126 <= r <= 7 -> went w l w' -> went w l (with_rssi r w').
Proof. by intros ? []. Qed.

Lemma RSSI_DBM_range v : is_u8 v -> -126 <= RSSI_DBM v <= 7.
Proof.
  intros Hv. pose proof (byte_exhaustive (fun v => (-126 <=? RSSI_DBM v) && (RSSI_DBM v <=? 7)) eq_refl v Hv) as H.
  apply andb_true_iff in H as [H1 H2]. by apply Z.leb_le in H1, H2.
Qed.

Lemma went_from s w l w' : went (with_state s w) l w' -> went w l w'.
Proof. by intros []. Qed.

Lemma wp_set_state {B : Prop} s Q w : Q tt (with_state s w) -> wpb B (set_state s) Q w.
Proof. done. Qed.
Lemma wp_set_rssi {B : Prop} r Q w : Q tt (with_rssi r w) -> wpb B (set_rssi r) Q w.
Proof. done. Qed.
Lemma wp_get_state {B : Prop} Q w : Q (phy_si443x_state w) w -> wpb B get_state Q w.
Proof. done. Qed.

(** ** What an access list says *)

(** Bytes pushed into the transmit FIFO. *)
Definition fifo_data (l : list access) : list Z :=
  concat (map (fun a => match a with WrReg r data => if r =? R_FIFO then data else [] | _ => [] end) l).

(** What the reads of the receive FIFO have given, one by one. *)
Definition fifo_reads (l : list access) : list (list Z) :=
  concat (map (fun a => match a with RdReg r data => if r =? R_FIFO then [data] else [] | _ => [] end) l).

(** Packet lengths announced. *)
Definition tx_lengths (l : list access) : list Z :=
  concat (map (fun a => match a with WrReg r data => if r =? R_TX_LENGTH then data else [] | _ => [] end) l).

(** Values written to the operating mode register. *)
Definition modes (l : list access) : list Z :=
  concat (map (fun a => match a with WrReg r data => if r =? R_OP_CTRL1 then data else [] | _ => [] end) l).

(** Interrupt status words read. *)
Definition statuses (l : list access) : list Z :=
  concat (map (fun a => match a with
    | RdReg r [hi; lo] => if r =? R_INT_STATUS then [be16 hi lo] else [] | _ => [] end) l).

Definition MODE_STANDBY : Z := 0.
Definition MODE_RX : Z := Z.lor RXON XTON.
Definition MODE_TX : Z := Z.lor TXON XTON.

(** How often the transmitter is switched on. *)
Definition tx_starts (l : list access) : nat := length (List.filter (Z.eqb MODE_TX) (modes l)).

Lemma concat_map_app {A B} (f : A -> list B) l1 l2 :
  concat (map f (l1 ++ l2)) = concat (map f l1) ++ concat (map f l2).
Proof. by rewrite map_app, concat_app. Qed.

Lemma fifo_data_app l1 l2 : fifo_data (l1 ++ l2) = fifo_data l1 ++ fifo_data l2.
Proof. apply concat_map_app. Qed.
Lemma fifo_reads_app l1 l2 : fifo_reads (l1 ++ l2) = fifo_reads l1 ++ fifo_reads l2.
Proof. apply concat_map_app. Qed.
Lemma tx_lengths_app l1 l2 : tx_lengths (l1 ++ l2) = tx_lengths l1 ++ tx_lengths l2.
Proof. apply concat_map_app. Qed.
Lemma modes_app l1 l2 : modes (l1 ++ l2) = modes l1 ++ modes l2.
Proof. apply concat_map_app. Qed.
Lemma statuses_app l1 l2 : statuses (l1 ++ l2) = statuses l1 ++ statuses l2.
Proof. apply concat_map_app. Qed.
Lemma tx_starts_app l1 l2 : tx_starts (l1 ++ l2) = (tx_starts l1 + tx_starts l2)%nat.
Proof. unfold tx_starts. by rewrite modes_app, filter_app, length_app. Qed.

Create Rewrite HintDb radio.
#[export] Hint Rewrite fifo_data_app fifo_reads_app tx_lengths_app modes_app statuses_app tx_starts_app : radio.

(** An access list that has no part in a transmission, and takes no packet. *)
Record neutral (l : list access) : Prop := {
  ne_fifo : fifo_data l = [];
  ne_len : tx_lengths l = [];
  ne_start : tx_starts l = O;
  ne_reads : fifo_reads l = []
}.

Lemma neutral_app l1 l2 : neutral l1 -> neutral l2 -> neutral (l1 ++ l2).
Proof.
  intros [F1 L1 S1 R1] [F2 L2 S2 R2].
  split; autorewrite with radio; by rewrite ?F1, ?F2, ?L1, ?L2, ?S1, ?S2, ?R1, ?R2.
Qed.

(** The effect of one interrupt status word: the last assignment of the
    handler's body wins. *)
Definition status_next (status : Z) (st : si443x_state_t) : si443x_state_t :=
  if status &? IWUT then stateStandby
  else if status &? IPKSENT then stateStandby
  else if status &? ITXFFAEM then stateTx
  else if status &? ITXFFAFULL then stateTxBusy
  else if status &? IFFERR then stateFifoError
  else if status &? ICRCERROR then stateRxInvalid
  else if status &? IPKVALID then stateRxValid
  else if status &? IRXFFAFULL then stateRxReady
  else if bool_decide (st = stateListen) && (status &? ISWDET) then stateRx
  else st.

Definition standby_log : list access :=
  [WrReg R_OP_CTRL2 [3]; WrReg R_OP_CTRL2 [0]; WrReg R_OP_CTRL1 [MODE_STANDBY]].
Definition listen_log : list access :=
  [WrReg R_OP_CTRL2 [3]; WrReg R_OP_CTRL2 [0]; WrReg R_OP_CTRL1 [MODE_RX]].

(** What the handler does for one status word, its reading included. *)
Definition status_log (st : si443x_state_t) (hi lo rssi : Z) : list access :=
  let status := be16 hi lo in
  [RdReg R_INT_STATUS [hi; lo]] ++
  (if bool_decide (st = stateListen) && (status &? ISWDET) then [RdReg R_RSSI [rssi]] else []) ++
  (if status &? IWUT then standby_log else []).

Lemma status_log_statuses st hi lo r : statuses (status_log st hi lo r) = [be16 hi lo].
Proof. unfold status_log. by destruct (_ && _), (_ &? IWUT). Qed.

Lemma status_log_neutral st hi lo r : neutral (status_log st hi lo r).
Proof. unfold status_log. by destruct (_ && _), (_ &? IWUT). Qed.

(** Runs one sentence of a function that accesses a register. *)
Ltac access :=
  unfold SI443X_STATUS, SI443X_MODE_RX, SI443X_MODE_TX, SI443X_MODE_STANDBY, SI443X_SWRESET;
  lazymatch goal with
  | |- wpb _ (si443x_write8 _ _) _ _ => apply wp_write8
  | |- wpb _ (si443x_write16 _ _) _ _ => apply wp_write16
  | |- wpb _ (si443x_read8 _) _ _ => apply wp_read8
  | |- wpb _ (si443x_read16 _) _ _ => apply wp_read16
  | |- wpb _ (si443x_read _ _) _ _ => apply wp_read
  end; [ eauto using mv_idle, wt_idle | ].

Section Functions.
Context `{P : Platform} {B : Prop}.

Lemma wp_clear_fifos Q w :
  idle w -> (forall w', moved w [WrReg R_OP_CTRL2 [3]; WrReg R_OP_CTRL2 [0]] w' -> Q tt w') ->
  wpb B SI443X_CLEAR_FIFOS Q w.
Proof.
  intros Hi HQ. apply wp_bind. access. intros w1 H1. access. intros w2 H2.
  apply HQ. exact (moved_trans _ _ _ _ _ H1 H2).
Qed.

Lemma wp_listen Q w :
  idle w ->
  (forall w', went w listen_log w' -> phy_si443x_state w' = stateListen ->
     phy_si443x_rssi w' = phy_si443x_rssi w -> Q 0 w') ->
  wpb B phy_listen Q w.
Proof.
  intros Hi HQ. apply wp_bind, wp_clear_fifos; [done|]. intros w1 H1.
  apply wp_bind. access. intros w2 H2. apply wp_bind, wp_set_state, wp_ret.
  pose proof (moved_trans _ _ _ _ _ H1 H2) as H. apply HQ; [|done|by destruct H].
  apply went_state, moved_went, H.
Qed.

Lemma wp_standby Q w :
  idle w ->
  (forall w', went w standby_log w' -> phy_si443x_state w' = stateStandby ->
     phy_si443x_rssi w' = phy_si443x_rssi w -> Q 0 w') ->
  wpb B phy_standby Q w.
Proof.
  intros Hi HQ. apply wp_bind, wp_clear_fifos; [done|]. intros w1 H1.
  apply wp_bind. access. intros w2 H2. apply wp_bind, wp_set_state, wp_ret.
  pose proof (moved_trans _ _ _ _ _ H1 H2) as H. apply HQ; [|done|by destruct H].
  apply went_state, moved_went, H.
Qed.

(** A conditional assignment to the state. *)
Lemma wp_when_set {A} (b : bool) s (k : D A) Q w :
  wpb B k Q (with_state (if b then s else phy_si443x_state w) w) ->
  wpb B (dwhen b (set_state s) ;; k) Q w.
Proof. destruct b, w; exact id. Qed.

Lemma with_state_twice s s' w : with_state s (with_state s' w) = with_state s w.
Proof. done. Qed.

Lemma wp_sample (b : bool) w Q :
  idle w ->
  (forall r w', went w (if b then [RdReg R_RSSI [r]] else []) w' ->
     phy_si443x_state w' = (if b then stateRx else phy_si443x_state w) ->
     phy_si443x_rssi w' = (if b then RSSI_DBM r else phy_si443x_rssi w) -> Q tt w') ->
  wpb B (dwhen b (set_state stateRx ;; v <- si443x_read8 R_RSSI ;; set_rssi (RSSI_DBM v))) Q w.
Proof.
  intros Hi HQ. destruct b; [|by apply (HQ 0), eq_refl; [apply went_nil|]].
  apply wp_bind, wp_set_state, wp_bind. access. intros v w' Hv Hm. apply wp_set_rssi.
  apply (HQ v); [eapply went_rssi, went_from, moved_went, Hm; by apply RSSI_DBM_range| |done]. by destruct Hm.
Qed.

Lemma wp_handle_status hi lo w Q :
  idle w ->
  let status := be16 hi lo in
  let synced := bool_decide (phy_si443x_state w = stateListen) && (status &? ISWDET) in
  (forall r w',
     went w ((if synced then [RdReg R_RSSI [r]] else []) ++ (if status &? IWUT then standby_log else [])) w' ->
     phy_si443x_state w' = status_next status (phy_si443x_state w) ->
     phy_si443x_rssi w' = (if synced then RSSI_DBM r else phy_si443x_rssi w) -> Q tt w') ->
  wpb B (handle_status (be16 hi lo)) Q w.
Proof.
  intros Hi status synced HQ. apply wp_bind, wp_get_state, wp_bind, wp_sample; [done|].
  fold status synced. intros r w' Hw Hs Hr.
  do 7 apply wp_when_set. rewrite !with_state_twice.
  set (st := if status &? IPKSENT then _ else _).
  apply wp_when; intros Et.
  - apply wp_bind, wp_standby; [apply Hw|]. intros w2 H2 Hs2 Hr2. apply wp_ret, (HQ r).
    + rewrite Et. eapply went_trans; [exact Hw|]. by eapply went_from.
    + unfold status_next. by rewrite Et.
    + by rewrite Hr2.
  - apply (HQ r); [|unfold status_next, st; rewrite Et; cbn; rewrite Hs; fold synced|done].
    + rewrite Et, app_nil_r. by apply went_state.
    + by repeat destruct (status &? _).
Qed.

End Functions.

Section Handler.
Context `{P : Platform}.

(** The whole handler: [statuses] lists the words it has read, and it stops at
    a poll that finds the interrupt line released. *)
Lemma wp_event_handler fuel w Q :
  idle w ->
  (forall l w', went w l w' -> neutral l ->
     phy_si443x_state w' = fold_left (fun st s => status_next s st) (statuses l) (phy_si443x_state w) ->
     head (hist w') = Some (Irq true) -> Q tt w') ->
  wp (si443x_event_handler fuel) Q w.
Proof.
  revert w Q. induction fuel as [|fuel IH]; intros w Q Hi HQ; [done|]. cbn [si443x_event_handler].
  apply wp_bind, wp_irq. intros b _. set (w1 := add_io (Irq b) w).
  assert (H1 : moved w [] w1) by (by apply moved_irq). destruct b.
  { apply wp_ret, (HQ []); [by apply moved_went|done|by destruct H1|done]. }
  apply wp_bind. access. intros hi lo w2 _ _ H2. apply wp_bind, wp_handle_status; [apply H2|].
  intros r w3 H3 Hs Hr. apply IH; [apply H3|]. intros l w4 H4 Hn Hs' Hh.
  assert (Es : phy_si443x_state w2 = phy_si443x_state w) by (destruct H1, H2; congruence).
  apply (HQ (status_log (phy_si443x_state w) hi lo r ++ l)); [| | |done].
  - eapply went_trans, H4. rewrite <- (app_nil_l (status_log _ _ _ _)).
    eapply went_trans; [apply moved_went, H1|]. unfold status_log.
    eapply went_trans; [apply moved_went, H2|]. by rewrite <- Es.
  - by apply neutral_app, Hn; apply status_log_neutral.
  - autorewrite with radio. rewrite status_log_statuses. cbn [app fold_left]. by rewrite Hs', Hs, Es.
Qed.

End Handler.

(** *** Transmission *)

Section Filling.
Context `{P : Platform} {B : Prop}.

Lemma next_byte_spec bufs :
  match next_byte bufs with
  | None => concat bufs = []
  | Some (c, bufs') => concat bufs = c :: concat bufs'
  end.
Proof. induction bufs as [|[|c b] bufs IH]; cbn; auto. Qed.

Lemma wp_fill_fifo size bufs w0 l w Q :
  opened w0 l w -> (size <= length (concat bufs))%nat ->
  (forall ins size' bufs' w', opened w0 (l ++ ins) w' ->
     map u8 (take size (concat bufs)) = map fst ins ++ map u8 (take size' (concat bufs')) ->
     (size' <= length (concat bufs'))%nat -> (size' <= pred size)%nat ->
     Q (size', bufs') w') ->
  wpb B (fill_fifo size bufs) Q w.
Proof.
  revert bufs l w Q. induction size as [|size IH]; intros bufs l w Q Hw Hle HQ; cbn [fill_fifo].
  { apply wp_ret, (HQ []); auto. by rewrite app_nil_r. }
  pose proof (next_byte_spec bufs) as Hn. destruct (next_byte bufs) as [[c bufs']|];
    rewrite Hn in Hle; cbn in Hle; [|lia].
  apply wp_bind, wp_io. intros i _. apply wp_bind, wp_irq. intros b _.
  assert (Ho : opened w0 (l ++ [(u8 c, i)]) (add_io (Irq b) (add_io (SpiIo (u8 c) i) w))).
  { apply opened_irq, opened_io; [done|apply u8_range]. }
  destruct b.
  - eapply IH; [exact Ho|lia|]. intros ins size' bufs2 w' Hop Hd Hl Hlt.
    apply (HQ ((u8 c, i) :: ins)); [by rewrite <- app_assoc in Hop| |done|lia].
    rewrite Hn. cbn. by rewrite Hd.
  - apply wp_ret, (HQ [(u8 c, i)]); [done| |lia|lia]. by rewrite Hn.
Qed.


(** One block of bytes for the FIFO. *)
Lemma wp_fill_block size bufs w Q :
  idle w -> (size <= length (concat bufs))%nat ->
  (forall data size' bufs' w', moved w [WrReg R_FIFO data] w' ->
     map u8 (take size (concat bufs)) = data ++ map u8 (take size' (concat bufs')) ->
     (size' <= length (concat bufs'))%nat -> (size' <= pred size)%nat -> Q (size', bufs') w') ->
  wpb B (perform Select ;; SPI_IO (Z.lor R_FIFO WRITE) ;;
      left <- fill_fifo size bufs ;; perform Deselect ;; dret left) Q w.
Proof.
  intros Hi Hle HQ. change (Z.lor R_FIFO WRITE) with (Z.lor WRITE R_FIFO).
  destruct (write_header R_FIFO) as [Hb Hdec]; [unfold R_FIFO; lia|].
  apply wp_bind. unfold wpb at 1, perform at 1. apply wp_bind, wp_io. intros i _.
  apply wp_bind. eapply wp_fill_fifo; [apply opened_io; [by apply opened_select|exact Hb]|done|].
  intros ins size' bufs' w' Hop Hd Hl Hlt. apply wp_bind. unfold wpb at 1, perform. apply wp_ret.
  apply opened_deselect in Hop. rewrite Hdec in Hop. by apply (HQ (map fst ins)).
Qed.

Lemma fifo_data_block data : fifo_data [WrReg R_FIFO data] = data.
Proof. unfold fifo_data. cbn. by rewrite app_nil_r. Qed.

(** Switching the transmitter on, or not. *)
Definition start_log (b : bool) : list access := if b then [WrReg R_OP_CTRL1 [MODE_TX]] else [].

Lemma start_log_facts b :
  fifo_data (start_log b) = [] /\ tx_lengths (start_log b) = [] /\ statuses (start_log b) = [] /\
  tx_starts (start_log b) = (if b then 1 else 0)%nat /\ fifo_reads (start_log b) = [].
Proof. by destruct b. Qed.

Lemma wp_mode_tx (b : bool) Q w :
  idle w -> (forall w', moved w (start_log b) w' -> Q tt w') -> wpb B (dwhen b SI443X_MODE_TX) Q w.
Proof.
  intros Hi HQ. apply wp_when; intros ->.
  - access. exact HQ.
  - apply HQ. by apply moved_nil.
Qed.

(** One pass: a block of bytes in [stateTx], a wait otherwise. *)
Lemma wp_tx_step size bufs w Q :
  idle w -> (size <= length (concat bufs))%nat ->
  (forall size' bufs' l w', went w l w' ->
     fifo_data l ++ map u8 (take size' (concat bufs')) = map u8 (take size (concat bufs)) ->
     tx_lengths l = [] -> tx_starts l = O -> fifo_reads l = [] -> (size' <= length (concat bufs'))%nat ->
     Q (size', bufs') w') ->
  wpb B (if decide (phy_si443x_state w = stateTx) then
        perform Select ;; SPI_IO (Z.lor R_FIFO WRITE) ;;
        left <- fill_fifo size bufs ;; perform Deselect ;; dret left
      else perform WaitEvent ;; dret (size, bufs)) Q w.
Proof.
  intros Hi Hle HQ. destruct (decide _).
  - apply wp_fill_block; [done|done|]. intros data size' bufs' w' Hm Hd Hl _.
    eapply HQ; [apply moved_went, Hm| |done..]. by rewrite fifo_data_block, Hd.
  - apply wp_bind. eapply wp_perform; [done|reflexivity|]. intros w' Hm. apply wp_ret.
    by eapply HQ; [apply moved_went, Hm|..].
Qed.

End Filling.

Section Loops.
Context `{P : Platform}.

(** The filling loop pushes exactly the first [size] bytes of the fragments,
    in order, and switches the transmitter on exactly once. *)
Lemma wp_tx_fill fuel size bufs (started : bool) w Q :
  idle w -> (size <= length (concat bufs))%nat ->
  (forall l w', went w l w' -> fifo_data l = map u8 (take size (concat bufs)) ->
     tx_lengths l = [] -> tx_starts l = (if started then 0 else 1)%nat -> fifo_reads l = [] ->
     Q tt w') ->
  wp (tx_fill fuel size bufs started) Q w.
Proof.
  revert size bufs started w Q.
  induction fuel as [|fuel IH]; intros size bufs started w Q Hi Hle HQ; [done|]. cbn [tx_fill].
  apply wp_bind, wp_get_state, wp_bind.
  apply wp_tx_step; [done|done|]. intros size' bufs' l1 w1 H1 Hf1 Hl1 Hs1 Hr1 Hle1.
  apply wp_bind, wp_event_handler; [apply H1|]. intros l2 w2 H2 [Hf2 Hl2 Hs2 Hr2] _ _.
  apply wp_bind, wp_get_state. cbn [fst snd].
  set (start := negb started && _). apply wp_bind, wp_mode_tx; [apply H2|].
  intros w3 H3. destruct (start_log_facts start) as (Hf3 & Hl3 & _ & Hs3 & Hr3).
  set (l3 := start_log start) in *.
  assert (H : went w (l1 ++ l2 ++ l3) w3).
  { eapply went_trans; [exact H1|]. eapply went_trans; [exact H2|]. by apply moved_went. }
  destruct (Nat.eqb_spec size' 0) as [E|E].
  - apply wp_ret, (HQ (l1 ++ l2 ++ l3)); [done|..]; autorewrite with radio;
      rewrite ?Hf2, ?Hf3, ?Hl1, ?Hl2, ?Hl3, ?Hs1, ?Hs2, ?Hs3, ?Hr1, ?Hr2, ?Hr3, ?app_nil_r; [|done| |done].
    + rewrite <- Hf1. subst size'. by rewrite app_nil_r.
    + unfold start. rewrite orb_true_r. by destruct started.
  - apply IH; [apply H|done|]. intros l w' H' Hf Hl Hs Hr.
    apply (HQ ((l1 ++ l2 ++ l3) ++ l)); [by eapply went_trans|..]; autorewrite with radio;
      rewrite ?Hf2, ?Hf3, ?Hl1, ?Hl2, ?Hl3, ?Hs1, ?Hs2, ?Hs3, ?Hr1, ?Hr2, ?Hr3,
        ?app_nil_r, ?Hf, ?Hl, ?Hs, ?Hr; [done|done| |done].
    unfold start. by destruct started, (_ || _).
Qed.

Lemma wp_tx_complete fuel w Q :
  idle w ->
  (forall l w', went w l w' -> neutral l -> phy_si443x_state w' = stateStandby -> Q tt w') ->
  wp (tx_complete fuel) Q w.
Proof.
  revert w Q. induction fuel as [|fuel IH]; intros w Q Hi HQ; [done|]. cbn [tx_complete].
  apply wp_bind, wp_get_state. destruct (decide _) as [E|_].
  { apply wp_ret, (HQ []); [by apply went_nil|done|done]. }
  apply wp_bind. eapply wp_perform; [done|reflexivity|]. intros w1 H1.
  apply wp_bind, wp_event_handler; [apply H1|]. intros l2 w2 H2 Hn2 _ _.
  apply IH; [apply H2|]. intros l3 w3 H3 Hn3 Hs.
  apply (HQ ([Waited] ++ l2 ++ l3)); [|by repeat apply neutral_app|done].
  eapply went_trans; [by apply moved_went|]. by eapply went_trans.
Qed.

Lemma total_size_le bufs : 0 <= total_size bufs <= Z.of_nat (length (concat bufs)).
Proof.
  unfold total_size.
  assert (H : forall (bufs : list (list Z)) acc, 0 <= acc ->
    0 <= fold_left (fun s b => u16 (s + Z.of_nat (length b))) bufs acc <=
    acc + Z.of_nat (length (concat bufs))).
  { clear bufs. induction bufs as [|b bufs IH]; intros acc Ha; cbn [fold_left concat]; [cbn; lia|].
    rewrite length_app. pose proof (u16_range (acc + Z.of_nat (length b))) as Hr.
    assert (u16 (acc + Z.of_nat (length b)) <= acc + Z.of_nat (length b)).
    { apply Z.mod_le; lia. }
    specialize (IH (u16 (acc + Z.of_nat (length b)))). destruct Hr. lia. }
  specialize (H bufs 0). lia.
Qed.

Lemma total_size_exact bufs :
  Z.of_nat (length (concat bufs)) < 2 ^ 16 -> total_size bufs = Z.of_nat (length (concat bufs)).
Proof.
  unfold total_size. intros Hl.
  assert (H : forall (bufs : list (list Z)) acc, 0 <= acc -> acc + Z.of_nat (length (concat bufs)) < 2 ^ 16 ->
    fold_left (fun s b => u16 (s + Z.of_nat (length b))) bufs acc = acc + Z.of_nat (length (concat bufs))).
  { clear bufs Hl. induction bufs as [|b bufs IH]; intros acc Ha; cbn [fold_left concat]; [cbn; lia|].
    rewrite length_app, Nat2Z.inj_add. intros Hr.
    rewrite (u16_id (acc + _)) by (unfold is_u16; lia). rewrite IH; lia. }
  rewrite H; lia.
Qed.

End Loops.
