(* ===== verification/Si443xProps.v ===== *)
(** * Properties of the Si443x driver, for every platform

    Initialisation, transmission, reception, settings, and the safety of every
    sequence of calls.  What the driver does when the chip behaves as a
    transmitter should is in [Si443xLive.v]. *)

From stdpp Require Import base list numbers.
From Stdlib Require Import ZArith Lia.
From S2P Require Import Prelude Si443xRegs Si443x Si443xBus Si443xSpec.
Local Open Scope drv_scope.

(** ** The configuration table *)

(** A table as the driver expects it: groups of an address, a count and the
    data, and a terminating zero. *)
Definition encode_group (g : Z * list Z) : list Z := g.1 :: Z.of_nat (length g.2) :: g.2.
Definition encode_table (gs : list (Z * list Z)) : list Z := concat (map encode_group gs) ++ [0].

Definition group_ok (g : Z * list Z) : Prop := 0 < g.1 < 128 /\ bytes g.2.

(** Reading a table. *)
Fixpoint parse_table (fuel : nat) (t : list Z) : list (Z * list Z) :=
  match fuel, t with
  | S fuel, a :: n :: t =>
      if a =? 0 then [] else (a, take (Z.to_nat n) t) :: parse_table fuel (drop (Z.to_nat n) t)
  | _, _ => []
  end.

Definition config_groups : list (Z * list Z) :=
  parse_table (length phy_si443x_config) phy_si443x_config.

Lemma config_encoded : encode_table config_groups = phy_si443x_config.
Proof. reflexivity. Qed.

Lemma config_groups_ok : Forall group_ok config_groups.
Proof. repeat constructor; vm_compute; congruence. Qed.

(** ** Registers written *)

(** A burst continues with the following registers, except into the FIFO. *)
Definition reg_writes (a : access) : list (Z * Z) :=
  match a with
  | WrReg r data => if r =? R_FIFO then [] else imap (fun i v => (r + Z.of_nat i, v)) data
  | _ => []
  end.

(** The value a register was last given. *)
Definition reg_value (l : list access) (r : Z) : option Z :=
  fold_left (fun acc rv => if rv.1 =? r then Some rv.2 else acc) (concat (map reg_writes l)) None.

Definition config_log : list access := map (fun g => WrReg g.1 g.2) config_groups.

(** The registers after initialisation, read with the chip's formulas. *)
Record radio_setup := mk_setup {
  su_carrier_hz : Z;        (* channel 0 *)
  su_channel : Z;
  su_step_khz : Z;
  su_deviation_hz : Z;
  su_bitrate : Z;
  su_power_dbm : Z;
  su_sync : list Z;
  su_preamble_nibbles : Z;
  su_fifo_thresholds : list Z;
  su_packet_mode : Z;
  su_modulation : Z;
  su_mode : Z;
  su_interrupts : Z
}.

Definition setup_of (l : list access) : radio_setup :=
  let r a := default (-1) (reg_value l a) in
  mk_setup
    ((Z.land (r R_BAND_SELECT) 31 + 24) * (10 * MHZ * (if r R_BAND_SELECT &? HBSEL then 2 else 1)) +
     be16 (r R_CARRIER_FREQ1) (r R_CARRIER_FREQ0) * (10 * MHZ * (if r R_BAND_SELECT &? HBSEL then 2 else 1)) / 64000)
    (r R_CHANNEL)
    (r R_STEP * 10)
    ((r R_DEVIATION + (if r R_MOD_CTRL2 &? FD8 then 256 else 0)) * 625)
    (be16 (r R_TX_RATE1) (r R_TX_RATE0) * MHZ / 2 ^ (if r R_MOD_CTRL1 &? TXDTRTSCALE then 21 else 16))
    (TXDBM (r R_TX_POWER))
    (take (Z.to_nat (Z.land (r R_HEADER_CTRL2 ≫ SYNCLEN_SHIFT) SYNCLEN_MASK + 1))
       [r R_SYNC_WORD3; r R_SYNC_WORD2; r R_SYNC_WORD1; r R_SYNC_WORD0])
    (r R_PREAMBLE_LENGTH)
    [r R_TX_FIFO_CTRL1; r R_TX_FIFO_CTRL2; r R_RX_FIFO_CTRL]
    (r R_DATA_ACCESS_CTRL)
    (r R_MOD_CTRL2)
    (r R_OP_CTRL1)
    (be16 (r R_INT_ENABLE1) (r R_INT_ENABLE2)).

(** What the configuration section of the driver asks for. *)
Definition tinyhan_setup : radio_setup :=
  mk_setup 868000000 100 10 25000 49987 (-8) [0x2d; 0xd2] 8 [58; 32; 31]
    (Z.lor (Z.lor ENPACRX ENPACTX) ENCRC) (Z.lor DTMOD_FIFO MODTYP_GFSK) MODE_STANDBY
    (Z.lor (Z.lor (Z.lor (Z.lor (Z.lor (Z.lor (Z.lor
      ITXFFAFULL ITXFFAEM) IRXFFAFULL) IPKSENT) ISWDET) IPKVALID) ICRCERROR) IWUT).

Definition init_log : list access :=
  [WrReg R_OP_CTRL1 [SWRES]; Delayed 1] ++ config_log ++ standby_log ++
  [WrReg R_INT_ENABLE [0; 0]; WrReg R_INT_ENABLE [int_enable_mask / 256; int_enable_mask mod 256]].

Lemma init_log_setup : setup_of init_log = tinyhan_setup.
Proof. vm_compute. reflexivity. Qed.


Section Platform.
Context `{P : Platform}.

(** *** Initialisation *)

Lemma wp_init_block {B : Prop} data rest w0 l w Q :
  opened w0 l w -> bytes data ->
  (forall ins w', map fst ins = data -> opened w0 (l ++ ins) w' -> Q rest w') ->
  wpb B (init_block (length data) (data ++ rest)) Q w.
Proof.
  revert l w Q. induction data as [|c data IH]; intros l w Q Hw Hd HQ; cbn [init_block length app].
  { apply wp_ret, (HQ []); [done|]. by rewrite app_nil_r. }
  inversion Hd as [|? ? Hc Hd']; subst.
  apply wp_bind, wp_io. intros i _. eapply IH; [by apply opened_io|done|].
  intros ins w' Hins Hop. apply (HQ ((c, i) :: ins)); [by simpl; f_equal|].
  by rewrite <- app_assoc in Hop.
Qed.

Lemma wp_device_init_loop {B : Prop} fuel gs w Q :
  idle w -> Forall group_ok gs -> (length gs < fuel)%nat ->
  (forall w', moved w (map (fun g => WrReg g.1 g.2) gs) w' -> Q tt w') ->
  wpb B (device_init_loop fuel (encode_table gs)) Q w.
Proof.
  revert gs w Q. induction fuel as [|fuel IH]; intros gs w Q Hi Hg Hf HQ; [lia|].
  destruct gs as [|[a data] gs]; cbn [device_init_loop encode_table encode_group map concat app fst snd].
  { apply wp_ret, HQ. by apply moved_nil. }
  inversion Hg as [|? ? [Ha Hd] Hg']; subst. cbn [fst snd] in *.
  destruct (Z.eqb_spec a 0); [lia|]. destruct (write_header a) as [Hb Hdec]; [lia|].
  apply wp_bind. unfold wpb at 1, perform. apply wp_bind, wp_io. intros i _. apply wp_bind.
  rewrite Nat2Z.id, <- app_assoc.
  eapply wp_init_block; [apply opened_io; [by apply opened_select|exact Hb]|done|].
  intros ins w' Hins Hop. apply wp_bind. unfold wpb at 1, perform.
  apply opened_deselect in Hop. rewrite Hdec, Hins in Hop.
  apply IH; [apply Hop|done|simpl in Hf; lia|]. intros w2 H2. apply HQ.
  exact (moved_trans _ _ _ _ _ Hop H2).
Qed.

Lemma wp_device_init {B : Prop} w Q :
  idle w -> (forall w', moved w config_log w' -> Q tt w') -> wpb B si443x_device_init Q w.
Proof.
  intros Hi HQ. unfold si443x_device_init. rewrite <- config_encoded at 2.
  apply wp_device_init_loop; [done|apply config_groups_ok|vm_compute; lia|exact HQ].
Qed.

Lemma wp_poll_reset fuel w Q :
  idle w -> (forall w', moved w [] w' -> Q tt w') -> wp (poll_reset fuel) Q w.
Proof.
  revert w Q. induction fuel as [|fuel IH]; intros w Q Hi HQ; [done|]. cbn [poll_reset].
  apply wp_bind, wp_irq. intros b _.
  assert (H : moved w [] (add_io (Irq b) w)) by (by apply moved_irq).
  destruct b; [|by apply wp_ret, HQ]. apply IH; [apply H|]. intros w' H'. apply HQ.
  exact (moved_trans _ _ _ _ _ H H').
Qed.

(** The identification read at power-up. *)
Definition ident_log (t v : Z) : list access :=
  [Powered true; Delayed 50; RdReg R_DEVICE_TYPE [t]; RdReg R_DEVICE_VERSION [v]].
Definition supported (t v : Z) : Prop := Z.land t DT_MASK = 8 /\ Z.land v VC_MASK = 6.

Lemma wp_resume fuel w Q :
  idle w ->
  (forall rc t v l w', went w (ident_log t v ++ l) w' ->
     (supported t v /\ rc = 0 /\ l = init_log /\ phy_si443x_state w' = stateStandby) \/
     (~ supported t v /\ rc = -1 /\ l = [] /\ phy_si443x_state w' = phy_si443x_state w) ->
     Q rc w') ->
  wp (phy_resume fuel) Q w.
Proof.
  intros Hi HQ. unfold phy_resume.
  apply wp_bind. eapply wp_perform; [done|reflexivity|]. intros w1 H1.
  apply wp_bind. eapply wp_perform; [apply H1|reflexivity|]. intros w2 H2.
  apply wp_bind, wp_bind. access. intros t w3 _ H3. apply wp_ret.
  apply wp_bind, wp_bind. access. intros v w4 _ H4. apply wp_ret.
  assert (H : moved w (ident_log t v) w4).
  { exact (moved_trans _ _ _ _ _ H1 (moved_trans _ _ _ _ _ H2 (moved_trans _ _ _ _ _ H3 H4))). }
  destruct (negb _ || negb _) eqn:E.
  { apply wp_ret, (HQ _ t v []); [rewrite app_nil_r; by apply moved_went|]. right.
    split_and!; [|done|done|by destruct H]. intros [Et Ev]. rewrite Et, Ev in E. done. }
  apply orb_false_iff in E as [Et Ev]. apply negb_false_iff, Z.eqb_eq in Et, Ev.
  apply wp_bind. access. intros w5 H5.
  apply wp_bind, wp_poll_reset; [apply H5|]. intros w6 H6.
  apply wp_bind. eapply wp_perform; [apply H6|reflexivity|]. intros w7 H7.
  apply wp_bind, wp_device_init; [apply H7|]. intros w8 H8.
  apply wp_bind, wp_standby; [apply H8|]. intros w9 H9 Hs _.
  apply wp_bind. access. intros w10 H10. apply wp_bind. access. intros w11 H11.
  apply wp_ret, (HQ _ t v init_log); [|left; split_and!; [done|done|done|destruct H10, H11; congruence]].
  eapply went_trans; [apply moved_went, H|]. unfold init_log.
  eapply (went_trans _ [_; _]);
    [exact (moved_went _ _ _ (moved_trans _ _ _ _ _ H5 (moved_trans _ _ _ _ _ H6 H7)))|].
  eapply went_trans; [apply moved_went, H8|]. eapply went_trans; [exact H9|].
  exact (moved_went _ _ _ (moved_trans _ _ _ _ _ H10 H11)).
Qed.

(** *** Reception *)

Lemma u8_clamp n : is_u8 n -> u8 (if MAX_PACKET <? n then MAX_PACKET else n) = Z.min n MAX_PACKET.
Proof.
  intros Hn. destruct (Z.ltb_spec MAX_PACKET n).
  - rewrite Z.min_r by lia. done.
  - rewrite Z.min_l by lia. by apply u8_id.
Qed.

(** What [phy_event_handler] does once the interrupts are served, from the
    state [st] they have left. *)
Definition dispatch_log (st : si443x_state_t) (n : Z) (p : list Z) : list access :=
  match st with
  | stateRxValid => [RdReg R_RX_LENGTH [n]; RdReg R_FIFO p] ++ listen_log
  | stateRxInvalid | stateFifoError => listen_log
  | _ => []
  end.

Lemma wp_phy_event_handler fuel w Q :
  idle w ->
  (forall l st n p r w',
     went w (l ++ dispatch_log st n p) w' -> neutral l ->
     st = fold_left (fun st s => status_next s st) (statuses l) (phy_si443x_state w) ->
     bytes p -> Z.of_nat (length p) = Z.min n MAX_PACKET ->
     r = (if decide (st = stateRxValid) then
            if phy_si443x_recv_cb w then Some (p, phy_si443x_rssi w') else None else None) ->
     phy_si443x_state w' = (match st with
       | stateRxValid | stateRxInvalid | stateFifoError => stateListen | _ => st end) -> Q r w') ->
  wp (phy_event_handler fuel) Q w.
Proof.
  intros Hi HQ. unfold phy_event_handler.
  apply wp_bind, wp_event_handler; [done|]. intros l w1 H1 Hn Hs _.
  apply wp_bind, wp_get_state.
  assert (Hidle : forall st, phy_si443x_state w1 = st ->
    match st with stateRxValid | stateRxInvalid | stateFifoError => False | _ => True end ->
    Q None w1).
  { intros st Hst Hd. apply (HQ l st 0 [] None); [|done|congruence|constructor|done|..].
    - destruct st; try done; by rewrite app_nil_r.
    - by destruct st.
    - by destruct st. }
  assert (Herror : forall st, phy_si443x_state w1 = st -> st = stateRxInvalid \/ st = stateFifoError ->
    wp (phy_listen ;; dret None) Q w1).
  { intros st Hst Hd. apply wp_bind, wp_listen; [apply H1|]. intros w2 H2 Hs2 _. apply wp_ret.
    apply (HQ l st 0 [] None); [|done|congruence|constructor|done|..].
    - replace (dispatch_log st 0 []) with listen_log by (by destruct Hd as [-> | ->]).
      by eapply went_trans.
    - by destruct Hd as [-> | ->].
    - by destruct Hd as [-> | ->]. }
  destruct (phy_si443x_state w1) eqn:Est;
    try (exact (wp_ret _ _ _ (Hidle _ eq_refl I))); try (apply (Herror _ eq_refl); auto; fail).
  clear Hidle Herror. apply wp_bind. access. intros n w2 Hbn H2.
  apply wp_bind. access. intros p w3 Hp Hl H3. rewrite u8_clamp in Hl by done.
  apply wp_bind, wp_listen; [apply H3|]. intros w4 H4 Hs4 Hr4.
  assert (H : went w (l ++ dispatch_log stateRxValid n p) w4).
  { eapply went_trans; [exact H1|].
    eapply (went_trans _ [_; _]); [exact (moved_went _ _ _ (moved_trans _ _ _ _ _ H2 H3))|exact H4]. }
  apply wp_bind. unfold wpb at 1, get_recv_cb. apply wp_bind. unfold wpb at 1, get_rssi. apply wp_ret.
  apply (HQ l stateRxValid n p); try done.
  by rewrite (wt_cb _ _ _ H).
Qed.

(** *** Transmission *)

Lemma wp_phy_send fuel bufs flags w Q :
  idle w -> bufs <> [] ->
  (forall l w', went w l w' -> neutral l ->
     state_val stateListen < state_val (phy_si443x_state w') -> Q (-1) w') ->
  (forall ev body w',
     went w (ev ++ [WrReg R_OP_CTRL2 [FFCLRTX]; WrReg R_OP_CTRL2 [0];
                    WrReg R_TX_LENGTH [u8 (total_size bufs)]] ++ body ++ listen_log) w' ->
     neutral ev ->
     fifo_data body = map u8 (take (Z.to_nat (total_size bufs)) (concat bufs)) ->
     tx_lengths body = [] -> tx_starts body = 1%nat -> fifo_reads body = [] ->
     phy_si443x_state w' = stateListen -> Q 0 w') ->
  wp (phy_send fuel bufs flags) Q w.
Proof.
  intros Hi Hne Hbusy Hsent. unfold phy_send. destruct bufs as [|b bufs]; [done|].
  set (size := total_size (b :: bufs)) in *. pose proof (total_size_le (b :: bufs)) as Hle.
  fold size in Hle. apply wp_bind, wp_event_handler; [done|]. intros ev w1 H1 Hn _ _.
  apply wp_bind, wp_get_state. destruct (Z.ltb_spec (state_val stateListen) (state_val (phy_si443x_state w1))).
  { by apply wp_ret, (Hbusy ev). }
  apply wp_bind, wp_set_state, wp_bind, wp_bind. access; [apply H1|]. intros w2 H2.
  access. intros w3 H3. apply wp_bind. access. intros w4 H4.
  apply wp_bind, wp_tx_fill; [apply H4|rewrite <- Nat2Z.id; apply Z2Nat.inj_le; lia|].
  intros l5 w5 H5 Hf5 Hl5 Hs5 Hr5.
  apply wp_bind, wp_tx_complete; [apply H5|]. intros l6 w6 H6 [Hf6 Hl6 Hs6 Hr6] _.
  apply wp_bind, wp_listen; [apply H6|]. intros w7 H7 Hs7 _. apply wp_ret.
  apply (Hsent ev (l5 ++ l6)); [|done|..|done]; autorewrite with radio;
    rewrite ?Hf6, ?Hl6, ?Hs6, ?Hr6, ?Hl5, ?Hs5, ?Hr5, ?app_nil_r; try done.
  eapply went_trans; [exact H1|].
  eapply (went_trans _ [_; _; _]).
  { eapply went_from, moved_went. exact (moved_trans _ _ _ _ _ H2 (moved_trans _ _ _ _ _ H3 H4)). }
  rewrite <- app_assoc. eapply went_trans; [exact H5|]. by eapply went_trans.
Qed.

(** *** Settings *)

Lemma wp_delayed_standby us w Q :
  idle w ->
  (forall w', moved w [WrReg R_WU_PERIOD1 [0];
       WrReg R_WU_PERIOD2 [u16 (u32 (us * 32768) / 4000000) / 256; u16 (u32 (us * 32768) / 4000000) mod 256];
       WrReg R_OP_CTRL1 [Z.lor (Z.lor ENWT RXON) XTON]] w' -> Q 0 w') ->
  wp (phy_delayed_standby us) Q w.
Proof.
  intros Hi HQ. apply wp_bind. access. intros w1 H1. apply wp_bind. access. intros w2 H2.
  apply wp_bind. access. intros w3 H3. apply wp_ret, HQ.
  exact (moved_trans _ _ _ _ _ H1 (moved_trans _ _ _ _ _ H2 H3)).
Qed.

Lemma power_fits dbm : - 2 ^ 15 <= dbm <= 2 ^ 15 - 9 -> int_fits (dbm - TXPOW_MIN) = true.
Proof.
  intros H. unfold int_fits, TXPOW_MIN. apply andb_true_iff. split; [apply Z.leb_le|apply Z.ltb_lt]; lia.
Qed.

Lemma wp_set_power dbm w Q :
  - 2 ^ 15 <= dbm <= 2 ^ 15 - 9 -> idle w -> (forall w', moved w [WrReg R_TX_POWER [u8 (Z.lor (TXPOW dbm) LNA_SW)]] w' ->
    Q (TXDBM (TXPOW dbm)) w') ->
  wp (phy_set_power dbm) Q w.
Proof.
  intros Hd Hi HQ. unfold phy_set_power. rewrite power_fits by done. cbv iota beta delta [negb].
  apply wp_bind. access. intros w' H. by apply wp_ret, HQ.
Qed.

Lemma wp_set_channel n w Q :
  idle w -> (forall w', moved w [WrReg R_CHANNEL [u8 n]] w' -> Q (signed 16 n) w') ->
  wp (phy_set_channel n) Q w.
Proof. intros Hi HQ. apply wp_bind. access. intros w' H. by apply wp_ret, HQ. Qed.

End Platform.

(** ** Sequences of calls *)

Inductive call : Type :=
| CInit | CSuspend | CResume | CListen | CStandby
| CDelayedStandby (us : Z)
| CRegister (cb : bool)
| CEvent
| CSend (bufs : list (list Z)) (flags : Z)
| CSetPower (dbm : Z)
| CSetChannel (n : Z).

Definition ignore {A} (m : D A) : D unit := m ;; dret tt.

Definition run_call `{P : Platform} (fuel : nat) (c : call) : D unit :=
  match c with
  | CInit => ignore (phy_init fuel)
  | CSuspend => ignore phy_suspend
  | CResume => ignore (phy_resume fuel)
  | CListen => ignore phy_listen
  | CStandby => ignore phy_standby
  | CDelayedStandby us => ignore (phy_delayed_standby us)
  | CRegister cb => phy_register_recv_cb cb
  | CEvent => ignore (phy_event_handler fuel)
  | CSend bufs flags => ignore (phy_send fuel bufs flags)
  | CSetPower dbm => ignore (phy_set_power dbm)
  | CSetChannel n => ignore (phy_set_channel n)
  end.

Fixpoint run_calls `{P : Platform} (fuel : nat) (cs : list call) : D unit :=
  match cs with
  | [] => dret tt
  | c :: cs => run_call fuel c ;; run_calls fuel cs
  end.

(** [phy_send] asserts that there is a fragment; [phy_set_power] adds 8 to the
    power, which must not exceed the range of a 16-bit [int]. *)
Definition call_ok (c : call) : Prop :=
  match c with
  | CSend bufs _ => bufs <> []
  | CSetPower dbm => - 2 ^ 15 <= dbm <= 2 ^ 15 - 9
  | _ => True
  end.

Section Theorems.
Context `{P : Platform}.

(** Between calls: the bus is idle, everything sent over it was well formed,
    and the RSSI is that of a register value. *)
Definition settled (w : radio) : Prop := idle w /\ rssi_ok w.

Lemma went_settled w l w' : went w l w' -> settled w -> settled w'.
Proof. intros [] [_ ?]. split; auto. Qed.
#[local] Hint Resolve went_settled moved_went : core.

Lemma wp_ignore {A} (m : D A) Q w : wp m (fun _ => Q tt) w -> wp (ignore m) Q w.
Proof. intros H. apply wp_bind. exact H. Qed.

Lemma run_call_settled fuel c w :
  call_ok c -> settled w -> wp (run_call fuel c) (fun _ => settled) w.
Proof.
  intros Hc Hw. pose proof (proj1 Hw) as Hi. destruct c; cbn [run_call]; try apply wp_ignore.
  - unfold phy_init. apply wp_bind. eapply wp_perform; [done|reflexivity|]. intros w1 H1.
    apply wp_bind. eapply wp_perform; [apply H1|reflexivity|]. intros w2 H2.
    apply wp_resume; [apply H2|]. intros. eauto 6.
  - apply wp_bind. eapply wp_perform; [done|reflexivity|]. intros w1 H1. eapply wp_ret; eauto.
  - apply wp_resume; [done|]. eauto.
  - apply wp_listen; eauto.
  - apply wp_standby; eauto.
  - apply wp_delayed_standby; eauto.
  - exact Hw.
  - apply wp_phy_event_handler; eauto.
  - apply wp_phy_send; eauto.
  - apply wp_set_power; eauto.
  - apply wp_set_channel; eauto.
Qed.

(** C15: whatever the platform answers, no sequence of calls of the driver's
    interface, in which each [phy_send] has at least one fragment and the power
    of each [phy_set_power] is at most 32759, so that adding 8 to it stays in a
    16-bit [int], leaves the defined behaviour of C, and between calls the SPI bus
    is well used: every transaction so far was opened by one select, carried a
    header byte and data bytes of eight bits, was closed by one deselect before
    the next one, a wait or a power change, and the RSSI the driver holds is
    between -126 and 7 dBm, hence fits the [int8_t] of the MAC. *)
Theorem driver_calls_safe fuel cs :
  Forall call_ok cs ->
  match run_calls fuel cs radio_zero with
  | Done _ w => bus_open (bus_of (hist w)) = None /\ bus_ok (bus_of (hist w)) = true /\
                -126 <= phy_si443x_rssi w <= 7
  | Blocked => True
  | Fault => False
  end.
Proof.
  intros Hcs. assert (H : wp (run_calls fuel cs) (fun _ => settled) radio_zero).
  { generalize radio_zero, (ltac:(split; [by split|unfold rssi_ok; cbn; lia]) : settled radio_zero).
    induction Hcs as [|c cs Hc _ IH]; intros w Hw; [done|]. cbn [run_calls].
    apply wp_bind. eapply wp_mono; [by apply run_call_settled|]. intros ? w' Hw'. by apply IH. }
  unfold wpb in H. destruct (run_calls fuel cs radio_zero); [|done..].
  by destruct H as [[? ?] ?].
Qed.

(** C16: initialisation reads the device's identity; for an unsupported device
    it returns -1 without having written a register, and otherwise it returns
    0 with the radio configured as the configuration section of the driver
    says: carrier 868 MHz and channel 100 in steps of 10 kHz, GFSK with 25 kHz
    deviation at 50 kbit/s to within one register step, minimum power, the
    two-byte sync word, packet mode with CRC, the FIFO thresholds, standby,
    and exactly the interrupts enabled that the event handler serves, FIFO
    error excepted. *)
Theorem initialisation_configures fuel w rc w' :
  idle w -> phy_init fuel w = Done rc w' ->
  exists t v l, log w' = log w ++ [Reinit; Reinit] ++ ident_log t v ++ l /\
    ((Z.land t 31 = 8 /\ Z.land v 31 = 6 /\ rc = 0 /\
      setup_of l = tinyhan_setup /\ phy_si443x_state w' = stateStandby) \/
     (~ (Z.land t 31 = 8 /\ Z.land v 31 = 6) /\ rc = -1 /\ l = [])).
Proof.
  intros Hi. revert rc w'. apply (wp_run (B := True)).
  unfold phy_init. apply wp_bind. eapply wp_perform; [done|reflexivity|]. intros w1 H1.
  apply wp_bind. eapply wp_perform; [apply H1|reflexivity|]. intros w2 H2.
  apply wp_resume; [apply H2|]. intros rc t v l w' H Hc. exists t, v, l. split.
  - pose proof (moved_trans _ _ _ _ _ H1 H2) as H12.
    by rewrite (wt_log _ _ _ H), (mv_log _ _ _ H12), <- app_assoc.
  - destruct Hc as [([? ?] & ? & -> & ?)|(? & ? & ? & _)]; [left|right];
      auto using init_log_setup.
Qed.

Lemma radio_send_result fuel bufs flags w rc w' :
  idle w -> bufs <> [] -> bytes (concat bufs) ->
  Z.of_nat (length (concat bufs)) <= phy_get_mtu ->
  phy_send fuel bufs flags w = Done rc w' ->
  (rc = -1 /\ state_val stateListen < state_val (phy_si443x_state w') /\
   exists l, log w' = log w ++ l /\ neutral l) \/
  (rc = 0 /\ phy_si443x_state w' = stateListen /\
   exists ev body,
     log w' = log w ++ ev ++
       [WrReg R_OP_CTRL2 [FFCLRTX]; WrReg R_OP_CTRL2 [0];
        WrReg R_TX_LENGTH [Z.of_nat (length (concat bufs))]] ++
       body ++ listen_log /\
     neutral ev /\
     fifo_data body = concat bufs /\ tx_lengths body = [] /\ tx_starts body = 1%nat /\
     fifo_reads body = []).
Proof.
  intros Hi Hne Hb Hmtu. change phy_get_mtu with 62 in Hmtu.
  assert (Ht : total_size bufs = Z.of_nat (length (concat bufs))) by (apply total_size_exact; lia).
  revert rc w'. apply (wp_run (B := True)), wp_phy_send; [done|done|..].
  - intros l w1 H Hn Hs. left. split_and!; [done|done|]. exists l. by destruct H.
  - intros ev body w1 H Hn Hf Hl Hs Hr Hst. right. split_and!; [done|done|]. exists ev, body.
    split_and!; try done.
    + rewrite (wt_log _ _ _ H), Ht, u8_id by (widths; lia). done.
    + rewrite Hf, Ht, Nat2Z.id, firstn_all.
      rewrite <- (map_id (concat bufs)) at 2. apply map_ext_Forall.
      eapply Forall_impl; [|exact Hb]. intros c Hc. by apply u8_id.
Qed.

(** C11: a call of [phy_send] with a packet of at most the MTU, whenever it
    returns: either it reports -1, the radio being found busy, and has neither
    filled the FIFO nor announced a length nor switched the transmitter on; or
    it reports 0, and after serving interrupts it has cleared the FIFO,
    announced the packet's length, then pushed exactly the bytes of the
    fragments in order - however the interrupts cut the filling into blocks -
    and switched the transmitter on exactly once, and it leaves the receiver
    on. *)
Theorem radio_send_pushes_packet fuel bufs flags w rc w' :
  idle w -> bufs <> [] -> bytes (concat bufs) ->
  Z.of_nat (length (concat bufs)) <= phy_get_mtu ->
  phy_send fuel bufs flags w = Done rc w' ->
  (rc = -1 /\ state_val stateListen < state_val (phy_si443x_state w') /\
   exists l, log w' = log w ++ l /\ fifo_data l = [] /\ tx_lengths l = [] /\ tx_starts l = 0%nat) \/
  (rc = 0 /\ phy_si443x_state w' = stateListen /\
   exists ev body,
     log w' = log w ++ ev ++
       [WrReg R_OP_CTRL2 [FFCLRTX]; WrReg R_OP_CTRL2 [0];
        WrReg R_TX_LENGTH [Z.of_nat (length (concat bufs))]] ++
       body ++ listen_log /\
     fifo_data ev = [] /\ tx_starts ev = 0%nat /\
     fifo_data body = concat bufs /\ tx_lengths body = [] /\ tx_starts body = 1%nat).
Proof.
  intros Hi Hne Hb Hmtu Hrun.
  destruct (radio_send_result _ _ _ _ _ _ Hi Hne Hb Hmtu Hrun)
    as [(? & ? & l & ? & [])|(? & ? & ev & body & ? & [] & ? & ? & ? & _)]; [left|right]; eauto 12.
Qed.

(** C13: the event handler's effect is decided by the interrupt status words it
    reads: they take the driver from state to state as [status_next] says, and
    if the last is a valid packet then the handler reads the length register
    and that many bytes of the FIFO (64 at most), returns to listening, and
    passes exactly those bytes and the driver's RSSI variable to the callback;
    a damaged packet or FIFO error is dropped and the receiver restarted; in
    every other state nothing is delivered and no further access made. *)
Theorem radio_receives_packet fuel w r w' :
  idle w -> phy_event_handler fuel w = Done r w' ->
  exists l st n p,
    log w' = log w ++ l ++ dispatch_log st n p /\ fifo_data l = [] /\ tx_starts l = 0%nat /\
    st = fold_left (fun st s => status_next s st) (statuses l) (phy_si443x_state w) /\
    match st with
    | stateRxValid =>
        r = (if phy_si443x_recv_cb w then Some (p, phy_si443x_rssi w') else None) /\
        Z.of_nat (length p) = Z.min n 64 /\ phy_si443x_state w' = stateListen
    | stateRxInvalid | stateFifoError => r = None /\ phy_si443x_state w' = stateListen
    | _ => r = None /\ phy_si443x_state w' = st
    end.
Proof.
  intros Hi. revert r w'. apply (wp_run (B := True)), wp_phy_event_handler; [done|].
  intros l st n p r1 w1 H [] Hst Hp Hl -> Hs. exists l, st, n, p.
  split_and!; [by destruct H|done|done|done|]. by destruct st.
Qed.

(** A power between the minimum of -8 dBm and 15 dBm is rounded down to a
    step of 3 dB, the value returned is the power programmed, and the register
    keeps the LNA switch. *)
Theorem set_power_steps dbm w rc w' :
  idle w -> -8 <= dbm <= 15 -> phy_set_power dbm w = Done rc w' ->
  rc <= dbm < rc + 3 /\ -8 <= rc <= 13 /\
  exists v, log w' = log w ++ [WrReg R_TX_POWER [v]] /\ TXDBM v = rc /\ (v &? LNA_SW) = true.
Proof.
  intros Hi Hd. revert rc w'. apply (wp_run (B := True)), wp_set_power; [lia|done|]. intros w1 H1.
  assert (Hq : TXPOW dbm = Z.quot (dbm + 8) 3 /\ 0 <= Z.quot (dbm + 8) 3 < 8).
  { rewrite Z.quot_div_nonneg by lia. unfold TXPOW. change TXPOW_MASK with (Z.ones 3).
    rewrite Z.land_ones, Z.quot_div_nonneg by (unfold TXPOW_MIN, TXPOW_STEP; lia).
    unfold TXPOW_MIN, TXPOW_STEP. rewrite Z.mod_small; Z.div_mod_to_equations; lia. }
  destruct Hq as [Hq Hr]. rewrite Hq in *. set (q := Z.quot (dbm + 8) 3) in *.
  assert (Hx : forall q, 0 <= q < 8 -> TXDBM q = q * 3 - 8 /\
    u8 (Z.lor q LNA_SW) &? LNA_SW = true /\ TXDBM (u8 (Z.lor q LNA_SW)) = q * 3 - 8).
  { intros x Hx. assert (x = 0 \/ x = 1 \/ x = 2 \/ x = 3 \/ x = 4 \/ x = 5 \/ x = 6 \/ x = 7) as Hc by lia.
    repeat destruct Hc as [-> | Hc]; try (by split_and!). subst x. by split_and!. }
  destruct (Hx q Hr) as (-> & Hlna & Htx).
  assert (Hb : q * 3 <= dbm + 8 < q * 3 + 3).
  { unfold q. rewrite Z.quot_div_nonneg by lia. Z.div_mod_to_equations. lia. }
  split_and!; try lia. exists (u8 (Z.lor q LNA_SW)). split_and!; [by destruct H1|done|done].
Qed.

(** A power below the minimum does not saturate: one step below, the maximum
    of 13 dBm is programmed. *)
Lemma set_power_below_minimum w rc w' :
  idle w -> phy_set_power (-11) w = Done rc w' -> rc = 13.
Proof. intros Hi. revert rc w'. apply (wp_run (B := True)). apply wp_set_power; [lia|done|done]. Qed.

(** A power within 7 of the largest [int] overflows in the computation of the
    step: undefined behaviour. *)
Lemma set_power_overflows dbm w : 2 ^ 15 - 8 <= dbm < 2 ^ 15 -> phy_set_power dbm w = Fault.
Proof.
  intros H. unfold phy_set_power. replace (int_fits (dbm - TXPOW_MIN)) with false; [done|].
  symmetry. unfold int_fits, TXPOW_MIN. apply andb_false_iff. right. apply Z.ltb_ge. lia.
Qed.

(** The channel register has eight bits: of a larger number only the low byte
    is programmed, and the call reports the number asked for. *)
Lemma set_channel_truncates w rc w' :
  idle w -> phy_set_channel 300 w = Done rc w' ->
  rc = 300 /\ log w' = log w ++ [WrReg R_CHANNEL [44]].
Proof. intros Hi. revert rc w'. apply (wp_run (B := True)), wp_set_channel; [done|]. by intros w1 []. Qed.
End Theorems.

(** The carrier frequency programmed by the band and carrier macros: for
    every channel-0 frequency of the high band up to 1120 MHz, the band
    register value is a byte with the band flags, the carrier value fits its 16
    bits, and the frequency the chip derives from them is the requested one to
    within a step of 312.5 Hz, never above it. *)
Theorem carrier_programming f :
  480 * MHZ <= f < 1120 * MHZ ->
  is_u8 (FB f) /\ (FB f &? HBSEL) = true /\ is_u16 (FC f) /\ FC f < 64000 /\
  let rest := f - (Z.land (FB f) 31 + 24) * (20 * MHZ) in
  FC f * 625 <= 2 * rest < (FC f + 1) * 625.
Proof.
  intros Hf. set (q := (f - 480 * MHZ) / (20 * MHZ)).
  assert (Hq : 0 <= q < 32 /\ 20000000 * q <= f - 480000000 < 20000000 * (q + 1)).
  { unfold q, MHZ in *. Z.div_mod_to_equations. lia. }
  assert (Hb : BAND f = q).
  { unfold BAND, BAND_OFFSET, BAND_STEP. change FB_MASK with (Z.ones 5).
    rewrite Z.land_ones, Z.quot_div_nonneg by (unfold MHZ in *; lia). fold q.
    apply Z.mod_small. change (2 ^ 5) with 32. lia. }
  assert (Hfb : forall x, 0 <= x < 128 -> x < 32 ->
    is_u8 (Z.lor BAND_FLAGS x) /\ (Z.lor BAND_FLAGS x &? HBSEL) = true /\ Z.land (Z.lor BAND_FLAGS x) 31 = x).
  { intros x Hx Hx'. pose proof (header_exhaustive (fun x => negb (x <? 32) || (byteb (Z.lor BAND_FLAGS x) &&
      (Z.lor BAND_FLAGS x &? HBSEL) && (Z.land (Z.lor BAND_FLAGS x) 31 =? x))) eq_refl x Hx) as H.
    apply Z.ltb_lt in Hx'. cbv beta in H. rewrite Hx' in H. cbn [negb orb] in H.
    apply andb_true_iff in H as [H H3]. apply andb_true_iff in H as [H1 H2].
    unfold byteb in H1. boolify. by split_and!. }
  destruct (Hfb q) as (Hu & Hh & Hl); [lia|lia|]. unfold FB, FC. rewrite Hb, Hl. unfold BAND_OFFSET, BAND_STEP.
  change (Z.quot (20 * MHZ) KHZ) with 20000. unfold MHZ in *.
  rewrite (u32_id (f - _)) by (widths; lia). rewrite (u32_id (_ * 64)) by (widths; lia).
  cbv zeta. widths. split_and!; try done; Z.div_mod_to_equations; lia.
Qed.

(** ** Witnesses *)

Lemma carrier_programming_witness :
  FB (868 * MHZ) = 0x73 /\ FC (868 * MHZ) = 25600 /\ FC (868 * MHZ) < 64000.
Proof.
  split; [reflexivity|]. split; [reflexivity|].
  destruct (carrier_programming (868 * MHZ)) as (_ & _ & _ & H & _); [unfold MHZ; lia|exact H].
Defined.

(** A board whose interrupt line is high and whose chip answers zero. *)
Definition quiet_platform : Platform := {| irq_level _ := true; spi_miso _ _ := 0 |}.

(** A supported device that has finished its reset. *)
Definition ident_chip : Chip := {|
  chip_irq _ := false;
  chip_read _ addr _ := if addr =? R_DEVICE_TYPE then 8 else if addr =? R_DEVICE_VERSION then 6 else 0
|}.

(** A chip that sends a status until it is read, and a packet of three bytes. *)
Definition status_chip (status : Z) : Chip := {|
  chip_irq l := negb (bool_decide (statuses l = []));
  chip_read _ addr i :=
    if addr =? R_INT_STATUS then (if (i =? 0)%nat then status / 256 else status mod 256)
    else if addr =? R_RX_LENGTH then 3 else if addr =? R_FIFO then 5 + Z.of_nat i else 0
|}.

Lemma driver_calls_safe_witness :
  match @run_calls quiet_platform 20 [CInit; CRegister true; CListen; CEvent; CSend [[1]] 0; CSetPower 13] radio_zero with
  | Done _ w => bus_open (bus_of (hist w)) = None /\ bus_ok (bus_of (hist w)) = true /\
                -126 <= phy_si443x_rssi w <= 7
  | Blocked => True
  | Fault => False
  end.
Proof.
  apply (@driver_calls_safe quiet_platform 20). repeat constructor; discriminate.
Defined.

Lemma initialisation_configures_witness :
  exists w', @phy_init (spi_slave ident_chip) 5 radio_zero = Done 0 w' /\
  exists t v l, log w' = log radio_zero ++ [Reinit; Reinit] ++ ident_log t v ++ l /\
    ((Z.land t 31 = 8 /\ Z.land v 31 = 6 /\ 0 = 0 /\
      setup_of l = tinyhan_setup /\ phy_si443x_state w' = stateStandby) \/
     (~ (Z.land t 31 = 8 /\ Z.land v 31 = 6) /\ 0 = -1 /\ l = [])).
Proof.
  destruct (@phy_init (spi_slave ident_chip) 5 radio_zero) as [rc w'| |] eqn:E;
    [|vm_compute in E; discriminate..].
  assert (rc = 0) as -> by (vm_compute in E; congruence).
  exists w'. split; [reflexivity|].
  refine (@initialisation_configures (spi_slave ident_chip) 5 radio_zero 0 w' _ E).
  by split.
Defined.

Definition listening : radio := mk_radio stateListen (-50) true [].

Lemma radio_receives_packet_witness :
  exists w', @phy_event_handler (spi_slave (status_chip IPKVALID)) 5 listening = Done (Some ([5; 6; 7], -50)) w' /\
  exists l st n p,
    log w' = log listening ++ l ++ dispatch_log st n p /\ fifo_data l = [] /\ tx_starts l = 0%nat /\
    st = fold_left (fun st s => status_next s st) (statuses l) (phy_si443x_state listening) /\
    match st with
    | stateRxValid =>
        Some ([5; 6; 7], -50) = (if phy_si443x_recv_cb listening then Some (p, phy_si443x_rssi w') else None) /\
        Z.of_nat (length p) = Z.min n 64 /\ phy_si443x_state w' = stateListen
    | stateRxInvalid | stateFifoError => Some ([5; 6; 7], -50) = None /\ phy_si443x_state w' = stateListen
    | _ => Some ([5; 6; 7], -50) = None /\ phy_si443x_state w' = st
    end.
Proof.
  destruct (@phy_event_handler (spi_slave (status_chip IPKVALID)) 5 listening) as [r w'| |] eqn:E;
    [|vm_compute in E; discriminate..].
  assert (r = Some ([5; 6; 7], -50)) as -> by (vm_compute in E; congruence).
  exists w'. split; [reflexivity|].
  refine (@radio_receives_packet (spi_slave (status_chip IPKVALID)) 5 listening _ w' _ E).
  by split.
Defined.

Lemma set_power_steps_witness :
  exists w', @phy_set_power quiet_platform 5 listening = Done 4 w' /\
  4 <= 5 < 4 + 3 /\ -8 <= 4 <= 13 /\
  exists v, log w' = log listening ++ [WrReg R_TX_POWER [v]] /\ TXDBM v = 4 /\ (v &? LNA_SW) = true.
Proof.
  destruct (@phy_set_power quiet_platform 5 listening) as [rc w'| |] eqn:E;
    [|vm_compute in E; discriminate..].
  assert (rc = 4) as -> by (vm_compute in E; congruence).
  exists w'. split; [reflexivity|].
  apply (@set_power_steps quiet_platform 5 listening 4 w'); [by split|lia|exact E].
Defined.
