(* ===== verification/Si443xIo.v ===== *)
(** * What the driver asks of the platform

    A call of the driver only adds to the history of platform operations, and
    of all its calls only [phy_suspend] switches the transceiver off. *)

From stdpp Require Import base list numbers.
From Stdlib Require Import ZArith Lia.
From S2P Require Import Prelude Si443xRegs Si443x.
Local Open Scope drv_scope.

Definition keeps_power (e : io) : Prop := e <> PowerDown.

(** From [w] to [w'] the driver has performed operations that leave the power on. *)
Definition advanced (w w' : radio) : Prop :=
  exists l, hist w' = l ++ hist w /\ Forall keeps_power l.

Lemma advanced_refl w : advanced w w.
Proof. by exists []. Qed.

Lemma advanced_trans w1 w2 w3 : advanced w1 w2 -> advanced w2 w3 -> advanced w1 w3.
Proof.
  intros (l & E & H) (l' & E' & H'). exists (l' ++ l). rewrite E', E, app_assoc. split; [done|].
  by apply Forall_app.
Qed.

Section Io.
Context `{P : Platform}.

Definition powered {A} (m : D A) : Prop :=
  forall w, match m w with Done _ w' => advanced w w' | _ => True end.

Create HintDb drive discriminated.

Lemma powered_ret {A} (a : A) : powered (dret a).
Proof. intros w. apply advanced_refl. Qed.
Lemma powered_bind {A B} (m : D A) (k : A -> D B) :
  powered m -> (forall a, powered (k a)) -> powered (m' <- m ;; k m').
Proof.
  intros Hm Hk w. unfold dbind. specialize (Hm w). destruct (m w) as [a w1| |]; [|done..].
  specialize (Hk a w1). destruct (k a w1); [|done..]. by eapply advanced_trans.
Qed.
Lemma powered_blocked {A} : powered (@blocked A). Proof. done. Qed.
Lemma powered_fault {A} : powered (@fault A). Proof. done. Qed.
Lemma powered_perform e : keeps_power e -> powered (perform e).
Proof. intros He w. exists [e]. by repeat constructor. Qed.
Lemma powered_spi c : powered (SPI_IO c).
Proof. intros w. eexists [_]. split; [reflexivity|]. by repeat constructor. Qed.
Lemma powered_irq : powered INP_nIRQ.
Proof. intros w. eexists [_]. split; [reflexivity|]. by repeat constructor. Qed.
Lemma powered_get_state : powered get_state. Proof. intros w. apply advanced_refl. Qed.
Lemma powered_get_rssi : powered get_rssi. Proof. intros w. apply advanced_refl. Qed.
Lemma powered_get_recv_cb : powered get_recv_cb. Proof. intros w. apply advanced_refl. Qed.
Lemma powered_set_state s : powered (set_state s). Proof. intros w. by exists []. Qed.
Lemma powered_set_rssi r : powered (set_rssi r). Proof. intros w. by exists []. Qed.
Lemma powered_set_recv_cb b : powered (set_recv_cb b). Proof. intros w. by exists []. Qed.
Lemma powered_when b m : powered m -> powered (dwhen b m).
Proof. destruct b; [done|]. intros _. apply powered_ret. Qed.

#[local] Hint Resolve powered_ret powered_blocked powered_fault powered_spi powered_irq
  powered_get_state powered_get_rssi powered_get_recv_cb powered_set_state powered_set_rssi
  powered_set_recv_cb : drive.
#[local] Hint Extern 1 (powered (perform _)) => by apply powered_perform : drive.

Ltac drive_step :=
  lazymatch goal with
  | |- powered (dbind _ _) => apply powered_bind; [|intros ?]
  | |- powered (dwhen _ _) => apply powered_when
  | |- powered (match ?x with _ => _ end) => destruct x
  | |- powered (let _ := _ in _) => cbn zeta
  end.
Ltac drive_auto := repeat first [solve [eauto 3 with drive] | drive_step].

Lemma powered_read_bytes n : powered (spi_read_bytes n).
Proof. induction n; cbn [spi_read_bytes]; drive_auto. Qed.
Lemma powered_write_bytes l : powered (spi_write_bytes l).
Proof. induction l; cbn [spi_write_bytes]; drive_auto. Qed.
Hint Resolve powered_read_bytes powered_write_bytes : drive.

Lemma powered_read addr n : powered (si443x_read addr n).
Proof. unfold si443x_read. drive_auto. Qed.
Lemma powered_write addr l : powered (si433x_write addr l).
Proof. unfold si433x_write. drive_auto. Qed.
Hint Resolve powered_read powered_write : drive.

Lemma powered_read8 addr : powered (si443x_read8 addr).
Proof. unfold si443x_read8. drive_auto. Qed.
Lemma powered_read16 addr : powered (si443x_read16 addr).
Proof. unfold si443x_read16. drive_auto. Qed.
Lemma powered_write8 addr v : powered (si443x_write8 addr v).
Proof. unfold si443x_write8. drive_auto. Qed.
Lemma powered_write16 addr v : powered (si443x_write16 addr v).
Proof. unfold si443x_write16. drive_auto. Qed.
Hint Resolve powered_read8 powered_read16 powered_write8 powered_write16 : drive.

Lemma powered_init_block n l : powered (init_block n l).
Proof. revert l. induction n; intros l; cbn [init_block]; drive_auto. Qed.
Hint Resolve powered_init_block : drive.

Lemma powered_device_init : powered si443x_device_init.
Proof.
  unfold si443x_device_init. generalize phy_si443x_config at 2. induction (length _) as [|n IH]; intros l;
    cbn [device_init_loop]; drive_auto.
Qed.
Hint Resolve powered_device_init : drive.

Lemma powered_listen : powered phy_listen.
Proof. unfold phy_listen, SI443X_CLEAR_FIFOS, SI443X_MODE_RX. drive_auto. Qed.
Lemma powered_standby : powered phy_standby.
Proof. unfold phy_standby, SI443X_CLEAR_FIFOS, SI443X_MODE_STANDBY. drive_auto. Qed.
Lemma powered_delayed_standby us : powered (phy_delayed_standby us).
Proof. unfold phy_delayed_standby. drive_auto. Qed.
Hint Resolve powered_listen powered_standby : drive.

Lemma powered_event_handler fuel : powered (si443x_event_handler fuel).
Proof.
  induction fuel; cbn [si443x_event_handler]; unfold SI443X_STATUS, handle_status; drive_auto.
Qed.
Hint Resolve powered_event_handler : drive.

Lemma powered_poll_reset fuel : powered (poll_reset fuel).
Proof. induction fuel; cbn [poll_reset]; drive_auto. Qed.
Hint Resolve powered_poll_reset : drive.

Lemma powered_init fuel : powered (phy_init fuel).
Proof.
  unfold phy_init, phy_resume, SI443X_DEVICE_TYPE, SI443X_DEVICE_VERSION, SI443X_SWRESET. drive_auto.
Qed.

Lemma powered_phy_event_handler fuel : powered (phy_event_handler fuel).
Proof. unfold phy_event_handler. drive_auto. Qed.

Lemma powered_fill_fifo n bufs : powered (fill_fifo n bufs).
Proof. revert bufs. induction n; intros bufs; cbn [fill_fifo]; drive_auto. Qed.
Hint Resolve powered_fill_fifo : drive.

Lemma powered_tx_fill fuel n bufs b : powered (tx_fill fuel n bufs b).
Proof.
  revert n bufs b. induction fuel; intros n bufs b; cbn [tx_fill]; unfold SI443X_MODE_TX; drive_auto.
Qed.
Lemma powered_tx_complete fuel : powered (tx_complete fuel).
Proof. induction fuel; cbn [tx_complete]; drive_auto. Qed.
Hint Resolve powered_tx_fill powered_tx_complete : drive.

Lemma powered_send fuel bufs flags : powered (phy_send fuel bufs flags).
Proof. unfold phy_send, SI443X_CLEAR_TX_FIFO. drive_auto. Qed.

Lemma powered_register cb : powered (phy_register_recv_cb cb).
Proof. unfold phy_register_recv_cb. drive_auto. Qed.
End Io.
