(* ===== verification/Si443xLive.v ===== *)
(** * The Si443x driver with a chip behind the bus

    The driver's register functions return what the chip answers
    ([slave_read16] and its kin).  [transmitter] states how a chip that
    transmits behaves towards the driver; with such a chip [phy_send] returns,
    within a bound.  The same function never returns when a packet is received
    while it fills the FIFO. *)

From stdpp Require Import base list numbers.
From Stdlib Require Import ZArith Lia.
From S2P Require Import Prelude Si443xRegs Si443x Si443xBus Si443xSpec Si443xProps.
Local Open Scope drv_scope.

(** ** Register access to a chip *)

Section Slave.
Context (c : Chip) {B : Prop}.
#[local] Existing Instance spi_slave.

Definition chip_bytes (l : list access) (addr : Z) (n : nat) : list Z :=
  map (fun i => u8 (chip_read l addr i)) (seq 0 n).

Lemma slave_miso w0 hd i l w o :
  opened w0 ((hd, i) :: l) w -> spi_miso (hist w) o = chip_read (log w0) (Z.land hd 0x7f) (length l).
Proof. intros [H1 _ H3 _ _ _]. cbn. by rewrite H1, H3. Qed.

Lemma slave_read_bytes n w0 hd i l w Q :
  opened w0 ((hd, i) :: l) w ->
  (forall data w', data = map (fun j => u8 (chip_read (log w0) (Z.land hd 0x7f) j)) (seq (length l) n) ->
     opened w0 ((hd, i) :: l ++ map (pair 0) data) w' -> Q data w') ->
  wpb B (spi_read_bytes n) Q w.
Proof.
  revert l w Q. induction n as [|n IH]; intros l w Q Hw HQ; cbn [spi_read_bytes].
  { apply wp_ret, HQ; [done|]. by rewrite app_nil_r. }
  apply wp_bind. unfold SPI_IO, wpb at 1. rewrite (slave_miso _ _ _ _ _ _ Hw).
  set (v := u8 _). apply wp_bind. eapply (IH (l ++ [(0, v)])).
  { apply (opened_io _ ((hd, i) :: l)); [exact Hw|widths; lia]. }
  intros data w' -> Hop. apply wp_ret, HQ.
  - cbn [seq map]. f_equal. rewrite length_app, Nat.add_comm. done.
  - rewrite <- app_assoc in Hop. exact Hop.
Qed.

Lemma slave_read addr size Q w :
  idle w ->
  (forall data w', data = chip_bytes (log w) (Z.land addr 0x7f) (Z.to_nat (u8 size)) ->
     moved w [RdReg (Z.land addr 0x7f) data] w' -> Q data w') ->
  wpb B (si443x_read addr size) Q w.
Proof.
  intros Hi HQ. destruct (read_header addr) as [Hb Hdec]. unfold si443x_read.
  apply wp_bind. unfold wpb at 1, perform. apply wp_bind, wp_io. intros i _.
  apply wp_bind. eapply (slave_read_bytes _ _ _ i []); [apply (opened_io _ []); [by apply opened_select|exact Hb]|].
  intros data w' Hd Hop. apply wp_bind. unfold wpb at 1, perform. apply wp_ret, HQ.
  - rewrite Hd. unfold chip_bytes. apply map_ext. intros j.
    change (Z.lor READ (Z.land addr 127)) with (Z.land addr 127). by rewrite !land_7f, Z.mod_mod.
  - apply opened_deselect in Hop. rewrite Hdec in Hop. cbn [app] in Hop.
    by rewrite map_map, map_id in Hop.
Qed.

(** The interrupt status the chip presents. *)
Definition chip_status (l : list access) : Z :=
  be16 (u8 (chip_read l R_INT_STATUS 0)) (u8 (chip_read l R_INT_STATUS 1)).
Definition status_read (l : list access) : access :=
  RdReg R_INT_STATUS [u8 (chip_read l R_INT_STATUS 0); u8 (chip_read l R_INT_STATUS 1)].

Lemma slave_status Q w :
  idle w -> (forall w', moved w [status_read (log w)] w' -> Q (chip_status (log w)) w') ->
  wpb B SI443X_STATUS Q w.
Proof.
  intros Hi HQ. unfold SI443X_STATUS, si443x_read16. apply wp_bind, slave_read; [done|].
  intros data w' -> Hm. change (Z.to_nat (u8 2)) with 2%nat in *. cbn [chip_bytes seq map] in *.
  apply wp_ret. cbn [le_val]. rewrite Z.mul_0_r, Z.add_0_r, swap_bytes by apply u8_range.
  rewrite Z.add_comm. by apply HQ.
Qed.

Lemma slave_irq Q w :
  idle w -> (forall w', moved w [] w' -> Q (chip_irq (log w)) w') -> wpb B INP_nIRQ Q w.
Proof.
  intros Hi HQ. apply wp_irq. intros b ->. rewrite slave_level by done. by apply HQ, moved_irq.
Qed.
End Slave.

(** ** A chip that transmits *)

(** No packet sent has been reported. *)
Definition live (l : list access) : bool := forallb (fun s => negb (s &? IPKSENT)) (statuses l).

(** No receive, FIFO error or wake-up interrupt. *)
Definition tx_only (s : Z) : bool :=
  negb (s &? IRXFFAFULL) && negb (s &? IPKVALID) && negb (s &? ICRCERROR) &&
  negb (s &? IFFERR) && negb (s &? IWUT).

(** How the chip behaves while a packet of [total] bytes, announced in the
    length register, is loaded and sent, [l0] being the accesses before the
    call of [phy_send] and [l] those since.
    [mu] bounds the waits and interrupts until the next thing the driver waits
    for: [M] at most. *)
Record transmitter (c : Chip) (l0 : list access) (total M : nat) (mu : list access -> nat) : Prop := {
  tr_bound : forall l, (mu l <= M)%nat;
  (** While the transmitter is on, time brings the next interrupt nearer ... *)
  tr_wait : forall l, tx_lengths l = [Z.of_nat total] -> live l = true -> tx_starts l = 1%nat -> chip_irq (l0 ++ l) = true ->
    (mu (l ++ [Waited]) < mu l)%nat;
  (** ... and an interrupt stays until the status is read. *)
  tr_latch : forall l, tx_lengths l = [Z.of_nat total] -> live l = true -> tx_starts l = 1%nat -> chip_irq (l0 ++ l) = false ->
    chip_irq (l0 ++ l ++ [Waited]) = false /\ (mu (l ++ [Waited]) <= mu l)%nat;
  (** An interrupt concerns the transmission; it reports the end of the packet
      only when the whole packet was loaded, and then or when it asks for more
      data the interrupt line is released by reading the status; any other
      interrupt is one of finitely many. *)
  tr_status : forall l, tx_lengths l = [Z.of_nat total] -> live l = true -> chip_irq (l0 ++ l) = false ->
    let s := chip_status c (l0 ++ l) in
    let l' := l ++ [status_read c (l0 ++ l)] in
    tx_only s = true /\
    if s &? IPKSENT
    then (total <= length (fifo_data l))%nat /\ tx_starts l = 1%nat /\ chip_irq (l0 ++ l') = true
    else ((s &? ITXFFAEM) = true /\ (length (fifo_data l) < total)%nat /\ chip_irq (l0 ++ l') = true)
         \/ (mu l' < mu l)%nat
}.

(** C14: the SPI transactions realise register access: with a chip behind the
    bus, [si443x_read] returns the bytes the chip has at that address and the
    chip sees one burst read, [si433x_write] makes one burst write of exactly
    its bytes, and the sixteen-bit functions transfer the most significant byte
    first, so that what [si443x_write16] sends is what [si443x_read16] would
    read back. *)
Theorem spi_refines_registers (c : Chip) addr size data v w :
  idle w -> 0 <= addr < 128 -> bytes data -> is_u16 v ->
  (exists w', @si443x_read (spi_slave c) addr size w = Done (chip_bytes c (log w) addr (Z.to_nat (u8 size))) w' /\
     log w' = log w ++ [RdReg addr (chip_bytes c (log w) addr (Z.to_nat (u8 size)))]) /\
  (exists w', @si433x_write (spi_slave c) addr data w = Done tt w' /\ log w' = log w ++ [WrReg addr data]) /\
  (exists hi lo w', @si443x_write16 (spi_slave c) addr v w = Done tt w' /\
     log w' = log w ++ [WrReg addr [hi; lo]] /\ be16 hi lo = v /\
     (chip_bytes c (log w) addr 2 = [hi; lo] ->
      exists w'', @si443x_read16 (spi_slave c) addr w = Done v w'')).
Proof.
  intros Hi Ha Hd Hv. assert (E : Z.land addr 0x7f = addr) by (rewrite land_7f; by apply Z.mod_small).
  assert (Hbe : be16 (u16 v / 256) (u16 v mod 256) = v).
  { rewrite u16_id by done. unfold be16. symmetry. by apply Z.div_mod. }
  split_and!.
  - pose proof (slave_read c (B := False) addr size (fun d w' =>
      d = chip_bytes c (log w) addr (Z.to_nat (u8 size)) /\ log w' = log w ++ [RdReg addr d]) w Hi) as H.
    rewrite E in H. apply twp_done in H as (d & w' & ? & -> & ?); [eauto|]. by intros d w' -> [].
  - pose proof (@wp_write (spi_slave c) False addr data (fun _ w' => log w' = log w ++ [WrReg addr data]) w Hi Hd) as H.
    rewrite E in H. apply twp_done in H as ([] & w' & ? & ?); [eauto|]. by intros w' [].
  - pose proof (@wp_write16 (spi_slave c) False addr v (fun _ w' =>
      log w' = log w ++ [WrReg addr [u16 v / 256; u16 v mod 256]]) w Hi) as H.
    rewrite E in H. apply twp_done in H as ([] & w' & Hrun & Hlog); [|by intros w' []].
    exists (u16 v / 256), (u16 v mod 256), w'. split_and!; [done..|]. intros Hc.
    assert (Hr : twp (@si443x_read16 (spi_slave c) addr) (fun r _ => r = v) w).
    { apply wp_bind, slave_read; [done|]. rewrite E. change (Z.to_nat (u8 2)) with 2%nat. rewrite Hc.
      intros d w1 -> _. apply wp_ret. cbn [le_val]. rewrite Z.mul_0_r, Z.add_0_r, swap_bytes.
      - rewrite Z.add_comm. exact Hbe.
      - widths. Z.div_mod_to_equations. lia.
      - widths. apply Z.mod_pos_bound. lia. }
    apply twp_done in Hr as (r & w'' & ? & ->). eauto.
Qed.

Definition sending (st : si443x_state_t) : Prop := st = stateTx \/ st = stateTxBusy.

Section Session.
Context (c : Chip) (l0 : list access) (total M : nat) (mu : list access -> nat).
Context (Htr : transmitter c l0 total M mu).
#[local] Existing Instance spi_slave.

(** In the middle of a transmission: [l] is what has been done. *)
Record session (l : list access) (w : radio) : Prop := {
  se_idle : idle w;
  se_log : log w = l0 ++ l;
  se_len : tx_lengths l = [Z.of_nat total];
  se_live : live l = true;
  se_state : sending (phy_si443x_state w)
}.

(** At its end. *)
Record finished (l : list access) (w : radio) : Prop := {
  fi_idle : idle w;
  fi_log : log w = l0 ++ l;
  fi_state : phy_si443x_state w = stateStandby;
  fi_fifo : (total <= length (fifo_data l))%nat;
  fi_start : tx_starts l = 1%nat
}.

Lemma live_app l1 l2 : live (l1 ++ l2) = live l1 && live l2.
Proof. unfold live. by rewrite statuses_app, forallb_app. Qed.

Lemma live_status l : live [status_read c l] = negb (chip_status c l &? IPKSENT).
Proof. unfold live. cbn. by rewrite andb_true_r. Qed.

Lemma next_tx_only s st :
  sending st -> tx_only s = true ->
  status_next s st =
  if s &? IPKSENT then stateStandby else if s &? ITXFFAEM then stateTx
  else if s &? ITXFFAFULL then stateTxBusy else st.
Proof.
  unfold tx_only, status_next. intros Hst H. boolify.
  repeat match goal with H : (s &? _) = false |- _ => rewrite H; clear H end.
  rewrite bool_decide_false; [done|]. by destruct Hst as [-> | ->].
Qed.

(** One status word. *)
Lemma session_status {B : Prop} l w Q :
  session l w -> chip_irq (log w) = false ->
  (forall w', let l' := l ++ [status_read c (log w)] in
     idle w' -> log w' = l0 ++ l' ->
     phy_si443x_state w' = status_next (chip_status c (log w)) (phy_si443x_state w) -> Q tt w') ->
  wpb B (status <- SI443X_STATUS ;; handle_status status) Q w.
Proof.
  intros [Hi Hl Hln Hlv Hst] Hirq HQ. rewrite Hl in Hirq.
  destruct (tr_status _ _ _ _ _ Htr l Hln Hlv Hirq) as [Htx _].
  apply wp_bind, slave_status; [done|]. intros w1 H1.
  assert (Es : phy_si443x_state w1 = phy_si443x_state w) by apply H1.
  unfold chip_status. apply wp_handle_status; [apply H1|]. intros r w2 H2 Hs2 _.
  fold (chip_status c (log w)) in *. rewrite <- Hl in Htx.
  unfold tx_only in Htx. boolify.
  rewrite Es, bool_decide_false in H2 by (by destruct Hst as [-> | ->]).
  match goal with H : (_ &? IWUT) = false |- _ => rewrite H in H2 end.
  cbn [andb app] in H2. apply HQ; [apply H2| |by rewrite Hs2, Es].
  rewrite (wt_log _ _ _ H2), app_nil_r, (mv_log _ _ _ H1), Hl. by rewrite app_assoc.
Qed.

(** Where the handler can leave a transmission. *)
Definition served (irq : bool) (l : list access) (w : radio) : Prop :=
  exists l', neutral l' /\
    (finished (l ++ l') w \/
     session (l ++ l') w /\
     ((phy_si443x_state w = stateTx /\ (length (fifo_data l) < total)%nat) \/
      (mu (l ++ l') <= mu l)%nat /\ (irq = false -> (mu (l ++ l') < mu l)%nat))).

Lemma neutral_status l : neutral [status_read c l].
Proof. done. Qed.

Lemma neutral_fifo l l' : neutral l' -> fifo_data (l ++ l') = fifo_data l.
Proof. intros []. rewrite fifo_data_app. by rewrite ne_fifo, app_nil_r. Qed.
Lemma neutral_starts l l' : neutral l' -> tx_starts (l ++ l') = tx_starts l.
Proof. intros []. rewrite tx_starts_app. by rewrite ne_start, Nat.add_0_r. Qed.

Lemma handler_unfold fuel : si443x_event_handler (S fuel) =
  (irq <- INP_nIRQ ;; if (irq : bool) then dret tt else
   status <- SI443X_STATUS ;; handle_status status ;; si443x_event_handler fuel).
Proof. done. Qed.

(** A released interrupt line ends the handler. *)
Lemma handler_quiet {B : Prop} fuel w Q :
  idle w -> chip_irq (log w) = true -> (0 < fuel)%nat ->
  (forall w', moved w [] w' -> Q tt w') -> wpb B (si443x_event_handler fuel) Q w.
Proof.
  intros Hi Hq Hf HQ. destruct fuel as [|fuel]; [lia|]. rewrite handler_unfold.
  apply wp_bind, slave_irq; [done|]. intros w' H. rewrite Hq. apply wp_ret. by apply HQ.
Qed.

Lemma wp_assoc {B : Prop} {A C E} (m : D A) (k : A -> D C) (k' : C -> D E) Q w :
  wpb B (x <- m ;; k x) (fun a w' => wpb B (k' a) Q w') w ->
  wpb B (x <- m ;; y <- k x ;; k' y) Q w.
Proof. unfold wpb, dbind. destruct (m w); [|done..]. by destruct (k _ _). Qed.

Lemma served_cons irq a l w :
  neutral [a] -> (mu (l ++ [a]) < mu l)%nat -> forall irq', served irq' (l ++ [a]) w -> served irq l w.
Proof.
  intros Ha Hmu irq' (l' & Hn & H). exists ([a] ++ l'). rewrite app_assoc.
  split; [by apply neutral_app|]. destruct H as [H|[H Hc]]; [by left|right; split; [done|]].
  rewrite neutral_fifo in Hc by done. destruct Hc as [|[? _]]; [by left|right]. lia.
Qed.

Lemma handler_served fuel l w :
  session l w -> (mu l + 2 <= fuel)%nat ->
  twp (si443x_event_handler fuel) (fun _ w' => served (chip_irq (log w)) l w') w.
Proof.
  revert l w. induction fuel as [|fuel IH]; intros l w Hs Hf; [lia|]. rewrite handler_unfold.
  destruct Hs as [Hi Hl Hln Hlv Hst]. apply wp_bind, slave_irq; [done|]. intros w1 H1.
  assert (L1 : log w1 = log w) by (by rewrite (mv_log _ _ _ H1), app_nil_r).
  assert (Hs1 : session l w1) by (split; [apply H1|congruence|done|done|by rewrite (mv_state _ _ _ H1)]).
  destruct (chip_irq (log w)) eqn:Eq.
  { apply wp_ret. exists []. rewrite app_nil_r. split; [done|]. right. split; [done|]. right. done. }
  apply wp_assoc, (session_status l); [done|by rewrite L1|]. intros w2 l2 Hi2 Hl2 Hst2.
  unfold l2 in Hl2. clear l2. rewrite L1 in Hl2, Hst2. rewrite Hl in *. set (l' := l ++ [status_read c (l0 ++ l)]) in *.
  destruct (tr_status _ _ _ _ _ Htr l Hln Hlv Eq) as [Htx Hcase]. fold l' in Hcase.
  rewrite (next_tx_only _ _ (se_state _ _ Hs1)) in Hst2 by done.
  assert (Hlv' : live l' = negb (chip_status c (l0 ++ l) &? IPKSENT)).
  { unfold l'. by rewrite live_app, Hlv, live_status. }
  pose proof (neutral_status (l0 ++ l)) as Hn.
  assert (Hln' : tx_lengths l' = [Z.of_nat total]).
  { unfold l'. by rewrite tx_lengths_app, Hln. }
  destruct (chip_status c (l0 ++ l) &? IPKSENT) eqn:Es.
  - destruct Hcase as (Ht & Hsx & Hq). apply handler_quiet; [done|by rewrite Hl2|lia|]. intros w3 H3.
    exists [status_read c (l0 ++ l)]. split; [done|]. left. fold l'.
    split; [apply H3|by rewrite (mv_log _ _ _ H3), app_nil_r|by rewrite (mv_state _ _ _ H3)|..].
    + unfold l'. by rewrite neutral_fifo.
    + unfold l'. by rewrite neutral_starts.
  - assert (Hst' : sending (phy_si443x_state w2)).
    { rewrite Hst2. destruct (_ &? ITXFFAEM); [by left|]. destruct (_ &? ITXFFAFULL); [by right|apply Hs1]. }
    destruct Hcase as [(Ha & Hlt & Hq)|Hmu].
    + apply handler_quiet; [done|by rewrite Hl2|lia|]. intros w3 H3.
      exists [status_read c (l0 ++ l)]. split; [done|]. right. fold l'. rewrite Ha in Hst2. split.
      * split; [apply H3|by rewrite (mv_log _ _ _ H3), app_nil_r|done|done|by rewrite (mv_state _ _ _ H3)].
      * left. by rewrite (mv_state _ _ _ H3).
    + eapply wp_mono; [apply (IH l'); [done|lia]|]. intros [] w3 H3.
      by eapply served_cons.
Qed.

(** *** Filling *)

(** The fuel the filling loop needs. *)
Definition fill_bound (size : nat) (st : si443x_state_t) (l : list access) : nat :=
  (size * (M + 2) + (if decide (st = stateTx) then 0 else mu l + 1) + M + 3)%nat.

Lemma session_moved l a l' w w' :
  session l w -> moved w l' w' -> live l' = true -> tx_lengths l' = [] -> a = l ++ l' -> session a w'.
Proof.
  intros [Hi Hl Hln Hlv Hst] H Hlv' Hln' ->.
  split; [apply H|by rewrite (mv_log _ _ _ H), Hl, app_assoc| | |by rewrite (mv_state _ _ _ H)].
  - by rewrite tx_lengths_app, Hln, Hln'.
  - by rewrite live_app, Hlv, Hlv'.
Qed.

(** A wait while the FIFO drains. *)
Lemma wait_progress l w :
  session l w -> tx_starts l = 1%nat ->
  (mu (l ++ [Waited]) <= mu l)%nat /\
  (chip_irq (l0 ++ l ++ [Waited]) = false \/ (mu (l ++ [Waited]) < mu l)%nat).
Proof.
  intros [_ _ Hln Hlv _] Hx. destruct (chip_irq (l0 ++ l)) eqn:E.
  - pose proof (tr_wait _ _ _ _ _ Htr l Hln Hlv Hx E). split; [lia|by right].
  - destruct (tr_latch _ _ _ _ _ Htr l Hln Hlv Hx E). split; [done|by left].
Qed.

(** The end of filling: everything is loaded and the transmitter on. *)
Definition loaded (w : radio) : Prop :=
  exists l, (session l w \/ finished l w) /\ tx_starts l = 1%nat /\ length (fifo_data l) = total.

Definition b2n (b : bool) : nat := if b then 1 else 0.

(** The second half of a pass of the filling loop: interrupts are served and
    the transmitter is switched on if need be. *)
Lemma serve_and_start fuel size (started : bool) l w (k : bool -> D unit) Q :
  session l w -> tx_starts l = b2n started -> (length (fifo_data l) + size = total)%nat ->
  (M + 2 <= fuel)%nat ->
  (forall l' w' start,
     session l' w' \/ (finished l' w' /\ size = O) ->
     tx_starts l' = b2n (started || start) -> fifo_data l' = fifo_data l ->
     (size = O \/ phy_si443x_state w' = stateTxBusy -> started || start = true) ->
     (size = O \/ started = false \/ phy_si443x_state w' = stateTx \/
       (mu l' <= mu l)%nat /\ (chip_irq (log w) = false -> (mu l' < mu l)%nat)) ->
     twp (k start) Q w') ->
  twp (si443x_event_handler fuel ;; st <- get_state ;;
       let start := negb started && (bool_decide (st = stateTxBusy) || (size =? 0)%nat) in
       dwhen start SI443X_MODE_TX ;; k start) Q w.
Proof.
  intros Hs Hx Htot Hf HQ. pose proof (tr_bound _ _ _ _ _ Htr l).
  apply wp_bind. eapply wp_mono; [apply (handler_served fuel l); [done|lia]|].
  intros [] w1 (l1 & Hn & H1). apply wp_bind, wp_get_state. cbv zeta.
  assert (Ef : fifo_data (l ++ l1) = fifo_data l) by (by apply neutral_fifo).
  assert (Ex : tx_starts (l ++ l1) = b2n started) by (by rewrite neutral_starts).
  destruct H1 as [Hfin|[Hs1 Hc]].
  - pose proof (fi_start _ _ Hfin) as Hst. rewrite Ex in Hst. destruct started; [|done].
    pose proof (fi_fifo _ _ Hfin) as Hff. rewrite Ef in Hff.
    assert (size = O) by lia. cbn [negb andb]. apply wp_bind, wp_ret, (HQ (l ++ l1)); auto.
  - set (start := negb started && _). apply wp_bind, wp_mode_tx; [apply Hs1|]. intros w2 H2.
    destruct (start_log_facts start) as (Hf2 & Hl2 & Hst2 & Hs2 & _).
    assert (Es : phy_si443x_state w2 = phy_si443x_state w1) by apply H2.
    apply (HQ ((l ++ l1) ++ start_log start)).
    + left. eapply session_moved; [exact Hs1|exact H2|unfold live; by rewrite Hst2|done|done].
    + rewrite tx_starts_app, Ex, Hs2. unfold start. by destruct started, (_ || _).
    + by rewrite fifo_data_app, Hf2, app_nil_r.
    + rewrite Es. unfold start. intros [-> | ->]; [rewrite orb_true_r|rewrite bool_decide_true by done];
        by destruct started.
    + destruct started; [|by auto]. unfold start in *. cbn [negb andb start_log]. rewrite app_nil_r, Es.
      destruct Hc as [[? _]|?]; auto.
Qed.

Lemma fill_returns fuel size bufs (started : bool) l w :
  session l w -> tx_starts l = b2n started ->
  (phy_si443x_state w = stateTxBusy -> started = true) ->
  (size <= length (concat bufs))%nat -> (length (fifo_data l) + size = total)%nat ->
  (fill_bound size (phy_si443x_state w) l <= fuel)%nat ->
  twp (tx_fill fuel size bufs started) (fun _ w' => loaded w') w.
Proof.
  revert size bufs started l w.
  induction fuel as [|fuel IH]; intros size bufs started l w Hs Hx Hb Hle Htot Hf;
    unfold fill_bound in Hf; [lia|]. cbn [tx_fill]. apply wp_bind, wp_get_state, wp_bind.
  destruct (decide (phy_si443x_state w = stateTx)) as [Est|Est].
  - apply wp_fill_block; [apply Hs|done|]. intros data size' bufs' w1 Hm Hd Hle' Hlt. cbn [fst snd].
    assert (Hlen : (length data + size' = size)%nat).
    { apply (f_equal length) in Hd. rewrite length_app, !length_map, !length_take in Hd. lia. }
    apply (serve_and_start fuel size' started (l ++ [WrReg R_FIFO data]) w1 (fun start =>
      if (size' =? 0)%nat then dret tt else tx_fill fuel size' bufs' (started || start)));
      [by eapply session_moved|..].
    + rewrite tx_starts_app, Hx. cbn. lia.
    + rewrite fifo_data_app, fifo_data_block, length_app. lia.
    + lia.
    + intros l2 w2 start H2 Hx2 Hf2 Hst2 _. rewrite fifo_data_app, fifo_data_block in Hf2.
      destruct (Nat.eqb_spec size' 0) as [E0|E0].
      * apply wp_ret. exists l2. rewrite Hx2, Hst2 by auto. split_and!; [tauto|done|].
        rewrite Hf2, length_app. lia.
      * destruct H2 as [H2|[_ ?]]; [|done]. eapply IH; [exact H2|done|auto|done|..].
        -- rewrite Hf2, length_app. lia.
        -- unfold fill_bound. pose proof (tr_bound _ _ _ _ _ Htr l2). destruct (decide _); nia.
  - assert (Ht : started = true) by (apply Hb; by destruct (se_state _ _ Hs)). subst started.
    destruct (wait_progress l w Hs Hx) as [Hmu Hmu'].
    apply wp_bind. eapply wp_perform; [apply Hs|reflexivity|]. intros w1 Hm. apply wp_ret. cbn [fst snd].
    assert (Hs1 : session (l ++ [Waited]) w1) by (by eapply session_moved).
    apply (serve_and_start fuel size true (l ++ [Waited]) w1 (fun start =>
      if (size =? 0)%nat then dret tt else tx_fill fuel size bufs (true || start))); [done|..].
    + by rewrite tx_starts_app, Hx.
    + rewrite fifo_data_app, length_app. cbn. lia.
    + lia.
    + intros l2 w2 start H2 Hx2 Hf2 Hst2 Hc. rewrite fifo_data_app, app_nil_r in Hf2.
      destruct (Nat.eqb_spec size 0) as [E0|E0].
      * apply wp_ret. exists l2. rewrite Hx2, Hst2 by auto. split_and!; [tauto|done|]. rewrite Hf2. lia.
      * destruct H2 as [H2|[_ ?]]; [|done].
        eapply IH; [exact H2|done|auto|done|rewrite Hf2; lia|].
        unfold fill_bound. destruct (decide (phy_si443x_state w2 = stateTx)); [lia|].
        destruct Hc as [?|[?|[?|[Hc1 Hc2]]]]; [done..|]. rewrite (se_log _ _ Hs1) in Hc2.
        destruct Hmu' as [Hq|?]; [specialize (Hc2 Hq)|]; lia.
Qed.

(** *** Completion *)

Lemma complete_returns fuel l w :
  session l w \/ finished l w -> tx_starts l = 1%nat -> length (fifo_data l) = total ->
  (mu l + M + 4 <= fuel)%nat ->
  twp (tx_complete fuel) (fun _ w' => idle w' /\ phy_si443x_state w' = stateStandby) w.
Proof.
  revert l w. induction fuel as [|fuel IH]; intros l w Hw Hx Htot Hf; [lia|]. cbn [tx_complete].
  apply wp_bind, wp_get_state. destruct (decide _) as [E|E].
  { apply wp_ret. split; [|done]. destruct Hw as [[] | []]; done. }
  destruct Hw as [Hs|Hfin]; [|by destruct Hfin]. destruct (wait_progress l w Hs Hx) as [Hmu Hmu'].
  apply wp_bind. eapply wp_perform; [apply Hs|reflexivity|]. intros w1 Hm.
  assert (Hs1 : session (l ++ [Waited]) w1) by (by eapply session_moved).
  pose proof (tr_bound _ _ _ _ _ Htr (l ++ [Waited])).
  apply wp_bind. eapply wp_mono; [apply (handler_served fuel (l ++ [Waited])); [done|lia]|].
  intros [] w2 (l2 & Hn & H2).
  assert (Ef : fifo_data ((l ++ [Waited]) ++ l2) = fifo_data l).
  { rewrite neutral_fifo by done. by rewrite fifo_data_app, app_nil_r. }
  assert (Ex : tx_starts ((l ++ [Waited]) ++ l2) = 1%nat).
  { rewrite neutral_starts by done. by rewrite tx_starts_app, Hx. }
  destruct H2 as [H2|[H2 Hc]].
  - destruct fuel as [|fuel]; [lia|]. cbn [tx_complete]. apply wp_bind, wp_get_state.
    destruct H2 as [? ? Est ? ?]. rewrite Est. apply wp_ret. done.
  - eapply IH; [left; exact H2|done|by rewrite Ef|]. destruct Hc as [[_ Hc]|[Hc1 Hc2]].
    + rewrite fifo_data_app, app_nil_r in Hc. lia.
    + rewrite (se_log _ _ Hs1) in Hc2. destruct Hmu' as [Hq|?]; [specialize (Hc2 Hq)|]; lia.
Qed.

End Session.

(** ** Theorems *)

(** The accesses that precede the data of a packet of [n] bytes. *)
Definition announce_log (n : nat) : list access :=
  [WrReg R_OP_CTRL2 [FFCLRTX]; WrReg R_OP_CTRL2 [0]; WrReg R_TX_LENGTH [Z.of_nat n]].

Section Send.
Context (c : Chip).
#[local] Existing Instance spi_slave.

(** A free radio: [phy_send] goes straight to the announcement. *)
Lemma send_free {B : Prop} fuel b bufs flags w Q :
  idle w -> phy_si443x_state w = stateStandby \/ phy_si443x_state w = stateListen ->
  chip_irq (log w) = true -> (0 < fuel)%nat ->
  let n := length (concat (b :: bufs)) in
  Z.of_nat n <= phy_get_mtu ->
  (forall w', idle w' -> log w' = log w ++ announce_log n -> phy_si443x_state w' = stateTx ->
     wpb B (tx_fill fuel n (b :: bufs) false ;; tx_complete fuel ;; phy_listen ;; dret 0) Q w') ->
  wpb B (phy_send fuel (b :: bufs) flags) Q w.
Proof.
  intros Hi Hst Hq Hf n Hmtu HQ. change phy_get_mtu with 62 in Hmtu. unfold phy_send.
  assert (Ht : total_size (b :: bufs) = Z.of_nat n) by (apply total_size_exact; fold n; lia).
  rewrite Ht, Nat2Z.id. apply wp_bind, handler_quiet; [done|done|done|]. intros w1 H1.
  apply wp_bind, wp_get_state. rewrite (mv_state _ _ _ H1).
  replace (state_val stateListen <? state_val (phy_si443x_state w)) with false
    by (by destruct Hst as [-> | ->]).
  apply wp_bind, wp_set_state, wp_bind, wp_bind. access; [apply H1|]. intros w2 H2.
  access. intros w3 H3. apply wp_bind. access. intros w4 H4. rewrite u8_id in H4 by (widths; lia).
  pose proof (moved_trans _ _ _ _ _ H2 (moved_trans _ _ _ _ _ H3 H4)) as H.
  apply HQ; [apply H| |by rewrite (mv_state _ _ _ H)].
  rewrite (mv_log _ _ _ H). change (log (with_state stateTx w1)) with (log w1).
  by rewrite (mv_log _ _ _ H1), app_nil_r.
Qed.

Lemma send_total M mu bufs flags w fuel :
  idle w -> phy_si443x_state w = stateStandby \/ phy_si443x_state w = stateListen ->
  chip_irq (log w) = true -> bufs <> [] -> Z.of_nat (length (concat bufs)) <= phy_get_mtu ->
  transmitter c (log w) (length (concat bufs)) M mu ->
  ((length (concat bufs) + 2) * (M + 2) + M + 3 <= fuel)%nat ->
  twp (phy_send fuel bufs flags) (fun rc _ => rc = 0) w.
Proof.
  intros Hi Hst Hq Hne Hmtu Htr Hf. destruct bufs as [|b bufs]; [done|].
  set (n := length (concat (b :: bufs))) in *.
  apply send_free; [done..|lia|done|]. fold n. intros w1 Hi1 Hl1 Hs1.
  assert (Hse : session (log w) n (announce_log n) w1) by (split; auto; by left).
  apply wp_bind. eapply wp_mono.
  { eapply (fill_returns c (log w) n M mu Htr); [exact Hse|done|by rewrite Hs1|done|done|].
    unfold fill_bound. rewrite decide_True by done. nia. }
  intros [] w2 (l2 & H2 & Hx2 & Hf2). apply wp_bind. eapply wp_mono.
  { eapply (complete_returns c (log w) n M mu Htr); [exact H2|done|done|].
    pose proof (tr_bound _ _ _ _ _ Htr l2). nia. }
  intros [] w3 [Hi3 _]. apply wp_bind, wp_listen; [done|]. intros. by apply wp_ret.
Qed.

Lemma send_returns M mu bufs flags w fuel :
  idle w -> phy_si443x_state w = stateStandby \/ phy_si443x_state w = stateListen ->
  chip_irq (log w) = true ->
  bufs <> [] -> bytes (concat bufs) -> Z.of_nat (length (concat bufs)) <= phy_get_mtu ->
  transmitter c (log w) (length (concat bufs)) M mu ->
  ((length (concat bufs) + 2) * (M + 2) + M + 3 <= fuel)%nat ->
  exists w', phy_send fuel bufs flags w = Done 0 w' /\ phy_si443x_state w' = stateListen /\
    exists l, log w' = log w ++ l /\ fifo_data l = concat bufs /\
      tx_lengths l = [Z.of_nat (length (concat bufs))] /\ tx_starts l = 1%nat.
Proof.
  intros Hi Hst Hq Hne Hb Hmtu Htr Hf.
  assert (Ht := send_total M mu bufs flags w fuel Hi Hst Hq Hne Hmtu Htr Hf).
  apply twp_done in Ht as (rc & w' & Hrun & ->). exists w'. split; [done|].
  destruct (radio_send_result fuel bufs flags w 0 w') as [[? _]|(_ & Hl & ev & body & Hlog & [] & ? & ? & ? & _)];
    try done. split; [done|]. eexists. split; [exact Hlog|]. autorewrite with radio.
  repeat match goal with H : _ _ = _ |- _ => rewrite H end.
  by rewrite !app_nil_r.
Qed.

(** C12: with a chip that transmits as [transmitter] says, a call of [phy_send]
    on a free radio returns 0, within a number of loop passes proportional to
    the packet's length, having announced the packet's length, loaded its
    bytes and switched the transmitter on once, and with the receiver on
    again - whatever the FIFO thresholds make of the loading. *)
Theorem radio_send_returns M mu bufs flags w fuel :
  idle w -> phy_si443x_state w = stateStandby \/ phy_si443x_state w = stateListen ->
  chip_irq (log w) = true ->
  bufs <> [] -> bytes (concat bufs) -> Z.of_nat (length (concat bufs)) <= phy_get_mtu ->
  transmitter c (log w) (length (concat bufs)) M mu ->
  ((length (concat bufs) + 2) * (M + 2) + M + 3 <= fuel)%nat ->
  exists w', phy_send fuel bufs flags w = Done 0 w' /\ phy_si443x_state w' = stateListen /\
    exists l, log w' = log w ++ l /\ fifo_data l = concat bufs /\
      tx_lengths l = [Z.of_nat (length (concat bufs))] /\ tx_starts l = 1%nat.
Proof. apply send_returns. Qed.

(** *** A reception during loading *)

(** With the interrupt line quiet and no transmit state, filling waits for ever. *)
Lemma fill_stalls L fuel size bufs j w :
  idle w -> log w = L ++ replicate j Waited ->
  (forall j, chip_irq (L ++ replicate j Waited) = true) ->
  phy_si443x_state w = stateRxValid -> size <> O ->
  wp (tx_fill fuel size bufs false) (fun _ _ => False) w.
Proof.
  intros Hi Hl Hq Hst Hsz. revert j w Hi Hl Hst.
  induction fuel as [|fuel IH]; intros j w Hi Hl Hst; [done|]. cbn [tx_fill].
  apply wp_bind, wp_get_state. rewrite Hst. cbn [decide]. apply wp_bind, wp_bind.
  eapply wp_perform; [done|reflexivity|]. intros w1 H1. apply wp_ret.
  assert (Hl1 : log w1 = L ++ replicate (S j) Waited).
  { rewrite (mv_log _ _ _ H1), Hl, <- app_assoc. f_equal. by rewrite <- replicate_cons_app. }
  destruct fuel as [|fuel]; [done|].
  apply wp_bind, handler_quiet; [apply H1|by rewrite Hl1|lia|]. intros w2 H2.
  apply wp_bind, wp_get_state. rewrite (mv_state _ _ _ H2), (mv_state _ _ _ H1), Hst. cbn [fst snd].
  rewrite (proj2 (Nat.eqb_neq size 0) Hsz). apply wp_bind, wp_ret.
  apply (IH (S j)); [apply H2|by rewrite (mv_log _ _ _ H2), app_nil_r|].
  by rewrite (mv_state _ _ _ H2), (mv_state _ _ _ H1).
Qed.

(** An interrupt after the first byte ends the first block there. *)
Lemma fill_first_byte {B : Prop} size b0 b rest w Q :
  idle w -> is_u8 b0 -> chip_irq (log w ++ [WrReg R_FIFO [b0]]) = false ->
  (forall w', moved w [WrReg R_FIFO [b0]] w' -> Q (size, b :: rest) w') ->
  wpb B (perform Select ;; SPI_IO (Z.lor R_FIFO WRITE) ;;
         left <- fill_fifo (S size) ((b0 :: b) :: rest) ;; perform Deselect ;; dret left) Q w.
Proof.
  intros Hi Hb0 Hq HQ. change (Z.lor R_FIFO WRITE) with (Z.lor WRITE R_FIFO).
  destruct (write_header R_FIFO) as [Hb Hdec]; [unfold R_FIFO; lia|].
  apply wp_bind. unfold wpb at 1, perform at 1. apply wp_bind, wp_io. intros i _.
  apply wp_bind. cbn [fill_fifo next_byte]. apply wp_bind, wp_io. intros i' _. rewrite u8_id by done.
  assert (Ho : opened w [(Z.lor WRITE R_FIFO, i); (b0, i')]
    (add_io (SpiIo b0 i') (add_io (SpiIo (Z.lor WRITE R_FIFO) i) (add_io Select w)))).
  { apply (opened_io _ [_]); [|done]. apply (opened_io _ []); [by apply opened_select|done]. }
  apply wp_bind, wp_irq. intros lv Hlv. apply (opened_irq _ _ _ lv) in Ho as Ho'.
  assert (lv = false) as ->.
  { rewrite Hlv. cbn [irq_level spi_slave]. unfold bus_seen.
    by rewrite (op_log _ _ _ Ho), (op_open _ _ _ Ho), Hdec. }
  apply wp_ret, wp_bind. unfold wpb at 1, perform. apply wp_ret, HQ.
  apply opened_deselect in Ho'. by rewrite Hdec in Ho'.
Qed.

(** One status word, from any state. *)
Lemma handler_one {B : Prop} fuel w Q :
  idle w -> chip_irq (log w) = false -> (chip_status c (log w) &? IWUT) = false ->
  phy_si443x_state w <> stateListen ->
  chip_irq (log w ++ [status_read c (log w)]) = true -> (1 < fuel)%nat ->
  (forall w', went w [status_read c (log w)] w' ->
     phy_si443x_state w' = status_next (chip_status c (log w)) (phy_si443x_state w) -> Q tt w') ->
  wpb B (si443x_event_handler fuel) Q w.
Proof.
  intros Hi Hq Hw Hst Hq' Hf HQ. destruct fuel as [|fuel]; [lia|]. rewrite handler_unfold.
  apply wp_bind, slave_irq; [done|]. intros w1 H1. rewrite Hq.
  assert (L1 : log w1 = log w) by (by rewrite (mv_log _ _ _ H1), app_nil_r).
  apply wp_bind, slave_status; [apply H1|]. rewrite L1. intros w2 H2.
  assert (E2 : phy_si443x_state w2 = phy_si443x_state w)
    by (by rewrite (mv_state _ _ _ H2), (mv_state _ _ _ H1)).
  apply wp_bind. unfold chip_status. apply wp_handle_status; [apply H2|]. intros r w3 H3 Hs3 _.
  fold (chip_status c (log w)) in *. rewrite E2, bool_decide_false, Hw in H3 by done. cbn [andb app] in H3.
  assert (H : went w [status_read c (log w)] w3).
  { pose proof (went_trans _ _ _ _ _ (moved_went _ _ _ H1) (went_trans _ _ _ _ _ (moved_went _ _ _ H2) H3)) as H.
    exact H. }
  apply handler_quiet; [apply H|by rewrite (wt_log _ _ _ H)|lia|]. intros w4 H4. apply HQ.
  - pose proof (went_trans _ _ _ _ _ H (moved_went _ _ _ H4)) as H'. exact H'.
  - by rewrite (mv_state _ _ _ H4), Hs3, E2.
Qed.

(** C38: a packet received while [phy_send] is loading the FIFO stops it for
    ever.  The receiver is on until the transmitter is started; if the chip
    reports a valid packet after the first byte was loaded, the driver enters
    the state of a received packet, in which the loading loop only waits for an
    event.  If none comes - and with the packet unread and the transmitter off
    there is nothing left for the chip to report - the call does not return,
    however long it runs. *)
Theorem reception_stalls_send b0 b rest flags w fuel :
  idle w -> phy_si443x_state w = stateStandby \/ phy_si443x_state w = stateListen ->
  let n := length (concat ((b0 :: b) :: rest)) in
  let L := (log w ++ announce_log n) ++ [WrReg R_FIFO [b0]] in
  is_u8 b0 -> (1 < n)%nat -> Z.of_nat n <= phy_get_mtu ->
  chip_irq (log w) = true -> chip_irq L = false ->
  chip_status c L = IPKVALID ->
  (forall j, chip_irq ((L ++ [status_read c L]) ++ replicate j Waited) = true) ->
  phy_send fuel ((b0 :: b) :: rest) flags w = Blocked.
Proof.
  intros Hi Hst n L Hb0 Hn Hmtu Hq HqL Hs Hquiet.
  assert (H : wp (phy_send fuel ((b0 :: b) :: rest) flags) (fun _ _ => False) w).
  2:{ unfold wpb in H. by destruct (phy_send _ _ _ _). }
  destruct fuel as [|fuel]; [done|].
  apply send_free; [done|done|done|lia|done|]. fold n. intros w1 Hi1 Hl1 Hst1.
  apply wp_bind. eapply (wp_mono _ (fun _ _ => False)); [|done].
  cbn [tx_fill]. apply wp_bind, wp_get_state. rewrite decide_True by done.
  destruct n as [|n'] eqn:En; [lia|]. apply wp_bind, fill_first_byte; [done|done|by rewrite Hl1|].
  intros w2 H2. assert (L2 : log w2 = L) by (by rewrite (mv_log _ _ _ H2), Hl1).
  pose proof (Hquiet O) as Hq0. cbn [replicate] in Hq0. rewrite app_nil_r in Hq0.
  destruct fuel as [|[|fuel]]; [done| |].
  { apply wp_bind. rewrite handler_unfold. apply wp_bind, slave_irq; [apply H2|]. intros w3 H3.
    rewrite L2, HqL. apply wp_bind, slave_status; [apply H3|]. intros w4 H4. apply wp_bind.
    unfold chip_status. apply wp_handle_status; [apply H4|]. done. }
  apply wp_bind, handler_one; rewrite ?L2; [apply H2|done|by rewrite Hs| |done|lia|].
  { by rewrite (mv_state _ _ _ H2), Hst1. }
  rewrite (mv_state _ _ _ H2), Hst1, Hs. intros w3 H3 Hst3. change (status_next IPKVALID stateTx) with stateRxValid in Hst3.
  apply wp_bind, wp_get_state. rewrite Hst3. cbn [fst snd].
  destruct (Nat.eqb_spec n' 0); [lia|]. apply wp_bind, wp_ret.
  eapply (fill_stalls (L ++ [status_read c L]) _ _ _ O); [apply H3| |done|done|done].
  by rewrite (wt_log _ _ _ H3), L2, app_nil_r.
Qed.
End Send.

(** *** A chip *)

Definition last_waited (l : list access) : bool :=
  match list.last l with Some Waited => true | _ => false end.

Definition no_status (l : list access) : bool := match statuses l with [] => true | _ => false end.

(** The length announced last. *)
Definition announced (l : list access) : nat := Z.to_nat (default 0 (list.last (tx_lengths l))).

(** A FIFO that reports once that it is almost full, and a transmitter that
    needs one wait: then it asks for the rest of the packet, or reports that it
    was sent. *)
Definition demo_status (l : list access) : Z :=
  if (tx_starts l =? 1)%nat
  then (if (announced l <=? length (fifo_data l))%nat then IPKSENT else ITXFFAEM)
  else ITXFFAFULL.

Definition demo_chip : Chip := {|
  chip_irq l := negb (live l && (if (tx_starts l =? 1)%nat then last_waited l
    else (Z.to_nat TX_WAIT_THRESH <=? length (fifo_data l))%nat && no_status l));
  chip_read l addr i :=
    if addr =? R_INT_STATUS
    then (if (i =? 0)%nat then demo_status l / 256 else demo_status l mod 256) else 0
|}.

Definition demo_mu (l : list access) : nat :=
  if (tx_starts l =? 1)%nat then (if last_waited l then 0 else 1) else (if no_status l then 1 else 0).

Lemma demo_chip_status l : chip_status demo_chip l = demo_status l.
Proof.
  unfold chip_status, chip_read, demo_chip, demo_status.
  destruct (_ =? 1)%nat; [destruct (_ <=? _)%nat|]; reflexivity.
Qed.

Lemma last_waited_snoc l a : last_waited (l ++ [a]) = match a with Waited => true | _ => false end.
Proof. unfold last_waited. by rewrite last_snoc. Qed.

Lemma no_status_snoc l hi lo : no_status (l ++ [RdReg R_INT_STATUS [hi; lo]]) = false.
Proof. unfold no_status. rewrite statuses_app. by destruct (statuses l). Qed.

Lemma demo_transmits n : transmitter demo_chip [] n 1 demo_mu.
Proof.
  split; cbn [app]; unfold demo_mu.
  - intros l. destruct (_ =? 1)%nat, (last_waited l), (no_status l); lia.
  - intros l _ Hlv Hx. unfold chip_irq, demo_chip.
    rewrite tx_starts_app, Hx, Hlv, last_waited_snoc. cbn. destruct (last_waited l); [done|lia].
  - intros l _ Hlv Hx. unfold chip_irq, demo_chip.
    rewrite live_app, tx_starts_app, Hx, Hlv, last_waited_snoc. cbn.
    destruct (last_waited l); [|done]. split; [done|lia].
  - intros l Hln Hlv. rewrite demo_chip_status. set (a := status_read _ l).
    assert (Ha : live [a] = negb (demo_status l &? IPKSENT)).
    { unfold a. by rewrite live_status, demo_chip_status. }
    unfold chip_irq, demo_chip. rewrite live_app, Ha, Hlv, tx_starts_app, last_waited_snoc.
    cbn [tx_starts modes map concat length List.filter a status_read app]. rewrite Nat.add_0_r.
    unfold demo_status, announced. rewrite Hln.
    change (default 0 (list.last [Z.of_nat n])) with (Z.of_nat n). rewrite Nat2Z.id.
    destruct (Nat.eqb_spec (tx_starts l) 1) as [Hx|Hx].
    + intros _. destruct (Nat.leb_spec n (length (fifo_data l))); (split; [reflexivity|]).
      * change (IPKSENT &? IPKSENT) with true. cbn [negb andb]. auto.
      * change (ITXFFAEM &? IPKSENT) with false. left. split; [reflexivity|].
        split; [done|]. by rewrite andb_false_r.
    + intros Hq. split; [done|]. change (ITXFFAFULL &? IPKSENT) with false. right.
      unfold a, status_read. rewrite no_status_snoc.
      destruct (no_status l); [lia|]. rewrite andb_false_r in Hq. done.
Qed.

(** A chip that receives a packet while the FIFO is loaded. *)
Definition receiving_chip : Chip := {|
  chip_irq l := negb (no_status l && negb (bool_decide (fifo_data l = [])));
  chip_read l addr i := if (addr =? R_INT_STATUS) && (i =? 0)%nat then IPKVALID / 256 else 0
|}.

(** ** Witnesses *)

Definition sixty : list (list Z) := [replicate 20 7; []; replicate 40 9].

Lemma radio_send_returns_witness :
  exists w', @phy_send (spi_slave demo_chip) 200 sixty 0 radio_zero = Done 0 w' /\
    phy_si443x_state w' = stateListen /\
    exists l, log w' = log radio_zero ++ l /\ fifo_data l = concat sixty /\
      tx_lengths l = [60] /\ tx_starts l = 1%nat.
Proof.
  apply (radio_send_returns demo_chip 1 demo_mu sixty 0 radio_zero 200).
  - by split.
  - by left.
  - reflexivity.
  - done.
  - unfold bytes. vm_compute. repeat constructor; congruence.
  - vm_compute. congruence.
  - apply demo_transmits.
  - vm_compute. lia.
Defined.

Lemma reception_stalls_send_witness :
  @phy_send (spi_slave receiving_chip) 100 [[1; 2]] 0 radio_zero = Blocked.
Proof.
  apply (reception_stalls_send receiving_chip 1 [2] [] 0 radio_zero 100).
  - by split.
  - by left.
  - split; lia.
  - simpl; lia.
  - vm_compute; congruence.
  - reflexivity.
  - reflexivity.
  - reflexivity.
  - intros j. cbn [chip_irq receiving_chip].
    assert (E : no_status ((((log radio_zero ++ announce_log (length (concat [[1; 2]]))) ++
      [WrReg R_FIFO [1]]) ++ [status_read receiving_chip
        ((log radio_zero ++ announce_log (length (concat [[1; 2]]))) ++ [WrReg R_FIFO [1]])]) ++
      replicate j Waited) = false).
    { unfold no_status. rewrite !statuses_app. reflexivity. }
    rewrite E. reflexivity.
Defined.

Lemma radio_send_pushes_packet_witness :
  exists w', @phy_send (spi_slave demo_chip) 200 sixty 0 radio_zero = Done 0 w' /\
  ((0 = -1 /\ state_val stateListen < state_val (phy_si443x_state w') /\
    exists l, log w' = log radio_zero ++ l /\ fifo_data l = [] /\ tx_lengths l = [] /\ tx_starts l = 0%nat) \/
   (0 = 0 /\ phy_si443x_state w' = stateListen /\
    exists ev body,
      log w' = log radio_zero ++ ev ++
        [WrReg R_OP_CTRL2 [FFCLRTX]; WrReg R_OP_CTRL2 [0]; WrReg R_TX_LENGTH [60]] ++ body ++ listen_log /\
      fifo_data ev = [] /\ tx_starts ev = 0%nat /\
      fifo_data body = concat sixty /\ tx_lengths body = [] /\ tx_starts body = 1%nat)).
Proof.
  destruct (@phy_send (spi_slave demo_chip) 200 sixty 0 radio_zero) as [rc w'| |] eqn:E;
    [|vm_compute in E; discriminate..].
  assert (rc = 0) as -> by (vm_compute in E; congruence).
  exists w'. split; [reflexivity|].
  refine (@radio_send_pushes_packet (spi_slave demo_chip) 200 sixty 0 radio_zero 0 w' _ _ _ _ E).
  - by split.
  - done.
  - unfold bytes. vm_compute. repeat constructor; congruence.
  - vm_compute. congruence.
Defined.

Lemma spi_refines_registers_witness :
  exists w', @si443x_read (spi_slave (status_chip IPKVALID)) R_FIFO 2 radio_zero = Done [5; 6] w' /\
    log w' = [RdReg R_FIFO [5; 6]].
Proof.
  assert (H : idle radio_zero) by (by split).
  destruct (spi_refines_registers (status_chip IPKVALID) R_FIFO 2 [1; 2] 0x1234 radio_zero H) as [Hr _].
  - unfold R_FIFO. lia.
  - repeat constructor; lia.
  - split; lia.
  - exact Hr.
Defined.
