(* ===== verification/Si443xLink.v ===== *)
(** * The MAC over the Si443x driver

    [receiver] is how a chip that has received a frame answers the driver,
    beside [transmitter] of [Si443xLive.v].  With such chips the packets of a
    MAC that is told the driver's MTU of 62 bytes are sent and received. *)

From stdpp Require Import base list numbers.
From Stdlib Require Import ZArith Lia.
From S2P Require Import Prelude Wire MacState Mac MacInv MacRun MacEx Phy MacSends.
From S2P Require Import Si443xRegs Si443x Si443xBus Si443xSpec Si443xProps Si443xLive.
Local Open Scope drv_scope.

(** ** A chip that has received a frame *)

(** A valid packet, and nothing that would override it. *)
Definition rx_valid_only (s : Z) : bool :=
  (s &? IPKVALID) && negb (s &? ICRCERROR) && negb (s &? IFFERR) && negb (s &? ITXFFAFULL) &&
  negb (s &? ITXFFAEM) && negb (s &? IPKSENT) && negb (s &? IWUT).

Record receiver (c : Chip) (d : list Z) (l0 : list access) : Prop := {
  rv_irq : chip_irq l0 = false;
  rv_status : rx_valid_only (chip_status c l0) = true;
  rv_quiet : forall l, statuses l <> [] -> chip_irq (l0 ++ l) = true;
  rv_length : forall l, chip_read (l0 ++ l) R_RX_LENGTH 0 = Z.of_nat (length d);
  rv_data : forall l i, (i < length d)%nat -> chip_read (l0 ++ l) R_FIFO i = nth i d 0
}.

Lemma next_rx_valid s st : rx_valid_only s = true -> status_next s st = stateRxValid.
Proof.
  unfold rx_valid_only, status_next. intros H. boolify.
  repeat match goal with H : (s &? _) = _ |- _ => rewrite H; clear H end. done.
Qed.

Section Receive.
Context (c : Chip) (d : list Z).
#[local] Existing Instance spi_slave.

Lemma handler_receives fuel w Q :
  idle w -> receiver c d (log w) -> (1 < fuel)%nat ->
  (forall l w', went w l w' -> statuses l <> [] -> phy_si443x_state w' = stateRxValid -> Q tt w') ->
  twp (si443x_event_handler fuel) Q w.
Proof.
  intros Hi Hr Hf HQ. destruct fuel as [|fuel]; [lia|]. rewrite handler_unfold.
  apply wp_bind, slave_irq; [done|]. intros w1 H1. rewrite (rv_irq _ _ _ Hr).
  assert (L1 : log w1 = log w) by (by rewrite (mv_log _ _ _ H1), app_nil_r).
  apply wp_bind, slave_status; [apply H1|]. rewrite L1. intros w2 H2.
  apply wp_bind. unfold chip_status. apply wp_handle_status; [apply H2|]. intros r w3 H3 Hs3 _.
  fold (chip_status c (log w)) in *. rewrite next_rx_valid in Hs3 by apply Hr.
  pose proof (went_trans _ _ _ _ _ (moved_went _ _ _ H1)
    (went_trans _ _ _ _ _ (moved_went _ _ _ H2) H3)) as H. cbn [app] in H.
  match type of H with went _ ?x _ => set (l := x) in * end.
  assert (Hst : statuses l <> []) by done.
  apply handler_quiet; [apply H|rewrite (wt_log _ _ _ H); by apply Hr|lia|]. intros w4 H4.
  apply (HQ l); [|done|by rewrite (mv_state _ _ _ H4)].
  rewrite <- (app_nil_r l). eapply went_trans; [exact H|by apply moved_went].
Qed.

Lemma receiver_bytes l0 l : receiver c d l0 -> bytes d -> chip_bytes c (l0 ++ l) R_FIFO (length d) = d.
Proof.
  intros Hr Hb. apply (nth_ext _ _ 0 0); unfold chip_bytes; rewrite length_map, length_seq; [done|].
  intros i Hi. rewrite (nth_indep _ 0 (u8 (chip_read (l0 ++ l) R_FIFO 0))) by (by rewrite length_map, length_seq).
  rewrite (map_nth (fun i => u8 (chip_read (l0 ++ l) R_FIFO i))), seq_nth by done. cbn [Nat.add].
  rewrite (rv_data _ _ _ Hr) by done. apply u8_id.
  unfold bytes in Hb. rewrite List.Forall_forall in Hb. by apply Hb, nth_In.
Qed.

Lemma event_handler_delivers fuel w :
  idle w -> phy_si443x_recv_cb w = true -> bytes d -> Z.of_nat (length d) <= MAX_PACKET ->
  receiver c d (log w) -> (1 < fuel)%nat ->
  twp (phy_event_handler fuel) (fun r w' =>
    r = Some (d, phy_si443x_rssi w') /\ phy_si443x_state w' = stateListen) w.
Proof.
  intros Hi Hcb Hb Hd Hr Hf. change MAX_PACKET with 64 in Hd. unfold phy_event_handler.
  apply wp_bind, handler_receives; [done..|]. intros l w1 H1 _ Hs1. apply wp_bind, wp_get_state. rewrite Hs1.
  apply wp_bind. unfold si443x_read8. apply wp_bind, slave_read; [apply H1|]. intros n w2 -> H2.
  change (Z.land R_RX_LENGTH 127) with R_RX_LENGTH in *. change (Z.to_nat (u8 1)) with 1%nat in *.
  cbn [chip_bytes seq map] in *. rewrite (wt_log _ _ _ H1), (rv_length _ _ _ Hr) in *.
  rewrite u8_id in * by (widths; lia). apply wp_ret. cbn [le_val]. rewrite Z.mul_0_r, Z.add_0_r.
  replace (MAX_PACKET <? Z.of_nat (length d)) with false by (symmetry; apply Z.ltb_ge; exact Hd).
  apply wp_bind, slave_read; [apply H2|]. intros p w3 -> H3.
  change (Z.land R_FIFO 127) with R_FIFO in *. rewrite u8_id, Nat2Z.id in * by (widths; lia).
  rewrite (mv_log _ _ _ H2), (wt_log _ _ _ H1), <- app_assoc, receiver_bytes in * by done.
  apply wp_bind, wp_listen; [apply H3|]. intros w4 H4 Hs4 _.
  assert (Ecb : phy_si443x_recv_cb w4 = true).
  { rewrite (wt_cb _ _ _ H4), (mv_cb _ _ _ H3), (mv_cb _ _ _ H2), (wt_cb _ _ _ H1). done. }
  apply wp_bind. unfold wpb at 1, get_recv_cb. apply wp_bind. unfold wpb at 1, get_rssi.
  apply wp_ret. by rewrite Ecb.
Qed.
End Receive.

(** ** The MAC's packets *)

(** A packet of a reachable history is one the driver takes. *)
Lemma sent_fits (E : Env) P w bufs flags :
  @phy_mtu E = phy_get_mtu -> @reachable E P w -> EvPhySend bufs flags ∈ MacState.log w ->
  bufs <> [] /\ bytes (concat bufs) /\ Z.of_nat (length (concat bufs)) <= phy_get_mtu.
Proof.
  intros Hm Hr Hin. apply reachable_fits in Hr as [_ _ _ _ _ Hl].
  rewrite list.Forall_forall in Hl. destruct (Hl _ Hin) as (Hne & Hb & Hlen).
  split_and!; [done|done|]. unfold max_frame in Hlen. rewrite Hm in Hlen.
  change phy_get_mtu with 62 in *. lia.
Qed.

(** ** Theorems *)

(** C17: a MAC whose driver is the Si443x driver - it is told the driver's MTU
    of 62 bytes - never transmits a packet the radio could not carry.  For
    every packet of every reachable history: whenever [phy_send] is called on a
    free radio (standby or listening) whose interrupt line is quiet and whose
    chip serves the transmission as [transmitter] says (no reception while the
    packet is loaded), it returns 0, within a number of loop passes proportional
    to the packet's length, having announced the packet's length, loaded exactly
    its bytes and started the transmitter once; from any other state and with
    any chip (the bus being idle, as every call leaves it), a [phy_send] that
    returns has either done the same or returned -1
    with nothing loaded and nothing started; and when a radio with a receive
    callback whose chip has received those bytes ([receiver]) is asked for
    events, it passes exactly the packet's bytes to the callback and listens
    again. *)
Theorem mac_over_si443x (E : Env) P w bufs flags :
  @phy_mtu E = phy_get_mtu -> @reachable E P w -> EvPhySend bufs flags ∈ MacState.log w ->
  let sent tx tx' := exists l, log tx' = log tx ++ l /\ fifo_data l = concat bufs /\
        tx_lengths l = [Z.of_nat (length (concat bufs))] /\ tx_starts l = 1%nat in
  (forall c M mu tx fuel, idle tx ->
     phy_si443x_state tx = stateStandby \/ phy_si443x_state tx = stateListen ->
     @chip_irq c (log tx) = true -> transmitter c (log tx) (length (concat bufs)) M mu ->
     ((length (concat bufs) + 2) * (M + 2) + M + 3 <= fuel)%nat ->
     exists tx', @phy_send (spi_slave c) fuel bufs flags tx = Done 0 tx' /\
       phy_si443x_state tx' = stateListen /\ sent tx tx') /\
  (forall (Pl : Platform) tx fuel rc tx', idle tx -> phy_send fuel bufs flags tx = Done rc tx' ->
     (rc = 0 /\ sent tx tx') \/
     (rc = -1 /\ exists l, log tx' = log tx ++ l /\ fifo_data l = [] /\ tx_starts l = 0%nat)) /\
  (forall c rx fuel, idle rx -> phy_si443x_recv_cb rx = true ->
     receiver c (concat bufs) (log rx) -> (1 < fuel)%nat ->
     exists rx', @phy_event_handler (spi_slave c) fuel rx =
         Done (Some (concat bufs, phy_si443x_rssi rx')) rx' /\
       phy_si443x_state rx' = stateListen).
Proof.
  intros Hm Hr Hin sent. destruct (sent_fits E P w bufs flags Hm Hr Hin) as (Hne & Hb & Hl).
  split_and!.
  - intros c M mu tx fuel Hi Hst Hq Htr Hf. by apply (send_returns c M mu bufs flags tx fuel).
  - intros Pl tx fuel rc tx' Hi Hrun.
    destruct (radio_send_result fuel bufs flags tx rc tx' Hi Hne Hb Hl Hrun)
      as [(-> & _ & l & Hlog & [])|(-> & _ & ev & body & Hlog & [] & ? & ? & ? & _)]; [right|left].
    + split; [done|]. by exists l.
    + split; [done|]. eexists. split; [exact Hlog|]. autorewrite with radio.
      repeat match goal with H : _ _ = _ |- _ => rewrite H end. by rewrite app_nil_r.
  - intros c rx fuel Hi Hcb Hrv Hf.
    assert (H := event_handler_delivers c (concat bufs) fuel rx Hi Hcb Hb).
    apply twp_done in H as (r & rx' & Hrun & -> & Hst); [|change phy_get_mtu with 62 in Hl; change MAX_PACKET with 64; lia|done|done].
    by exists rx'.
Qed.

(** ** An instance *)

Definition rx_chip (d : list Z) : Chip := {|
  chip_irq l := negb (no_status l);
  chip_read _ addr i :=
    if addr =? R_INT_STATUS then (if (i =? 0)%nat then IPKVALID / 256 else ISWDET)
    else if addr =? R_RX_LENGTH then Z.of_nat (length d)
    else if addr =? R_FIFO then nth i d 0 else 120
|}.

Lemma rx_chip_receives d : receiver (rx_chip d) d [].
Proof.
  split; try done. intros l Hl. cbn. unfold no_status. by destruct (statuses l).
Qed.

(** A client that has asked for a beacon. *)
Definition env62 : Env := {| phy_mtu := 62; phy_send_rc := fun _ => 0; app := fun _ => AppReturn |}.
Definition searching : world :=
  snd (@tinymac_tick_handler env62 (snd (@tinymac_init env62 client_params 10 20 7 world_zero))).

Lemma searching_reachable : @reachable env62 client_params searching.
Proof.
  eapply reach_step; [|apply step_tick]. apply reach_boot.
  vm_compute; repeat split; congruence.
Qed.

Definition request_bufs : list (list Z) :=
  [header_bytes (mk_header (type_code tinymacType_BeaconRequest) 0xff 0xff 0xff 21); []].

Lemma searching_sent : EvPhySend request_bufs 0 ∈ MacState.log searching.
Proof. apply (list_elem_of_lookup_2 _ 0). vm_compute. reflexivity. Qed.

(** The request leaves the demonstration chip, and arrives from a chip that has
    received it. *)
Lemma mac_over_si443x_witness :
  (exists tx', @phy_send (spi_slave demo_chip) 200 request_bufs 0 radio_zero = Done 0 tx' /\
     phy_si443x_state tx' = stateListen /\
     exists l, log tx' = log radio_zero ++ l /\ fifo_data l = concat request_bufs /\
       tx_lengths l = [Z.of_nat (length (concat request_bufs))] /\ tx_starts l = 1%nat) /\
  (exists rx', @phy_event_handler (spi_slave (rx_chip (concat request_bufs))) 2 listening =
      Done (Some (concat request_bufs, phy_si443x_rssi rx')) rx' /\
    phy_si443x_state rx' = stateListen).
Proof.
  destruct (mac_over_si443x env62 client_params searching request_bufs 0 eq_refl
    searching_reachable searching_sent) as (H1 & _ & H2). split.
  - apply (H1 demo_chip 1%nat demo_mu radio_zero 200%nat);
      [by split|by left|reflexivity|apply demo_transmits|vm_compute; lia].
  - apply (H2 (rx_chip (concat request_bufs)) listening 2%nat);
      [by split|reflexivity|apply rx_chip_receives|lia].
Defined.
