(* ===== verification/Board.v ===== *)
(** * The board of the sensor example
    ([examples/sensor/board.h], [examples/sensor/tinyhan_platform.h])

    The ports of the ATmega328 with the macros that read and change named pins,
    the pin assignment, the initial port values, and the platform macros of the
    Si443x driver as operations on the ports and the SPI peripheral.

    [board_run] drives the ports with a history of the driver: the select line
    is low exactly while the bus monitor sees a transaction, the shutdown line
    follows the power calls, and no other output moves. *)

From stdpp Require Import base list numbers.
From Stdlib Require Import ZArith Lia.
From S2P Require Import Prelude Si443xRegs Si443x Si443xBus.

(** ** Pins *)

Inductive port : Set := B | C | D.

#[export] Instance port_eq_dec : EqDecision port.
Proof. solve_decision. Defined.

(** [port,pin,sz] as the pin macros have it. *)
Record pin_id := mk_pin { pin_port : port; pin_no : Z; pin_sz : Z }.

Definition TRX_SDN : pin_id := mk_pin B 1 1.
Definition nTRX_SEL : pin_id := mk_pin B 2 1.
Definition TRX_MOSI : pin_id := mk_pin B 3 1.
Definition TRX_MISO : pin_id := mk_pin B 4 1.
Definition TRX_SCK : pin_id := mk_pin B 5 1.
Definition nTRX_IRQ : pin_id := mk_pin D 2 1.
Definition LED : pin_id := mk_pin D 7 1.

Definition ADC_MUX_VREF_1V1 : Z := 14.
Definition ADC_PRESCALER : Z := 6.

(** The output registers, the input levels and the data directions. *)
Record avr := mk_avr { PORT : port -> Z; PIN : port -> Z; DDR : port -> Z }.

Definition set_port (p : port) (v : Z) (r : avr) : avr :=
  mk_avr (fun q => if decide (q = p) then u8 v else PORT r q) (PIN r) (DDR r).

Definition MASK (id : pin_id) : Z := ((1 ≪ pin_sz id) - 1) ≪ pin_no id.
Definition INP (id : pin_id) (r : avr) : Z :=
  Z.land (PIN r (pin_port id) ≫ pin_no id) ((1 ≪ pin_sz id) - 1).
Definition OUTP (id : pin_id) (v : Z) (r : avr) : avr :=
  set_port (pin_port id)
    (Z.lor (Z.land (PORT r (pin_port id)) (Z.lnot (MASK id))) (Z.land (v ≪ pin_no id) (MASK id))) r.
Definition SETP (id : pin_id) (r : avr) : avr :=
  set_port (pin_port id) (Z.lor (PORT r (pin_port id)) (MASK id)) r.
Definition CLEARP (id : pin_id) (r : avr) : avr :=
  set_port (pin_port id) (Z.land (PORT r (pin_port id)) (Z.lnot (MASK id))) r.
Definition TOGGLEP (id : pin_id) (r : avr) : avr :=
  set_port (pin_port id) (Z.lxor (PORT r (pin_port id)) (MASK id)) r.

Definition TRX_OFF (r : avr) : avr := SETP TRX_SDN r.
Definition TRX_ON (r : avr) : avr := CLEARP TRX_SDN r.

(** ** Initial values *)

Definition PORT_INS (p : port) : Z :=
  match p with B => MASK TRX_MISO | C => 0 | D => MASK nTRX_IRQ end.
Definition PORT_PULLUP (p : port) : Z :=
  match p with B => MASK TRX_MISO | C => 0 | D => MASK nTRX_IRQ end.
Definition PORT_OUTS (p : port) : Z :=
  match p with
  | B => Z.lor (Z.lor (Z.lor (MASK TRX_SDN) (MASK nTRX_SEL)) (MASK TRX_MOSI)) (MASK TRX_SCK)
  | C => 0
  | D => MASK LED
  end.
Definition PORT_INITIAL (p : port) : Z :=
  match p with B => Z.lor (MASK TRX_SDN) (MASK nTRX_SEL) | C => 0 | D => 0 end.
Definition DDR_VAL (p : port) : Z := Z.land 0xff (Z.lnot (PORT_INS p)).
Definition PORT_VAL (p : port) : Z := Z.lor (PORT_PULLUP p) (PORT_INITIAL p).

(** ** The platform of the radio driver *)

Definition nSELECT : pin_id := nTRX_SEL.
Definition nIRQ : pin_id := nTRX_IRQ.

Definition SELECT (r : avr) : avr := CLEARP nSELECT r.
Definition DESELECT (r : avr) : avr := SETP nSELECT r.
Definition POWER_DOWN (r : avr) : avr := SETP TRX_SDN r.
Definition POWER_UP (r : avr) : avr := CLEARP TRX_SDN r.

(** [spi_io]: [spsr n] is the [n]th reading of the status register after the
    store to the data register, [spdr] what the data register then holds. *)
Definition SPIF : Z := 1 ≪ 7.
Fixpoint spi_wait (fuel : nat) (spsr : nat -> Z) (n : nat) : option nat :=
  match fuel with
  | O => None
  | S fuel => if spsr n &? SPIF then Some n else spi_wait fuel spsr (S n)
  end.
Definition spi_io (fuel : nat) (spsr : nat -> Z) (spdr : Z) : option Z :=
  match spi_wait fuel spsr 0 with Some _ => Some (u8 spdr) | None => None end.

(** The effect of one use of a platform macro on the ports; [SPI_INIT] sets up
    the SPI peripheral, the delays and [WAIT_EVENT] only take time. *)
Definition board_step (e : io) (r : avr) : avr :=
  match e with
  | Select => SELECT r
  | Deselect => DESELECT r
  | PowerUp => POWER_UP r
  | PowerDown => POWER_DOWN r
  | _ => r
  end.

(** The most recent element of a history is its first. *)
Definition board_run (h : history) (r : avr) : avr := fold_right board_step r h.

(** The ports as [main] sets them up. *)
Definition board_init (pins : port -> Z) : avr := mk_avr PORT_VAL pins DDR_VAL.

(** ** Lemmas *)

(** The level of an output pin. *)
Definition level (id : pin_id) (r : avr) : bool := Z.testbit (PORT r (pin_port id)) (pin_no id).

Definition pin_ok (id : pin_id) : Prop := pin_sz id = 1 /\ 0 <= pin_no id < 8.

Definition same_pin (a b : pin_id) : bool :=
  bool_decide (pin_port a = pin_port b) && (pin_no a =? pin_no b).

Lemma mask_bit id : pin_ok id -> MASK id = Z.shiftl 1 (pin_no id).
Proof. intros [Hs _]. unfold MASK. by rewrite Hs. Qed.

Lemma u8_testbit v n : 0 <= n < 8 -> Z.testbit (u8 v) n = Z.testbit v n.
Proof. intros Hn. unfold u8. by rewrite Z.mod_pow2_bits_low by lia. Qed.

Lemma level_setp a id r :
  pin_ok a -> pin_ok id -> level id (SETP a r) = same_pin a id || level id r.
Proof.
  intros Ha Hi. unfold level, SETP, set_port, same_pin. cbn [PORT].
  destruct (decide (pin_port id = pin_port a)) as [E|E].
  - rewrite bool_decide_true by done. rewrite u8_testbit by apply Hi.
    rewrite mask_bit by done. change (Z.lor ?x (Z.shiftl 1 ?n)) with (Z.setbit x n).
    rewrite Z.setbit_eqb by apply Ha. by rewrite E.
  - by rewrite bool_decide_false by congruence.
Qed.

Lemma level_clearp a id r :
  pin_ok a -> pin_ok id -> level id (CLEARP a r) = negb (same_pin a id) && level id r.
Proof.
  intros Ha Hi. unfold level, CLEARP, set_port, same_pin. cbn [PORT].
  destruct (decide (pin_port id = pin_port a)) as [E|E].
  - rewrite bool_decide_true by done. rewrite u8_testbit by apply Hi.
    rewrite mask_bit by done. rewrite <- Z.ldiff_land.
    change (Z.ldiff ?x (Z.shiftl 1 ?n)) with (Z.clearbit x n).
    rewrite Z.clearbit_eqb, andb_comm. by rewrite E.
  - by rewrite bool_decide_false by congruence.
Qed.

Lemma sel_ok : pin_ok nTRX_SEL. Proof. split; [done|]. cbn. lia. Qed.
Lemma sdn_ok : pin_ok TRX_SDN. Proof. split; [done|]. cbn. lia. Qed.

Lemma bus_ok_step e b : bus_ok (bus_step e b) = true -> bus_ok b = true.
Proof.
  destruct e; unfold bus_step, bus_note; destruct (bus_open b) as [[|[? ?] ?]|]; try done;
    cbn [bus_ok]; by intros [? ?]%andb_true_iff.
Qed.

(** Whether the transceiver was last switched off. *)
Fixpoint shut_down (h : history) : bool :=
  match h with
  | [] => false
  | PowerUp :: _ => false
  | PowerDown :: _ => true
  | _ :: h => shut_down h
  end.

Definition is_idle (b : bus) : bool := match bus_open b with None => true | Some _ => false end.

(** A step of the bus monitor, seen from the select line. *)
Lemma step_idle e b :
  bus_ok (bus_step e b) = true ->
  is_idle (bus_step e b) = match e with Select => false | Deselect => true | _ => is_idle b end.
Proof.
  destruct e; unfold bus_step, bus_note, is_idle; destruct (bus_open b) as [[|[? ?] ?]|] eqn:E;
    cbn [bus_ok bus_open bus_fail]; rewrite ?E; try done.
Qed.

(** ** Theorems *)

(** Driven by any history of the radio driver that keeps the bus protocol,
    from the ports as [main] sets them up with the transceiver switched on, the
    board's select line is low exactly while a transaction is open, the
    shutdown line is high exactly after a power-down, and every other pin -
    the LED, the SPI lines' output latches, the pull-ups of the inputs - is as
    the initial values have it. *)
Theorem board_follows_bus pins h id :
  bus_ok (bus_of h) = true -> pin_ok id ->
  let r := board_run h (TRX_ON (board_init pins)) in
  level nTRX_SEL r = is_idle (bus_of h) /\ level TRX_SDN r = shut_down h /\
  (same_pin nTRX_SEL id = false -> same_pin TRX_SDN id = false ->
   level id r = Z.testbit (PORT_VAL (pin_port id)) (pin_no id)).
Proof.
  intros Hok Hid. cbv zeta. induction h as [|e h IH]; cbn [board_run fold_right].
  { unfold TRX_ON. rewrite !level_clearp by (done || apply sdn_ok || apply sel_ok).
    split_and!; [done..|]. intros _ ->. done. }
  cbn [bus_of fold_right] in Hok |- *. fold (bus_of h) in *.
  destruct (IH (bus_ok_step _ _ Hok)) as (H1 & H2 & H3). rewrite (step_idle _ _ Hok). clear IH.
  set (r := board_run h _) in *. fold (board_run h (TRX_ON (board_init pins))). fold r.
  destruct e; cbn [board_step shut_down]; try (by split_and!);
    unfold SELECT, DESELECT, POWER_UP, POWER_DOWN, nSELECT;
    rewrite ?level_setp, ?level_clearp by (done || apply sdn_ok || apply sel_ok);
    (split_and!; [done || (cbn; rewrite ?H1; done)|done || (cbn; rewrite ?H2; done)|]);
    intros Ha Hb; rewrite ?Ha, ?Hb; cbn [negb andb orb]; auto.
Qed.

(** The inputs are inputs with their pull-ups on, every other pin is driven. *)
Lemma board_directions id :
  In id [TRX_SDN; nTRX_SEL; TRX_MOSI; TRX_MISO; TRX_SCK; nTRX_IRQ; LED] ->
  pin_ok id /\
  Z.testbit (DDR_VAL (pin_port id)) (pin_no id) =
    negb (Z.testbit (PORT_INS (pin_port id)) (pin_no id)) /\
  (Z.testbit (PORT_INS (pin_port id)) (pin_no id) = true ->
   Z.testbit (PORT_VAL (pin_port id)) (pin_no id) = true) /\
  (Z.testbit (PORT_OUTS (pin_port id)) (pin_no id) =
    negb (Z.testbit (PORT_INS (pin_port id)) (pin_no id))).
Proof.
  cbn [In]. intros H. repeat destruct H as [<-|H]; try done;
    (split; [split; [done|cbn; lia]|by split_and!]).
Qed.

Lemma board_follows_bus_witness :
  let r := board_run [SpiIo 0x80 0; Select; PowerUp] (TRX_ON (board_init (fun _ => 0))) in
  level nTRX_SEL r = false /\ level TRX_SDN r = false /\ level LED r = false.
Proof.
  assert (Hok : bus_ok (bus_of [SpiIo 0x80 0; Select; PowerUp]) = true) by reflexivity.
  assert (Hl : pin_ok LED) by (split; [reflexivity|cbn; lia]).
  destruct (board_follows_bus (fun _ => 0) _ LED Hok Hl) as (H1 & H2 & H3).
  split; [exact H1|]. split; [exact H2|]. exact (H3 eq_refl eq_refl).
Defined.
