(* ===== verification/MacApp.v ===== *)
(** * The MAC as the applications use it

    Delivery of a data packet to the receive callback, transmission of one by
    [tinymac_send], and programs whose callbacks make no calls: the facts the
    example programs ([Sensor.v], [Gateway.v]) share. *)

From stdpp Require Import base list numbers.
From Stdlib Require Import ZArith Lia.
From S2P Require Import Prelude Wire MacState Mac MacInv MacRun MacEx MacTx.

(** An application that only looks at what it is given. *)
Definition passive_env (mtu : Z) (rc : list event -> Z) : Env :=
  {| phy_mtu := mtu; phy_send_rc := rc; app := fun _ => AppReturn |}.

Lemma passive_upcall mtu rc e w :
  @upcall (passive_env mtu rc) e w = (tt, set_log (e :: log w) w).
Proof. done. Qed.

(** The type field of a data packet. *)
Definition data_type (hdr : tinymac_header_t) : Z := Z.land (h_flags hdr) TINYMAC_FLAGS_TYPE_MASK.

Section App.
Context `{E : Env}.

Lemma grows_rx_known_source hdr p rssi : grows (rx_known_source hdr p rssi).
Proof. unfold rx_known_source, tinymac_tx_ack, tinymac_tx_pending. grows_auto. Qed.

(** Despatch of a data packet. *)
Lemma despatch_data hdr node payload w :
  type_code tinymacType_RawData <= data_type hdr -> m_rx_cb (ctx w) = true ->
  rx_despatch hdr node (header_bytes hdr ++ payload) w =
  upcall (EvRecvCb node (data_type hdr) payload) w.
Proof.
  intros Ht Hcb. unfold rx_despatch. cbv zeta. fold (data_type hdr).
  replace (_ <=? _) with true by (symmetry; by apply Z.leb_le). autorewrite with run.
  rewrite Hcb, when_true, payload_of_header. unfold data_type.
  by rewrite <- Z.land_assoc, Z.land_diag.
Qed.

(** A data packet from a known node is passed to the application with that
    node, its type and exactly its payload, as the last thing that happens;
    acknowledgement and deferred packets have gone out before. *)
Lemma recv_data p hdr payload rssi w :
  heard_from p hdr w -> type_code tinymacType_RawData <= data_type hdr -> m_rx_cb (ctx w) = true ->
  let w1 := snd (rx_known_source hdr p rssi (set_log (rx_power_log hdr w) w)) in
  core (ctx w1) = core (ctx w) /\ log w `suffix_of` log w1 /\
  tinymac_recv_cb (header_bytes hdr ++ payload) rssi w =
  upcall (EvRecvCb (Some p) (data_type hdr) payload) w1.
Proof.
  intros Hh Ht Hcb w1.
  assert (Hc : core (ctx w1) = core (ctx w)) 
    by exact (keeps_rx_known_source hdr p rssi (set_log (rx_power_log hdr w) w)).
  assert (Hg : log w `suffix_of` log w1).
  { transitivity (rx_power_log hdr w); [apply rx_power_suffix|].
    exact (grows_rx_known_source hdr p rssi (set_log (rx_power_log hdr w) w)). }
  split; [done|]. split; [done|]. rewrite (recv_known p) by done. rewrite bind_run. fold w1. apply despatch_data; [done|].
  unfold core in Hc. simplify_eq. congruence.
Qed.

(** A send that goes out at once, without acknowledgement. *)
Lemma send_plain p dest type buf cb w :
  type_code tinymacType_RawData <= Z.land type TINYMAC_FLAGS_TYPE_MASK ->
  (type &? TINYMAC_FLAGS_ACK_REQUEST) = false ->
  tinymac_get_node_by_addr (ctx w) dest = Some p -> fits w buf ->
  n_state (node_at p w) = tinymacNodeState_Registered -> sleepy (n_flags (node_at p w)) = false ->
  let bufs := [header_bytes (tx_header w type (n_addr (node_at p w))); buf] in
  tinymac_send dest type buf 0 cb w =
  (phy_send_rc (EvPhySend bufs 0 :: log w),
   set_log (phy_log (sleepy (p_flags (m_params (ctx w)))) bufs 0 (log w)) (bump w)).
Proof.
  intros Ht Ha Hg Hf Hs Hsl. cbv zeta. unfold tinymac_send.
  replace (_ <? _) with false by (symmetry; by apply Z.ltb_ge). autorewrite with run. rewrite Hg.
  autorewrite with run. change (0 =? 0) with true. cbv iota.
  rewrite tx_packet_plain, phy_send_run by done. done.
Qed.
End App.

(** ** Frames

    [logs P m]: every event [m] adds to the log satisfies [P].  [tame m]: [m]
    leaves the receive callback and the permission to attach as they are, and
    makes no receive callback. *)
Section Passive.
Context (mtu : Z) (rc : list event -> Z).
#[local] Instance the_env : Env := passive_env mtu rc.

Definition no_recv (e : event) : Prop := match e with EvRecvCb _ _ _ => False | _ => True end.

Definition settings (w : world) : bool * bool := (m_permit_attach (ctx w), m_rx_cb (ctx w)).

Definition keeps_settings {A} (m : M A) : Prop := forall w, settings (snd (m w)) = settings w.

Definition logs {A} (P : event -> Prop) (m : M A) : Prop :=
  forall w, exists new, log (snd (m w)) = new ++ log w /\ Forall P new.

Definition tame {A} (m : M A) : Prop := keeps_settings m /\ logs no_recv m.

Lemma logs_same {A} P (m : M A) : (forall w, log (snd (m w)) = log w) -> logs P m.
Proof. intros H w. exists []. by rewrite H. Qed.
Lemma logs_bind {A B} P (m : M A) (k : A -> M B) :
  logs P m -> (forall a, logs P (k a)) -> logs P (bind m k).
Proof.
  intros Hm Hk w. rewrite bind_run. destruct (Hm w) as (n1 & E1 & F1).
  destruct (Hk (fst (m w)) (snd (m w))) as (n2 & E2 & F2). exists (n2 ++ n1).
  rewrite E2, E1, app_assoc. split; [done|]. by apply Forall_app.
Qed.
Lemma logs_when P b m : logs P m -> logs P (when b m).
Proof. destruct b; [done|]. intros _. by apply logs_same. Qed.
Lemma logs_weaken {A} (P P' : event -> Prop) (m : M A) :
  logs P m -> (forall e, P e -> P' e) -> logs P' m.
Proof. intros Hm HP w. destruct (Hm w) as (n & E & F). exists n. split; [done|]. by eapply Forall_impl. Qed.

Lemma settings_upd p f w : settings (upd_node p f w) = settings w.
Proof. by destruct p. Qed.

Lemma tame_ret {A} (a : A) : tame (ret a).
Proof. split; [done|]. by apply logs_same. Qed.
Lemma tame_bind {A B} (m : M A) (k : A -> M B) : tame m -> (forall a, tame (k a)) -> tame (bind m k).
Proof.
  intros [Hs Hu] Hk. split; intros w; rewrite bind_run.
  - destruct (Hk (fst (m w))) as [Hk1 _]. by rewrite Hk1, Hs.
  - rewrite <- bind_run. apply logs_bind; [done|]. intros a. apply Hk.
Qed.
Lemma tame_get_ctx : tame get_ctx.
Proof. split; [done|]. by apply logs_same. Qed.
Lemma tame_get_log : tame get_log.
Proof. split; [done|]. by apply logs_same. Qed.
Lemma tame_read p : tame (read_node p).
Proof. split; [done|]. by apply logs_same. Qed.
Lemma tame_emit e : no_recv e -> tame (emit e).
Proof. intros He. split; [done|]. intros w. exists [e]. split; [done|]. by constructor. Qed.
Lemma tame_mod_ctx f :
  (forall c, m_permit_attach (f c) = m_permit_attach c /\ m_rx_cb (f c) = m_rx_cb c) -> tame (mod_ctx f).
Proof.
  intros Hf. split; [|by apply logs_same]. intros w. unfold settings. cbn.
  by destruct (Hf (ctx w)) as [-> ->].
Qed.
Lemma tame_mod_node p f : tame (mod_node p f).
Proof. split; [intros w; apply settings_upd|]. apply logs_same. intros w. apply upd_log. Qed.
Lemma tame_when b m : tame m -> tame (when b m).
Proof. destruct b; [done|]. intros _. apply tame_ret. Qed.
Lemma tame_mod_timer t f : tame (mod_timer t f).
Proof. destruct t; [apply tame_mod_node..|]. by apply tame_mod_ctx. Qed.
Lemma tame_for_each {A} (l : list A) body : (forall x, tame (body x)) -> tame (for_each l body).
Proof. intros Hb. induction l; simpl; [apply tame_ret|]. by apply tame_bind. Qed.

Create HintDb tame discriminated.
#[local] Hint Resolve tame_ret tame_get_ctx tame_get_log tame_read tame_mod_node tame_mod_timer : tame.
#[local] Hint Extern 2 (tame (mod_ctx _)) => by apply tame_mod_ctx : tame.
#[local] Hint Extern 2 (tame (emit _)) => by apply tame_emit : tame.

Ltac tame_step :=
  lazymatch goal with
  | |- tame (bind _ _) => apply tame_bind; [|intros ?]
  | |- tame (when _ _) => apply tame_when
  | |- tame (if ?b then _ else _) => destruct b
  | |- tame (match ?x with _ => _ end) => destruct x
  | |- tame (let _ := _ in _) => cbn zeta
  end.
Ltac tame_auto := repeat first [solve [eauto 4 with tame] | tame_step].

Lemma tame_read_timer t : tame (read_timer t).
Proof. destruct t; simpl; tame_auto. Qed.
Lemma tame_set_timer t cb arg d : tame (tinymac_set_timer t cb arg d).
Proof. unfold tinymac_set_timer. tame_auto. Qed.
Lemma tame_cancel t : tame (tinymac_cancel_timer t).
Proof. apply tame_mod_timer. Qed.
#[local] Hint Resolve tame_read_timer tame_set_timer tame_cancel : tame.

Lemma tame_phy_send bufs fl : tame (tinymac_phy_send bufs fl).
Proof. unfold tinymac_phy_send, phy_send. tame_auto. Qed.
#[local] Hint Resolve tame_phy_send : tame.
Lemma tame_tx_packet d ft buf v cb : tame (tinymac_tx_packet d ft buf v cb).
Proof. unfold tinymac_tx_packet. tame_auto. Qed.
#[local] Hint Resolve tame_tx_packet : tame.
Lemma tame_send d t buf v cb : tame (tinymac_send d t buf v cb).
Proof. unfold tinymac_send. tame_auto. Qed.
Lemma tame_upcall e : no_recv e -> tame (upcall e).
Proof. intros He. unfold upcall. tame_auto. Qed.
#[local] Hint Extern 2 (tame (upcall _)) => by apply tame_upcall : tame.
Lemma tame_call_send_cb p r : tame (call_send_cb p r).
Proof. unfold call_send_cb. tame_auto. Qed.
#[local] Hint Resolve tame_call_send_cb : tame.
Lemma tame_deregister p : tame (tinymac_deregister_node p).
Proof. unfold tinymac_deregister_node. tame_auto. Qed.
#[local] Hint Resolve tame_deregister : tame.
Lemma tame_despatch t : tame (tinymac_despatch_timer t).
Proof.
  unfold tinymac_despatch_timer, run_timer_fn, tinymac_request_timeout, tinymac_validity_timeout,
    tinymac_ack_timeout. tame_auto.
Qed.
Lemma tame_tx_pending p : tame (tinymac_tx_pending p).
Proof. unfold tinymac_tx_pending. tame_auto. Qed.
#[local] Hint Resolve tame_despatch tame_tx_pending : tame.
Lemma tame_tx_beacon b : tame (tinymac_tx_beacon b).
Proof. unfold tinymac_tx_beacon. tame_auto. Qed.
#[local] Hint Resolve tame_tx_beacon : tame.
Lemma tame_rx_known_source hdr p rssi : tame (rx_known_source hdr p rssi).
Proof. unfold rx_known_source, tinymac_tx_ack. tame_auto. Qed.
Lemma tame_tick_handler : tame tinymac_tick_handler.
Proof.
  unfold tinymac_tick_handler, tick_coordinator, tick_client. tame_auto.
  apply tame_for_each. intros i. unfold tick_node. tame_auto.
Qed.
#[local] Hint Resolve tame_rx_known_source tame_tick_handler tame_send : tame.

(** The whole receive handler keeps the settings, whatever it delivers. *)
Lemma ks_bind {A B} (m : M A) (k : A -> M B) :
  keeps_settings m -> (forall a, keeps_settings (k a)) -> keeps_settings (bind m k).
Proof. intros Hm Hk w. rewrite bind_run, Hk. apply Hm. Qed.
Lemma ks_when b m : keeps_settings m -> keeps_settings (when b m).
Proof. by destruct b. Qed.
Lemma tame_settings {A} (m : M A) : tame m -> keeps_settings m.
Proof. by intros []. Qed.

Lemma tame_control hdr node buf :
  (type_code tinymacType_RawData <=? data_type hdr) = false -> tame (rx_despatch hdr node buf).
Proof.
  intros Ht. unfold rx_despatch. cbv zeta. fold (data_type hdr). rewrite Ht.
  unfold rx_ack, tinymac_rx_beacon, rx_beacon_attach, tinymac_rx_registration_request,
    tinymac_rx_registration_response, tinymac_rx_deregistration_request. tame_auto.
Qed.

Lemma ks_despatch hdr node buf : keeps_settings (rx_despatch hdr node buf).
Proof.
  destruct (type_code tinymacType_RawData <=? data_type hdr) eqn:Ht;
    [|by apply tame_settings, tame_control].
  unfold rx_despatch. cbv zeta. fold (data_type hdr). rewrite Ht.
  apply ks_bind; [done|]. intros c. by apply ks_when.
Qed.

Lemma ks_recv_cb buf rssi : keeps_settings (tinymac_recv_cb buf rssi).
Proof.
  unfold tinymac_recv_cb. cbv zeta. destruct (_ <? _); [done|]. apply ks_bind; [done|]. intros c.
  destruct (_ =? _); [done|]. destruct (negb _); [done|]. destruct (anonymous_refused _ _); [done|].
  apply ks_bind; [apply tame_settings; tame_auto|]. intros _.
  destruct (_ && _); [|apply ks_despatch]. destruct (tinymac_get_node_by_addr _ _).
  - apply ks_bind; [apply tame_settings; tame_auto|]. intros _. apply ks_despatch.
  - apply tame_settings. unfold rx_unknown_source. tame_auto.
Qed.

(** Delivery of a data packet when the callback makes no calls. *)
Lemma recv_data_passive p hdr payload rssi w :
  heard_from p hdr w -> type_code tinymacType_RawData <= data_type hdr -> m_rx_cb (ctx w) = true ->
  let w1 := snd (rx_known_source hdr p rssi (set_log (rx_power_log hdr w) w)) in
  tinymac_recv_cb (header_bytes hdr ++ payload) rssi w =
    (tt, set_log (EvRecvCb (Some p) (data_type hdr) payload :: log w1) w1) /\
  exists new, log w1 = new ++ log w /\ Forall no_recv new.
Proof.
  intros Hh Ht Hcb w1. destruct (recv_data p hdr payload rssi w Hh Ht Hcb) as (_ & _ & Hrecv).
  fold w1 in Hrecv. split; [exact Hrecv|].
  destruct (proj2 (tame_rx_known_source hdr p rssi) (set_log (rx_power_log hdr w) w)) as (new & E & F).
  fold w1 in E. rewrite E. cbn [log set_log]. unfold rx_power_log.
  destruct (sleepy _); [|by exists new]. exists (new ++ [if h_flags hdr &? TINYMAC_FLAGS_DATA_PENDING
    then EvPhyDelayedStandby TINYMAC_LISTEN_PERIOD_US else EvPhyStandby]).
  rewrite <- app_assoc. split; [done|]. apply Forall_app. split; [done|].
  constructor; [|constructor]. by destruct (_ &? _).
Qed.

(** The receive handler passes on nothing but the payload of the packet. *)
Definition passes (buf : list Z) (e : event) : Prop :=
  match e with EvRecvCb _ _ b => b = payload_of buf | _ => True end.

Lemma tame_passes {A} buf (m : M A) : tame m -> logs (passes buf) m.
Proof. intros [_ H]. eapply logs_weaken; [exact H|]. by intros []. Qed.

Lemma logs_despatch hdr node buf : logs (passes buf) (rx_despatch hdr node buf).
Proof.
  destruct (type_code tinymacType_RawData <=? data_type hdr) eqn:Ht;
    [|by apply tame_passes, tame_control].
  unfold rx_despatch. cbv zeta. fold (data_type hdr). rewrite Ht.
  apply logs_bind; [by apply logs_same|]. intros c. apply logs_when. intros w.
  eexists [_]. split; [done|]. by constructor.
Qed.

Lemma logs_recv_cb buf rssi : logs (passes buf) (tinymac_recv_cb buf rssi).
Proof.
  unfold tinymac_recv_cb. cbv zeta. destruct (_ <? _); [by apply logs_same|].
  apply logs_bind; [by apply logs_same|]. intros c. destruct (_ =? _); [by apply logs_same|].
  destruct (negb _); [by apply logs_same|]. destruct (anonymous_refused _ _); [by apply logs_same|].
  apply logs_bind; [apply tame_passes; tame_auto|]. intros _.
  destruct (_ && _); [|apply logs_despatch]. destruct (tinymac_get_node_by_addr _ _).
  - apply logs_bind; [apply tame_passes; tame_auto|]. intros _. apply logs_despatch.
  - apply tame_passes. unfold rx_unknown_source. tame_auto.
Qed.

End Passive.
