(* ===== verification/MacExchange.v ===== *)
(** * Acknowledged exchanges of two MACs over a link

    A client registered with a coordinator, each with its own PHY results and
    application, and a PHY that keeps the link law.  A packet sent with an
    acknowledgement request is delivered once and its acknowledgement ends the
    send; a packet for a sleepy client waits until the client transmits, is sent
    while the client's receiver is on, and ends with its acknowledgement; a
    client whose receiver is on already is told of it by a beacon and polls. *)

From stdpp Require Import base list numbers sets.
From Stdlib Require Import ZArith Lia.
From S2P Require Import Prelude Wire MacState Mac MacInv MacRun MacEx MacTx MacReg MacTick MacRetry.
From S2P Require Import MacListen Phy PhyUdp MacHandshake MacApp.

(** ** A client and its coordinator *)

(** The client [wc] is registered with the coordinator [wk] in slot [i]. *)
Record joined (P C : tinymac_params_t) (i : nat) (wk wc : world) : Prop := {
  jn_coordinator : inv P wk;
  jn_coordinator_role : p_coordinator P = true;
  jn_client : inv C wc;
  jn_client_role : p_coordinator C = false;
  jn_state : m_state (ctx wc) = tinymacClientState_Registered;
  jn_net : m_net_id (ctx wc) = m_net_id (ctx wk);
  jn_addr : m_addr (ctx wc) = Z.of_nat i + 1;
  jn_slot : (i < TINYMAC_MAX_NODES)%nat;
  jn_coord_addr : n_addr (m_coord (ctx wc)) = 0;
  jn_coord_live : n_state (m_coord (ctx wc)) <> tinymacNodeState_Unregistered;
  jn_node_live : n_state (node_at (PNode i) wk) <> tinymacNodeState_Unregistered
}.

Section Joined.
Context (P C : tinymac_params_t) (i : nat) (wk wc : world) (J : joined P C i wk wc).

Lemma joined_net : m_net_id (ctx wk) <> TINYMAC_NETWORK_ANY.
Proof.
  destruct (jn_client _ _ _ _ _ J) as [Hc _]. pose proof (ok_role _ _ Hc) as Hr. unfold role_ok in Hr.
  rewrite (jn_client_role _ _ _ _ _ J), (jn_state _ _ _ _ _ J), (jn_net _ _ _ _ _ J) in Hr. apply Hr.
Qed.

Lemma joined_addr : m_addr (ctx wk) = 0.
Proof. apply (coordinator_addr P); apply J. Qed.

Lemma joined_node : tinymac_get_node_by_addr (ctx wk) (m_addr (ctx wc)) = Some (PNode i).
Proof.
  apply (lookup_addr_spec P); try apply J. exists i. split_and!; try apply J; done.
Qed.

Lemma joined_coord : tinymac_get_node_by_addr (ctx wc) 0 = Some PCoord.
Proof.
  destruct (jn_client _ _ _ _ _ J) as [Hc _]. unfold tinymac_get_node_by_addr.
  rewrite (ok_params _ _ Hc), (jn_client_role _ _ _ _ _ J), (jn_coord_addr _ _ _ _ _ J).
  rewrite bool_decide_eq_false_2 by apply J. done.
Qed.

Lemma joined_valid : valid (PNode i) wk.
Proof. eapply ptr_ok_valid; [apply J|exact (jn_slot _ _ _ _ _ J)]. Qed.

Lemma joined_assigned : m_addr (ctx wc) <> TINYMAC_ADDR_UNASSIGNED /\ is_u8 (m_addr (ctx wc)).
Proof.
  pose proof (jn_slot _ _ _ _ _ J) as Hs. rewrite (jn_addr _ _ _ _ _ J).
  unfold TINYMAC_MAX_NODES in Hs. unfold TINYMAC_ADDR_UNASSIGNED. split; [lia|widths; lia].
Qed.

(** The coordinator hears the client. *)
Lemma coordinator_hears flags seq :
  is_u16 flags -> is_u8 seq ->
  heard_from (PNode i) (mk_header flags (m_net_id (ctx wc)) 0 (m_addr (ctx wc)) seq) wk.
Proof.
  intros Hf Hq. destruct joined_assigned as [Ha Ha8]. split; cbn [h_src_addr].
  - apply mk_header_ok; auto; [apply J|widths; lia].
  - rewrite joined_addr, (jn_addr _ _ _ _ _ J). lia.
  - done.
  - by rewrite joined_addr.
  - unfold dest_accepted. cbn [h_net_id h_dest_addr].
    by rewrite (jn_net _ _ _ _ _ J), joined_addr, !Z.eqb_refl.
  - unfold anonymous_refused. cbn [h_net_id h_src_addr].
    rewrite (jn_net _ _ _ _ _ J), (proj2 (Z.eqb_neq _ _) joined_net).
    by rewrite (proj2 (Z.eqb_neq _ _) Ha).
  - apply joined_node.
  - apply joined_valid.
Qed.

(** The client hears the coordinator, addressed or broadcast. *)
Lemma client_hears flags dest seq :
  is_u16 flags -> is_u8 seq -> dest = m_addr (ctx wc) \/ dest = TINYMAC_ADDR_BROADCAST ->
  heard_from PCoord (mk_header flags (m_net_id (ctx wk)) dest 0 seq) wc.
Proof.
  intros Hf Hq Hd. destruct joined_assigned as [Ha Ha8]. split; cbn [h_src_addr].
  - apply mk_header_ok; auto; [apply J| |widths; lia]. destruct Hd as [-> | ->]; [done|].
    auto with width.
  - rewrite (jn_addr _ _ _ _ _ J). lia.
  - done.
  - done.
  - unfold dest_accepted. cbn [h_net_id h_dest_addr]. rewrite (jn_net _ _ _ _ _ J), Z.eqb_refl.
    destruct Hd as [-> | ->]; rewrite Z.eqb_refl; [done|by rewrite orb_true_r].
  - unfold anonymous_refused. cbn [h_net_id h_src_addr].
    by rewrite (proj2 (Z.eqb_neq _ _) joined_net).
  - apply joined_coord.
  - done.
Qed.
End Joined.

(** ** The hops of an exchange *)

Section Hops.
Context `{E : Env}.

(** A send that asks for an acknowledgement and goes out at once. *)
Lemma send_acked p dest ft buf v cb w :
  type_code tinymacType_RawData <= Z.land ft TINYMAC_FLAGS_TYPE_MASK ->
  (ft &? TINYMAC_FLAGS_ACK_REQUEST) = true ->
  tinymac_get_node_by_addr (ctx w) dest = Some p -> valid p w -> fits w buf ->
  n_state (node_at p w) = tinymacNodeState_Registered -> sleepy (n_flags (node_at p w)) = false ->
  let hdr := tx_header w ft (n_addr (node_at p w)) in
  snd (tinymac_send dest ft buf v cb w) =
  set_log (phy_log (sleepy (p_flags (m_params (ctx w)))) [header_bytes hdr; buf] 0 (log w))
    (upd_node p (fun n =>
        set_n_state tinymacNodeState_WaitAck
          (set_n_ack_timer
             (mk_timer (Some fn_ack_timeout) (Some p)
                (u32 (m_tick_count (ctx w) + TINYMAC_MILLIS TINYMAC_ACK_TIMEOUT)))
             (store hdr buf cb n))) (bump w)).
Proof.
  intros Ht Ha Hg Hv Hf Hs Hsl. cbv zeta. unfold tinymac_send.
  replace (_ <? _) with false by (symmetry; by apply Z.ltb_ge). autorewrite with run. rewrite Hg.
  autorewrite with run. rewrite tx_packet_acked, phy_send_run by done. cbn [snd].
  rewrite upd_log. by destruct p.
Qed.

(** The acknowledgement of a packet from [p]. *)
Definition ack_header (p : node_ptr) (seq : Z) (w : world) : tinymac_header_t :=
  mk_header (type_code tinymacType_Ack) (m_net_id (ctx w)) (n_addr (node_at p w)) (m_addr (ctx w)) seq.

Lemma rx_known_acks p hdr rssi w :
  valid p w -> (h_flags hdr &? TINYMAC_FLAGS_ACK_REQUEST) = true ->
  n_state (node_at p w) <> tinymacNodeState_SendPending ->
  rx_known_source hdr p rssi w =
  (tt, set_log (phy_log (sleepy (p_flags (m_params (ctx w)))) [header_bytes (ack_header p (h_seq hdr) w)] 0 (log w))
         (upd_node p (refresh rssi w) w)).
Proof.
  intros Hv Ha Hs. unfold rx_known_source. autorewrite with run. fold (refresh rssi w). rewrite Ha.
  set (w1 := upd_node p (refresh rssi w) w).
  assert (En : node_at p w1 = refresh rssi w (node_at p w)) by (by apply node_at_upd).
  assert (Ec : core (ctx w1) = core (ctx w)) by apply core_upd. apply core_fields in Ec.
  destruct Ec as (Ep & _ & _ & Enet & Eaddr & _).
  assert (El : log w1 = log w) by apply upd_log.
  assert (Eack : snd (tinymac_tx_ack p (h_seq hdr) w1) =
    set_log (phy_log (sleepy (p_flags (m_params (ctx w)))) [header_bytes (ack_header p (h_seq hdr) w)] 0
      (log w)) w1).
  { unfold tinymac_tx_ack. autorewrite with run. rewrite En. cbn [n_state n_addr refresh set_n_rssi set_n_last_heard].
    rewrite bool_decide_eq_false_2, lor_version, Enet, Eaddr by done.
    fold (ack_header p (h_seq hdr) w). rewrite bind_run, phy_send_run, El, Ep. cbn [fst snd].
    destruct (_ <? 0); [done|]. rewrite tx_pending_idle; [done|]. by rewrite node_at_set_log, En. }
  unfold when. autorewrite with run. rewrite bind_run, Eack. autorewrite with run.
  rewrite bind_run, tx_pending_idle; [done|]. by rewrite node_at_set_log, En.
Qed.

(** A data packet that asks for an acknowledgement. *)
Lemma recv_data_acked p hdr payload rssi w :
  heard_from p hdr w -> (h_flags hdr &? TINYMAC_FLAGS_ACK_REQUEST) = true ->
  type_code tinymacType_RawData <= data_type hdr -> m_rx_cb (ctx w) = true ->
  n_state (node_at p w) <> tinymacNodeState_SendPending ->
  tinymac_recv_cb (header_bytes hdr ++ payload) rssi w =
  upcall (EvRecvCb (Some p) (data_type hdr) payload)
    (set_log (phy_log (sleepy (p_flags (m_params (ctx w)))) [header_bytes (ack_header p (h_seq hdr) w)] 0
                (rx_power_log hdr w)) (upd_node p (refresh rssi w) w)).
Proof.
  intros Hh Ha Ht Hcb Hs. destruct (recv_data p hdr payload rssi w Hh Ht Hcb) as (_ & _ & ->).
  rewrite rx_known_acks; [|by apply valid_log, Hh|done|by rewrite node_at_set_log].
  cbn [snd]. rewrite upd_set_log. unfold ack_header. rewrite node_at_set_log. by destruct p.
Qed.

(** The application delivers no packets. *)
Lemma quiet_phy_send bufs fl : logs no_recv (tinymac_phy_send bufs fl).
Proof.
  intros w. rewrite phy_send_run. cbn [snd log set_log]. unfold phy_log.
  destruct (sleepy _); [exists [if phy_send_rc (EvPhySend bufs fl :: log w) <? 0 then EvPhyStandby
    else EvPhyDelayedStandby TINYMAC_LISTEN_PERIOD_US; EvPhySend bufs fl]|by exists [EvPhySend bufs fl]; repeat constructor].
  split; [done|]. destruct (_ <? _); repeat constructor.
Qed.

Lemma quiet_tx_packet d ft buf v cb : logs no_recv (tinymac_tx_packet d ft buf v cb).
Proof.
  unfold tinymac_tx_packet, tinymac_set_timer.
  repeat first [apply quiet_phy_send | apply logs_bind; [|intros ?] | apply logs_when
    | by apply logs_same | by (apply logs_same; intros w; apply upd_log)
    | match goal with
      | |- logs _ (match ?x with _ => _ end) => destruct x
      | |- logs _ (mod_timer ?t _) => simpl
      end ].
Qed.

Lemma quiet_run_app prog : logs no_recv (run_app prog).
Proof.
  induction prog as [|d t buf v cb k IH|b k IH]; simpl; [by apply logs_same|..]; (apply logs_bind; [|auto]);
    [|by apply logs_same].
  unfold tinymac_send. destruct (_ <? _); [by apply logs_same|]. apply logs_bind; [by apply logs_same|intros c].
  destruct (tinymac_get_node_by_addr _ _); [|by apply logs_same].
  apply logs_bind; [by apply logs_same|intros x]. apply quiet_tx_packet.
Qed.
End Hops.

(** The event [e] happens once between two points of a log, among events that
    deliver nothing. *)
Definition delivered (e : event) (before after : list event) : Prop :=
  exists l1 l2, after = l2 ++ e :: l1 ++ before /\ Forall no_recv l1 /\ Forall no_recv l2.

Lemma upcall_delivers `{E : Env} e before w :
  (exists l1, log w = l1 ++ before /\ Forall no_recv l1) ->
  delivered e before (log (snd (upcall e w))).
Proof.
  intros (l1 & E1 & F1). unfold upcall. autorewrite with run.
  destruct (quiet_run_app (app (e :: log w)) (set_log (e :: log w) w)) as (l2 & E2 & F2).
  exists l1, l2. cbn [log set_log] in E2 |- *. by rewrite E2, E1.
Qed.

(** What registration with each other depends on at either end. *)
Lemma joined_frame P C i wk wk' wc wc' :
  joined P C i wk wc -> inv P wk' -> inv C wc' ->
  (m_state (ctx wc'), m_net_id (ctx wc'), m_addr (ctx wc'), n_addr (m_coord (ctx wc'))) =
  (m_state (ctx wc), m_net_id (ctx wc), m_addr (ctx wc), n_addr (m_coord (ctx wc))) ->
  n_state (m_coord (ctx wc')) <> tinymacNodeState_Unregistered ->
  m_net_id (ctx wk') = m_net_id (ctx wk) ->
  n_state (node_at (PNode i) wk') <> tinymacNodeState_Unregistered ->
  joined P C i wk' wc'.
Proof. intros [] Hk Hc Hv Hs Hn Hl. simplify_eq. split; congruence. Qed.

(** A packet of two parts, or an acknowledgement, arrives whole. *)
Lemma heard_packet `{L : PhyLink} (E E' : Env) s hdr buf fl l before after w :
  before `suffix_of` l -> @phy_log E s [header_bytes hdr; buf] fl l `suffix_of` after ->
  bytes buf -> Z.of_nat (length buf) + sizeof_header <= link_mtu ->
  exists rssi, heard E' before after w (snd (@tinymac_recv_cb E' (header_bytes hdr ++ buf) rssi w)).
Proof.
  intros Hb Ha Hy Hm. unfold sizeof_header in Hm.
  destruct (heard_phy_log E E' s [header_bytes hdr; buf] fl l before after w) as [r H]; auto.
  - cbn [concat]. rewrite app_nil_r. auto with width.
  - cbn [concat]. rewrite app_nil_r, length_app, header_bytes_length. lia.
  - exists r. cbn [concat] in H. by rewrite app_nil_r in H.
Qed.

Lemma heard_bare `{L : PhyLink} (E E' : Env) s hdr fl l before after w :
  before `suffix_of` l -> @phy_log E s [header_bytes hdr] fl l `suffix_of` after ->
  sizeof_header <= link_mtu ->
  exists rssi, heard E' before after w (snd (@tinymac_recv_cb E' (header_bytes hdr ++ []) rssi w)).
Proof.
  intros Hb Ha Hm. unfold sizeof_header in Hm.
  apply (heard_phy_log E E' s [header_bytes hdr] fl l before after w); auto.
  - cbn [concat]. rewrite app_nil_r. auto with width.
  - cbn [concat]. rewrite app_nil_r, header_bytes_length. lia.
Qed.

(** The send to [p] has ended well: [p] is free, its timers are off, and the
    callback given with the send is called with 0. *)
Definition completed (E : Env) (p : node_ptr) (cb : option Z) (w' : world) : Prop :=
  exists w, w' = snd (@call_send_cb E p 0 w) /\
    n_state (node_at p w) = tinymacNodeState_Registered /\
    t_callback (n_ack_timer (node_at p w)) = None /\
    t_callback (n_validity_timer (node_at p w)) = None /\ n_send_cb (node_at p w) = cb.

Lemma quiet_phy_log `{E : Env} s bufs fl l hdr w :
  l = rx_power_log hdr w ->
  exists l1, phy_log s bufs fl l = l1 ++ log w /\ Forall no_recv l1.
Proof.
  intros ->. unfold phy_log, rx_power_log.
  destruct s, (sleepy _); [destruct (_ <? _), (_ &? _) |destruct (_ <? _)|destruct (_ &? _)|].
  all: first [ eexists [_; _; _]; split; [reflexivity|repeat constructor]
             | eexists [_; _]; split; [reflexivity|repeat constructor]
             | eexists [_]; split; [reflexivity|repeat constructor] ].
Qed.


(** ** A packet that waits for a sleepy client *)

(** Slot [i] holds the packet [hdr], [buf] for a sleepy client, for another
    [j] ticks. *)
Record deferred (i : nat) (hdr : tinymac_header_t) (buf : list Z) (cb : option Z) (j : Z) (w : world)
    : Prop := {
  df_state : n_state (node_at (PNode i) w) = tinymacNodeState_SendPending;
  df_header : n_pending_header (node_at (PNode i) w) = hdr;
  df_bufs : pending_bufs hdr (node_at (PNode i) w) = [header_bytes hdr; buf];
  df_cb : n_send_cb (node_at (PNode i) w) = cb;
  df_ack : t_callback (n_ack_timer (node_at (PNode i) w)) = None;
  df_validity : n_validity_timer (node_at (PNode i) w) =
                mk_timer (Some fn_validity_timeout) (Some (PNode i)) (u32 (m_tick_count (ctx w) + j));
  df_left : 0 <= j < 2 ^ 31
}.

(** Four ticks a second. *)
Lemma seconds_ticks v : TINYMAC_SECONDS v = 4 * v.
Proof.
  unfold TINYMAC_SECONDS, TINYMAC_TICK_MS. replace (v * 1000) with (4 * v * 250) by lia.
  by apply Z.div_mul.
Qed.

Lemma stored_bufs hdr buf cb n s t :
  pending_bufs hdr (set_n_state s (set_n_validity_timer t (store hdr buf cb n))) =
  [header_bytes hdr; buf].
Proof. exact (store_pending_bufs hdr buf cb n). Qed.

Section Deferred.
Context `{E : Env} (P : tinymac_params_t) (Hp : p_coordinator P = true).
Context (i : nat) (Hi : (i < TINYMAC_MAX_NODES)%nat).

Lemma deferred_same hdr buf cb j w w' :
  node_at (PNode i) w' = node_at (PNode i) w -> m_tick_count (ctx w') = m_tick_count (ctx w) ->
  deferred i hdr buf cb j w -> deferred i hdr buf cb j w'.
Proof. intros Hn Ht []. split; rewrite ?Hn, ?Ht; auto. Qed.

Lemma send_deferred ft buf v cb w :
  inv P w -> type_code tinymacType_RawData <= Z.land ft TINYMAC_FLAGS_TYPE_MASK -> fits w buf ->
  0 < v < 2 ^ 16 -> n_state (node_at (PNode i) w) = tinymacNodeState_Registered ->
  sleepy (n_flags (node_at (PNode i) w)) = true ->
  t_callback (n_ack_timer (node_at (PNode i) w)) = None ->
  let w1 := snd (tinymac_send (Z.of_nat i + 1) ft buf v cb w) in
  deferred i (tx_header w ft (Z.of_nat i + 1)) buf cb (TINYMAC_SECONDS v) w1 /\
  m_net_id (ctx w1) = m_net_id (ctx w) /\ log w1 = log w.
Proof.
  intros Hw Ht Hf Hv Hs Hsl Ha. cbv zeta. unfold tinymac_send.
  assert (Hok : valid (PNode i) w) by (eapply ptr_ok_valid; [exact Hw|exact Hi]).
  replace (_ <? _) with false by (symmetry; by apply Z.ltb_ge). autorewrite with run.
  replace (tinymac_get_node_by_addr (ctx w) (Z.of_nat i + 1)) with (Some (PNode i)).
  2: { symmetry. apply (lookup_addr_spec P); [done|done|]. exists i. by rewrite Hs. }
  autorewrite with run. replace (v =? 0) with false by (symmetry; apply Z.eqb_neq; lia).
  rewrite tx_packet_deferred, (node_addr P) by done. cbn [snd].
  split; [|split; [done|by rewrite upd_log]].
  split; rewrite ?node_at_upd by (by apply valid_bump).
  - done.
  - done.
  - apply stored_bufs.
  - done.
  - exact Ha.
  - done.
  - rewrite seconds_ticks. lia.
Qed.

Lemma tick_node_deferred hdr buf cb j now w :
  is_u32 (m_tick_count (ctx w)) -> deferred i hdr buf cb j w -> 0 < j -> tick_node now i w = (tt, w).
Proof.
  intros Ht [] Hj. unfold tick_node. autorewrite with run.
  rewrite df_state0, bool_decide_eq_false_2 by done. simpl andb.
  change (when false ?m) with (ret tt). autorewrite with run.
  rewrite bind_run, (despatch_idle (TAck (PNode i))) by exact df_ack0. cbn [snd].
  rewrite (despatch_due (TValidity (PNode i)) w fn_validity_timeout (Some (PNode i)) j);
    [|exact df_validity0|done|lia].
  by replace (j <=? 0) with false by (symmetry; apply Z.leb_gt; lia).
Qed.

(** The slot counter and the beacon come before the nodes. *)
Definition after_beacon (w : world) : world :=
  snd (when (beacon_due P (u16 (m_slot (ctx w) + 1))) (tinymac_tx_beacon true ;; ret tt)
         (set_ctx (set_m_slot (u16 (m_slot (ctx w) + 1)) (ctx w)) w)).

Lemma after_beacon_frame w :
  inv P w -> inv P (after_beacon w) /\ m_nodes (ctx (after_beacon w)) = m_nodes (ctx w) /\
  m_tick_count (ctx (after_beacon w)) = m_tick_count (ctx w) /\
  m_net_id (ctx (after_beacon w)) = m_net_id (ctx w).
Proof.
  intros Hw. unfold after_beacon. set (w1 := set_ctx _ w).
  assert (H1 : inv P w1).
  { apply (pres_set_mac P (fun c => set_m_slot (u16 (m_slot c + 1)) c)); [by repeat split|done| |done].
    simpl; auto with width. }
  destruct (beacon_due _ _); [rewrite when_true, bind_run|done]. cbn [snd ret].
  split; [by apply pres_tx_beacon|]. unfold tinymac_tx_beacon. autorewrite with run.
  rewrite (ok_params _ _ (proj1 H1)), Hp. change (negb true) with false. cbv iota.
  autorewrite with run. by rewrite phy_send_run.
Qed.

Lemma tick_deferred hdr buf cb j w :
  inv P w -> deferred i hdr buf cb j w -> 0 < j ->
  let w' := snd (tinymac_tick_handler w) in
  inv P w' /\ deferred i hdr buf cb (j - 1) w' /\ m_net_id (ctx w') = m_net_id (ctx w) /\
  log (after_beacon w) `suffix_of` log w'.
Proof.
  intros Hw Hd Hj. cbv zeta. split; [by apply pres_tick_handler|].
  unfold tinymac_tick_handler, tick_coordinator. autorewrite with run.
  rewrite (ok_params _ _ (proj1 Hw)), Hp. autorewrite with run.
  rewrite (ok_params _ _ (proj1 Hw)), bind_run. fold (after_beacon w).
  destruct (after_beacon_frame w Hw) as (H2 & N2 & T2 & M2). set (w2 := after_beacon w) in *. clearbody w2.
  assert (D2 : deferred i hdr buf cb j w2)
    by (apply (deferred_same _ _ _ _ w); [cbn; by rewrite N2|done|done]).
  replace (seq 0 TINYMAC_MAX_NODES) with (seq 0 i ++ i :: seq (S i) (TINYMAC_MAX_NODES - S i))
    by exact (eq_sym (seq_split i Hi)).
  set (now := m_tick_count (ctx w)).
  destruct (tick_others P (PNode i) now (seq 0 i) w2) as (H3 & [N3 C3] & L3);
    [intros m Hm; apply list_elem_of_In, in_seq in Hm; split; [injection; lia|lia]|done|by rewrite (df_state _ _ _ _ _ _ D2)|].
  rewrite bind_run, for_each_app. set (w3 := snd (for_each (seq 0 i) _ w2)) in *. clearbody w3.
  apply core_fields in C3 as (_ & _ & T3 & M3 & _).
  assert (D3 : deferred i hdr buf cb j w3) by (by apply (deferred_same _ _ _ _ w2)).
  cbn [for_each]. rewrite bind_run, (tick_node_deferred hdr buf cb j) by (done || apply H3). cbn [snd].
  destruct (tick_others P (PNode i) now (seq (S i) (TINYMAC_MAX_NODES - S i)) w3) as (_ & [N4 C4] & L4);
    [intros m Hm; apply list_elem_of_In, in_seq in Hm; split; [injection; lia|lia]|done|by rewrite (df_state _ _ _ _ _ _ D3)|].
  set (w4 := snd (for_each _ _ w3)) in *. clearbody w4. apply core_fields in C4 as (_ & _ & T4 & M4 & _).
  cbn [snd fst mod_ctx]. split_and!; [|cbn; congruence|by etrans].
  apply (deferred_same _ _ _ _ w3 w4 N4 T4) in D3. destruct D3. split; auto; [|lia].
  cbn [node_at ctx set_ctx m_nodes set_m_tick_count m_tick_count] in *. by rewrite df_validity0, u32_advance.
Qed.
End Deferred.

(** ** The beacon, the poll and the packet *)

Section Poll.
Context `{E : Env}.

(** The synchronisation beacon, with the addresses of the clients that have
    packets waiting. *)
Lemma sync_beacon P w :
  inv P w -> params_ok P -> p_coordinator P = true ->
  beacon_due P (u16 (m_slot (ctx w) + 1)) = true ->
  exists b, beacon_ok b /\
    log (after_beacon P w) =
    phy_log (sleepy (p_flags P))
      [header_bytes (mk_header (type_code tinymacType_Beacon) (m_net_id (ctx w)) TINYMAC_ADDR_BROADCAST 0
                       (u8 (m_bseq (ctx w) + 1)));
       beacon_bytes b; pending_addresses (ctx w)] PHY_FLAG_IMMEDIATE (log w).
Proof.
  intros Hw (Hu & _) Hp Hd. unfold after_beacon. rewrite Hd, when_true, bind_run.
  unfold tinymac_tx_beacon. autorewrite with run. cbn [m_params ctx set_ctx set_m_slot].
  rewrite (ok_params _ _ (proj1 Hw)), Hp. change (negb true) with false. cbv iota.
  autorewrite with run. rewrite phy_send_run. cbn [snd ret log set_log].
  eexists; split; [|cbn [m_params ctx set_ctx set_m_bseq set_m_slot];
    rewrite (ok_params _ _ (proj1 Hw)), lor_version; cbn [m_net_id m_addr m_bseq ctx set_ctx set_m_slot];
    rewrite (coordinator_addr P w Hw Hp); reflexivity].
  unfold beacon_ok. cbn. split_and!; [done|auto with width|destruct (m_permit_attach _)|].
  all: widths; vm_compute; split; congruence.
Qed.

Lemma pending_address P i w :
  inv P w -> (i < TINYMAC_MAX_NODES)%nat ->
  n_state (node_at (PNode i) w) = tinymacNodeState_SendPending ->
  Z.of_nat i + 1 ∈ pending_addresses (ctx w).
Proof.
  intros Hw Hi Hs. unfold pending_addresses.
  assert (Hv : valid (PNode i) w) by (eapply ptr_ok_valid; [exact Hw|exact Hi]).
  apply list_elem_of_fmap. exists (node_at (PNode i) w). split; [symmetry; by apply (node_addr P)|].
  apply list_elem_of_filter. split; [done|]. apply (list_elem_of_lookup_2 _ i). by apply lookup_node_at.
Qed.

Lemma pending_addresses_ok P w :
  inv P w -> bytes (pending_addresses (ctx w)) /\ (length (pending_addresses (ctx w)) <= 32)%nat.
Proof.
  intros [Hc _]. unfold pending_addresses. split.
  - apply Forall_fmap, Forall_forall. intros n [_ Hn]%list_elem_of_filter.
    apply list_elem_of_lookup_1 in Hn as [i Hn]. apply (ok_addr _ _ (ok_nodes _ _ Hc _ _ Hn)).
  - rewrite length_map. etrans; [apply length_filter|]. by rewrite (ok_nodes_length _ _ Hc).
Qed.

(** A registered client that finds its address in a beacon polls. *)
Lemma recv_beacon_polls hdr b addrs rssi w :
  heard_from PCoord hdr w -> is_type tinymacType_Beacon hdr ->
  (h_flags hdr &? TINYMAC_FLAGS_ACK_REQUEST) = false -> beacon_ok b ->
  p_coordinator (m_params (ctx w)) = false -> m_state (ctx w) = tinymacClientState_Registered ->
  m_addr (ctx w) ∈ addrs -> n_state (m_coord (ctx w)) = tinymacNodeState_Registered ->
  sleepy (n_flags (m_coord (ctx w))) = false -> fits w [] ->
  snd (tinymac_recv_cb (header_bytes hdr ++ beacon_bytes b ++ addrs) rssi w) =
  set_log (phy_log (sleepy (p_flags (m_params (ctx w))))
             [header_bytes (tx_header w (type_code tinymacType_Poll) (n_addr (m_coord (ctx w)))); []] 0
             (rx_power_log hdr w))
    (bump (upd_node PCoord (refresh rssi w) w)).
Proof.
  intros Hh Ht Ha Hb Hc Hst Hin Hs Hsl Hf. rewrite (recv_known PCoord) by done.
  rewrite bind_run, rx_known_idle; [|done|done|cbn; by rewrite Hs]. cbn [snd].
  unfold rx_despatch. rewrite Ht. change (type_code tinymacType_RawData <=? _) with false. cbv iota.
  rewrite type_roundtrip. cbv iota.
  replace (_ <? sizeof_header + sizeof_beacon) with false.
  2: { symmetry. apply Z.ltb_ge. rewrite !length_app, header_bytes_length.
       change (length (beacon_bytes b)) with 12%nat. unfold sizeof_header, sizeof_beacon; lia. }
  rewrite payload_of_header. unfold tinymac_rx_beacon. autorewrite with run.
  cbn [m_params m_state m_addr ctx upd_node set_ctx set_log set_m_coord].
  rewrite Hc, Hst. destruct (beacon_roundtrip b addrs Hb) as [_ ->].
  rewrite bool_decide_eq_false_2 by done. change (when false ?m) with (ret tt). autorewrite with run.
  replace (existsb _ addrs) with true.
  2: { symmetry. apply existsb_exists. exists (m_addr (ctx w)). split; [by apply list_elem_of_In|lia]. }
  rewrite when_true, bind_run, tx_packet_plain; [|done..]. rewrite phy_send_run. done.
Qed.

(** A packet from a node with data pending, that asks for no acknowledgement,
    makes the MAC transmit what is pending. *)
Lemma known_fetches p hdr rssi w :
  heard_from p hdr w -> (h_flags hdr &? TINYMAC_FLAGS_ACK_REQUEST) = false ->
  n_state (node_at p w) = tinymacNodeState_SendPending ->
  let h := n_pending_header (node_at p w) in
  (h_flags h &? TINYMAC_FLAGS_ACK_REQUEST) = true ->
  snd (rx_known_source hdr p rssi (set_log (rx_power_log hdr w) w)) =
  set_log (phy_log (sleepy (p_flags (m_params (ctx w)))) (pending_bufs h (node_at p w)) 0 (rx_power_log hdr w))
    (upd_node p (fun n =>
       set_n_ack_timer (mk_timer (Some fn_ack_timeout) (Some p)
           (u32 (m_tick_count (ctx w) + TINYMAC_MILLIS TINYMAC_ACK_TIMEOUT)))
         (set_n_state tinymacNodeState_WaitAck (refresh rssi w n))) w).
Proof.
  intros Hh Ha Hs h Hpa.
  assert (Hv : valid p w) by apply Hh. set (w0 := set_log _ w).
  assert (Hv0 : valid p (upd_node p (refresh rssi w) w0)) by (by apply valid_upd, valid_log).
  assert (N0 : node_at p (upd_node p (refresh rssi w) w0) = refresh rssi w (node_at p w)).
  { rewrite node_at_upd by (by apply valid_log). unfold w0. by rewrite node_at_set_log. }
  assert (Hk : snd (rx_known_source hdr p rssi w0) =
    snd (tinymac_tx_pending p (upd_node p (refresh rssi w) w0))).
  { unfold rx_known_source. autorewrite with run. rewrite Ha. unfold when at 1. cbv iota.
    autorewrite with run. by rewrite bind_run. }
  rewrite Hk, tx_pending_run; [|done|by rewrite N0]. rewrite N0.
  cbn [n_pending_header refresh set_n_rssi set_n_last_heard snd]. fold h. rewrite Hpa.
  rewrite upd_upd, upd_log. unfold w0. rewrite upd_set_log. by destruct p.
Qed.

(** A poll is answered with the packet that waits. *)
Lemma recv_poll p hdr rssi w :
  heard_from p hdr w -> is_type tinymacType_Poll hdr ->
  (h_flags hdr &? TINYMAC_FLAGS_ACK_REQUEST) = false ->
  n_state (node_at p w) = tinymacNodeState_SendPending ->
  snd (tinymac_recv_cb (header_bytes hdr ++ []) rssi w) =
  snd (rx_known_source hdr p rssi (set_log (rx_power_log hdr w) w)).
Proof.
  intros Hh Ht Ha Hs. rewrite (recv_known p), bind_run by done.
  unfold rx_despatch. rewrite Ht.
  change (type_code tinymacType_RawData <=? _) with false. cbv iota. by rewrite type_roundtrip.
Qed.
End Poll.

(** ** The exchange with a sleepy client *)

(** A packet is received: it is carried by the link, and the receiver is on. *)
Definition received `{L : PhyLink} (E : Env) (before after : list event) (w w' : world) : Prop :=
  heard E before after w w' /\ receiver_on (log w) = true.

(** A PHY that accepts every packet. *)
Definition accepts (E : Env) : Prop := forall l, 0 <= @phy_send_rc E l.

(** An accepted transmission leaves the receiver on, for the listening period if
    the node is sleepy. *)
Lemma on_phy_log (E : Env) s bufs fl l :
  accepts E -> (s = false -> receiver_on l = true) -> receiver_on (@phy_log E s bufs fl l) = true.
Proof.
  intros Hp Hl. unfold phy_log. destruct s; [|by apply Hl].
  by replace (_ <? 0) with false by (symmetry; apply Z.ltb_ge, Hp).
Qed.

Section Sleepy.
Context `{L : PhyLink} (Ek Ec : Env) (P C : tinymac_params_t) (i : nat) (HP : params_ok P).

(** The client is registered and idle, with a receive callback. *)
Record idle (wc : world) : Prop := {
  id_free : n_state (m_coord (ctx wc)) = tinymacNodeState_Registered;
  id_awake : sleepy (n_flags (m_coord (ctx wc))) = false;
  id_rx_cb : m_rx_cb (ctx wc) = true;
  id_fits : fits wc []
}.

(** The beacon of a tick makes the client poll. *)
Lemma beacon_polls wk wc hdr buf cb j :
  joined P C i wk wc -> idle wc -> deferred i hdr buf cb j wk -> 0 < j -> 50 <= link_mtu ->
  beacon_due P (u16 (m_slot (ctx wk) + 1)) = true ->
  let wk1 := snd (@tinymac_tick_handler Ek wk) in
  exists wc1 l, heard Ec (log wk) (log wk1) wc wc1 /\ joined P C i wk1 wc1 /\ idle wc1 /\
    deferred i hdr buf cb (j - 1) wk1 /\ m_net_id (ctx wk1) = m_net_id (ctx wk) /\
    log wc `suffix_of` l /\
    (sleepy (p_flags (m_params (ctx wc))) = false -> receiver_on l = receiver_on (log wc)) /\
    log wc1 = @phy_log Ec (sleepy (p_flags (m_params (ctx wc))))
      [header_bytes (tx_header wc (type_code tinymacType_Poll) 0); []] 0 l.
Proof.
  intros J I D Hj Hm Hd wk1. pose proof (jn_coordinator _ _ _ _ _ J) as Hk.
  destruct (@tick_deferred Ek P (jn_coordinator_role _ _ _ _ _ J) i (jn_slot _ _ _ _ _ J) hdr buf cb j wk Hk D Hj)
    as (Hk1 & D1 & M1 & L1). fold wk1 in Hk1, D1, M1, L1.
  destruct (@sync_beacon Ek P wk Hk HP (jn_coordinator_role _ _ _ _ _ J) Hd) as (b & Hb & Elog).
  set (bh := mk_header (type_code tinymacType_Beacon) _ _ _ _) in *.
  destruct (pending_addresses_ok P wk Hk) as [Hab Hal].
  destruct (@heard_phy_log L Ek Ec (sleepy (p_flags P)) [header_bytes bh; beacon_bytes b; pending_addresses (ctx wk)]
    PHY_FLAG_IMMEDIATE (log wk) (log wk) (log wk1) wc) as [r H].
  - done.
  - by rewrite <- Elog.
  - cbn [concat]. rewrite app_nil_r. unfold beacon_bytes. auto 10 with width.
  - cbn [concat]. rewrite app_nil_r, !length_app, header_bytes_length.
    change (length (beacon_bytes b)) with 12%nat. lia.
  - cbn [concat] in H. rewrite app_nil_r in H.
    assert (Hin : m_addr (ctx wc) ∈ pending_addresses (ctx wk)).
    { rewrite (jn_addr _ _ _ _ _ J). apply (pending_address P); [done|apply J|apply D]. }
    assert (Hh : heard_from PCoord bh wc) by (apply (client_hears P C i wk wc J); auto with width).
    assert (Hpc : p_coordinator (m_params (ctx wc)) = false).
    { rewrite (ok_params _ _ (proj1 (jn_client _ _ _ _ _ J))). apply J. }
    assert (Er := @recv_beacon_polls Ec bh b (pending_addresses (ctx wk)) r wc Hh eq_refl eq_refl Hb Hpc
      (jn_state _ _ _ _ _ J) Hin (id_free _ I) (id_awake _ I) (id_fits _ I)).
    rewrite (jn_coord_addr _ _ _ _ _ J) in Er.
    assert (Hinv : inv C (snd (@tinymac_recv_cb Ec (header_bytes bh ++ beacon_bytes b ++ pending_addresses (ctx wk)) r wc))).
    { apply (pres_recv_cb C); [|apply J]. unfold beacon_bytes. auto 10 with width. }
    set (wc1 := snd (tinymac_recv_cb _ r wc)) in *. exists wc1, (rx_power_log bh wc).
    split; [exact H|]. split.
    + apply (joined_frame P C i wk wk1 wc wc1 J); [done|done|by rewrite Er| |done|].
      * rewrite Er. cbn. rewrite (id_free _ I). done.
      * by rewrite (df_state _ _ _ _ _ _ D1).
    + split_and!; try done; [|apply rx_power_suffix|unfold rx_power_log; by intros ->|by rewrite Er].
      rewrite Er. destruct I as [I1 I2 I3 I4]. split; done.
Qed.

(** The coordinator has transmitted the packet and waits for the
    acknowledgement. *)
Record fetched (hdr : tinymac_header_t) (buf : list Z) (cb : option Z) (before : list event) (w : world)
    : Prop := {
  ft_state : n_state (node_at (PNode i) w) = tinymacNodeState_WaitAck;
  ft_header : n_pending_header (node_at (PNode i) w) = hdr;
  ft_cb : n_send_cb (node_at (PNode i) w) = cb;
  ft_sent : exists s l, before `suffix_of` l /\ @phy_log Ek s [header_bytes hdr; buf] 0 l `suffix_of` log w
}.

(** A packet of the client, of whatever kind, reaches the coordinator and makes
    it transmit what is pending. *)
Lemma packet_fetches wk wc hdr0 rssi hdr buf cb j :
  joined P C i wk wc -> deferred i hdr buf cb j wk -> heard_from (PNode i) hdr0 wk ->
  (h_flags hdr0 &? TINYMAC_FLAGS_ACK_REQUEST) = false ->
  (h_flags hdr &? TINYMAC_FLAGS_ACK_REQUEST) = true ->
  let wf := snd (@rx_known_source Ek hdr0 (PNode i) rssi (set_log (rx_power_log hdr0 wk) wk)) in
  fetched hdr buf cb (log wk) wf /\ m_net_id (ctx wf) = m_net_id (ctx wk) /\
  exists l, log wf = l ++ log wk /\ Forall no_recv l.
Proof.
  intros J D Hh Ha Hpa wf.
  assert (Ep := @known_fetches Ek (PNode i) hdr0 rssi wk Hh Ha (df_state _ _ _ _ _ _ D)).
  cbv zeta in Ep. rewrite (df_header _ _ _ _ _ _ D), (df_bufs _ _ _ _ _ _ D) in Ep. specialize (Ep Hpa).
  fold wf in Ep. clearbody wf. subst wf.
  assert (Hv : valid (PNode i) wk) by exact (joined_valid _ _ _ _ _ J).
  split; [|split; [done|]].
  - split; rewrite ?node_at_set_log, ?node_at_upd by done.
    + done.
    + apply D.
    + apply D.
    + exists (sleepy (p_flags (m_params (ctx wk)))), (rx_power_log hdr0 wk).
      split; [apply rx_power_suffix|done].
  - cbn [log set_log]. by apply (quiet_phy_log _ _ _ _ hdr0).
Qed.

(** The packet arrives at the client, which passes it on and acknowledges it. *)
Lemma packet_arrives wk wk1 wc hdr buf cb :
  joined P C i wk1 wc -> idle wc -> receiver_on (log wc) = true -> fetched hdr buf cb (log wk) wk1 ->
  hdr = mk_header (h_flags hdr) (m_net_id (ctx wk1)) (m_addr (ctx wc)) 0 (h_seq hdr) ->
  header_ok hdr -> (h_flags hdr &? TINYMAC_FLAGS_ACK_REQUEST) = true ->
  type_code tinymacType_RawData <= data_type hdr -> bytes buf ->
  Z.of_nat (length buf) + sizeof_header <= link_mtu ->
  exists wc1 s l, received Ec (log wk) (log wk1) wc wc1 /\
    delivered (EvRecvCb (Some PCoord) (data_type hdr) buf) (log wc) (log wc1) /\
    log wc `suffix_of` l /\
    @phy_log Ec s [header_bytes (ack_header PCoord (h_seq hdr) wc)] 0 l `suffix_of` log wc1.
Proof.
  intros J I Hon [_ _ _ (s & l & Hl & Hs)] Eh Hok Ha Ht Hb Hm.
  destruct (heard_packet Ek Ec s hdr buf 0 l (log wk) (log wk1) wc) as [r2 H2]; [done..|].
  assert (Hh : heard_from PCoord hdr wc).
  { rewrite Eh. apply (client_hears P C i wk1 wc J); [apply Hok|apply Hok|by left]. }
  rewrite (@recv_data_acked Ec PCoord hdr buf r2 wc Hh Ha Ht (id_rx_cb _ I)) in H2
    by (cbn; by rewrite (id_free _ I)).
  eexists _, (sleepy (p_flags (m_params (ctx wc)))), (rx_power_log hdr wc). split; [by split; [exact H2|]|].
  split_and!.
  - apply upcall_delivers. by apply (quiet_phy_log _ _ _ _ hdr).
  - apply rx_power_suffix.
  - etrans; [|apply grows_upcall]. done.
Qed.

(** The acknowledgement ends the coordinator's send. *)
Lemma ack_ends wk wk1 wc wc1 hdr buf cb s l :
  joined P C i wk1 wc -> receiver_on (log wk1) = true -> fetched hdr buf cb (log wk) wk1 ->
  header_ok hdr -> sizeof_header <= link_mtu -> log wc `suffix_of` l ->
  @phy_log Ec s [header_bytes (ack_header PCoord (h_seq hdr) wc)] 0 l `suffix_of` log wc1 ->
  exists wk2, received Ek (log wc) (log wc1) wk1 wk2 /\ completed Ek (PNode i) cb wk2.
Proof.
  intros J Hon F Hok Hm Hl Hs. set (ack := ack_header PCoord (h_seq hdr) wc) in *.
  destruct (heard_bare Ec Ek s ack 0 l (log wc) (log wc1) wk1) as [r H4]; [done..|].
  assert (Hh : heard_from (PNode i) ack wk1).
  { unfold ack, ack_header. cbn [node_at]. rewrite (jn_coord_addr _ _ _ _ _ J).
    apply (coordinator_hears P C i wk1 wc J); [auto with width|apply Hok]. }
  destruct (@ack_run Ek (PNode i) ack [] r wk1 Hh) as (w & Er & _ & S4 & T1 & T2 & C4); try done;
    [apply F|by rewrite (ft_header _ _ _ _ _ F)|].
  rewrite Er in H4. eexists. split; [by split; [exact H4|]|].
  exists w. split_and!; try done. rewrite C4. apply F.
Qed.

(** The poll that a beacon has provoked. *)
Lemma poll_fetches wk wc wc0 hdr buf cb j l :
  joined P C i wk wc -> idle wc -> deferred i hdr buf cb j wk ->
  (h_flags hdr &? TINYMAC_FLAGS_ACK_REQUEST) = true -> sizeof_header <= link_mtu ->
  m_net_id (ctx wc0) = m_net_id (ctx wc) -> m_addr (ctx wc0) = m_addr (ctx wc) -> is_u8 (m_dseq (ctx wc0)) ->
  log wc0 `suffix_of` l ->
  log wc = @phy_log Ec (sleepy (p_flags (m_params (ctx wc0))))
      [header_bytes (tx_header wc0 (type_code tinymacType_Poll) 0); []] 0 l ->
  exists wk1, heard Ek (log wc0) (log wc) wk wk1 /\ joined P C i wk1 wc /\
    fetched hdr buf cb (log wk) wk1 /\ m_net_id (ctx wk1) = m_net_id (ctx wk).
Proof.
  intros J I D Ha Hm En Ea Hq Hl Elog.
  set (poll := tx_header wc0 (type_code tinymacType_Poll) 0) in *.
  assert (Hp : heard_from (PNode i) poll wk).
  { unfold poll, tx_header. rewrite En, Ea.
    apply (coordinator_hears P C i wk wc J); auto with width. }
  destruct (heard_packet Ec Ek (sleepy (p_flags (m_params (ctx wc0)))) poll [] 0 l (log wc0) (log wc) wk)
    as [r H1]; [done|by rewrite Elog|constructor|cbn [length]; lia|].
  destruct (packet_fetches wk wc poll r hdr buf cb j J D Hp eq_refl Ha) as (F & M & _).
  assert (Hinv : inv P (snd (@tinymac_recv_cb Ek (header_bytes poll ++ []) r wk))).
  { apply (pres_recv_cb P); [rewrite app_nil_r; auto with width|apply J]. }
  rewrite (@recv_poll Ek (PNode i) poll r wk Hp eq_refl eq_refl (df_state _ _ _ _ _ _ D)) in H1, Hinv.
  eexists. split; [exact H1|]. split_and!; [|exact F|exact M].
  apply (joined_frame P C i wk _ wc wc J); [exact Hinv|apply J|done|apply J|exact M|by rewrite (ft_state _ _ _ _ _ F)].
Qed.

(** A data packet that the client sends of its own accord. *)
Lemma uplink_fetches wk wc hdr buf cb j ft' buf' cb' :
  joined P C i wk wc -> idle wc -> deferred i hdr buf cb j wk -> m_rx_cb (ctx wk) = true ->
  (h_flags hdr &? TINYMAC_FLAGS_ACK_REQUEST) = true ->
  is_u8 ft' -> type_code tinymacType_RawData <= Z.land ft' TINYMAC_FLAGS_TYPE_MASK ->
  (ft' &? TINYMAC_FLAGS_ACK_REQUEST) = false -> bytes buf' -> fits wc buf' ->
  Z.of_nat (length buf') + sizeof_header <= link_mtu ->
  let wc1 := snd (@tinymac_send Ec 0 ft' buf' 0 cb' wc) in
  exists wk1, heard Ek (log wc) (log wc1) wk wk1 /\ joined P C i wk1 wc1 /\ idle wc1 /\
    fetched hdr buf cb (log wk) wk1 /\
    delivered (EvRecvCb (Some (PNode i)) (Z.land ft' TINYMAC_FLAGS_TYPE_MASK) buf') (log wk) (log wk1) /\
    m_net_id (ctx wk1) = m_net_id (ctx wk) /\
    exists bufs, log wc1 = @phy_log Ec (sleepy (p_flags C)) bufs 0 (log wc).
Proof.
  intros J I D Hcb Hpa Hft Ht Ha Hb Hf Hm wc1.
  assert (E1 := @send_plain Ec PCoord 0 ft' buf' cb' wc Ht Ha (joined_coord _ _ _ _ _ J) Hf
    (id_free _ I) (id_awake _ I)).
  cbv zeta in E1. cbn [node_at] in E1. rewrite (jn_coord_addr _ _ _ _ _ J) in E1.
  set (hdr0 := tx_header wc ft' 0) in *.
  assert (Ew : wc1 = set_log (phy_log (sleepy (p_flags (m_params (ctx wc)))) [header_bytes hdr0; buf'] 0 (log wc))
                       (bump wc)) by (unfold wc1; by rewrite E1).
  assert (Hi1 : inv C wc1) by (apply (pres_send C); [exact Hft|exact Hb|apply J]).
  clearbody wc1. clear E1.
  destruct (heard_packet Ec Ek (sleepy (p_flags (m_params (ctx wc)))) hdr0 buf' 0 (log wc) (log wc) (log wc1) wk)
    as [r H1]; [done|by rewrite Ew|done|done|].
  assert (Hh : heard_from (PNode i) hdr0 wk).
  { apply (coordinator_hears P C i wk wc J); [widths; lia|auto with width]. }
  destruct (@recv_data Ek (PNode i) hdr0 buf' r wk Hh Ht Hcb) as (Hcore & _ & Er).
  destruct (packet_fetches wk wc hdr0 r hdr buf cb j J D Hh Ha Hpa) as (F & Mf & l & Ll & Fl).
  assert (Hinv : inv P (snd (@tinymac_recv_cb Ek (header_bytes hdr0 ++ buf') r wk))).
  { apply (pres_recv_cb P); [auto with width|apply J]. }
  rewrite Er in H1, Hinv. set (wf := snd (rx_known_source _ _ _ _)) in *. clearbody wf.
  set (e := EvRecvCb _ _ _) in *. destruct F as [F1 F2 F3 (s & l' & F4 & F5)].
  assert (Nk : node_at (PNode i) (snd (@upcall Ek e wf)) = node_at (PNode i) wf)
    by (apply busy_upcall; by rewrite F1).
  assert (Mk : m_net_id (ctx (snd (@upcall Ek e wf))) = m_net_id (ctx wk)).
  { assert (Hc : core (ctx (snd (@upcall Ek e wf))) = core (ctx wf)) by (by apply keeps_upcall).
    apply core_fields in Hc as (_ & _ & _ & -> & _). done. }
  eexists. split; [exact H1|]. split_and!.
  - apply (joined_frame P C i wk _ wc wc1 J); [exact Hinv|exact Hi1|by rewrite Ew|by rewrite Ew; apply J|exact Mk|].
    by rewrite Nk, F1.
  - rewrite Ew. by destruct I.
  - split; rewrite ?Nk; try done. exists s, l'. split; [done|]. etrans; [exact F5|]. apply grows_upcall.
  - apply upcall_delivers. by exists l.
  - exact Mk.
  - exists [header_bytes hdr0; buf']. rewrite Ew. cbn [log set_log].
    by rewrite (ok_params _ _ (proj1 (jn_client _ _ _ _ _ J))).
Qed.

Lemma ticks_deferred n hdr buf cb j wk wc :
  joined P C i wk wc -> deferred i hdr buf cb j wk -> Z.of_nat n < j ->
  let wk1 := @ticks Ek n wk in
  joined P C i wk1 wc /\ deferred i hdr buf cb (j - Z.of_nat n) wk1 /\
  m_net_id (ctx wk1) = m_net_id (ctx wk).
Proof.
  cbv zeta. revert j wk; induction n as [|n IH]; intros j wk J D Hn; [by rewrite Z.sub_0_r|].
  destruct (@tick_deferred Ek P (jn_coordinator_role _ _ _ _ _ J) i (jn_slot _ _ _ _ _ J) hdr buf cb j wk
    (jn_coordinator _ _ _ _ _ J) D) as (Hk1 & D1 & M1 & _); [lia|].
  cbn [ticks]. destruct (IH (j - 1) (snd (@tinymac_tick_handler Ek wk))) as (J2 & D2 & M2); [|done|lia|].
  - apply (joined_frame P C i wk _ wc wc J); [done|apply J|done|apply J|done|].
    by rewrite (df_state _ _ _ _ _ _ D1).
  - split; [done|]. replace (j - Z.of_nat (S n)) with (j - 1 - Z.of_nat n) by lia. split; congruence.
Qed.
End Sleepy.

(** The header of a packet the coordinator stores for the client. *)
Lemma deferred_header P C i wk wk1 wc ft :
  joined P C i wk wc -> is_u8 ft -> m_net_id (ctx wk1) = m_net_id (ctx wk) ->
  let hdr := tx_header wk ft (m_addr (ctx wc)) in
  header_ok hdr /\ hdr = mk_header (h_flags hdr) (m_net_id (ctx wk1)) (m_addr (ctx wc)) 0 (h_seq hdr).
Proof.
  intros J Hft Hn hdr. split.
  - unfold hdr. destruct (jn_coordinator _ _ _ _ _ J) as [[] _]. destruct (joined_assigned _ _ _ _ _ J).
    apply mk_header_ok; auto with width.
  - unfold hdr at 1, tx_header. by rewrite (joined_addr _ _ _ _ _ J), Hn.
Qed.

(** The coordinator's application sends a packet to a sleepy client: after [n]
    ticks it is still stored. *)
Lemma stored_packet Ek P C i wk wc ft buf v cb n :
  joined P C i wk wc -> n_state (node_at (PNode i) wk) = tinymacNodeState_Registered ->
  sleepy (n_flags (node_at (PNode i) wk)) = true ->
  t_callback (n_ack_timer (node_at (PNode i) wk)) = None ->
  is_u8 ft -> type_code tinymacType_RawData <= Z.land ft TINYMAC_FLAGS_TYPE_MASK ->
  bytes buf -> fits wk buf -> 0 < v < 2 ^ 16 -> Z.of_nat n < TINYMAC_SECONDS v ->
  let wk0 := snd (@tinymac_send Ek (Z.of_nat i + 1) ft buf v cb wk) in
  let wk1 := @ticks Ek n wk0 in
  log wk0 = log wk /\ joined P C i wk1 wc /\ m_net_id (ctx wk1) = m_net_id (ctx wk) /\
  deferred i (tx_header wk ft (m_addr (ctx wc))) buf cb (TINYMAC_SECONDS v - Z.of_nat n) wk1.
Proof.
  intros J Hs Hsl Hat Hft Ht Hb Hf Hv Hn wk0 wk1.
  destruct (@send_deferred Ek P (jn_coordinator_role _ _ _ _ _ J) i (jn_slot _ _ _ _ _ J) ft buf v cb wk)
    as (D0 & M0 & L0); try done; [apply J|]. fold wk0 in D0, M0, L0. split; [done|].
  rewrite <- (jn_addr _ _ _ _ _ J) in D0. set (hdr := tx_header wk ft _) in *.
  assert (J0 : joined P C i wk0 wc).
  { apply (joined_frame P C i wk wk0 wc wc J); [|apply J|done|apply J|done|].
    - apply (pres_send P); [exact Hft|exact Hb|apply J].
    - by rewrite (df_state _ _ _ _ _ _ D0). }
  destruct (ticks_deferred Ek P C i n hdr buf cb _ wk0 wc J0 D0 Hn) as (J1 & D1 & M1).
  fold wk1 in J1, D1, M1. split_and!; [done|congruence|done].
Qed.

(** A client whose receiver is on when the coordinator's beacon is due is told
    of the packet by the beacon, polls for it, gets it and acknowledges it. *)
Theorem announced_exchange `{L : PhyLink} (Ek Ec : Env) P C i wk wc ft buf v cb n :
  params_ok P -> joined P C i wk wc -> idle wc -> accepts Ec -> accepts Ek ->
  sleepy (p_flags P) = false -> receiver_on (log wk) = true -> receiver_on (log wc) = true ->
  n_state (node_at (PNode i) wk) = tinymacNodeState_Registered ->
  sleepy (n_flags (node_at (PNode i) wk)) = true ->
  t_callback (n_ack_timer (node_at (PNode i) wk)) = None ->
  is_u8 ft -> type_code tinymacType_RawData <= Z.land ft TINYMAC_FLAGS_TYPE_MASK ->
  (ft &? TINYMAC_FLAGS_ACK_REQUEST) = true ->
  bytes buf -> fits wk buf -> Z.of_nat (length buf) + sizeof_header <= link_mtu -> 50 <= link_mtu ->
  0 < v < 2 ^ 16 -> Z.of_nat n < TINYMAC_SECONDS v ->
  let wk0 := snd (@tinymac_send Ek (Z.of_nat i + 1) ft buf v cb wk) in
  let wk1 := @ticks Ek n wk0 in
  beacon_due P (u16 (m_slot (ctx wk1) + 1)) = true ->
  let wk2 := snd (@tinymac_tick_handler Ek wk1) in
  log wk0 = log wk /\
  exists wc1 wk3 wc2 wk4,
    received Ec (log wk1) (log wk2) wc wc1 /\
    received Ek (log wc) (log wc1) wk2 wk3 /\
    received Ec (log wk2) (log wk3) wc1 wc2 /\
    delivered (EvRecvCb (Some PCoord) (Z.land ft TINYMAC_FLAGS_TYPE_MASK) buf) (log wc1) (log wc2) /\
    received Ek (log wc1) (log wc2) wk3 wk4 /\
    completed Ek (PNode i) cb wk4.
Proof.
  intros HP J I Hpc Hpk HsP Hon Honc Hs Hsl Hat Hft Ht Ha Hb Hf Hm Hm50 Hv Hn wk0 wk1 Hdue wk2.
  destruct (stored_packet Ek P C i wk wc ft buf v cb n J Hs Hsl Hat Hft Ht Hb Hf Hv Hn) as (L0 & J1 & M1 & D1).
  fold wk0 in L0. fold wk0 wk1 in J1, M1, D1. split; [done|].
  assert (Hl2 : listening wk2).
  { apply stays_tick_handler, stays_ticks, stays_send. split; [|done].
    by rewrite (ok_params _ _ (proj1 (jn_coordinator _ _ _ _ _ J))). }
  set (hdr := tx_header wk ft _) in *.
  destruct (beacon_polls Ek Ec P C i HP wk1 wc hdr buf cb _ J1 I D1) as
    (wc1 & l & H1 & J2 & I2 & D2 & M2 & Hl & Hpl & Lc); [lia|done|done|]. fold wk2 in H1, J2, D2, M2.
  assert (Hc1 : receiver_on (log wc1) = true) by (rewrite Lc; apply on_phy_log; [done|intros E; by rewrite Hpl]).
  destruct (poll_fetches Ek Ec P C i wk2 wc1 wc hdr buf cb _ l J2 I2 D2) as (wk3 & H2 & J3 & F3 & M3); try done.
  { unfold sizeof_header in *; lia. }
  { rewrite (jn_net _ _ _ _ _ J), (jn_net _ _ _ _ _ J2). congruence. }
  { by rewrite (jn_addr _ _ _ _ _ J2), (jn_addr _ _ _ _ _ J). }
  { apply (jn_client _ _ _ _ _ J). }
  assert (Hl3 : listening wk3).
  { destruct H2 as (? & ? & ? & ? & ? & ? & _ & _ & _ & _ & ->). by apply stays_recv_cb. }
  destruct (deferred_header P C i wk wk3 wc ft J Hft) as [Hok Eh]; [congruence|]. fold hdr in Hok, Eh.
  destruct (packet_arrives Ek Ec P C i wk2 wk3 wc1 hdr buf cb J3 I2 Hc1 F3) as (wc2 & s & l2 & H3 & Hd & Hl' & Hs2);
    try done.
  { rewrite Eh at 1. f_equal. by rewrite (jn_addr _ _ _ _ _ J3), (jn_addr _ _ _ _ _ J). }
  destruct (ack_ends Ek Ec P C i wk2 wk3 wc1 wc2 hdr buf cb s l2 J3 (proj2 Hl3) F3 Hok) as (wk4 & H4 & Hc);
    [unfold sizeof_header in *; lia|done|done|].
  exists wc1, wk3, wc2, wk4.
  split_and!; [by split|split; [exact H2|apply Hl2]|exact H3|exact Hd|exact H4|exact Hc].
Qed.


(** ** Instances: both roles over the UDP driver *)

Definition client_listening : world := snd (tinymac_register_recv_cb true client_registered).

Lemma client_listening_inv : inv client_params client_listening.
Proof.
  apply (@reachable_inv env_quiet). eapply reach_step; [apply client_registered_reachable|].
  exact (@step_register_recv env_quiet true client_registered).
Qed.

Lemma joined_awake : joined coord_params client_params 0 coord_awake client_listening.
Proof.
  split; [apply (@reachable_inv env_quiet), coord_awake_reachable|reflexivity|apply client_listening_inv|..].
  all: first [vm_compute; reflexivity | unfold TINYMAC_MAX_NODES; lia | vm_compute; discriminate].
Qed.

(** A client that is a sleepy node by its own parameters, after registration:
    its receiver is in standby. *)
Definition sleepy_params : tinymac_params_t := mk_params ex_uuid false (16 + 5) 0 0.

Definition sleepy_registered : world :=
  recv ex_response (recv ex_beacon (tick (snd (@tinymac_init env_quiet sleepy_params 10 20 7 world_zero)))).

Definition sleepy_client : world := snd (tinymac_register_recv_cb true sleepy_registered).

Example sleepy_client_in_standby : receiver_on (log sleepy_client) = false.
Proof. vm_compute. reflexivity. Qed.

Lemma sleepy_client_inv : inv sleepy_params sleepy_client.
Proof.
  apply (@reachable_inv env_quiet). eapply reach_step; [|exact (@step_register_recv env_quiet true sleepy_registered)].
  do 2 (apply reachable_recv; [reflexivity|]). apply reachable_tick, reach_boot.
  repeat split; vm_compute; congruence.
Qed.

Lemma joined_sleepy : joined coord_params sleepy_params 0 coord_sleepy sleepy_client.
Proof.
  split; [apply (@reachable_inv env_quiet), coord_sleepy_reachable|reflexivity|apply sleepy_client_inv|..].
  all: first [vm_compute; reflexivity | unfold TINYMAC_MAX_NODES; lia | vm_compute; discriminate].
Qed.


