(* ===== verification/Sensor.v ===== *)
(** * The sensor example ([examples/sensor/main.c])

    The firmware of a sleepy sensor node: it posts its battery voltage every
    five seconds and switches its LED on command.  The model has the timer
    interrupt, the battery measurement, the callbacks and the body of the main
    loop over the MAC ([Mac.v]) and the board's ports ([Board.v]).

    The result of the ADC conversion and what the PHY event handler delivers in
    a pass are inputs, and sleeping is the boundary between two passes; the
    processor's registers, the sleep and the interrupts that fall into a pass
    are in [SensorFw.v]. *)

From stdpp Require Import base list numbers.
From Stdlib Require Import ZArith Lia.
From S2P Require Import Prelude Wire MacState Mac MacInv MacRun MacEx MacTx MacApp Board.

(** ** State and operations *)

Definition VREF_MV : Z := 1100.

Record sensor := mk_sensor {
  timer_tick_count : Z;          (* uint32_t *)
  next_mac_tick : Z;             (* uint32_t *)
  next_post : Z;                 (* uint32_t *)
  ports : avr;
  mac : world
}.

(** [TIMER2_OVF_vect] *)
Definition timer_isr (s : sensor) : sensor :=
  mk_sensor (u32 (timer_tick_count s + 1)) (next_mac_tick s) (next_post s) (ports s) (mac s).

(** [adc] is the ADC register; a reading of zero divides by zero. *)
Definition vbatt_mv (adc : Z) : option Z :=
  if u32 adc =? 0 then None else Some (u16 (u32 (1024 * VREF_MV) / u32 adc)).

Definition rx_handler (type : Z) (buf : list Z) (r : avr) : avr :=
  if type =? type_code tinymacType_RawData then
    match buf with
    | [] => r
    | c :: _ => if negb (c =? 0) then SETP LED r else CLEARP LED r
    end
  else r.

(** The callbacks made between two logs of the MAC, applied to the ports. *)
Definition on_event (e : event) (r : avr) : avr :=
  match e with EvRecvCb _ type buf => rx_handler type buf r | _ => r end.
Definition react (before after : list event) (r : avr) : avr :=
  fold_right on_event r (take (length after - length before) after).

(** A call of the MAC from the main loop. *)
Definition with_mac {A} (m : M A) (s : sensor) : sensor :=
  let w' := snd (m (mac s)) in
  mk_sensor (timer_tick_count s) (next_mac_tick s) (next_post s)
    (react (log (mac s)) (log w') (ports s)) w'.

Definition due (now next : Z) : bool := 0 <=? i32 (now - next).

Definition sensor_params : tinymac_params_t :=
  mk_params 0x123456789abcdef0 false (Z.lor TINYMAC_ATTACH_FLAGS_SLEEPY 5) 0 0.

Section Sensor.
Context (mtu : Z) (rc : list event -> Z).
#[local] Instance sensor_env : Env := passive_env mtu rc.

Definition post_message (adc : Z) (s : sensor) : option sensor :=
  match vbatt_mv adc with
  | None => None
  | Some battmv =>
      Some (with_mac (tinymac_send 0 (type_code tinymacType_RawData) (le_bytes 2 battmv) 0 None) s)
  end.

(** One pass of the main loop, from the count it has read: [adc] is what a
    measurement would give, [rx] the packet and signal strength
    [phy_event_handler] delivers, if any. *)
Definition tick_part (now : Z) (s : sensor) : sensor :=
  if due now (next_mac_tick s) then
    with_mac tinymac_tick_handler
      (mk_sensor (timer_tick_count s) (u32 (now + 1)) (next_post s) (ports s) (mac s))
  else s.

Definition rest_part (now adc : Z) (rx : option (list Z * Z)) (s : sensor) : option sensor :=
  let s' :=
    if due now (next_post s) then
      post_message adc
        (mk_sensor (timer_tick_count s) (next_mac_tick s) (u32 (now + 20)) (ports s) (mac s))
    else Some s in
  match s', rx with
  | Some s, Some (buf, rssi) => Some (with_mac (tinymac_recv_cb buf rssi) s)
  | _, _ => s'
  end.

Definition loop_body_at (now adc : Z) (rx : option (list Z * Z)) (s : sensor) : option sensor :=
  rest_part now adc rx (tick_part now s).

(** The pass when no interrupt falls into the reading of the count. *)
Definition loop_body (adc : Z) (rx : option (list Z * Z)) (s : sensor) : option sensor :=
  loop_body_at (timer_tick_count s) adc rx s.

(** [main] up to its loop. *)
Definition sensor_boot (pins : port -> Z) (r1 r2 r3 : Z) : sensor :=
  mk_sensor 0 0 0 (TRX_ON (board_init pins))
    (snd (tinymac_register_recv_cb true (snd (tinymac_init sensor_params r1 r2 r3 world_zero)))).

(** A run: in each pass the timer has advanced by some interrupts. *)
Record pass := mk_pass { ps_ticks : nat; ps_adc : Z; ps_rx : option (list Z * Z) }.

Fixpoint run_loop (ps : list pass) (s : sensor) : option sensor :=
  match ps with
  | [] => Some s
  | p :: ps =>
      match loop_body (ps_adc p) (ps_rx p) (Nat.iter (ps_ticks p) timer_isr s) with
      | Some s => run_loop ps s
      | None => None
      end
  end.

(** ** The schedule in unbounded time

    The same loop with a clock that never wraps: [nm] and [np] are the times
    from which the next tick and the next post are due. *)

Record plan := mk_plan { pl_now : Z; pl_mac : Z; pl_post : Z; pl_ports : avr; pl_world : world }.

Definition plan_body (adc : Z) (rx : option (list Z * Z)) (p : plan) : option plan :=
  let now := pl_now p in
  let step {A} (m : M A) (p : plan) : plan :=
    let w' := snd (m (pl_world p)) in
    mk_plan now (pl_mac p) (pl_post p) (react (log (pl_world p)) (log w') (pl_ports p)) w' in
  let p := if pl_mac p <=? now
           then step tinymac_tick_handler (mk_plan now (now + 1) (pl_post p) (pl_ports p) (pl_world p))
           else p in
  let p' := if pl_post p <=? now then
              match vbatt_mv adc with
              | None => None
              | Some mv => Some (step (tinymac_send 0 (type_code tinymacType_RawData) (le_bytes 2 mv) 0 None)
                             (mk_plan now (pl_mac p) (now + 20) (pl_ports p) (pl_world p)))
              end
            else Some p in
  match p', rx with
  | Some p, Some (buf, rssi) => Some (step (tinymac_recv_cb buf rssi) p)
  | _, _ => p'
  end.

Fixpoint plan_loop (ps : list pass) (p : plan) : option plan :=
  match ps with
  | [] => Some p
  | q :: ps =>
      match plan_body (ps_adc q) (ps_rx q)
              (mk_plan (pl_now p + Z.of_nat (ps_ticks q)) (pl_mac p) (pl_post p) (pl_ports p) (pl_world p)) with
      | Some p => plan_loop ps p
      | None => None
      end
  end.

Definition wrap (p : plan) : sensor :=
  mk_sensor (u32 (pl_now p)) (u32 (pl_mac p)) (u32 (pl_post p)) (pl_ports p) (pl_world p).

(** The deadlines lie in the near future, as at the end of every pass. *)
Definition fresh (p : plan) : Prop :=
  pl_now p <= pl_mac p <= pl_now p + 1 /\ pl_now p <= pl_post p <= pl_now p + 20.

Definition short (p : pass) : Prop := Z.of_nat (ps_ticks p) < 2 ^ 31.

Lemma due_spec a b : -20 <= a - b < 2 ^ 31 -> due (u32 a) (u32 b) = (b <=? a).
Proof.
  intros H. unfold due. rewrite i32_diff by lia. apply eq_true_iff_eq. rewrite !Z.leb_le. lia.
Qed.

Lemma u32_add_l a b : u32 (u32 a + b) = u32 (a + b).
Proof. unfold u32. by rewrite Zplus_mod_idemp_l. Qed.

Lemma iter_isr n p :
  Nat.iter n timer_isr (wrap p) =
  wrap (mk_plan (pl_now p + Z.of_nat n) (pl_mac p) (pl_post p) (pl_ports p) (pl_world p)).
Proof.
  induction n as [|n IH]; [unfold wrap; cbn; by rewrite Z.add_0_r|].
  cbn [Nat.iter nat_rect]. unfold Nat.iter in IH. rewrite IH.
  unfold timer_isr, wrap; cbn [timer_tick_count next_mac_tick next_post ports mac pl_now pl_mac pl_post pl_ports pl_world].
  rewrite u32_add_l. f_equal. f_equal. lia.
Qed.

Lemma body_refines adc rx p :
  -20 <= pl_now p - pl_mac p < 2 ^ 31 -> -20 <= pl_now p - pl_post p < 2 ^ 31 ->
  loop_body adc rx (wrap p) = wrap <$> plan_body adc rx p.
Proof.
  intros H1 H2. unfold loop_body, loop_body_at, rest_part, tick_part, plan_body, wrap.
  cbn [timer_tick_count next_mac_tick next_post ports mac].
  rewrite due_spec, !u32_add_l by done.
  destruct (pl_mac p <=? pl_now p);
    cbn [with_mac timer_tick_count next_mac_tick next_post ports mac pl_now pl_mac pl_post pl_ports pl_world];
    rewrite due_spec by done;
    destruct (pl_post p <=? pl_now p); unfold post_message, with_mac;
    cbn [timer_tick_count next_mac_tick next_post ports mac pl_now pl_mac pl_post pl_ports pl_world];
    try destruct (vbatt_mv adc); try done; destruct rx as [[buf rssi]|]; done.
Qed.

Lemma body_fresh adc rx p p' :
  pl_mac p <= pl_now p + 1 -> pl_post p <= pl_now p + 20 ->
  plan_body adc rx p = Some p' -> fresh p'.
Proof.
  intros H1 H2. unfold plan_body.
  destruct (Z.leb_spec (pl_mac p) (pl_now p));
    cbn [pl_now pl_mac pl_post pl_ports pl_world];
    destruct (Z.leb_spec (pl_post p) (pl_now p));
    try destruct (vbatt_mv adc); try done; destruct rx as [[buf rssi]|]; intros [= <-];
    unfold fresh; cbn [pl_now pl_mac pl_post pl_ports pl_world]; lia.
Qed.

(** The main loop keeps its schedule across the wrap of the 32-bit tick
    counter: with fewer than 2^31 timer interrupts between two passes, the loop
    does exactly what it would do with a clock that never wraps - in each pass,
    the MAC's tick handler if at least one timer interrupt has come since the
    last time, and a post if at least twenty have - with the same effect on
    the MAC and the ports. *)
Theorem sensor_schedule_exact ps p :
  fresh p -> Forall short ps -> run_loop ps (wrap p) = wrap <$> plan_loop ps p.
Proof.
  intros Hf Hs. revert p Hf. induction Hs as [|q ps Hq _ IH]; intros p [H1 H2]; [done|].
  cbn [run_loop plan_loop]. unfold short in Hq. rewrite iter_isr, body_refines; cbn [pl_now pl_mac pl_post]; [|lia..].
  destruct (plan_body _ _ _) as [p'|] eqn:E; cbn; [|done].
  apply IH. eapply body_fresh; [| |exact E]; cbn [pl_now pl_mac pl_post]; lia.
Qed.

(** *** Battery *)

Lemma vbatt_spec adc :
  18 <= adc < 1024 ->
  exists mv, vbatt_mv adc = Some mv /\ is_u16 mv /\ mv * adc <= 1024 * VREF_MV < (mv + 1) * adc.
Proof.
  intros Ha. unfold vbatt_mv. change (u32 (1024 * VREF_MV)) with 1126400. change (1024 * VREF_MV) with 1126400.
  rewrite (u32_id adc) by (widths; lia). destruct (Z.eqb_spec adc 0); [lia|].
  assert (Hq : 0 <= 1126400 / adc < 65536).
  { split; [apply Z.div_pos; lia|]. apply Z.div_lt_upper_bound; lia. }
  exists (u16 (1126400 / adc)). rewrite u16_id by (widths; lia). split_and!; [done|widths; lia|..].
  - pose proof (Z.mul_div_le 1126400 adc ltac:(lia)). lia.
  - pose proof (Z.mul_succ_div_gt 1126400 adc ltac:(lia)). lia.
Qed.

(** A post of a registered sensor whose coordinator is free transmits one
    data packet to the coordinator, whose two bytes are, low byte first, the
    battery voltage in mV computed from the ADC reading (1024 times the
    reference voltage over the reading, rounded down, for any reading from 18);
    the LED and the other ports are untouched. *)
Theorem sensor_posts_battery adc s :
  18 <= adc < 1024 ->
  m_params (ctx (mac s)) = sensor_params ->
  n_state (m_coord (ctx (mac s))) = tinymacNodeState_Registered ->
  n_addr (m_coord (ctx (mac s))) = 0 -> sleepy (n_flags (m_coord (ctx (mac s)))) = false ->
  8 <= m_phy_mtu (ctx (mac s)) ->
  exists s' hdr mv data after,
    post_message adc s = Some s' /\ ports s' = ports s /\
    log (mac s') = after :: EvPhySend [header_bytes hdr; data] 0 :: log (mac s) /\
    h_flags hdr = type_code tinymacType_RawData /\ h_dest_addr hdr = 0 /\
    h_src_addr hdr = m_addr (ctx (mac s)) /\
    le_val data = mv /\ length data = 2%nat /\ mv * adc <= 1024 * VREF_MV < (mv + 1) * adc.
Proof.
  intros Ha Hp Hs Haddr Hsl Hm. destruct (vbatt_spec adc Ha) as (mv & Hv & Hu & Hmv).
  unfold post_message. rewrite Hv. unfold with_mac.
  assert (Hg : tinymac_get_node_by_addr (ctx (mac s)) 0 = Some PCoord).
  { unfold tinymac_get_node_by_addr. rewrite Hp. cbn [p_coordinator sensor_params].
    by rewrite Hs, Haddr. }
  rewrite (send_plain PCoord); [|vm_compute; congruence|done|done| |done|done].
  2:{ split; [vm_compute; congruence|]. unfold sizeof_header. cbn. lia. }
  eexists _, _, mv, (le_bytes 2 mv), _. split; [reflexivity|].
  cbn [ports mac snd log set_log]. unfold phy_log. rewrite Hp.
  change (sleepy (p_flags sensor_params)) with true. cbv iota. split.
  { unfold react. cbn [log set_log length].
    replace (S (S (length (log (mac s)))) - length (log (mac s)))%nat with 2%nat by lia.
    cbn [take fold_right on_event]. by destruct (_ <? 0). }
  split; [reflexivity|]. split; [reflexivity|]. cbn [node_at h_dest_addr tx_header h_src_addr].
  split_and!; [done|done|by apply le_val_bytes_id; widths; cbn; lia|done|lia|lia].
Qed.

(** *** The LED *)

Lemma led_ok : pin_ok LED.
Proof. split; [done|]. cbn. lia. Qed.

Lemma rx_handler_led c rest r :
  level LED (rx_handler (type_code tinymacType_RawData) (c :: rest) r) = negb (c =? 0).
Proof.
  unfold rx_handler. rewrite Z.eqb_refl. destruct (negb (c =? 0)).
  - by rewrite level_setp by apply led_ok.
  - by rewrite level_clearp by apply led_ok.
Qed.

Lemma react_last before e l r :
  (length before <= length l)%nat -> exists r', react before (e :: l) r = on_event e r'.
Proof.
  intros H. unfold react. cbn [length]. replace (S (length l) - length before)%nat
    with (S (length l - length before)) by lia. cbn [take fold_right]. eauto.
Qed.

(** A raw data packet that reaches the sensor from its coordinator, in
    whatever state the exchange with the coordinator is, leaves the LED on if
    its first byte is not zero and off if it is. *)
Theorem led_follows_command hdr c rest rssi s :
  heard_from PCoord hdr (mac s) -> data_type hdr = type_code tinymacType_RawData ->
  m_rx_cb (ctx (mac s)) = true ->
  level LED (ports (with_mac (tinymac_recv_cb (header_bytes hdr ++ c :: rest) rssi) s)) = negb (c =? 0).
Proof.
  intros Hh Ht Hcb. unfold with_mac.
  destruct (recv_data PCoord hdr (c :: rest) rssi (mac s) Hh ltac:(by rewrite Ht) Hcb) as (_ & Hg & ->).
  unfold sensor_env in *. rewrite passive_upcall. cbn [ports snd log set_log]. set (w1 := snd _) in *.
  apply suffix_length in Hg. destruct (react_last (log (mac s)) (EvRecvCb (Some PCoord) (data_type hdr) (c :: rest))
    (log w1) (ports s) Hg) as [r' ->].
  cbn [on_event]. rewrite Ht. apply rx_handler_led.
Qed.
End Sensor.

(** ** Instances *)

Definition rc_ok : list event -> Z := fun _ => 0.
Definition sensor0 : sensor := sensor_boot 62 rc_ok (fun _ => 0) 10 20 7.

(** The sensor after a tick, a beacon and the response of its coordinator. *)
Definition sensor_joined : sensor :=
  with_mac (@tinymac_recv_cb (passive_env 62 rc_ok) ex_response (-40))
    (with_mac (@tinymac_recv_cb (passive_env 62 rc_ok) ex_beacon (-40))
       (with_mac (@tinymac_tick_handler (passive_env 62 rc_ok)) sensor0)).

Definition late_plan : plan :=
  mk_plan (2 ^ 32 - 3) (2 ^ 32 - 2) (2 ^ 32 + 5) (ports sensor_joined) (mac sensor_joined).

Lemma sensor_schedule_exact_witness :
  run_loop 62 rc_ok [mk_pass 1 300 None; mk_pass 9 300 None; mk_pass 0 300 None] (wrap late_plan) =
  wrap <$> plan_loop 62 rc_ok [mk_pass 1 300 None; mk_pass 9 300 None; mk_pass 0 300 None] late_plan.
Proof.
  apply (sensor_schedule_exact 62 rc_ok).
  - unfold fresh, late_plan. cbn [pl_now pl_mac pl_post]. lia.
  - repeat constructor.
Defined.

Lemma sensor_posts_battery_witness :
  exists s' hdr mv data after,
    post_message 62 rc_ok 400 sensor_joined = Some s' /\ ports s' = ports sensor_joined /\
    log (mac s') = after :: EvPhySend [header_bytes hdr; data] 0 :: log (mac sensor_joined) /\
    h_flags hdr = type_code tinymacType_RawData /\ h_dest_addr hdr = 0 /\
    h_src_addr hdr = m_addr (ctx (mac sensor_joined)) /\
    le_val data = mv /\ length data = 2%nat /\ mv * 400 <= 1024 * VREF_MV < (mv + 1) * 400.
Proof.
  apply (sensor_posts_battery 62 rc_ok 400 sensor_joined);
    [lia|vm_compute; reflexivity..|vm_compute; congruence].
Defined.

Lemma led_follows_command_witness :
  level LED (ports (with_mac (@tinymac_recv_cb (passive_env 62 rc_ok)
    (header_bytes (mk_header (type_code tinymacType_RawData) 7 1 0 9) ++ [1]) (-40)) sensor_joined)) = true.
Proof.
  apply (led_follows_command 62 rc_ok (mk_header (type_code tinymacType_RawData) 7 1 0 9) 1 [] (-40) sensor_joined).
  - split; try (vm_compute; congruence); try (vm_compute; reflexivity).
    repeat split; vm_compute; congruence.
  - vm_compute. reflexivity.
  - vm_compute. reflexivity.
Defined.
