(* ===== verification/SensorFw.v ===== *)
(** * The sensor's processor ([examples/sensor/main.c])

    The set-up of the ATmega328's clock, interrupts and timer, the sleep between
    two passes of the main loop, and the interrupts that fall into a pass.  The
    processor runs one action at a time: a timer overflow, a radio interrupt or
    the next piece of the main loop.  The 32-bit count is read a byte at a time,
    as an 8-bit processor must, so an interrupt may fall between two bytes.

    The numbers of the registers' bits are those of the processor's header, the
    class [AvrBits].  The body of a pass between reading the count and the sleep
    is one action: it looks at the count no more ([body_set_count]). *)

From stdpp Require Import base list numbers sets.
From Stdlib Require Import ZArith Lia.
From S2P Require Import Prelude Wire MacState Mac MacApp Board Sensor.

(** ** Registers *)

Class AvrBits := mk_bits {
  AS2 : Z; TCN2UB : Z; TCR2AUB : Z; TCR2BUB : Z;   (* ASSR *)
  CS21 : Z; CS20 : Z;                              (* TCCR2B *)
  TOV2 : Z; TOIE2 : Z; INT0 : Z;                   (* TIFR2, TIMSK2, EIMSK *)
  clock_div_2 : Z; SLEEP_MODE_PWR_SAVE : Z
}.

Class AvrLaws (A : AvrBits) : Prop := {
  int0_bit : 0 <= INT0 < 8;
  toie2_bit : 0 <= TOIE2 < 8
}.

Definition BV (b : Z) : Z := 1 ≪ b.

Record regs := mk_regs {
  MCUSR : Z; EIMSK : Z; EICRA : Z;
  ASSR : Z; TCNT2 : Z; TCCR2A : Z; TCCR2B : Z; TIFR2 : Z; TIMSK2 : Z;
  CLKPR : Z;                     (* clock_prescale_set *)
  SMCR : Z;                      (* set_sleep_mode *)
  watchdog : bool;               (* wdt_disable *)
  interrupts : bool              (* sei *)
}.

Definition set_EIMSK (v : Z) (r : regs) : regs :=
  mk_regs (MCUSR r) (u8 v) (EICRA r) (ASSR r) (TCNT2 r) (TCCR2A r) (TCCR2B r) (TIFR2 r) (TIMSK2 r)
    (CLKPR r) (SMCR r) (watchdog r) (interrupts r).
Definition set_SMCR (v : Z) (r : regs) : regs :=
  mk_regs (MCUSR r) (EIMSK r) (EICRA r) (ASSR r) (TCNT2 r) (TCCR2A r) (TCCR2B r) (TIFR2 r) (TIMSK2 r)
    (CLKPR r) v (watchdog r) (interrupts r).

(** [while (ASSR & mask);] over the values the register is read with: the
    readings left when it ends. *)
Fixpoint wait_clear (mask : Z) (readings : list Z) : option (list Z) :=
  match readings with
  | [] => None
  | v :: rest => if v &? mask then wait_clear mask rest else Some rest
  end.

Section Firmware.
Context `{A : AvrBits} (mtu : Z) (rc : list event -> Z).

(** The start of [main]: [r] holds the registers at reset, [readings] what
    [ASSR] reads while the clock domains are synchronised.  A bit of [TIFR2] is
    cleared by writing one to it. *)
Definition clock_setup (r : regs) : regs :=
  mk_regs 0 0 0 (ASSR r) (TCNT2 r) (TCCR2A r) (TCCR2B r) (TIFR2 r) (TIMSK2 r)
    clock_div_2 (SMCR r) false (interrupts r).

Definition timer_setup (readings : list Z) (r : regs) : option regs :=
  match wait_clear (Z.lor (Z.lor (BV TCN2UB) (BV TCR2AUB)) (BV TCR2BUB)) readings with
  | Some _ =>
      Some (mk_regs (MCUSR r) (EIMSK r) (EICRA r) (BV AS2) 0 0 (Z.lor (BV CS21) (BV CS20))
        (Z.land (TIFR2 r) (Z.lnot (BV TOV2))) (BV TOIE2) (CLKPR r) (SMCR r) (watchdog r) true)
  | None => None
  end.

(** ** The main loop and its interrupts *)

Inductive place : Set :=
| Reading (read todo : list nat) (now : list Z)  (* uint32_t now = timer_tick_count *)
| Body (now : Z)                                 (* until the PHY event handler has run *)
| Enable                                         (* EIMSK |= _BV(INT0) *)
| Sync                                           (* while (ASSR & _BV(TCR2AUB)) *)
| Prepare                                        (* set_sleep_mode, sleep_bod_disable *)
| Asleep                                         (* sleep_mode *)
| Disable.                                       (* EIMSK &= ~_BV(INT0) *)

Record firmware := mk_fw { fw_place : place; fw_regs : regs; fw_app : sensor }.

(** What happens next; an instruction carries what it would read: the [ASSR]
    register, an ADC conversion, a packet of the PHY. *)
Inductive action : Set :=
| TimerOverflow
| RadioInterrupt
| Instr (assr adc : Z) (rx : option (list Z * Z)).

(** The order in which the compiled code reads the four bytes. *)
Context (order : list nat).

Definition pass_start : place := Reading [] order [0; 0; 0; 0].

Definition wake (p : place) : place := match p with Asleep => Disable | _ => p end.

(** The next piece of [sleep]; the processor executes nothing while asleep. *)
Definition sleep (assr : Z) (f : firmware) : firmware :=
  let r := fw_regs f in
  match fw_place f with
  | Sync => if assr &? BV TCR2AUB then f else mk_fw Prepare r (fw_app f)
  | Prepare => mk_fw Asleep (set_SMCR SLEEP_MODE_PWR_SAVE r) (fw_app f)
  | _ => f
  end.

(** The loop's next piece; [None] is the division by an ADC reading of zero. *)
Definition instr (assr adc : Z) (rx : option (list Z * Z)) (f : firmware) : option firmware :=
  let r := fw_regs f in
  let s := fw_app f in
  match fw_place f with
  | Reading rd (k :: todo) now =>
      Some (mk_fw (Reading (rd ++ [k]) todo (<[k := le_bytes 4 (timer_tick_count s) !!! k]> now)) r s)
  | Reading _ [] now => Some (mk_fw (Body (le_val now)) r s)
  | Body now =>
      match loop_body_at mtu rc now adc rx s with
      | Some s => Some (mk_fw Enable r s)
      | None => None
      end
  | Enable => Some (mk_fw Sync (set_EIMSK (Z.lor (EIMSK r) (BV INT0)) r) s)
  | Sync | Prepare | Asleep => Some (sleep assr f)
  | Disable => Some (mk_fw pass_start (set_EIMSK (Z.land (EIMSK r) (Z.lnot (BV INT0))) r) s)
  end.

(** An interrupt that is not enabled is not taken; [INT0_vect] is empty. *)
Definition act (a : action) (f : firmware) : option firmware :=
  let r := fw_regs f in
  match a with
  | TimerOverflow =>
      if interrupts r && (TIMSK2 r &? BV TOIE2)
      then Some (mk_fw (wake (fw_place f)) r (timer_isr (fw_app f)))
      else Some f
  | RadioInterrupt =>
      if interrupts r && (EIMSK r &? BV INT0)
      then Some (mk_fw (wake (fw_place f)) r (fw_app f))
      else Some f
  | Instr assr adc rx => instr assr adc rx f
  end.

Fixpoint execute (l : list action) (f : firmware) : option firmware :=
  match l with
  | [] => Some f
  | a :: l => match act a f with Some f => execute l f | None => None end
  end.

(** [main] as far as the first pass. *)
Definition fw_boot (reset : regs) (readings : list Z) (pins : port -> Z) (r1 r2 r3 : Z) : option firmware :=
  match timer_setup readings (clock_setup reset) with
  | Some r => Some (mk_fw pass_start r (sensor_boot mtu rc pins r1 r2 r3))
  | None => None
  end.

(** An interrupt that carries into the bytes of the count while some of them
    have been read and others have not. *)
Definition torn (a : action) (f : firmware) : bool :=
  match a, fw_place f with
  | TimerOverflow, Reading (_ :: _) (_ :: _) _ => timer_tick_count (fw_app f) mod 256 =? 255
  | _, _ => false
  end.

Fixpoint untorn (l : list action) (f : firmware) : bool :=
  match l with
  | [] => true
  | a :: l =>
      negb (torn a f) && match act a f with Some f => untorn l f | None => true end
  end.

Definition measures (a : action) : Prop :=
  match a with Instr _ adc _ => u32 adc <> 0 | _ => True end.

(** The timer interrupt is on, and the radio's is on from [Enable] to
    [Disable]. *)
Definition armed (f : firmware) : Prop :=
  interrupts (fw_regs f) = true /\ (TIMSK2 (fw_regs f) &? BV TOIE2) = true /\
  (EIMSK (fw_regs f) &? BV INT0) =
    match fw_place f with Sync | Prepare | Asleep | Disable => true | _ => false end.
End Firmware.

(** ** Interrupt enables *)

Section Interrupts.
Context `{A : AvrBits, L : !AvrLaws A} (mtu : Z) (rc : list event -> Z) (order : list nat).

Lemma bv_set x b : 0 <= b -> (x &? BV b) = Z.testbit x b.
Proof.
  intros Hb. unfold bit_set, BV. rewrite Z.shiftl_1_l. destruct (Z.testbit x b) eqn:E.
  - apply negb_true_iff, Z.eqb_neq. intros H.
    assert (Hf : Z.testbit (Z.land x (2 ^ b)) b = false) by (by rewrite H, Z.bits_0).
    by rewrite Z.land_spec, E, Z.pow2_bits_true in Hf.
  - apply negb_false_iff, Z.eqb_eq. apply Z.bits_inj'. intros n Hn.
    rewrite Z.land_spec, Z.bits_0, Z.pow2_bits_eqb by done.
    destruct (Z.eqb_spec b n) as [<-|]; [by rewrite E|by rewrite andb_false_r].
Qed.

Lemma u8_bit x b : 0 <= b < 8 -> (u8 x &? BV b) = (x &? BV b).
Proof. intros Hb. rewrite !bv_set by lia. unfold u8. by rewrite Z.mod_pow2_bits_low by lia. Qed.

Lemma eimsk_on x : (u8 (Z.lor x (BV INT0)) &? BV INT0) = true.
Proof.
  pose proof int0_bit. rewrite u8_bit, bv_set, Z.lor_spec by lia.
  unfold BV. rewrite Z.shiftl_1_l, Z.pow2_bits_true by lia. apply orb_true_r.
Qed.

Lemma eimsk_off x : (u8 (Z.land x (Z.lnot (BV INT0))) &? BV INT0) = false.
Proof.
  pose proof int0_bit. rewrite u8_bit, bv_set, Z.land_spec, Z.lnot_spec by lia.
  unfold BV. rewrite Z.shiftl_1_l, Z.pow2_bits_true by lia. apply andb_false_r.
Qed.

Lemma act_armed a f f' : armed f -> act mtu rc order a f = Some f' -> armed f'.
Proof.
  intros (Hi & Ht & He). unfold act, armed in *. destruct a as [| |assr adc rx].
  - rewrite Hi, Ht. cbn. intros [= <-]. cbn. by destruct (fw_place f).
  - destruct (_ && _); intros [= <-]; cbn; [by destruct (fw_place f)|done].
  - unfold instr, sleep. destruct (fw_place f) as [rd [|k todo] now|now| | | | |] eqn:Ep;
      try destruct (loop_body_at _ _ _ _ _ _); try destruct (assr &? _); intros [= <-];
      cbn; rewrite ?Ep; auto using eimsk_on, eimsk_off.
Qed.

Lemma execute_armed l f f' : armed f -> execute mtu rc order l f = Some f' -> armed f'.
Proof.
  revert f. induction l as [|a l IH]; intros f Hf; cbn; [by intros [= <-]|].
  destruct (act _ _ _ a f) as [g|] eqn:E; [|done]. apply IH. by eapply act_armed.
Qed.

(** Whatever the registers hold at reset, the processor reaches its loop if the
    timer's clock domains ever agree, with the timer's interrupt as its only
    one. *)
Theorem boot_armed reset readings pins r1 r2 r3 :
  (exists l v, readings = l ++ [v] /\
     (v &? Z.lor (Z.lor (BV TCN2UB) (BV TCR2AUB)) (BV TCR2BUB)) = false) ->
  exists f, fw_boot mtu rc order reset readings pins r1 r2 r3 = Some f /\ armed f /\
    fw_place f = pass_start order /\ fw_app f = sensor_boot mtu rc pins r1 r2 r3 /\
    watchdog (fw_regs f) = false.
Proof.
  intros (l & v & -> & Hv). unfold fw_boot, timer_setup.
  assert (Hw : exists rest, wait_clear (Z.lor (Z.lor (BV TCN2UB) (BV TCR2AUB)) (BV TCR2BUB)) (l ++ [v]) = Some rest).
  { induction l as [|x l IH]; cbn; [rewrite Hv; eauto|]. destruct (x &? _); [apply IH|eauto]. }
  destruct Hw as [rest ->]. eexists. split; [reflexivity|]. split_and!; try done.
  pose proof toie2_bit. unfold armed; cbn. split_and!; [done| |].
  - rewrite bv_set by lia. unfold BV. rewrite Z.shiftl_1_l. apply Z.pow2_bits_true. lia.
  - pose proof int0_bit. rewrite bv_set by lia. apply Z.bits_0.
Qed.
End Interrupts.

(** ** The count *)

Section Schedule.
Context `{A : AvrBits, L : !AvrLaws A} (mtu : Z) (rc : list event -> Z).

Definition set_count (c : Z) (s : sensor) : sensor :=
  mk_sensor c (next_mac_tick s) (next_post s) (ports s) (mac s).

Lemma set_count_same s : set_count (timer_tick_count s) s = s.
Proof. by destruct s. Qed.

(** Apart from reading it, a pass has nothing to do with the count. *)
Lemma body_set_count now adc rx c s :
  loop_body_at mtu rc now adc rx (set_count c s) = set_count c <$> loop_body_at mtu rc now adc rx s.
Proof.
  unfold loop_body_at, rest_part, tick_part, post_message, with_mac, set_count.
  cbn [timer_tick_count next_mac_tick next_post ports mac].
  destruct (due now (next_mac_tick s)); cbn [timer_tick_count next_mac_tick next_post ports mac];
    destruct (due now (next_post s)); cbn [timer_tick_count next_mac_tick next_post ports mac];
    try destruct (vbatt_mv adc); try done; by destruct rx as [[buf rssi]|].
Qed.

Lemma body_count now adc rx s s' :
  loop_body_at mtu rc now adc rx s = Some s' -> timer_tick_count s' = timer_tick_count s.
Proof.
  intros H. pose proof (body_set_count now adc rx (timer_tick_count s) s) as E.
  rewrite set_count_same, H in E. cbn in E. apply (f_equal (fmap timer_tick_count)) in E. by inversion E.
Qed.

Lemma body_runs now adc rx s :
  u32 adc <> 0 -> exists s', loop_body_at mtu rc now adc rx s = Some s'.
Proof.
  intros H. unfold loop_body_at, rest_part, post_message, vbatt_mv.
  destruct (Z.eqb_spec (u32 adc) 0); [done|].
  destruct (due _ (next_post _)); destruct rx as [[buf rssi]|]; eauto.
Qed.

Lemma iter_isr_u32 n s : is_u32 (timer_tick_count s) -> is_u32 (timer_tick_count (Nat.iter n timer_isr s)).
Proof. intros H. destruct n; [done|]. apply u32_range. Qed.

Lemma body_iter n now adc rx s :
  loop_body_at mtu rc now adc rx (Nat.iter n timer_isr s) =
  Nat.iter n timer_isr <$> loop_body_at mtu rc now adc rx s.
Proof.
  induction n as [|n IH]; [cbn; by destruct (loop_body_at _ _ _ _ _ s)|].
  cbn [Nat.iter nat_rect]. change (nat_rect _ s _ n) with (Nat.iter n timer_isr s).
  change (timer_isr (Nat.iter n timer_isr s))
    with (set_count (u32 (timer_tick_count (Nat.iter n timer_isr s) + 1)) (Nat.iter n timer_isr s)).
  rewrite body_set_count, IH. destruct (loop_body_at _ _ _ _ _ s) as [s'|] eqn:E; [|done]. cbn.
  change (nat_rect _ s' _ n) with (Nat.iter n timer_isr s'). apply body_count in E.
  assert (H : forall k, timer_tick_count (Nat.iter k timer_isr s') = timer_tick_count (Nat.iter k timer_isr s)).
  { induction k as [|k IHk]; [done|]. cbn. unfold Nat.iter in IHk. by rewrite IHk. }
  by rewrite <- H.
Qed.

(** A tick that does not carry changes the lowest byte only. *)
Lemma tick_no_carry c k :
  is_u32 c -> c mod 256 <> 255 -> k <> 0%nat -> le_bytes 4 (u32 (c + 1)) !! k = le_bytes 4 c !! k.
Proof.
  intros Hc Hm Hk. destruct k as [|k]; [done|]. cbn [le_bytes lookup list_lookup].
  assert (E : u32 (c + 1) / 256 = c / 256); [|by rewrite E].
  rewrite u32_id; widths; Z.div_mod_to_equations; lia.
Qed.

Lemma run_loop_snoc ps q s :
  run_loop mtu rc (ps ++ [q]) s =
  s' ← run_loop mtu rc ps s; loop_body mtu rc (ps_adc q) (ps_rx q) (Nat.iter (ps_ticks q) timer_isr s').
Proof.
  revert s. induction ps as [|p ps IH]; intros s.
  - cbn. by destruct (loop_body _ _ _ _ _).
  - change ((p :: ps) ++ [q]) with (p :: (ps ++ [q])). cbn [run_loop].
    destruct (loop_body _ _ _ _ _); [apply IH|done].
Qed.

(** ** Interleaved passes *)

Context (order : list nat) (Horder : order ≡ₚ [0; 1; 2; 3]%nat).

Definition ticks (ps : list pass) : nat := sum_list (ps_ticks <$> ps).
Definition is_overflow (a : action) : bool := match a with TimerOverflow => true | _ => false end.
Definition overflows (l : list action) : nat := length (filter (fun a => is_overflow a = true) l).

Definition byte_of (k : nat) (s : sensor) : option Z := le_bytes 4 (timer_tick_count s) !! k.

(** A reading under way belongs to the moment [m] interrupts after the last
    pass [s], [n] interrupts ago being now: what has been read are the bytes of
    that moment, and so are, until the reading ends, those still to be read. *)
Definition reads_moment (s : sensor) (n : nat) (p : place) : Prop :=
  match p with
  | Reading rd todo now =>
      rd ++ todo = order /\ length now = 4%nat /\
      exists m, (m <= n)%nat /\
        (forall k, k ∈ rd -> now !! k = byte_of k (Nat.iter m timer_isr s)) /\
        (rd <> [] -> todo <> [] -> forall k, k <> 0%nat \/ k ∈ todo ->
           byte_of k (Nat.iter m timer_isr s) = byte_of k (Nat.iter n timer_isr s))
  | Body now => exists m, (m <= n)%nat /\ now = timer_tick_count (Nat.iter m timer_isr s)
  | _ => True
  end.

(** The firmware has made the passes [ps], and [n] interrupts since. *)
Record follows (s0 : sensor) (t : nat) (f : firmware) : Prop := mk_follows {
  fl_armed : armed f;
  fl_passes : exists ps n s, run_loop mtu rc ps s0 = Some s /\ is_u32 (timer_tick_count s) /\
    fw_app f = Nat.iter n timer_isr s /\ (ticks ps + n)%nat = t /\ reads_moment s n (fw_place f)
}.

Lemma order_nodup : NoDup order.
Proof. rewrite Horder. apply (bool_decide_unpack _). vm_compute. exact I. Qed.

Lemma order_elem k : k ∈ order -> (k < 4)%nat.
Proof. rewrite Horder, list_elem_of_In. cbn. lia. Qed.

Lemma start_reads s n : reads_moment s n (pass_start order).
Proof.
  split_and!; [done..|]. exists n. split; [done|]. split; [|done]. intros k Hk. by apply elem_of_nil in Hk.
Qed.

(** *** One action *)

Lemma tick_reads s n p :
  is_u32 (timer_tick_count s) -> reads_moment s n p ->
  (forall k l k' l' now, p = Reading (k :: l) (k' :: l') now ->
     timer_tick_count (Nat.iter n timer_isr s) mod 256 <> 255) ->
  reads_moment s (S n) (wake p).
Proof.
  intros Hu Hr Hc. destruct p as [rd todo now|now| | | | |]; try done; cbn in *.
  2:{ destruct Hr as (m & Hm & ->). exists m. split; [lia|done]. }
  destruct Hr as (Ho & Hl & m & Hm & Hrd & Htodo). split_and!; [done..|].
  destruct rd as [|k0 rd]; [exists m; split_and!; [lia| |done]; intros k Hk; by apply elem_of_nil in Hk|].
  destruct todo as [|k1 todo]; [exists m; split_and!; [lia|done|done]|].
  specialize (Hc _ _ _ _ _ eq_refl). specialize (Htodo ltac:(done) ltac:(done)).
  assert (Hn : forall k, k <> 0%nat -> byte_of k (Nat.iter (S n) timer_isr s) = byte_of k (Nat.iter n timer_isr s)).
  { intros k Hk. apply tick_no_carry; [by apply iter_isr_u32|done|done]. }
  destruct (decide (0%nat ∈ k1 :: todo)) as [H0|H0].
  - exists (S n). split_and!; [lia| |done]. intros k Hk.
    assert (k <> 0%nat).
    { intros ->. pose proof order_nodup as Hd. rewrite <- Ho in Hd. apply list.NoDup_app in Hd as (_ & Hd & _).
      by apply (Hd _ Hk). }
    rewrite Hn, <- Htodo by auto. by apply Hrd.
  - exists m. split_and!; [lia|done|]. intros _ _ k [Hk|Hk].
    + rewrite Hn by done. apply Htodo. by left.
    + rewrite Hn by (intros ->; done). apply Htodo. by right.
Qed.

Lemma read_byte s n rd k todo now :
  reads_moment s n (Reading rd (k :: todo) now) ->
  reads_moment s n (Reading (rd ++ [k]) todo
    (<[k := le_bytes 4 (timer_tick_count (Nat.iter n timer_isr s)) !!! k]> now)).
Proof.
  intros (Ho & Hl & m & Hm & Hrd & Htodo). unfold reads_moment.
  assert (Hk : (k < 4)%nat) by (apply order_elem; rewrite <- Ho; set_solver).
  assert (Hb : byte_of k (Nat.iter n timer_isr s) =
    Some (le_bytes 4 (timer_tick_count (Nat.iter n timer_isr s)) !!! k)).
  { apply list_lookup_lookup_total_lt. by rewrite le_bytes_length. }
  split; [by rewrite <- app_assoc|]. split; [by rewrite length_insert|].
  exists (if decide (rd = []) then n else m).
  destruct (decide (rd = [])) as [->|Hne]; (split; [lia|]); split.
  - intros i Hi. apply list_elem_of_singleton in Hi as ->. rewrite list_lookup_insert_eq by lia. by rewrite Hb.
  - done.
  - intros i Hi. apply elem_of_app in Hi as [Hi|Hi].
    + destruct (decide (i = k)) as [->|]; [|rewrite list_lookup_insert_ne by done; by apply Hrd].
      rewrite list_lookup_insert_eq by lia. rewrite <- Hb. symmetry. apply Htodo; [done|done|set_solver].
    + apply list_elem_of_singleton in Hi as ->. rewrite list_lookup_insert_eq by lia.
      rewrite <- Hb. symmetry. apply Htodo; [done|done|set_solver].
  - intros _ Ht i [Hi|Hi]; (apply Htodo; [done|done|]); [by left|right; by constructor].
Qed.

Lemma read_done s n rd now :
  is_u32 (timer_tick_count s) -> reads_moment s n (Reading rd [] now) -> reads_moment s n (Body (le_val now)).
Proof.
  intros Hu (Ho & Hl & m & Hm & Hrd & _). exists m. split; [done|]. rewrite app_nil_r in Ho. subst rd.
  assert (Hnow : now = le_bytes 4 (timer_tick_count (Nat.iter m timer_isr s))).
  { apply list_eq. intros k. destruct (decide (k < 4)%nat) as [Hk|Hk].
    - apply Hrd. rewrite Horder, list_elem_of_In. cbn. lia.
    - rewrite !lookup_ge_None_2; [done|rewrite le_bytes_length; lia|lia]. }
  rewrite Hnow. apply le_val_bytes_id. by apply iter_isr_u32.
Qed.

Lemma instr_follows s0 t assr adc rx f :
  u32 adc <> 0 -> follows s0 t f ->
  exists f', instr mtu rc order assr adc rx f = Some f' /\ follows s0 t f'.
Proof.
  intros Hadc [Ha (ps & n & s & Hrun & Hu & Happ & Ht & Hr)].
  cut (exists f', act mtu rc order (Instr assr adc rx) f = Some f' /\
    exists ps n s, run_loop mtu rc ps s0 = Some s /\ is_u32 (timer_tick_count s) /\
      fw_app f' = Nat.iter n timer_isr s /\ (ticks ps + n)%nat = t /\ reads_moment s n (fw_place f')).
  { intros (f' & Hf & Hp). exists f'. split; [done|]. split; [by eapply act_armed|done]. }
  cbn [act]. unfold instr, sleep. destruct (fw_place f) as [rd [|k todo] now|now| | | | |] eqn:Ep.
  3:{ destruct Hr as (m & Hm & ->). rewrite Happ. replace n with (n - m + m)%nat by lia.
    rewrite Nat.iter_add, body_iter.
    destruct (body_runs (timer_tick_count (Nat.iter m timer_isr s)) adc rx (Nat.iter m timer_isr s) Hadc)
      as [s' Hs']. rewrite Hs'. cbn [fmap option_fmap option_map].
    eexists. split; [reflexivity|]. exists (ps ++ [mk_pass m adc rx]), (n - m)%nat, s'. cbn [fw_app fw_place].
    split_and!; [by rewrite run_loop_snoc, Hrun| |done| |done].
    - rewrite (body_count _ _ _ _ _ Hs'). by apply iter_isr_u32.
    - unfold ticks in *. rewrite fmap_app, sum_list_with_app. cbn. lia. }
  all: try destruct (assr &? _); eexists; (split; [reflexivity|]); exists ps, n, s; cbn [fw_app fw_place];
    split_and!; try done; try (by rewrite Ep).
  - by eapply read_done.
  - rewrite Happ. by apply read_byte.
  - apply start_reads.
Qed.

Lemma act_follows s0 t a f :
  measures a -> torn a f = false -> follows s0 t f ->
  exists f', act mtu rc order a f = Some f' /\ follows s0 (t + if is_overflow a then 1 else 0) f'.
Proof.
  destruct a as [| |assr adc rx]; intros Hm Ht Hf; cbn [is_overflow].
  - destruct Hf as [Ha (ps & n & s & Hrun & Hu & Happ & Hsum & Hr)].
    pose proof (act_armed mtu rc order TimerOverflow f) as Ha'. cbn [act] in *.
    pose proof Ha as (Hi & Htm & He). rewrite Hi, Htm in *. cbn [andb] in *.
    eexists. split; [reflexivity|]. split; [by eapply Ha'|].
    exists ps, (S n), s. cbn [fw_app fw_place]. split_and!; [done|done|by rewrite Happ|lia|].
    apply tick_reads; [done|done|]. intros k l k' l' now Hp. unfold torn in Ht.
    rewrite Hp, Happ in Ht. by apply Z.eqb_neq.
  - destruct Hf as [Ha (ps & n & s & Hrun & Hu & Happ & Hsum & Hr)].
    pose proof (act_armed mtu rc order RadioInterrupt f) as Ha'. cbn [act] in *.
    destruct (_ && _); (eexists; split; [reflexivity|]); (split; [by eapply Ha'|]);
      exists ps, n, s; cbn [fw_app fw_place]; split_and!; try done; try lia.
    by destruct (fw_place f).
  - rewrite Nat.add_0_r. by apply instr_follows.
Qed.

Lemma execute_follows s0 t l f :
  Forall measures l -> untorn mtu rc order l f = true -> follows s0 t f ->
  exists f', execute mtu rc order l f = Some f' /\ follows s0 (t + overflows l) f'.
Proof.
  intros Hm. revert t f. induction Hm as [|a l Ha Hm IH]; intros t f Hu Hf; cbn [execute untorn] in *.
  { exists f. split; [done|]. by rewrite Nat.add_0_r. }
  apply andb_true_iff in Hu as [Hta Hu]. apply negb_true_iff in Hta.
  destruct (act_follows s0 t a f Ha Hta Hf) as (g & Hg & Hfg). rewrite Hg in *.
  destruct (IH _ g Hu Hfg) as (f' & He & Hf'). exists f'. split; [done|].
  replace (t + overflows (a :: l))%nat with (t + (if is_overflow a then 1 else 0) + overflows l)%nat; [done|].
  unfold overflows. rewrite filter_cons. case_decide; destruct a; cbn in *; try congruence; lia.
Qed.

(** C34: the sensor's firmware keeps its schedule whatever falls between its
    instructions.  Take any interleaving of timer overflows, radio interrupts
    and pieces of the main loop - wherever in a pass or in the sleep they come,
    and in whatever order the four bytes of the count are read - in which no
    timer overflow carries over a byte boundary half way through the reading,
    and no battery measurement is zero.  Then the loop runs on, the timer interrupt is never off and the radio's is
    on exactly around the sleep, and the state is that of whole passes ([ps])
    and the interrupts since the last, no timer interrupt lost or counted
    twice; and these passes are those of a clock that never wraps. *)
Theorem firmware_keeps_schedule l r p :
  armed (mk_fw (pass_start order) r (wrap p)) -> fresh p ->
  Forall measures l -> untorn mtu rc order l (mk_fw (pass_start order) r (wrap p)) = true ->
  exists f ps n s,
    execute mtu rc order l (mk_fw (pass_start order) r (wrap p)) = Some f /\ armed f /\
    run_loop mtu rc ps (wrap p) = Some s /\ fw_app f = Nat.iter n timer_isr s /\
    (ticks ps + n)%nat = overflows l /\
    (Forall short ps -> exists p', plan_loop mtu rc ps p = Some p' /\ s = wrap p').
Proof.
  intros Ha Hf Hm Hu. destruct (execute_follows (wrap p) 0 l _ Hm Hu) as (f & He & [Ha' Hp]).
  { split; [done|]. exists [], 0%nat, (wrap p). split_and!; try done; [apply u32_range|apply start_reads]. }
  destruct Hp as (ps & n & s & Hrun & _ & Happ & Hsum & _). exists f, ps, n, s. split_and!; try done.
  intros Hs. rewrite sensor_schedule_exact in Hrun by done.
  destruct (plan_loop mtu rc ps p) as [p'|]; [|done]. exists p'. split; [done|]. by inversion Hrun.
Qed.
End Schedule.

(** ** A torn reading *)

Section Torn.
Context `{A : AvrBits, L : !AvrLaws A} (mtu : Z) (rc : list event -> Z).

(** The main loop without the call of the MAC's tick handler. *)
Fixpoint run_untimed (ps : list pass) (s : sensor) : option sensor :=
  match ps with
  | [] => Some s
  | p :: ps =>
      let s := Nat.iter (ps_ticks p) timer_isr s in
      match rest_part mtu rc (timer_tick_count s) (ps_adc p) (ps_rx p) s with
      | Some s => run_untimed ps s
      | None => None
      end
  end.

Lemma rest_keeps now adc rx s s' :
  rest_part mtu rc now adc rx s = Some s' ->
  timer_tick_count s' = timer_tick_count s /\ next_mac_tick s' = next_mac_tick s.
Proof.
  unfold rest_part, post_message. destruct (due now (next_post s)); [destruct (vbatt_mv adc)|];
    destruct rx as [[buf rssi]|]; intros [= <-]; done.
Qed.

Lemma iter_isr_fields n s :
  is_u32 (timer_tick_count s) ->
  timer_tick_count (Nat.iter n timer_isr s) = u32 (timer_tick_count s + Z.of_nat n) /\
  next_mac_tick (Nat.iter n timer_isr s) = next_mac_tick s.
Proof.
  intros Hu. induction n as [|n [IH1 IH2]]; [by rewrite Z.add_0_r, u32_id|].
  change (Nat.iter (S n) timer_isr s) with (timer_isr (Nat.iter n timer_isr s)).
  split; [|exact IH2]. transitivity (u32 (timer_tick_count (Nat.iter n timer_isr s) + 1)); [done|].
  rewrite IH1, u32_add_l. f_equal. lia.
Qed.

(** Until the count has caught up with a deadline [d] ticks ahead, no pass calls
    the tick handler. *)
Lemma early_passes_untimed ps s d :
  is_u32 (timer_tick_count s) -> next_mac_tick s = u32 (timer_tick_count s + d) ->
  Z.of_nat (ticks ps) < d < 2 ^ 31 -> run_loop mtu rc ps s = run_untimed ps s.
Proof.
  revert s d. induction ps as [|q ps IH]; intros s d Hu Hn Hd; [done|].
  change (ticks (q :: ps)) with (ps_ticks q + ticks ps)%nat in Hd. cbn [run_loop run_untimed].
  destruct (iter_isr_fields (ps_ticks q) s Hu) as [Hc Hm].
  set (s1 := Nat.iter (ps_ticks q) timer_isr s) in *.
  assert (Hdue : due (timer_tick_count s1) (next_mac_tick s1) = false).
  { rewrite Hm, Hn, Hc. unfold due. rewrite i32_diff by lia. apply Z.leb_gt. lia. }
  unfold loop_body, loop_body_at, tick_part. rewrite Hdue.
  destruct (rest_part _ _ _ _ _ s1) as [s'|] eqn:E; [|done]. apply rest_keeps in E as [E1 E2].
  apply (IH s' (d - Z.of_nat (ps_ticks q))).
  - rewrite E1, Hc. apply u32_range.
  - rewrite E2, E1, Hm, Hn, Hc, u32_add_l. f_equal. lia.
  - lia.
Qed.

(** The bytes below the [i]th read before a carry and the others after it. *)
Definition torn_bytes (i : nat) (c : Z) : list Z :=
  take i (le_bytes 4 c) ++ drop i (le_bytes 4 (u32 (c + 1))).

Lemma torn_value i c :
  (1 <= i < 4)%nat -> is_u32 c -> c mod 256 ^ Z.of_nat i = 256 ^ Z.of_nat i - 1 ->
  le_val (torn_bytes i c) = u32 (c + 1) + 256 ^ Z.of_nat i - 1.
Proof.
  intros Hi Hc Hm. assert (Hc' : u32 (c + 1) mod 256 ^ Z.of_nat i = 0 /\ is_u32 (u32 (c + 1))).
  { split; [|apply u32_range]. unfold u32. assert (i = 1 \/ i = 2 \/ i = 3)%nat as [->|[->| ->]] by lia;
      cbn in *; Z.div_mod_to_equations; lia. }
  destruct Hc' as [Hz Hu]. set (c' := u32 (c + 1)) in *. unfold torn_bytes. fold c'. clearbody c'.
  assert (i = 1 \/ i = 2 \/ i = 3)%nat as [->|[->| ->]] by lia;
    cbn in *; widths; Z.div_mod_to_equations; lia.
Qed.

(** A pass in which the timer overflows after [i] bytes of the count, the lowest
    first, have been read. *)
Definition low_first : list nat := [0; 1; 2; 3]%nat.
Definition torn_pass (i : nat) (adc : Z) (rx : option (list Z * Z)) : list action :=
  replicate i (Instr 0 adc rx) ++ TimerOverflow :: replicate (6 - i) (Instr 0 adc rx).

Lemma torn_pass_runs i r s adc rx :
  (1 <= i < 4)%nat -> armed (mk_fw (pass_start low_first) r s) ->
  execute mtu rc low_first (torn_pass i adc rx) (mk_fw (pass_start low_first) r s) =
  s' ← loop_body_at mtu rc (le_val (torn_bytes i (timer_tick_count s))) adc rx (timer_isr s);
  Some (mk_fw Enable r s').
Proof.
  intros Hi (Ha & Ht & _). cbn [fw_regs] in *.
  assert (i = 1 \/ i = 2 \/ i = 3)%nat as [->|[->| ->]] by lia; unfold torn_pass, pass_start, low_first;
    cbn -[loop_body_at timer_isr bit_set]; rewrite Ha, Ht; cbn -[loop_body_at timer_isr bit_set];
    by destruct (loop_body_at _ _ _ _ _ _).
Qed.

Lemma tick_part_next now s :
  due now (next_mac_tick s) = true -> next_mac_tick (tick_part mtu rc now s) = u32 (now + 1).
Proof. intros H. unfold tick_part. by rewrite H. Qed.

(** C40: a timer overflow that carries while the count is being read stops the MAC's
    clock.  If the overflow comes after the lowest [i] bytes, all of them 0xff,
    have been read, the loop sees a count that is [256 ^ i - 1] ticks ahead, sets the
    next deadline after it, and for the next [256 ^ i] timer interrupts - 64 seconds,
    4.5 hours, 48 days - no pass calls the tick handler: nothing is
    retransmitted, no heartbeat is kept and no timer runs. *)
Theorem torn_read_stops_mac i r s adc rx :
  (1 <= i < 4)%nat -> armed (mk_fw (pass_start low_first) r s) -> is_u32 (timer_tick_count s) ->
  timer_tick_count s mod 256 ^ Z.of_nat i = 256 ^ Z.of_nat i - 1 ->
  next_mac_tick s = timer_tick_count s -> u32 adc <> 0 ->
  exists f,
    execute mtu rc low_first (torn_pass i adc rx) (mk_fw (pass_start low_first) r s) = Some f /\
    timer_tick_count (fw_app f) = u32 (timer_tick_count s + 1) /\
    forall ps, Z.of_nat (ticks ps) < 256 ^ Z.of_nat i ->
      run_loop mtu rc ps (fw_app f) = run_untimed ps (fw_app f).
Proof.
  intros Hi Ha Hu Hm Hn Hadc. rewrite torn_pass_runs by done.
  set (c := timer_tick_count s) in *. set (k := 256 ^ Z.of_nat i) in *.
  assert (Hk : 256 <= k <= 2 ^ 24).
  { unfold k. assert (i = 1 \/ i = 2 \/ i = 3)%nat as [->|[->| ->]] by lia; cbn; lia. }
  rewrite torn_value by done. fold k. set (now := u32 (c + 1) + k - 1).
  destruct (body_runs mtu rc now adc rx (timer_isr s) Hadc) as [s' Hs']. rewrite Hs'. cbn [mbind option_bind].
  eexists. split; [reflexivity|]. cbn [fw_app]. pose proof (body_count _ _ _ _ _ _ _ Hs') as Hc.
  split; [exact Hc|]. intros ps Hps. apply (early_passes_untimed _ _ k).
  - rewrite Hc. apply u32_range.
  - unfold loop_body_at in Hs'. apply rest_keeps in Hs' as [_ ->]. rewrite tick_part_next.
    + rewrite Hc. unfold now. f_equal. change (timer_tick_count (timer_isr s)) with (u32 (c + 1)). lia.
    + change (next_mac_tick (timer_isr s)) with (next_mac_tick s). rewrite Hn. unfold due, now.
      apply Z.leb_le. rewrite <- i32_u32.
      replace (u32 (u32 (c + 1) + k - 1 - c)) with (u32 k); [rewrite i32_u32, i32_small; lia|].
      replace (u32 (c + 1) + k - 1 - c) with (u32 (c + 1) + (k - 1 - c)) by lia. rewrite u32_add_l. f_equal. lia.
  - lia.
Qed.
End Torn.

(** ** Instances *)

(** The bits of the ATmega328. *)
#[export] Instance atmega328 : AvrBits := mk_bits 5 4 1 0 1 0 0 0 0 1 6.

#[export] Instance atmega328_laws : AvrLaws atmega328.
Proof. split; vm_compute; split; congruence. Qed.

Definition running : regs := mk_regs 0 0 0 32 0 0 3 0 1 1 0 false true.

(** Ticks in the middle of a reading, before the sleep and in it. *)
Definition a_day : list action :=
  let go := Instr 0 300 None in
  [go; TimerOverflow; go; go; go; go; go; go; TimerOverflow; go; go; RadioInterrupt; go;
   go; go; go; go; TimerOverflow; go; go; go; go; go; TimerOverflow; go].

Lemma firmware_keeps_schedule_witness :
  exists f ps n s,
    execute 62 rc_ok low_first a_day (mk_fw (pass_start low_first) running (wrap late_plan)) = Some f /\
    armed f /\ run_loop 62 rc_ok ps (wrap late_plan) = Some s /\ fw_app f = Nat.iter n timer_isr s /\
    (ticks ps + n)%nat = overflows a_day /\
    (Forall short ps -> exists p', plan_loop 62 rc_ok ps late_plan = Some p' /\ s = wrap p').
Proof.
  apply (firmware_keeps_schedule 62 rc_ok low_first).
  - reflexivity.
  - repeat split; vm_compute; reflexivity.
  - unfold fresh, late_plan. cbn [pl_now pl_mac pl_post]. lia.
  - repeat constructor; vm_compute; congruence.
  - vm_compute. reflexivity.
Defined.

(** The sensor when its 256th tick is due. *)
Definition at_carry : sensor := mk_sensor 255 255 260 (ports sensor_joined) (mac sensor_joined).

Lemma torn_read_stops_mac_witness :
  exists f,
    execute 62 rc_ok low_first (torn_pass 1 300 None) (mk_fw (pass_start low_first) running at_carry) = Some f /\
    timer_tick_count (fw_app f) = 256 /\
    forall ps, Z.of_nat (ticks ps) < 256 ->
      run_loop 62 rc_ok ps (fw_app f) = run_untimed 62 rc_ok ps (fw_app f).
Proof.
  apply (torn_read_stops_mac 62 rc_ok 1 running at_carry 300 None).
  - lia.
  - repeat split; vm_compute; reflexivity.
  - vm_compute. split; congruence.
  - reflexivity.
  - reflexivity.
  - vm_compute. congruence.
Defined.

Lemma boot_armed_witness :
  exists f, fw_boot 62 rc_ok low_first running [17; 16; 0] (fun _ => 0) 10 20 7 = Some f /\ armed f /\
    fw_place f = pass_start low_first /\ fw_app f = sensor0 /\ watchdog (fw_regs f) = false.
Proof.
  apply (boot_armed 62 rc_ok low_first running [17; 16; 0] (fun _ => 0) 10 20 7).
  exists [17; 16], 0. split; reflexivity.
Defined.
