(* ===== verification/SensorIo.v ===== *)
(** * The sensor's peripherals
    ([examples/sensor/main.c], [examples/sensor/tinyhan_platform.h])

    The registers of the ADC and of the SPI unit as [vbatt_mv] and [SPI_INIT]
    write them, and the rates at which timer and ADC then run.  The numbers of
    the registers' bits and the division ratios they select are those of the
    processor's header and data sheet, the class [PeriphBits]. *)

From stdpp Require Import base list numbers.
From Stdlib Require Import ZArith Lia.
From S2P Require Import Prelude Wire MacState MacApp Board Sensor SensorFw.

Class PeriphBits := mk_periph {
  ADEN : Z; ADPS0 : Z; ADSC : Z; REFS0 : Z;     (* ADCSRA, ADMUX *)
  SPE : Z; MSTR : Z                             (* SPCR *)
}.

Class PeriphLaws (B : PeriphBits) : Prop := {
  adsc_bit : 0 <= ADSC < 8;
  spe_bit : 0 <= SPE < 8;
  mstr_bit : 0 <= MSTR < 8
}.

Record periph := mk_periph_regs { ADCSRA : Z; ADMUX : Z; SPCR : Z; SPSR : Z }.

Section Periph.
Context `{B : PeriphBits}.

(** [vbatt_mv]: the converter is on from the first line to the last, [readings]
    is what [ADCSRA] reads while the conversion runs and [adc] its result. *)
Definition measure (readings : list Z) (adc : Z) (r : periph) : option (Z * periph) :=
  let r := mk_periph_regs (Z.lor (BV ADEN) (ADC_PRESCALER ≪ ADPS0)) (ADMUX r) (SPCR r) (SPSR r) in
  let r := mk_periph_regs (ADCSRA r) (Z.lor (BV REFS0) ADC_MUX_VREF_1V1) (SPCR r) (SPSR r) in
  let r := mk_periph_regs (Z.lor (ADCSRA r) (BV ADSC)) (ADMUX r) (SPCR r) (SPSR r) in
  match wait_clear (BV ADSC) readings with
  | None => None
  | Some _ =>
      match vbatt_mv adc with
      | None => None
      | Some vbatt => Some (vbatt, mk_periph_regs 0 (ADMUX r) (SPCR r) (SPSR r))
      end
  end.

Definition SPI_INIT (r : periph) : periph :=
  mk_periph_regs (ADCSRA r) (ADMUX r) (Z.lor (BV SPE) (BV MSTR)) 0.
End Periph.

(** ** Rates *)

(** The oscillator, and the system clock after [clock_prescale_set(clock_div_2)]. *)
Definition oscillator_hz : Z := 8000000.
Definition F_CPU : Z := oscillator_hz / 2.
Definition crystal_hz : Z := 32768.

(** [F_CPU / (1 << ADC_PRESCALER)] *)
Definition adc_clock_hz : Z := F_CPU / (1 ≪ ADC_PRESCALER).

Section Laws.
Context `{B : PeriphBits, L : !PeriphLaws B}.

(** A measurement that ends gives the battery voltage and leaves the converter
    off and the SPI unit alone. *)
Theorem measure_spec readings adc r :
  (exists l v, readings = l ++ [v] /\ (v &? BV ADSC) = false) -> u32 adc <> 0 ->
  exists mv r', measure readings adc r = Some (mv, r') /\ vbatt_mv adc = Some mv /\
    ADCSRA r' = 0 /\ SPCR r' = SPCR r.
Proof.
  intros (l & v & -> & Hv) Ha. unfold measure.
  assert (Hw : exists rest, wait_clear (BV ADSC) (l ++ [v]) = Some rest).
  { induction l as [|x l IH]; cbn; [rewrite Hv; eauto|]. destruct (x &? _); [apply IH|eauto]. }
  destruct Hw as [rest ->]. unfold vbatt_mv. destruct (Z.eqb_spec (u32 adc) 0); [done|]. eauto 7.
Qed.

(** The SPI unit is enabled, as the master. *)
Theorem spi_init_master r : (SPCR (SPI_INIT r) &? BV SPE) = true /\ (SPCR (SPI_INIT r) &? BV MSTR) = true.
Proof.
  pose proof spe_bit. pose proof mstr_bit. cbn [SPI_INIT SPCR].
  rewrite !bv_set, !Z.lor_spec by lia. unfold BV. rewrite !Z.shiftl_1_l, !Z.pow2_bits_true by lia.
  split; [done|apply orb_true_r].
Qed.
End Laws.

(** The ADC's clock is within the limits the board's header states, and a timer
    of eight bits that counts every [prescale]th period of the crystal overflows
    once per tick of the MAC if the ratio is the 32 of the data sheet. *)
Theorem rates (prescale : Z -> Z) :
  prescale (Z.lor (BV (@CS21 atmega328)) (BV (@CS20 atmega328))) = 32 ->
  50000 <= adc_clock_hz <= 200000 /\
  256 * prescale (Z.lor (BV (@CS21 atmega328)) (BV (@CS20 atmega328))) * 1000 =
    TINYMAC_TICK_MS * crystal_hz.
Proof. intros ->. split; [vm_compute; split; congruence|reflexivity]. Qed.

(** ** An instance *)

#[export] Instance atmega328_periph : PeriphBits := mk_periph 7 0 6 6 6 4.

#[export] Instance atmega328_periph_laws : PeriphLaws atmega328_periph.
Proof. split; vm_compute; split; congruence. Qed.

Example measures_3v3 :
  measure [0xce; 0xce; 0x8e] 341 (mk_periph_regs 0 0 0x50 0) = Some (3303, mk_periph_regs 0 0x4e 0x50 0).
Proof. reflexivity. Qed.
