(* ===== verification/SensorNode.v ===== *)
(** * The sensor as a whole ([examples/sensor], [lib/tinymac.c], [lib/phy-si443x.c])

    The sensor program, the MAC, the Si443x driver and the board as one machine.
    Every call the MAC makes to its PHY is executed by the driver, whose platform
    operations move the board's pins; the driver's return codes go back to the
    MAC, and the packets its event handler reads from the chip go to the MAC's
    receive callback.  The chip is the class [Platform]: it may answer anything.

    The MAC's log holds its calls in order.  A call of the MAC is run with a PHY
    that answers as the driver does ([answers]), and the driver then executes
    what was logged ([serve_all]); [MacLocal.v] shows that the MAC cannot tell
    the difference. *)

From stdpp Require Import base list numbers.
From Stdlib Require Import ZArith Lia.
From S2P Require Import Prelude Wire MacState Mac MacInv MacRun MacLocal MacEx MacSends MacApp.
From S2P Require Import Si443xRegs Si443x Si443xBus Si443xSpec Si443xProps Si443xIo Board Sensor.
Local Open Scope drv_scope.

(** ** The machine *)

(** A step of the machine goes on, waits for ever in a driver's loop, or leaves
    the defined behaviour of C. *)
Inductive outcome (A : Type) : Type :=
| Running (a : A)
| Waiting
| Broken.
Arguments Running {A} a.
Arguments Waiting {A}.
Arguments Broken {A}.

Definition obind {A B} (m : outcome A) (k : A -> outcome B) : outcome B :=
  match m with
  | Running a => k a
  | Waiting => Waiting
  | Broken => Broken
  end.

(** The driver's variables with the history of its bus, the ports, and, as
    records of the run, in order: the packets the driver has accepted, the
    results of its [phy_send], and what each call of its [phy_event_handler] has
    passed to the receive callback. *)
Record hw := mk_hw {
  hw_radio : radio;
  hw_ports : avr;
  hw_sent : list (list Z);
  hw_codes : list Z;
  hw_heard : list (option (list Z * Z))
}.

Record node := mk_nd { nd_app : sensor; nd_hw : hw }.

Section Node.
Context `{P : Platform} (fuel : nat).

(** The operations of a call, on the ports. *)
Definition new_io (d d' : radio) : history := take (length (hist d') - length (hist d)) (hist d').

Definition on_hw {A} (m : Si443x.D A) (h : hw) : outcome (A * hw) :=
  match m (hw_radio h) with
  | Done a d =>
      Running (a, mk_hw d (board_run (new_io (hw_radio h) d) (hw_ports h)) (hw_sent h) (hw_codes h) (hw_heard h))
  | Blocked => Waiting
  | Fault => Broken
  end.

(** The records kept. *)
Definition accept (packet : list Z) (h : hw) : hw :=
  mk_hw (hw_radio h) (hw_ports h) (hw_sent h ++ [packet]) (hw_codes h) (hw_heard h).
Definition note_code (rc : Z) (h : hw) : hw :=
  mk_hw (hw_radio h) (hw_ports h) (hw_sent h) (hw_codes h ++ [rc]) (hw_heard h).
Definition note_heard (rx : option (list Z * Z)) (h : hw) : hw :=
  mk_hw (hw_radio h) (hw_ports h) (hw_sent h) (hw_codes h) (hw_heard h ++ [rx]).

(** A call the MAC has made: to the driver, with its result, or to the program. *)
Definition serve (e : event) (h : hw) : outcome (Z * hw) :=
  match e with
  | EvPhySend bufs flags =>
      obind (on_hw (Si443x.phy_send fuel bufs flags) h) (fun '(rc, h) =>
        Running (rc, note_code rc (if rc =? 0 then accept (concat bufs) h else h)))
  | EvPhyStandby => on_hw phy_standby h
  | EvPhyDelayedStandby us => on_hw (phy_delayed_standby us) h
  | EvPhyListen => on_hw phy_listen h
  | EvPhyRegisterRecv => on_hw (phy_register_recv_cb true ;; dret 0) h
  | _ => Running (0, mk_hw (hw_radio h) (on_event e (hw_ports h)) (hw_sent h) (hw_codes h) (hw_heard h))
  end.

(** A log has its latest event first. *)
Fixpoint serve_all (l : list event) (h : hw) : outcome (Z * hw) :=
  match l with
  | [] => Running (0, h)
  | e :: l => obind (serve_all l h) (fun '(_, h) => serve e h)
  end.

Definition since (l l' : list event) : list event := take (length l' - length l) l'.

(** What the driver returns for the last call of a log that extends [l]. *)
Definition answers (l : list event) (h : hw) (l' : list event) : Z :=
  match serve_all (since l l') h with Running (rc, _) => rc | _ => 0 end.

(** A piece of the program that calls the MAC. *)
Definition mac_call (f : (list event -> Z) -> sensor -> option sensor) (n : node) : outcome node :=
  let s := nd_app n in
  match f (answers (MacState.log (mac s)) (nd_hw n)) s with
  | None => Broken
  | Some s' =>
      obind (serve_all (since (MacState.log (mac s)) (MacState.log (mac s'))) (nd_hw n)) (fun '(_, h) =>
        Running (mk_nd s' h))
  end.

Definition node_tick (now : Z) : node -> outcome node :=
  mac_call (fun rc s => Some (tick_part phy_get_mtu rc now s)).
Definition node_post (now adc : Z) : node -> outcome node :=
  mac_call (fun rc => rest_part phy_get_mtu rc now adc None).
Definition node_receive (buf : list Z) (rssi : Z) : node -> outcome node :=
  mac_call (fun rc s => Some (with_mac (@tinymac_recv_cb (passive_env phy_get_mtu rc) buf rssi) s)).

(** [phy_event_handler], which calls the MAC last. *)
Definition node_events (n : node) : outcome node :=
  obind (on_hw (phy_event_handler fuel) (nd_hw n)) (fun '(rx, h) =>
    let n := mk_nd (nd_app n) (note_heard rx h) in
    match rx with
    | Some (buf, rssi) => node_receive buf rssi n
    | None => Running n
    end).

(** One pass of the main loop. *)
Definition node_pass (adc : Z) (n : node) : outcome node :=
  let now := timer_tick_count (nd_app n) in
  obind (node_tick now n) (fun n => obind (node_post now adc n) node_events).

Definition node_ticks (k : nat) (n : node) : node := mk_nd (Nat.iter k timer_isr (nd_app n)) (nd_hw n).

(** The passes of a run: how often the timer has overflowed before each, and
    what a battery measurement gives. *)
Fixpoint node_run (ps : list (nat * Z)) (n : node) : outcome node :=
  match ps with
  | [] => Running n
  | (k, adc) :: ps => obind (node_pass adc (node_ticks k n)) (node_run ps)
  end.

(** [main] up to its loop; the result of [phy_init] is not looked at. *)
Definition node_boot (pins : port -> Z) (r1 r2 r3 : Z) : outcome node :=
  let ports := TRX_ON (board_init pins) in
  obind (on_hw (phy_init fuel) (mk_hw radio_zero ports [] [] [])) (fun '(_, h) =>
    mac_call (fun rc _ => Some (sensor_boot phy_get_mtu rc pins r1 r2 r3))
      (mk_nd (mk_sensor 0 0 0 ports world_zero) h)).

(** The whole program.  The timer interrupts fall between the passes (a tick
    inside a pass is the subject of [SensorFw.v]), and a battery measurement of
    zero, by which the program divides, is [Broken]. *)
Definition node_main (pins : port -> Z) (r1 r2 r3 : Z) (ps : list (nat * Z)) : outcome node :=
  obind (node_boot pins r1 r2 r3) (node_run ps).
End Node.

(** ** Runs of the sensor's model *)

(** The program's pieces are causal: a run uses the results of the sends it logs
    and nothing else. *)
Definition causal (f : (list event -> Z) -> sensor -> option sensor) (s : sensor) : Prop :=
  forall rc rc' s', f rc s = Some s' ->
    MacState.log (mac s) `suffix_of` MacState.log (mac s') /\
    (agree rc rc' (MacState.log (mac s)) (MacState.log (mac s')) -> f rc' s = Some s').

Lemma causal_with_mac {A} mtu (m : forall E : Env, M A) s :
  (forall E rc', same_run E rc' (m E) (m (with_rc E rc'))) ->
  causal (fun rc s => Some (with_mac (m (passive_env mtu rc)) s)) s.
Proof.
  intros Hm rc rc' s' [= <-]. destruct (Hm (passive_env mtu rc) rc') as [G H]. split; [apply G|].
  intros Ha. change (passive_env mtu rc') with (with_rc (passive_env mtu rc) rc').
  unfold with_mac. by rewrite H by exact Ha.
Qed.

Lemma causal_tick now s : causal (fun rc s => Some (tick_part phy_get_mtu rc now s)) s.
Proof.
  intros rc rc' s'. unfold tick_part, sensor_env. destruct (due now (next_mac_tick s)); [|by intros [= <-]].
  exact (causal_with_mac phy_get_mtu (@tinymac_tick_handler)
    (mk_sensor (timer_tick_count s) (u32 (now + 1)) (next_post s) (ports s) (mac s))
    ltac:(intros; apply same_run_tick) rc rc' s').
Qed.

Lemma causal_receive buf rssi s :
  causal (fun rc s => Some (with_mac (@tinymac_recv_cb (passive_env phy_get_mtu rc) buf rssi) s)) s.
Proof.
  apply (causal_with_mac phy_get_mtu (fun E => @tinymac_recv_cb E buf rssi)). intros. apply same_run_recv.
Qed.

Lemma causal_post now adc s : causal (fun rc => rest_part phy_get_mtu rc now adc None) s.
Proof.
  intros rc rc' s'. unfold rest_part, post_message, sensor_env.
  destruct (due now (next_post s)); [|by intros [= <-]]. destruct (vbatt_mv adc) as [mv|]; [|done].
  assert (Hm : forall E rc', same_run E rc'
    (@tinymac_send E 0 (type_code tinymacType_RawData) (le_bytes 2 mv) 0 None)
    (@tinymac_send (with_rc E rc') 0 (type_code tinymacType_RawData) (le_bytes 2 mv) 0 None))
    by (intros; apply same_run_send).
  intros H. exact (causal_with_mac phy_get_mtu _
    (mk_sensor (timer_tick_count s) (next_mac_tick s) (u32 (now + 20)) (ports s) (mac s)) Hm rc rc' s' H).
Qed.

(** ** The driver as the MAC sees it *)

(** How many packets a log has handed to the PHY. *)
Fixpoint sends (l : list event) : nat :=
  match l with
  | [] => 0
  | EvPhySend _ _ :: l => S (sends l)
  | _ :: l => sends l
  end.

(** A PHY whose [phy_send] returns these results, one after the other. *)
Definition results (codes : list Z) (l : list event) : Z := nth (sends l - 1) codes 0.

(** The results [rc] gives for the sends of [d], which extends [l]. *)
Fixpoint codes_of (rc : list event -> Z) (d l : list event) : list Z :=
  match d with
  | [] => []
  | EvPhySend bufs fl :: d => codes_of rc d l ++ [rc (EvPhySend bufs fl :: d ++ l)]
  | _ :: d => codes_of rc d l
  end.

Lemma sends_app d l : sends (d ++ l) = (sends d + sends l)%nat.
Proof. induction d as [|e d IH]; [done|]. destruct e; cbn; by rewrite IH. Qed.

Lemma codes_of_length rc d l : length (codes_of rc d l) = sends d.
Proof. induction d as [|e d IH]; [done|]. destruct e; cbn; try done. rewrite length_app, IH. cbn. lia. Qed.

Lemma codes_of_app rc d1 d2 l : codes_of rc (d1 ++ d2) l = codes_of rc d2 l ++ codes_of rc d1 (d2 ++ l).
Proof.
  induction d1 as [|e d1 IH]; [by rewrite app_nil_r|]. rewrite <- app_comm_cons.
  destruct e; cbn [codes_of]; rewrite IH; rewrite <- ?app_assoc; done.
Qed.

(** A PHY that returns a run's results agrees with the one of the run. *)
Lemma results_agree rc d l before more :
  length before = sends l ->
  agree rc (results (before ++ codes_of rc d l ++ more)) l (d ++ l).
Proof.
  intros Hb bufs fl k [d2 ->] [d1 E].
  assert (Ed : d = d1 ++ EvPhySend bufs fl :: d2).
  { apply (app_inv_tail l). rewrite E, <- app_assoc. done. }
  subst d. clear E. unfold results. rewrite codes_of_app. cbn [codes_of sends].
  rewrite sends_app, <- !app_assoc, (app_assoc before).
  replace (S (sends d2 + sends l) - 1)%nat with (length (before ++ codes_of rc d2 l))
    by (rewrite length_app, codes_of_length; lia).
  symmetry. apply nth_middle.
Qed.

Definition log_of (n : node) : list event := MacState.log (mac (nd_app n)).

(** Every send so far has its result recorded. *)
Definition counted (n : node) : Prop := length (hw_codes (nd_hw n)) = sends (log_of n).

(** With a PHY that returns the results recorded up to [n'], whatever it returns
    afterwards, [f] goes from the program of [n] to that of [n']. *)
Definition realises (f : (list event -> Z) -> option sensor) (n n' : node) : Prop :=
  counted n -> counted n' /\ hw_codes (nd_hw n) `prefix_of` hw_codes (nd_hw n') /\
  forall more, f (results (hw_codes (nd_hw n') ++ more)) = Some (nd_app n').

Lemma realises_bind f g n n1 n2 :
  realises f n n1 -> realises (fun rc => g rc (nd_app n1)) n1 n2 ->
  realises (fun rc => f rc ≫= g rc) n n2.
Proof.
  intros H1 H2 Hc. destruct (H1 Hc) as (C1 & P1 & F1). destruct (H2 C1) as (C2 & P2 & F2).
  split; [done|]. split; [by etrans|]. intros more. destruct P2 as [c2 E2].
  rewrite E2, <- app_assoc, F1. cbn. rewrite app_assoc, <- E2. apply F2.
Qed.

Lemma realises_ext f g n n' : (forall rc, f rc = g rc) -> realises f n n' -> realises g n n'.
Proof. intros E H Hc. destruct (H Hc) as (? & ? & F). split_and!; [done|done|]. intros more. by rewrite <- E. Qed.

(** A step that leaves the program and the results as they are. *)
Lemma realises_same n n' :
  nd_app n' = nd_app n -> hw_codes (nd_hw n') = hw_codes (nd_hw n) -> realises (fun _ => Some (nd_app n)) n n'.
Proof.
  intros Ea Ec Hc. unfold counted, log_of in *. rewrite Ea, Ec. split_and!; [done|done|]. done.
Qed.

Section Refinement.
Context `{P : Platform} (fuel : nat).

(** The driver's records after a call of the MAC. *)
Lemma on_hw_records {A} (m : Si443x.D A) h a h' :
  on_hw m h = Running (a, h') -> hw_codes h' = hw_codes h /\ hw_heard h' = hw_heard h.
Proof. unfold on_hw. destruct (m (hw_radio h)); [|done..]. by intros [= _ <-]. Qed.

Lemma serve_records e h rc h' :
  serve fuel e h = Running (rc, h') ->
  hw_codes h' = hw_codes h ++ (match e with EvPhySend _ _ => [rc] | _ => [] end) /\ hw_heard h' = hw_heard h.
Proof.
  destruct e as [bufs fl| | | | | | | |]; cbn [serve]; rewrite ?app_nil_r;
    try exact (on_hw_records _ h rc h'); [|by intros [= _ <-]..].
  destruct (on_hw _ h) as [[rc0 h0]| |] eqn:E; cbn [obind]; [|done..].
  apply on_hw_records in E as [Ec Eh]. intros [= <- <-].
  destruct (rc0 =? 0); cbn; by rewrite Ec.
Qed.

Lemma serve_all_records d l h r h' :
  serve_all fuel d h = Running (r, h') ->
  hw_codes h' = hw_codes h ++ codes_of (answers fuel l h) d l /\ hw_heard h' = hw_heard h.
Proof.
  revert r h'. induction d as [|e d IH]; intros r h'; cbn [serve_all].
  { intros [= _ <-]. cbn. by rewrite app_nil_r. }
  destruct (serve_all fuel d h) as [[r1 h1]| |] eqn:E1; cbn [obind]; [|done..]. intros E2.
  destruct (IH _ _ eq_refl) as [C1 L1]. destruct (serve_records _ _ _ _ E2) as [C2 L2].
  split; [|congruence]. rewrite C2, C1.
  destruct e as [bufs fl| | | | | | | |]; cbn [codes_of]; rewrite ?app_nil_r; try done.
  rewrite <- app_assoc. do 3 f_equal. unfold answers, since. cbn [length].
  change (EvPhySend bufs fl :: d ++ l) with ((EvPhySend bufs fl :: d) ++ l).
  rewrite length_app. cbn [length].
  replace (S (length d + length l) - length l)%nat with (length (EvPhySend bufs fl :: d)) by (cbn; lia).
  rewrite take_app_length. cbn [serve_all]. rewrite E1. cbn [obind]. by rewrite E2.
Qed.

Lemma mac_call_realises f n n' :
  causal f (nd_app n) -> mac_call fuel f n = Running n' ->
  realises (fun rc => f rc (nd_app n)) n n' /\ hw_heard (nd_hw n') = hw_heard (nd_hw n).
Proof.
  intros Hc H. unfold mac_call in H. set (l := MacState.log (mac (nd_app n))) in *.
  set (rc := answers _ _ _) in H. destruct (f rc (nd_app n)) as [s'|] eqn:E; [|done].
  destruct (proj1 (Hc rc rc s' E)) as [d Ed]. fold l in Ed.
  assert (Es : since l (MacState.log (mac s')) = d).
  { unfold since. rewrite Ed, length_app. replace (_ + _ - _)%nat with (length d) by lia. apply take_app_length. }
  rewrite Es in H. destruct (serve_all _ _ _) as [[r h]| |] eqn:Eh; cbn [obind] in H; [|done..].
  injection H as <-.
  destruct (serve_all_records d l _ _ _ Eh) as [C L]. cbn [nd_hw nd_app]. split; [|done].
  intros Hn. unfold counted, log_of in *. cbn [nd_hw nd_app]. fold l in Hn.
  rewrite C, Ed, length_app, codes_of_length, sends_app. split; [lia|]. split; [by eexists|].
  intros more. apply (Hc rc); [exact E|]. fold l. rewrite Ed, <- app_assoc. by apply results_agree.
Qed.

Definition received (rx : option (list Z * Z)) (rc : list event -> Z) (s : sensor) : option sensor :=
  match rx with
  | None => Some s
  | Some (buf, rssi) => Some (with_mac (@tinymac_recv_cb (passive_env phy_get_mtu rc) buf rssi) s)
  end.

Lemma rest_received rc now adc rx s :
  rest_part phy_get_mtu rc now adc rx s = rest_part phy_get_mtu rc now adc None s ≫= received rx rc.
Proof.
  unfold rest_part. destruct (due now (next_post s)); [destruct (post_message _ _ _ _)|];
    by destruct rx as [[buf rssi]|].
Qed.

Lemma events_realises n n' :
  node_events fuel n = Running n' ->
  exists rx, hw_heard (nd_hw n') = hw_heard (nd_hw n) ++ [rx] /\
    realises (fun rc => received rx rc (nd_app n)) n n'.
Proof.
  unfold node_events, node_receive.
  destruct (on_hw (phy_event_handler fuel) (nd_hw n)) as [[rx h]| |] eqn:E; cbn [obind]; [|done..].
  apply on_hw_records in E as [Ec Eh]. intros H. exists rx.
  destruct rx as [[buf rssi]|].
  - apply mac_call_realises in H as [R L]; [|apply causal_receive]. cbn [nd_hw note_heard hw_heard] in L.
    split; [by rewrite L, Eh|]. intros Hn. cbn [nd_app] in R.
    destruct R as (C' & P' & F'); [unfold counted, log_of in *; cbn; by rewrite Ec|].
    cbn [nd_hw note_heard hw_codes] in P'. rewrite Ec in P'. by split_and!.
  - simplify_eq. split; [cbn; by rewrite Eh|]. by apply realises_same.
Qed.

Lemma pass_realises adc n n' :
  node_pass fuel adc n = Running n' ->
  exists rx, hw_heard (nd_hw n') = hw_heard (nd_hw n) ++ [rx] /\
    realises (fun rc => loop_body phy_get_mtu rc adc rx (nd_app n)) n n'.
Proof.
  unfold node_pass, node_tick, node_post. set (now := timer_tick_count _).
  destruct (mac_call fuel _ n) as [n1| |] eqn:E1; cbn [obind]; [|done..].
  destruct (mac_call fuel _ n1) as [n2| |] eqn:E2; cbn [obind]; [|done..].
  intros E3. apply events_realises in E3 as (rx & L3 & R3).
  apply mac_call_realises in E1 as [R1 L1]; [|apply causal_tick].
  apply mac_call_realises in E2 as [R2 L2]; [|apply causal_post].
  exists rx. split; [by rewrite L3, L2, L1|].
  pose proof (realises_bind _ (fun rc => rest_part phy_get_mtu rc now adc None) _ _ _ R1 R2) as R12.
  eapply realises_ext; [|exact (realises_bind _ (received rx) _ _ _ R12 R3)].
  intros rc. symmetry. apply rest_received.
Qed.

Lemma iter_isr_mac k s : mac (Nat.iter k timer_isr s) = mac s.
Proof. induction k as [|k IH]; [done|]. exact IH. Qed.

(** The passes of a run with what was received in each. *)
Definition with_heard (ps : list (nat * Z)) (rxs : list (option (list Z * Z))) : list pass :=
  zip_with (fun q rx => mk_pass q.1 q.2 rx) ps rxs.

Lemma run_realises ps n n' :
  node_run fuel ps n = Running n' ->
  exists rxs, hw_heard (nd_hw n') = hw_heard (nd_hw n) ++ rxs /\ length rxs = length ps /\
    realises (fun rc => run_loop phy_get_mtu rc (with_heard ps rxs) (nd_app n)) n n'.
Proof.
  revert n. induction ps as [|[k adc] ps IH]; intros n H; cbn [node_run] in H.
  { simplify_eq. exists []. rewrite app_nil_r. split_and!; [done|done|]. by apply realises_same. }
  destruct (node_pass fuel adc (node_ticks k n)) as [n1| |] eqn:E; cbn [obind] in H; [|done..].
  apply pass_realises in E as (rx & L & R). destruct (IH n1 H) as (rxs & L' & Hlen & R').
  exists (rx :: rxs). cbn [node_ticks nd_app nd_hw] in L, R. split; [by rewrite L', L, <- app_assoc|].
  split; [cbn; by rewrite Hlen|].
  assert (R1 : realises (fun rc => loop_body phy_get_mtu rc adc rx (Nat.iter k timer_isr (nd_app n))) n n1).
  { intros Hn. apply R. unfold counted, log_of in *. cbn [node_ticks nd_app nd_hw]. by rewrite iter_isr_mac. }
  eapply realises_ext; [|exact (realises_bind _ (fun rc => run_loop phy_get_mtu rc (with_heard ps rxs)) _ _ _ R1 R')].
  intros rc. cbn. by destruct (loop_body _ _ _ _ _).
Qed.

Lemma sensor_boot_rc mtu rc rc' pins r1 r2 r3 :
  sensor_boot mtu rc pins r1 r2 r3 = sensor_boot mtu rc' pins r1 r2 r3.
Proof.
  unfold sensor_boot, sensor_env, tinymac_init.
  by change (@phy_mtu (passive_env mtu rc)) with (@phy_mtu (passive_env mtu rc')).
Qed.

Lemma sensor_boot_log mtu rc pins r1 r2 r3 :
  MacState.log (mac (sensor_boot mtu rc pins r1 r2 r3)) = [EvPhyListen; EvPhyRegisterRecv] \/
  MacState.log (mac (sensor_boot mtu rc pins r1 r2 r3)) = [EvPhyRegisterRecv].
Proof. vm_compute. auto. Qed.

(** After the boot nothing has been sent and nothing received. *)
Lemma boot_records pins r1 r2 r3 n :
  node_boot fuel pins r1 r2 r3 = Running n ->
  counted n /\ hw_heard (nd_hw n) = [] /\ forall rc, nd_app n = sensor_boot phy_get_mtu rc pins r1 r2 r3.
Proof.
  unfold node_boot. cbv zeta.
  destruct (on_hw _ _) as [[r h]| |] eqn:Eh; cbn [obind]; [|done..]. apply on_hw_records in Eh as [Ec Eh].
  unfold mac_call. set (rc0 := answers _ _ _). intros H.
  destruct (serve_all _ _ _) as [[r' h']| |] eqn:Es; cbn [obind] in H; [|done..].
  apply (serve_all_records _ []) in Es as [C L]. injection H as <-. cbn [nd_hw nd_app mac] in *.
  rewrite Ec in C. rewrite Eh in L.
  assert (Ed : forall l, since (MacState.log world_zero) l = l).
  { intros l. unfold since. cbn. by rewrite Nat.sub_0_r, take_ge. }
  split_and!; [|done|intros rc; apply sensor_boot_rc].
  unfold counted, log_of. cbn [nd_hw nd_app]. rewrite C, Ed. cbn [hw_codes app]. apply codes_of_length.
Qed.

(** A run of the machine is a run of the program's model with the results and
    the packets recorded. *)
Lemma node_run_refines pins r1 r2 r3 ps n :
  node_main fuel pins r1 r2 r3 ps = Running n ->
  let h := nd_hw n in
  length (hw_heard h) = length ps /\ length (hw_codes h) = sends (log_of n) /\
  run_loop phy_get_mtu (results (hw_codes h)) (with_heard ps (hw_heard h))
    (sensor_boot phy_get_mtu (results (hw_codes h)) pins r1 r2 r3) = Some (nd_app n).
Proof.
  unfold node_main. destruct (node_boot _ _ _ _ _) as [n1| |] eqn:E; cbn [obind]; [|done..].
  intros H. destruct (boot_records _ _ _ _ _ E) as (C & L & A).
  destruct (run_realises ps n1 n H) as (rxs & Lr & Hlen & R). rewrite L in Lr. cbn [app] in Lr.
  destruct (R C) as (Cn & _ & F). cbv zeta. rewrite Lr. split; [done|]. split; [exact Cn|].
  specialize (F []). rewrite app_nil_r in F. by rewrite <- A.
Qed.
End Refinement.
