(* ===== verification/SensorSafe.v ===== *)
(** * Safety of the sensor as a whole

    Invariants of the machine of [SensorNode.v] with any transceiver: its
    behaviour is defined, its pins follow the driver and the program, and what
    the transceiver has been given to transmit is what the MAC has sent. *)

From stdpp Require Import base list numbers.
From Stdlib Require Import ZArith Lia.
From S2P Require Import Prelude Wire MacState Mac MacInv MacRun MacLocal MacEx MacSends MacApp.
From S2P Require Import Si443xRegs Si443x Si443xBus Si443xSpec Si443xProps Si443xIo Board Sensor SensorNode.
Local Open Scope drv_scope.

(** ** Outcomes *)

Definition holds {A} (Q : A -> Prop) (o : outcome A) : Prop :=
  match o with
  | Running a => Q a
  | Waiting => True
  | Broken => False
  end.

Lemma holds_bind {A B} (Q : A -> Prop) (R : B -> Prop) o k :
  holds Q o -> (forall a, Q a -> holds R (k a)) -> holds R (obind o k).
Proof. intros Ho Hk. destruct o; [by apply Hk|done..]. Qed.

Lemma holds_mono {A} (Q R : A -> Prop) o : holds Q o -> (forall a, Q a -> R a) -> holds R o.
Proof. intros Ho H. destruct o; [by apply H|done..]. Qed.

(** ** Pins *)

(** The level of a pin after an operation of the board depends on that pin's
    level before it. *)
Lemma board_step_level e id r r' :
  pin_ok id -> level id r = level id r' -> level id (board_step e r) = level id (board_step e r').
Proof.
  intros Hid H. destruct e; try done; cbn [board_step];
    unfold SELECT, DESELECT, POWER_UP, POWER_DOWN, nSELECT;
    rewrite ?level_setp, ?level_clearp by (done || apply sdn_ok || apply sel_ok); by rewrite H.
Qed.

Lemma board_run_level h id r r' :
  pin_ok id -> level id r = level id r' -> level id (board_run h r) = level id (board_run h r').
Proof. intros Hid H. induction h as [|e h IH]; [done|]. by apply board_step_level. Qed.

Lemma board_run_led h r : level LED (board_run h r) = level LED r.
Proof.
  induction h as [|e h IH]; [done|]. cbn [board_run fold_right]. fold (board_run h r).
  destruct e; try done; cbn [board_step]; unfold SELECT, DESELECT, POWER_UP, POWER_DOWN, nSELECT;
    by rewrite ?level_setp, ?level_clearp by (apply sdn_ok || apply sel_ok || apply led_ok).
Qed.

Lemma on_event_level e id r :
  pin_ok id -> same_pin LED id = false -> level id (on_event e r) = level id r.
Proof.
  intros Hid Hn. destruct e as [| | | | | |p ty buf| |]; try done. cbn [on_event]. unfold rx_handler.
  destruct (ty =? _); [|done]. destruct buf as [|c buf]; [done|].
  destruct (negb (c =? 0)); rewrite ?level_setp, ?level_clearp by (done || apply led_ok); by rewrite Hn.
Qed.

Lemma on_event_led e r r' : level LED r = level LED r' -> level LED (on_event e r) = level LED (on_event e r').
Proof.
  intros H. destruct e as [| | | | | |p ty buf| |]; try done. cbn [on_event]. unfold rx_handler.
  destruct (ty =? _); [|done]. destruct buf as [|c buf]; [done|].
  destruct (negb (c =? 0)); by rewrite ?level_setp, ?level_clearp by apply led_ok.
Qed.

Lemma shut_down_app l h : Forall keeps_power l -> shut_down h = false -> shut_down (l ++ h) = false.
Proof.
  intros Hl Hh. induction Hl as [|e l He _ IH]; [done|]. unfold keeps_power in He. by destruct e.
Qed.

(** ** The hardware *)

Section Hardware.
Context `{P : Platform} (fuel : nat) (pins : port -> Z).

(** The pins are where the driver's operations have put them, and the power is
    on. *)
Record wired (h : hw) : Prop := {
  wi_power : shut_down (hist (hw_radio h)) = false;
  wi_pins : forall id, pin_ok id -> same_pin LED id = false ->
    level id (hw_ports h) = level id (board_run (hist (hw_radio h)) (TRX_ON (board_init pins)))
}.

(** The packets read from the chip, of what each call of the event handler has
    passed to the receive callback. *)
Definition payloads (heard : list (option (list Z * Z))) : list (list Z) :=
  omap (fun rx => fst <$> rx) heard.

(** The transceiver has been loaded with the packets accepted, each announced
    with its length and transmitted once, and with nothing else; and what has
    been read of its FIFO are the packets passed on. *)
Record aired (h : hw) : Prop := {
  ai_settled : settled (hw_radio h);
  ai_fifo : fifo_data (Si443xBus.log (hw_radio h)) = concat (hw_sent h);
  ai_lengths : tx_lengths (Si443xBus.log (hw_radio h)) = map (fun p => Z.of_nat (length p)) (hw_sent h);
  ai_starts : tx_starts (Si443xBus.log (hw_radio h)) = length (hw_sent h);
  ai_reads : fifo_reads (Si443xBus.log (hw_radio h)) = payloads (hw_heard h)
}.

Lemma on_hw_run {A} (m : Si443x.D A) h a h' :
  powered m -> on_hw m h = Running (a, h') ->
  m (hw_radio h) = Done a (hw_radio h') /\
  (hw_sent h' = hw_sent h /\ hw_codes h' = hw_codes h /\ hw_heard h' = hw_heard h) /\
  exists l, hist (hw_radio h') = l ++ hist (hw_radio h) /\ Forall keeps_power l /\
    hw_ports h' = board_run l (hw_ports h).
Proof.
  intros Hm. unfold on_hw. specialize (Hm (hw_radio h)). destruct (m (hw_radio h)) as [b d| |]; [|done..].
  intros [= <- <-]. cbn. split; [done|]. split; [done|]. destruct Hm as (l & El & Hl). exists l.
  split; [done|]. split; [done|]. unfold new_io. rewrite El, length_app.
  replace (length l + length (hist (hw_radio h)) - length (hist (hw_radio h)))%nat with (length l) by lia.
  by rewrite take_app_length.
Qed.

Lemma on_hw_wired {A} (m : Si443x.D A) h a h' :
  powered m -> on_hw m h = Running (a, h') -> wired h -> wired h' /\ level LED (hw_ports h') = level LED (hw_ports h).
Proof.
  intros Hm Hr [Hp Hpin]. destruct (on_hw_run m h a h' Hm Hr) as (_ & _ & l & Eh & Hl & Er).
  split; [|rewrite Er; apply board_run_led]. split.
  - rewrite Eh. by apply shut_down_app.
  - intros id Hid Hn. rewrite Er, Eh. unfold board_run. rewrite fold_right_app.
    apply board_run_level; [done|]. by apply Hpin.
Qed.

Record sound (h : hw) : Prop := { so_wired : wired h; so_aired : aired h }.

(** The callback the driver calls. *)
Definition hears (h : hw) : bool := phy_si443x_recv_cb (hw_radio h).

(** A step that is sound, keeps the LED and the callback as they are and has
    these packets accepted, results returned and packets passed on. *)
Record moved_on (sent : list (list Z)) (codes : list Z) (heard : list (option (list Z * Z))) (h h' : hw) : Prop := {
  mo_sound : sound h';
  mo_led : level LED (hw_ports h') = level LED (hw_ports h);
  mo_hears : hears h' = hears h;
  mo_sent : hw_sent h' = hw_sent h ++ sent;
  mo_codes : hw_codes h' = hw_codes h ++ codes;
  mo_heard : hw_heard h' = hw_heard h ++ heard
}.

(** A driver call that takes no part in a transmission or reception. *)
Lemma on_hw_kept {A} (m : Si443x.D A) (Q : A -> Prop) h :
  powered m -> sound h ->
  wp m (fun a w' => Q a /\ exists l, went (hw_radio h) l w' /\ neutral l) (hw_radio h) ->
  holds (fun '(a, h') => Q a /\ moved_on [] [] [] h h') (on_hw m h).
Proof.
  intros Hp [Hw [Hs Hf Hl Ht Hr]] Hm. destruct (on_hw m h) as [[a h']| |] eqn:E; cbn [holds]; [|done|].
  2:{ unfold on_hw, wpb in *. by destruct (m (hw_radio h)). }
  destruct (on_hw_wired m h a h' Hp E Hw) as [Hw' Hled].
  destruct (on_hw_run m h a h' Hp E) as (Em & (Es & Ec & Eh) & _). unfold wpb in Hm. rewrite Em in Hm.
  destruct Hm as (HQ & l & Hwent & [N1 N2 N3 N4]). split; [done|].
  split; rewrite ?app_nil_r; [|done|apply (wt_cb _ _ _ Hwent)|done..]. split; [done|].
  split; [by eapply went_settled| |..]; rewrite (wt_log _ _ _ Hwent), ?Es, ?Eh; autorewrite with radio.
  - by rewrite N1, app_nil_r.
  - by rewrite N2, app_nil_r.
  - by rewrite N3, Nat.add_0_r.
  - by rewrite N4, app_nil_r.
Qed.

Lemma standby_neutral : neutral standby_log. Proof. by split. Qed.
Lemma listen_neutral : neutral listen_log. Proof. by split. Qed.

(** A packet the MAC may hand to the driver. *)
Definition carried (packet : list Z) : Prop := bytes packet /\ Z.of_nat (length packet) <= phy_get_mtu.

(** The packets with result 0. *)
Definition accepted (codes : list Z) (packets : list (list Z)) : list (list Z) :=
  omap (fun '(rc, p) => if rc =? 0 then Some p else None) (zip codes packets).

Lemma accepted_app c1 c2 p1 p2 :
  length c1 = length p1 -> accepted (c1 ++ c2) (p1 ++ p2) = accepted c1 p1 ++ accepted c2 p2.
Proof. intros H. unfold accepted. by rewrite zip_with_app, omap_app. Qed.

Lemma accepted_sublist codes packets : accepted codes packets `sublist_of` packets.
Proof.
  revert packets. induction codes as [|rc codes IH]; intros [|p packets]; try apply sublist_nil_l.
  unfold accepted in *. cbn. destruct (rc =? 0); [by apply sublist_skip|by apply sublist_cons].
Qed.

(** What [phy_send] returns. *)
Definition result (rc : Z) : Prop := rc = 0 \/ rc = -1.

Lemma send_kept bufs flags h :
  bufs <> [] -> carried (concat bufs) -> sound h ->
  holds (fun '(rc, h') => result rc /\ moved_on (accepted [rc] [concat bufs]) [rc] [] h h')
    (serve fuel (EvPhySend bufs flags) h).
Proof.
  intros Hne [Hb Hl] [Hw [Hs Hf Hn Ht Hr]]. cbn [serve].
  assert (Hm : Si443x.phy_send fuel bufs flags (hw_radio h) <> Fault).
  { eapply wp_no_fault, (wp_phy_send fuel bufs flags (hw_radio h) (fun _ _ => True)); [apply Hs|done|done..]. }
  destruct (on_hw (Si443x.phy_send fuel bufs flags) h) as [[rc h']| |] eqn:E; cbn [obind holds]; [|done|].
  2:{ unfold on_hw in E. by destruct (Si443x.phy_send fuel bufs flags (hw_radio h)). }
  destruct (on_hw_run _ h rc h' (powered_send fuel bufs flags) E) as (Er & (Es & Ec & Eh) & _).
  destruct (on_hw_wired _ h rc h' (powered_send fuel bufs flags) E Hw) as [Hw' Hled].
  assert (Hset : settled (hw_radio h') /\ hears h' = hears h).
  { refine (wp_run _ (fun _ w' => settled w' /\ phy_si443x_recv_cb w' = hears h) _ _ _ _ Er).
    apply wp_phy_send; [apply Hs|done|..]; intros; (split; [by eapply went_settled|by eapply wt_cb]). }
  destruct Hset as [Hset Hcb].
  destruct (radio_send_result fuel bufs flags (hw_radio h) rc (hw_radio h') (proj1 Hs) Hne Hb Hl Er)
    as [(-> & _ & l & El & [N1 N2 N3 N4])|(-> & _ & ev & body & El & [N1 N2 N3 N4] & Bf & Bl & Bs & Br)].
  - split; [by right|]. cbn. split; cbn; rewrite ?Es, ?Ec, ?Eh, ?app_nil_r; try done.
    split; [by destruct Hw'; split|]. split; cbn; [done|..]; rewrite El, ?Es, ?Eh; autorewrite with radio.
    + by rewrite N1, app_nil_r.
    + by rewrite N2, app_nil_r.
    + by rewrite N3, Nat.add_0_r.
    + by rewrite N4, app_nil_r.
  - split; [by left|]. cbn. split; cbn; rewrite ?Es, ?Ec, ?Eh, ?app_nil_r; try done.
    split; [by destruct Hw'; split|]. split; cbn; [done|..]; rewrite El, ?Es, ?Eh; autorewrite with radio.
    + rewrite N1, Bf, Hf, concat_app. cbn. by rewrite !app_nil_r.
    + rewrite N2, Bl, Hn, map_app. done.
    + rewrite N3, Bs, Ht, length_app. change (tx_starts listen_log) with O.
      change (tx_starts [_; _; _]) with O. cbn [length]. lia.
    + rewrite N4, Br, Hr. cbn. by rewrite !app_nil_r.
Qed.

(** The event handler's packet is what it has read of the FIFO. *)
Lemma events_kept h :
  sound h -> hears h = true ->
  holds (fun '(rx, h') => (forall buf rssi, rx = Some (buf, rssi) -> bytes buf) /\
           moved_on [] [] [rx] h (note_heard rx h'))
    (on_hw (phy_event_handler fuel) h).
Proof.
  intros [Hw [Hs Hf Hn Ht Hr]] Hcb. pose proof (powered_phy_event_handler fuel) as Hp.
  set (Q := fun (rx : option (list Z * Z)) w' => (forall buf rssi, rx = Some (buf, rssi) -> bytes buf) /\
    exists l, went (hw_radio h) l w' /\ fifo_data l = [] /\ tx_lengths l = [] /\ tx_starts l = O /\
      fifo_reads l = payloads [rx]).
  assert (Hm : wp (phy_event_handler fuel) Q (hw_radio h)).
  { apply wp_phy_event_handler; [apply Hs|]. intros l st k p r w' H [N1 N2 N3 N4] _ Hb _ -> _.
    unfold hears in Hcb. rewrite Hcb. split.
    - intros buf rssi. destruct (decide _); [|done]. by intros [= <- <-].
    - eexists. split; [exact H|]. autorewrite with radio. rewrite N1, N2, N3, N4.
      destruct (decide (st = stateRxValid)) as [-> | Hst]; [by split_and!|]. by destruct st. }
  destruct (on_hw (phy_event_handler fuel) h) as [[rx h']| |] eqn:E; cbn [holds]; [|done|].
  2:{ unfold on_hw, wpb in *. by destruct (phy_event_handler fuel (hw_radio h)). }
  destruct (on_hw_wired _ h rx h' Hp E Hw) as [Hw' Hled].
  destruct (on_hw_run _ h rx h' Hp E) as (Em & (Es & Ec & Eh) & _). unfold wpb in Hm. rewrite Em in Hm.
  destruct Hm as (HQ & l & Hwent & L1 & L2 & L3 & L4). split; [done|].
  split; cbn; rewrite ?Es, ?Ec, ?Eh, ?app_nil_r; try done; [|apply (wt_cb _ _ _ Hwent)].
  split; [by destruct Hw'; split|].
  split; cbn; [by eapply went_settled| |..]; rewrite (wt_log _ _ _ Hwent), ?Es, ?Eh; autorewrite with radio.
  - by rewrite L1, app_nil_r.
  - by rewrite L2, app_nil_r.
  - by rewrite L3, Nat.add_0_r.
  - rewrite L4, Hr. unfold payloads. by rewrite omap_app.
Qed.

(** The packets a log has handed to the driver, in order. *)
Fixpoint handed (l : list event) : list (list Z) :=
  match l with
  | [] => []
  | EvPhySend bufs _ :: l => handed l ++ [concat bufs]
  | _ :: l => handed l
  end.

Lemma handed_app l l' : handed (l ++ l') = handed l' ++ handed l.
Proof.
  induction l as [|e l IH]; [by rewrite app_nil_r|]. change ((e :: l) ++ l') with (e :: (l ++ l')).
  destruct e; cbn [handed]; rewrite IH; try done. by rewrite <- app_assoc.
Qed.

(** The MAC's invariants about its packets do not depend on the driver's results. *)
#[local] Instance mac_env : Env := passive_env phy_get_mtu (fun _ => 0).

Lemma sublist_Forall {A} (Q : A -> Prop) l k : l `sublist_of` k -> Forall Q k -> Forall Q l.
Proof.
  induction 1 as [|x l k _ IH|x l k _ IH]; intros H; [done|..]; apply list.Forall_cons in H as [Hx H]; auto.
Qed.

Lemma handed_carried l : Forall event_fits l -> Forall carried (handed l).
Proof.
  induction 1 as [|e l He _ IH]; [constructor|]. destruct e; cbn [handed]; try done.
  apply Forall_app. split; [done|]. constructor; [|constructor]. destruct He as (_ & Hb & Hlen).
  split; [done|]. exact Hlen.
Qed.

(** Whether a log has registered the MAC's receive callback with the driver. *)
Definition registers (e : event) : bool := match e with EvPhyRegisterRecv => true | _ => false end.

(** What an event leaves behind: sound hardware, the LED where the program's
    callbacks put it, the event's packet accepted if its result is 0, and nothing
    received. *)
Record served (l : list event) (h h' : hw) : Prop := {
  se_sound : sound h';
  se_led : forall r, level LED (hw_ports h) = level LED r ->
    level LED (hw_ports h') = level LED (fold_right on_event r l);
  se_hears : hears h' = existsb registers l || hears h;
  se_heard : hw_heard h' = hw_heard h;
  se_sent : exists codes, hw_codes h' = hw_codes h ++ codes /\ Forall result codes /\
    length codes = length (handed l) /\ hw_sent h' = hw_sent h ++ accepted codes (handed l)
}.

Lemma moved_served e sent codes h h' :
  moved_on sent codes [] h h' -> (forall r, on_event e r = r) -> registers e = false ->
  Forall result codes -> length codes = length (handed [e]) -> sent = accepted codes (handed [e]) ->
  served [e] h h'.
Proof.
  intros [Hs Hl Hc Hn Hcs Hh] He Hreg Hf Hlen ->. split; [done|..].
  - intros r Hr. cbn [fold_right]. by rewrite He, Hl.
  - cbn [existsb]. by rewrite Hreg, Hc.
  - by rewrite Hh, app_nil_r.
  - by exists codes.
Qed.

(** A call of the program moves the LED at most. *)
Lemma call_served e h :
  (forall bufs flags, e <> EvPhySend bufs flags) -> registers e = false -> sound h ->
  served [e] h (mk_hw (hw_radio h) (on_event e (hw_ports h)) (hw_sent h) (hw_codes h) (hw_heard h)).
Proof.
  intros He Hreg [[Hp Hpin] [Hset Hf Hn Ht Hr]]. split; [| | |done|].
  - split; split; cbn; try done. intros id Hid Hne. by rewrite on_event_level, Hpin.
  - intros r Hr'. by apply on_event_led.
  - cbn [existsb]. by rewrite Hreg.
  - exists []. cbn [hw_codes hw_sent]. rewrite !app_nil_r. split_and!; [done|constructor|..];
      destruct e as [b f| | | | | | | |]; try done; by destruct (He b f).
Qed.

Lemma serve_served e h :
  event_fits e -> sound h -> holds (fun '(_, h') => served [e] h h') (serve fuel e h).
Proof.
  intros He Hs. pose proof (proj1 (ai_settled h (so_aired h Hs))) as Hi.
  assert (Hk : forall (m : Si443x.D Z), (forall r, on_event e r = r) -> registers e = false -> handed [e] = [] ->
    powered m -> wp m (fun a w' => True /\ exists l, went (hw_radio h) l w' /\ neutral l) (hw_radio h) ->
    holds (fun '(_, h') => served [e] h h') (on_hw m h)).
  { intros m Hev Hreg Hnil Hp Hm. eapply holds_mono; [by apply (on_hw_kept m (fun _ => True))|].
    intros [a h'] [_ K]. apply (moved_served _ _ _ _ _ K); by rewrite ?Hnil. }
  destruct e as [bufs flags| |us| | |cb r|p ty buf|p|p]; cbn [serve].
  - destruct He as (Hne & Hb & Hl). eapply holds_mono.
    { apply (send_kept bufs flags h Hne); [|done]. split; [done|]. exact Hl. }
    intros [rc h'] [Hrc K]. apply (moved_served _ _ _ _ _ K); try done. by apply list.Forall_singleton.
  - apply Hk; [done..|apply powered_standby|]. apply wp_standby; [done|]. eauto using standby_neutral.
  - apply Hk; [done..|apply powered_delayed_standby|]. apply wp_delayed_standby; [done|].
    intros w' Hw. split; [done|]. eexists. split; [by apply moved_went|]. by split.
  - apply Hk; [done..|apply powered_listen|]. apply wp_listen; [done|]. eauto using listen_neutral.
  - destruct Hs as [[Hp Hpin] [[Hidle Hr] Hf Hn Ht Hrd]]. destruct h as [d r sent codes heard]. cbn in *.
    unfold new_io. cbn [hist]. rewrite Nat.sub_diag. cbn [take board_run fold_right].
    split; [split; split; cbn; done|done|done|done|]. exists []. cbn. by rewrite !app_nil_r.
  - by apply call_served.
  - by apply call_served.
  - by apply call_served.
  - by apply call_served.
Qed.

Lemma served_then e l h h1 h2 : served l h h1 -> served [e] h1 h2 -> served (e :: l) h h2.
Proof.
  intros [_ L1 C1 H1 (c1 & K1 & F1 & N1 & S1)] [Hs L2 C2 H2 (c2 & K2 & F2 & N2 & S2)]. split; [done|..].
  - intros r Hr. apply (L2 (fold_right on_event r l)). by apply L1.
  - rewrite C2, C1. cbn [existsb]. by rewrite orb_false_r, orb_assoc.
  - congruence.
  - exists (c1 ++ c2). change (e :: l) with ([e] ++ l). rewrite handed_app, K2, K1, S2, S1, accepted_app, !length_app by done.
    rewrite !app_assoc. split_and!; [done|by apply Forall_app|lia|done].
Qed.

Lemma serve_all_served l h :
  Forall event_fits l -> sound h -> holds (fun '(_, h') => served l h h') (serve_all fuel l h).
Proof.
  intros Hl Hs. induction Hl as [|e l He _ IH]; cbn [serve_all].
  { split; [done|done|done|done|]. exists []. cbn. by rewrite !app_nil_r. }
  eapply holds_bind; [exact IH|]. intros [rc h1] H1. eapply holds_mono; [by apply serve_served, H1|].
  intros [rc' h2] H2. by eapply served_then.
Qed.

(** ** The machine *)

Definition mac_log (n : node) : list event := MacState.log (mac (nd_app n)).

Record node_safe (n : node) : Prop := {
  no_sound : sound (nd_hw n);
  no_fits : world_fits (mac (nd_app n));
  no_led : level LED (hw_ports (nd_hw n)) = level LED (ports (nd_app n));
  no_hears : hears (nd_hw n) = existsb registers (mac_log n);
  no_results : Forall result (hw_codes (nd_hw n));
  no_codes : length (hw_codes (nd_hw n)) = length (handed (mac_log n));
  no_sent : hw_sent (nd_hw n) = accepted (hw_codes (nd_hw n)) (handed (mac_log n))
}.

(** After the boot the MAC's receive callback is registered. *)
Definition node_ok (n : node) : Prop := node_safe n /\ existsb registers (mac_log n) = true.

(** A piece of the program that keeps the MAC's packets within bounds, and whose
    only other effect on the ports is that of its callbacks. *)
Definition tidy (s s' : sensor) : Prop :=
  world_fits (mac s') /\ MacState.log (mac s) `suffix_of` MacState.log (mac s') /\
  ports s' = react (MacState.log (mac s)) (MacState.log (mac s')) (ports s).

Lemma mac_call_safe f n :
  node_safe n -> (forall rc, exists s', f rc (nd_app n) = Some s' /\ tidy (nd_app n) s') ->
  holds (fun n' => node_safe n' /\ exists rc, f rc (nd_app n) = Some (nd_app n') /\
                   mac_log n `suffix_of` mac_log n') (mac_call fuel f n).
Proof.
  intros [Hs Hw Hl Hh Hr Hc Hsent] Hf. unfold mac_call. set (rc := answers _ _ _).
  destruct (Hf rc) as (s' & E & Hw' & [l El] & Ep). rewrite E. unfold mac_log in *.
  set (new := since _ _). assert (Hnew : new = l).
  { unfold new, since. rewrite El, length_app.
    replace (length l + _ - _)%nat with (length l) by lia. by rewrite take_app_length. }
  assert (Hre : react (MacState.log (mac (nd_app n))) (MacState.log (mac s')) (ports (nd_app n)) =
               fold_right on_event (ports (nd_app n)) l) by (by rewrite <- Hnew).
  rewrite Hnew. eapply holds_bind; [apply serve_all_served; [|done]|].
  { pose proof (wf_log _ Hw') as H. rewrite El in H. by apply Forall_app in H as [H _]. }
  intros [rc' h'] [Hs' Hl' Hc' Hh' (codes & Ec & Fc & Lc & Es)].
  split; [|exists rc; split; [done|by exists l]]. split; cbn [nd_hw nd_app]; [done|done|..].
  - rewrite Ep, Hre. by apply Hl'.
  - unfold mac_log. cbn [nd_app]. by rewrite Hc', El, existsb_app, Hh.
  - rewrite Ec. by apply Forall_app.
  - unfold mac_log. cbn [nd_app]. rewrite Ec, El, handed_app, !length_app. lia.
  - unfold mac_log. cbn [nd_app]. by rewrite Es, Ec, El, handed_app, accepted_app, Hsent.
Qed.

Lemma mac_call_ok f n :
  node_ok n -> (forall rc, exists s', f rc (nd_app n) = Some s' /\ tidy (nd_app n) s') ->
  holds node_ok (mac_call fuel f n).
Proof.
  intros [Hn Hreg] Hf. eapply holds_mono; [by apply mac_call_safe|].
  intros n' (Hn' & _ & _ & [l El]). split; [done|]. by rewrite El, existsb_app, Hreg, orb_true_r.
Qed.

Lemma tidy_with_mac {A} (m : M A) s : fitting m -> grows m -> world_fits (mac s) -> tidy s (with_mac m s).
Proof. intros Hf Hg Hw. split; [by apply Hf|]. split; [apply Hg|done]. Qed.

Lemma tidy_refl s : world_fits (mac s) -> tidy s s.
Proof.
  intros Hw. split; [done|]. split; [done|]. unfold react. by rewrite Nat.sub_diag.
Qed.

Lemma fits_rc rc w : @world_fits (passive_env phy_get_mtu rc) w <-> world_fits w.
Proof. split; intros []; by split. Qed.

Lemma fitting_rc {A} rc (m : M A) : @fitting (passive_env phy_get_mtu rc) A m -> fitting m.
Proof. intros H w Hw. apply (fits_rc rc), H. by apply fits_rc. Qed.

Lemma tick_ok now n : node_ok n -> holds node_ok (node_tick fuel now n).
Proof.
  intros Hn. apply mac_call_ok; [done|]. intros rc. eexists. split; [reflexivity|].
  pose proof (no_fits _ (proj1 Hn)) as Hw. unfold tick_part, sensor_env. destruct (due _ _); [|by apply tidy_refl].
  apply (tidy_with_mac _ (mk_sensor (timer_tick_count (nd_app n)) (u32 (now + 1)) (next_post (nd_app n))
    (ports (nd_app n)) (mac (nd_app n)))); [|apply (same_run_tick _ (fun _ => 0))|done].
  apply (fitting_rc rc), fitting_tick_handler.
Qed.

Lemma post_ok now adc n : u32 adc <> 0 -> node_ok n -> holds node_ok (node_post fuel now adc n).
Proof.
  intros Ha Hn. apply mac_call_ok; [done|]. intros rc. pose proof (no_fits _ (proj1 Hn)) as Hw.
  unfold rest_part, post_message, sensor_env, vbatt_mv. destruct (Z.eqb_spec (u32 adc) 0) as [|_]; [done|].
  destruct (due _ _); (eexists; split; [reflexivity|]); [|by apply tidy_refl].
  apply (tidy_with_mac _ (mk_sensor (timer_tick_count (nd_app n)) (next_mac_tick (nd_app n)) (u32 (now + 20))
    (ports (nd_app n)) (mac (nd_app n)))); [|apply (same_run_send _ (fun _ => 0))|done].
  apply (fitting_rc rc), fitting_send, le_bytes_bytes.
Qed.

Lemma receive_ok buf rssi n : bytes buf -> node_ok n -> holds node_ok (node_receive fuel buf rssi n).
Proof.
  intros Hb Hn. apply mac_call_ok; [done|]. intros rc. eexists. split; [reflexivity|].
  apply tidy_with_mac; [|apply (same_run_recv _ (fun _ => 0))|apply (proj1 Hn)].
  by apply (fitting_rc rc), fitting_recv_cb.
Qed.

Lemma events_ok n : node_ok n -> holds node_ok (node_events fuel n).
Proof.
  intros [[Hs Hw Hl Hh Hr Hc Hsent] Hreg]. unfold node_events. eapply holds_bind.
  { apply events_kept; [done|]. by rewrite Hh. }
  intros [rx h'] (Hrx & [Hs' Hl' Hh' Es Ec _]). rewrite !app_nil_r in *.
  assert (Hok : node_ok (mk_nd (nd_app n) (note_heard rx h'))).
  { split; [|done]. split; cbn [nd_hw nd_app]; rewrite ?Hl', ?Hh', ?Es, ?Ec; done. }
  destruct rx as [[buf rssi]|]; [|done]. by eapply receive_ok, Hok; eapply Hrx.
Qed.

Lemma pass_ok adc n : u32 adc <> 0 -> node_ok n -> holds node_ok (node_pass fuel adc n).
Proof.
  intros Ha Hn. unfold node_pass. eapply holds_bind; [by apply tick_ok|]. intros n1 H1.
  eapply holds_bind; [by apply post_ok|]. intros n2 H2. by apply events_ok.
Qed.

Lemma run_ok ps n : Forall (fun q => u32 q.2 <> 0) ps -> node_ok n -> holds node_ok (node_run fuel ps n).
Proof.
  intros Hp. revert n. induction Hp as [|[k adc] ps Ha _ IH]; intros n Hn; [done|]. cbn [node_run].
  eapply holds_bind; [apply pass_ok; [done|]|done].
  destruct Hn as [[Hs Hw Hl Hh Hr Hc Hsent] Hreg]. unfold node_ticks.
  split; [|unfold mac_log in *; cbn [nd_app]; by rewrite iter_isr_mac].
  split; unfold mac_log in *; cbn [nd_hw nd_app]; rewrite ?iter_isr_mac; try done.
  rewrite Hl. clear. induction k as [|k IH]; [done|]. exact IH.
Qed.

Lemma init_neutral t v l : l = init_log \/ l = [] -> neutral ([Reinit; Reinit] ++ ident_log t v ++ l).
Proof. by intros [-> | ->]; split. Qed.

Lemma init_kept h : sound h -> holds (fun '(_, h') => True /\ moved_on [] [] [] h h') (on_hw (phy_init fuel) h).
Proof.
  intros Hs. apply (on_hw_kept _ (fun _ => True) h (powered_init fuel) Hs).
  unfold phy_init. apply wp_bind. eapply wp_perform; [apply Hs|reflexivity|]. intros w1 H1.
  apply wp_bind. eapply wp_perform; [apply H1|reflexivity|]. intros w2 H2.
  apply wp_resume; [apply H2|]. intros rc t v l w' H Hc. split; [done|].
  pose proof (moved_went _ _ _ (moved_trans _ _ _ _ _ H1 H2)) as H12.
  eexists. split; [exact (went_trans _ _ _ _ _ H12 H)|]. apply init_neutral. tauto.
Qed.

Lemma boot_ok r1 r2 r3 : holds node_ok (node_boot fuel pins r1 r2 r3).
Proof.
  unfold node_boot. cbv zeta. set (r0 := TRX_ON (board_init pins)).
  assert (H0 : sound (mk_hw radio_zero r0 [] [] [])).
  { split; split; cbn [hw_radio hw_ports hw_sent]; done. }
  eapply holds_bind; [by apply init_kept|]. intros [rc h] (_ & [Hs Hl Hh Es Ec _]).
  cbn [hw_sent hw_codes app] in Es, Ec. eapply holds_mono.
  - apply mac_call_safe.
    + split; unfold mac_log; cbn [nd_hw nd_app mac ports]; rewrite ?Ec, ?Hh; try done. apply world_zero_fits.
    + intros rc'. eexists. split; [reflexivity|]. cbn [nd_app].
      assert (Hw : world_fits (mac (sensor_boot phy_get_mtu rc' pins r1 r2 r3))).
      { apply (fits_rc rc'). unfold sensor_boot. cbn [mac].
        apply (@reachable_fits (passive_env phy_get_mtu rc') sensor_params). eapply reach_step.
        - apply reach_boot. vm_compute; repeat split; congruence.
        - apply step_register_recv. }
      split; [done|]. split; [apply suffix_nil|]. done.
  - intros n (Hn & rc' & E & _). split; [done|]. injection E as E. unfold mac_log. rewrite <- E.
    by destruct (sensor_boot_log phy_get_mtu rc' pins r1 r2 r3) as [-> | ->].
Qed.

Lemma main_ok r1 r2 r3 ps :
  Forall (fun q => u32 q.2 <> 0) ps -> holds node_ok (node_main fuel pins r1 r2 r3 ps).
Proof. intros Hp. eapply holds_bind; [apply boot_ok|]. intros n Hn. by apply run_ok. Qed.
End Hardware.

(** ** Theorems *)

(** C9: the MAC and the application run on the driver as on the PHY they are
    written for. Whenever the main loop comes round, with any transceiver and
    any passes in which no battery measurement is zero, the program's state is
    the one its own model reaches from the boot with a PHY whose [phy_send]
    returns, send by send, the results recorded, and whose event handler passes
    on, pass by pass, what is recorded; and the records are what the bus shows:
    one result per packet the MAC has sent, each 0 or -1; the packets with
    result 0, and no others, have been announced with their length, loaded into
    the transmit FIFO byte by byte and transmitted once each, in order; and the
    packets passed to the MAC are, byte for byte and in order, all that has been
    read from the receive FIFO. *)
Theorem sensor_node_refines `{P : Platform} fuel pins r1 r2 r3 ps n :
  Forall (fun q => u32 q.2 <> 0) ps ->
  node_main fuel pins r1 r2 r3 ps = Running n ->
  let h := nd_hw n in
  let bus := Si443xBus.log (hw_radio h) in
  let packets := handed (MacState.log (mac (nd_app n))) in
  let sent := accepted (hw_codes h) packets in
  run_loop phy_get_mtu (results (hw_codes h)) (with_heard ps (hw_heard h))
    (sensor_boot phy_get_mtu (results (hw_codes h)) pins r1 r2 r3) = Some (nd_app n) /\
  length (hw_codes h) = length packets /\ Forall result (hw_codes h) /\
  length (hw_heard h) = length ps /\
  fifo_data bus = concat sent /\ tx_lengths bus = map (fun p => Z.of_nat (length p)) sent /\
  tx_starts bus = length sent /\
  fifo_reads bus = payloads (hw_heard h).
Proof.
  intros Hp Hrun. pose proof (main_ok fuel pins r1 r2 r3 ps Hp) as H. rewrite Hrun in H.
  destruct H as [[[_ [_ Hf Hl Ht Hr]] _ _ _ Hres Hc Hs] _]. rewrite Hs in Hf, Hl, Ht.
  destruct (node_run_refines fuel pins r1 r2 r3 ps n Hrun) as (L1 & _ & R). by split_and!.
Qed.

(** C10: the sensor as a whole, with any transceiver at the other end of its wires,
    from power-up through any run of its main loop in which no battery
    measurement is zero (for which it divides by zero): its behaviour is defined -
    no assertion of the driver fails, nothing is read past an array - and
    whenever the loop comes round the select pin is high and the shutdown pin
    low, the LED is where the program's last command put it and every other pin
    as initialised; every bus transaction was well formed; and the bytes written
    to the transmit FIFO, the lengths announced and the number of times the
    transmitter was switched on are exactly those of packets the MAC has sent,
    in order, each once and none longer than the MTU. *)
Theorem sensor_node_safe `{P : Platform} fuel pins r1 r2 r3 ps :
  Forall (fun q => u32 q.2 <> 0) ps ->
  match node_main fuel pins r1 r2 r3 ps with
  | Broken => False
  | Waiting => True
  | Running n =>
      let h := nd_hw n in
      level nTRX_SEL (hw_ports h) = true /\ level TRX_SDN (hw_ports h) = false /\
      level LED (hw_ports h) = level LED (ports (nd_app n)) /\
      (forall id, pin_ok id -> Forall (fun p => same_pin p id = false) [LED; nTRX_SEL; TRX_SDN] ->
         level id (hw_ports h) = Z.testbit (PORT_VAL (pin_port id)) (pin_no id)) /\
      bus_ok (bus_of (hist (hw_radio h))) = true /\
      fifo_data (Si443xBus.log (hw_radio h)) = concat (hw_sent h) /\
      tx_lengths (Si443xBus.log (hw_radio h)) = map (fun p => Z.of_nat (length p)) (hw_sent h) /\
      tx_starts (Si443xBus.log (hw_radio h)) = length (hw_sent h) /\
      hw_sent h `sublist_of` handed (MacState.log (mac (nd_app n))) /\
      Forall carried (hw_sent h)
  end.
Proof.
  intros Hp. pose proof (main_ok fuel pins r1 r2 r3 ps Hp) as H.
  destruct (node_main _ _ _ _ _ _) as [n| |]; [|done..]. destruct H as [[[Hw Ha] Hfit Hl _ _ _ Hs] _]. cbv zeta.
  assert (Hsub : hw_sent (nd_hw n) `sublist_of` handed (MacState.log (mac (nd_app n))))
    by (rewrite Hs; apply accepted_sublist).
  destruct Hw as [Hpow Hpin], Ha as [[[Hopen Hok] _] Hf Hn Ht _].
  assert (B : forall id, pin_ok id -> same_pin LED id = false ->
    let r := hw_ports (nd_hw n) in
    level nTRX_SEL r = true /\ level TRX_SDN r = false /\
    (same_pin nTRX_SEL id = false -> same_pin TRX_SDN id = false ->
     level id r = Z.testbit (PORT_VAL (pin_port id)) (pin_no id))).
  { intros id Hid Hn'. cbv zeta. rewrite !Hpin by (done || apply sel_ok || apply sdn_ok).
    destruct (board_follows_bus pins (hist (hw_radio (nd_hw n))) id Hok Hid) as (B1 & B2 & B3).
    rewrite B1, B2, Hpow. unfold is_idle. by rewrite Hopen. }
  destruct (B TRX_MOSI ltac:(split; [done|cbn; lia]) eq_refl) as (B1 & B2 & _).
  split_and!; try done.
  - intros id Hid Hne. apply list.Forall_cons in Hne as [Hne1 Hne]. apply list.Forall_cons in Hne as [Hne2 Hne].
    apply list.Forall_cons in Hne as [Hne3 _]. by apply B.
  - apply (sublist_Forall _ _ _ Hsub), handed_carried, Hfit.
Qed.

(** ** Witnesses *)

(** Whether the chip has an interrupt to report: after its reset and at the end
    of a transmission, until its status is read. *)
Fixpoint reports (l : list access) : bool :=
  match l with
  | [] => false
  | RdReg r _ :: l => if r =? R_INT_STATUS then false else reports l
  | WrReg r (v :: _) :: l =>
      if (r =? R_OP_CTRL1) && ((v =? SWRES) || (v =? MODE_TX)) then true else reports l
  | _ :: l => reports l
  end.

Definition node_chip : Chip := {|
  chip_irq l := negb (reports (rev l));
  chip_read _ addr i :=
    if addr =? R_DEVICE_TYPE then 8 else if addr =? R_DEVICE_VERSION then 6
    else if addr =? R_INT_STATUS then (if (i =? 0)%nat then IPKSENT / 256 else IPKSENT mod 256)
    else 0
|}.

(** Three passes, the second after one tick, the third after a minute; the first
    sends a beacon request. *)
Definition node_passes : list (nat * Z) := [(0%nat, 300); (1%nat, 300); (240%nat, 300)].

Definition node_run0 : outcome node :=
  @node_main (spi_slave node_chip) 40 (fun _ => 0) 10 20 7 node_passes.

Lemma sensor_node_safe_witness :
  exists n, node_run0 = Running n /\ length (hw_sent (nd_hw n)) = 1%nat /\
    level nTRX_SEL (hw_ports (nd_hw n)) = true /\ level TRX_SDN (hw_ports (nd_hw n)) = false /\
    fifo_data (Si443xBus.log (hw_radio (nd_hw n))) = concat (hw_sent (nd_hw n)).
Proof.
  assert (Hp : Forall (fun q => u32 q.2 <> 0) node_passes) by (repeat constructor; vm_compute; congruence).
  pose proof (@sensor_node_safe (spi_slave node_chip) 40 (fun _ => 0) 10 20 7 node_passes Hp) as H.
  assert (Hl : match node_run0 with Running n => length (hw_sent (nd_hw n)) | _ => O end = 1%nat)
    by (vm_compute; reflexivity).
  unfold node_run0 in *. destruct (node_main _ _ _ _ _ _) as [n| |]; [|discriminate Hl..].
  destruct H as (H1 & H2 & _ & _ & _ & H3 & _).
  exists n. split; [reflexivity|]. split; [exact Hl|]. split; [exact H1|]. split; [exact H2|exact H3].
Defined.

(** A chip that, once it has transmitted, receives a packet of three bytes
    whenever its receiver is switched on. *)
Fixpoint echoes (l : list access) : option Z :=
  match l with
  | [] => None
  | RdReg r _ :: l => if r =? R_INT_STATUS then None else echoes l
  | WrReg r (v :: _) :: l =>
      if r =? R_OP_CTRL1 then
        if (v =? SWRES) || (v =? MODE_TX) then Some IPKSENT
        else if (v =? MODE_RX) && (0 <? tx_starts l)%nat then Some IPKVALID
        else echoes l
      else echoes l
  | _ :: l => echoes l
  end.

Definition echo_chip : Chip := {|
  chip_irq l := match echoes (rev l) with Some _ => false | None => true end;
  chip_read l addr i :=
    if addr =? R_DEVICE_TYPE then 8 else if addr =? R_DEVICE_VERSION then 6
    else if addr =? R_INT_STATUS then
      match echoes (rev l) with Some v => if (i =? 0)%nat then v / 256 else v mod 256 | None => 0 end
    else if addr =? R_RX_LENGTH then 3
    else if addr =? R_FIFO then 7 + Z.of_nat i
    else 0
|}.

(** The packet sent, and one packet received in each pass. *)
Lemma sensor_node_refines_witness :
  exists n, @node_main (spi_slave echo_chip) 40 (fun _ => 0) 10 20 7 node_passes = Running n /\
    run_loop phy_get_mtu (results [0]) (with_heard node_passes (repeat (Some ([7; 8; 9], 0)) 3))
      (sensor_boot phy_get_mtu (results [0]) (fun _ => 0) 10 20 7) = Some (nd_app n) /\
    tx_starts (Si443xBus.log (hw_radio (nd_hw n))) = 1%nat /\
    fifo_reads (Si443xBus.log (hw_radio (nd_hw n))) = [[7; 8; 9]; [7; 8; 9]; [7; 8; 9]].
Proof.
  assert (Hp : Forall (fun q => u32 q.2 <> 0) node_passes) by (repeat constructor; vm_compute; congruence).
  assert (Hl : match @node_main (spi_slave echo_chip) 40 (fun _ => 0) 10 20 7 node_passes with
               | Running n => Some (hw_codes (nd_hw n), hw_heard (nd_hw n), handed (MacState.log (mac (nd_app n))))
               | _ => None
               end = Some ([0], repeat (Some ([7; 8; 9], 0)) 3, [[1; 0; 255; 255; 255; 21]]))
    by (vm_compute; reflexivity).
  destruct (node_main _ _ _ _ _ _) as [n| |] eqn:E; [|discriminate Hl..].
  destruct (@sensor_node_refines (spi_slave echo_chip) 40 (fun _ => 0) 10 20 7 node_passes n Hp E)
    as (Hr & _ & _ & _ & _ & _ & Ht & Hf).
  injection Hl as Hc Hh Hs. rewrite Hc, Hh in Hr. rewrite Hc, Hs in Ht. rewrite Hh in Hf.
  exists n. split; [reflexivity|]. split; [exact Hr|]. split; [exact Ht|exact Hf].
Defined.
