(* ===== verification/Gateway.v ===== *)
(** * The MQTT-SN gateway example ([examples/mqttsn-simple-gateway/main.c])

    A coordinator that relays MQTT-SN packets between the radio network and a
    broker: each device address has a UDP socket of its own, packets from a
    device go to the broker from that socket, and datagrams from the broker on
    it go to the device.

    The model has the receive callback and the event loop over the MAC.  What
    [epoll_wait] reports and what the socket, the PHY and the timer then have
    are inputs; datagrams to the broker are collected with the number of their
    socket.  A NULL dereference is the outcome [Crash].  [main] itself is in
    [Mains.v]. *)

From stdpp Require Import base list numbers.
From Stdlib Require Import ZArith Lia.
From S2P Require Import Prelude Wire MacState Mac MacInv MacRun MacEx MacTx MacReg MacHandshake MacApp.

(** ** State and operations *)

Definition MAX_DEVICES : Z := 256.
Definition MAX_PAYLOAD : nat := 1024.
Definition DEVICE_PORT_BASE : Z := 11000.

Record gateway := mk_gateway {
  gw_mac : world;
  gw_sent : list (Z * list Z)      (* socket index and data, in order *)
}.

Inductive outcome : Type :=
| Running (g : gateway)
| Exit (status : Z)
| Crash.

(** The callback, in the MAC's world [w]: [node->addr] selects the socket. *)
Definition rx_handler (w : world) (node : option node_ptr) (type : Z) (buf : list Z)
    (sent : list (Z * list Z)) : option (list (Z * list Z)) :=
  if type =? type_code tinymacType_MQTTSN then
    match node with
    | None => None
    | Some p => Some (sent ++ [(n_addr (node_at p w), buf)])
    end
  else Some sent.

(** The callbacks among the events logged by a call, the oldest first. *)
Definition on_event (w : world) (e : event) (sent : option (list (Z * list Z))) :=
  match e, sent with
  | EvRecvCb node type buf, Some sent => rx_handler w node type buf sent
  | _, _ => sent
  end.

Definition with_mac {A} (m : M A) (g : gateway) : outcome :=
  let w' := snd (m (gw_mac g)) in
  let new := take (length (log w') - length (log (gw_mac g))) (log w') in
  match fold_right (on_event w') (Some (gw_sent g)) new with
  | Some sent => Running (mk_gateway w' sent)
  | None => Crash
  end.

(** What the descriptor of a reported event has. *)
Inductive input : Type :=
| Received (d : list Z)                   (* a datagram from the broker *)
| ReceiveError                            (* recvfrom() < 0 *)
| PhyInput (rx : option (list Z * Z))     (* what the PHY event handler delivers *)
| TimerInput.

Definition gateway_params (uuid : Z) : tinymac_params_t := mk_params uuid true 0 3 0.

Section Gateway.
Context (mtu : Z) (rc : list event -> Z).
#[local] Instance gateway_env : Env := passive_env mtu rc.

(** The body of the loop over the reported events; [ev] is [data.u32]. *)
Definition handle_event (ev : Z) (i : input) (g : gateway) : outcome :=
  if ev <? MAX_DEVICES then
    match i with
    | Received d =>
        let payload := take MAX_PAYLOAD d in
        with_mac (tinymac_send (u8 ev) (type_code tinymacType_MQTTSN) payload 0 None) g
    | ReceiveError => Exit 1
    | _ => Running g
    end
  else if ev =? MAX_DEVICES + 0 then
    match i with
    | PhyInput (Some (buf, rssi)) => with_mac (tinymac_recv_cb buf rssi) g
    | _ => Running g
    end
  else if ev =? MAX_DEVICES + 1 then with_mac tinymac_tick_handler g
  else Running g.

(** The start of [main], with the results of [rand()]. *)
Definition gateway_boot (uuid r1 r2 r3 : Z) : gateway :=
  let w := snd (tinymac_init (gateway_params uuid) r1 r2 r3 world_zero) in
  let w := snd (tinymac_register_recv_cb true w) in
  let w := snd (tinymac_permit_attach true w) in
  mk_gateway w [].

Fixpoint run_gateway (evs : list (Z * input)) (g : gateway) : outcome :=
  match evs with
  | [] => Running g
  | (ev, i) :: evs =>
      match handle_event ev i g with
      | Running g => run_gateway evs g
      | o => o
      end
  end.

(** The callbacks send nothing through the MAC. *)
Lemma passive_send e w : upcall e w = (tt, set_log (e :: log w) w).
Proof. apply (passive_upcall mtu rc). Qed.

(** ** A serving gateway *)

Definition serving (uuid : Z) (g : gateway) : Prop :=
  reachable (gateway_params uuid) (gw_mac g) /\ settings (gw_mac g) = (true, true).

Definition input_ok (i : input) : Prop :=
  match i with
  | Received d => bytes d
  | PhyInput (Some (buf, _)) => bytes buf
  | _ => True
  end.

Lemma with_mac_world {A} (m : M A) g g' : with_mac m g = Running g' -> gw_mac g' = snd (m (gw_mac g)).
Proof. unfold with_mac. destruct (fold_right _ _ _); [|done]. by intros [= <-]. Qed.

Lemma unheard_fold w sent new :
  Forall no_recv new -> fold_right (on_event w) (Some sent) new = Some sent.
Proof. induction 1 as [|e new He _ IH]; [done|]. cbn [fold_right]. rewrite IH. by destruct e. Qed.

(** A call that makes no receive callback sends nothing to the broker. *)
Lemma with_mac_tame {A} (m : M A) g :
  logs no_recv m -> with_mac m g = Running (mk_gateway (snd (m (gw_mac g))) (gw_sent g)).
Proof.
  intros Hu. destruct (Hu (gw_mac g)) as (new & E & F). unfold with_mac. rewrite E, length_app.
  replace (length new + length (log (gw_mac g)) - length (log (gw_mac g)))%nat with (length new) by lia.
  by rewrite take_app_length, unheard_fold.
Qed.

Lemma boot_serving uuid r1 r2 r3 : is_u64 uuid -> serving uuid (gateway_boot uuid r1 r2 r3).
Proof.
  intros Hu. split; [|done]. unfold gateway_boot. cbn [gw_mac].
  do 2 (eapply reach_step; [|constructor]). apply reach_boot.
  unfold params_ok, gateway_params. cbn. widths. split_and!; lia.
Qed.

Lemma handle_serving uuid ev i g g' :
  serving uuid g -> input_ok i -> handle_event ev i g = Running g' -> serving uuid g'.
Proof.
  intros [Hr Hs] Hi. unfold handle_event.
  assert (Hm : forall A (m : M A), step (gw_mac g) (snd (m (gw_mac g))) -> keeps_settings m ->
    with_mac m g = Running g' -> serving uuid g').
  { intros A m Hst Hk E. apply with_mac_world in E. split; rewrite E; [by eapply reach_step|].
    by rewrite Hk. }
  destruct (_ <? _); [destruct i as [d| |rx|]|destruct (_ =? _); [destruct i as [d| |[[buf rssi]|]|]|destruct (_ =? _)]];
    try (by intros [= <-]).
  - apply Hm; [|apply tame_send]. constructor; [apply u8_range|..].
    + by vm_compute.
    + by apply Forall_take.
    + by vm_compute.
  - apply Hm; [by constructor|apply ks_recv_cb].
  - apply Hm; [constructor|apply tame_tick_handler].
Qed.

Lemma run_serving uuid evs g g' :
  serving uuid g -> Forall (fun e => input_ok e.2) evs -> run_gateway evs g = Running g' -> serving uuid g'.
Proof.
  intros Hg He. revert g Hg. induction He as [|[ev i] evs Hi _ IH]; intros g Hg; cbn [run_gateway].
  - by intros [= <-].
  - destruct (handle_event ev i g) as [g1| |] eqn:E; try done. intros Hrun.
    eapply IH; [|exact Hrun]. by eapply handle_serving.
Qed.

(** ** Theorems *)

(** A device's slot fixes its address. *)
Lemma serving_addr uuid w i :
  reachable (gateway_params uuid) w -> (i < TINYMAC_MAX_NODES)%nat ->
  n_addr (node_at (PNode i) w) = Z.of_nat i + 1.
Proof.
  intros Hr Hi. apply reachable_inv in Hr.
  exact (ok_slot _ _ (node_at_ok _ (PNode i) _ Hr Hi)).
Qed.

(** A packet from a registered device, with the MAC that results. *)
Lemma uplink_run uuid g p hdr payload rssi :
  serving uuid g -> heard_from p hdr (gw_mac g) -> bytes payload ->
  data_type hdr = type_code tinymacType_MQTTSN ->
  let w1 := snd (rx_known_source hdr p rssi (set_log (rx_power_log hdr (gw_mac g)) (gw_mac g))) in
  let e := EvRecvCb (Some p) (type_code tinymacType_MQTTSN) payload in
  let g' := mk_gateway (set_log (e :: log w1) w1) (gw_sent g ++ [(h_src_addr hdr, payload)]) in
  handle_event 256 (PhyInput (Some (header_bytes hdr ++ payload, rssi))) g = Running g' /\
  serving uuid g' /\ 0 <= h_src_addr hdr < MAX_DEVICES.
Proof.
  intros Hg Hh Hb Ht w1 e g'. pose proof Hg as [Hr Hs]. injection Hs as Hperm Hcb.
  pose proof (reachable_inv _ _ Hr) as Hinv.
  destruct (proj1 (lookup_addr_spec _ _ _ _ Hinv eq_refl) (hf_known _ _ _ Hh)) as (i & -> & Hi & Ha & _).
  destruct (recv_data_passive mtu rc (PNode i) hdr payload rssi (gw_mac g) Hh
    ltac:(rewrite Ht; vm_compute; congruence) ltac:(done)) as (Hrecv & new & E & F).
  rewrite Ht in Hrecv. change (the_env mtu rc) with gateway_env in *. fold w1 in Hrecv, E. fold e in Hrecv.
  assert (Hbytes : bytes (header_bytes hdr ++ payload)) by (apply Forall_app; split; [apply header_bytes_bytes|done]).
  assert (Hw : reachable (gateway_params uuid) (set_log (e :: log w1) w1)).
  { replace (set_log (e :: log w1) w1) with (snd (tinymac_recv_cb (header_bytes hdr ++ payload) rssi (gw_mac g)))
      by (by rewrite Hrecv). eapply reach_step; [exact Hr|]. by constructor. }
  assert (Hout : handle_event 256 (PhyInput (Some (header_bytes hdr ++ payload, rssi))) g = Running g').
  { change (handle_event 256 _ g) with (with_mac (tinymac_recv_cb (header_bytes hdr ++ payload) rssi) g).
    unfold with_mac. rewrite Hrecv. cbn [snd log set_log]. rewrite E. cbn [length]. rewrite length_app.
    replace (S (length new + length (log (gw_mac g))) - length (log (gw_mac g)))%nat
      with (S (length new)) by lia.
    cbn [take fold_right]. rewrite take_app_length, unheard_fold by done.
    unfold on_event, e, rx_handler. rewrite Z.eqb_refl. cbv iota. rewrite <- E. fold e.
    by rewrite (serving_addr _ _ i Hw Hi), <- Ha. }
  split; [exact Hout|]. split.
  - apply (handle_serving uuid 256 (PhyInput (Some (header_bytes hdr ++ payload, rssi))) g); done.
  - unfold MAX_DEVICES, TINYMAC_MAX_NODES in *. lia.
Qed.

(** Towards the broker: an MQTT-SN packet that the gateway's MAC receives
    from a registered device makes the gateway send exactly one datagram, the
    packet's payload, from the socket of the device's address, which is an
    element of the socket array; whatever acknowledgement or deferred packet
    the MAC sends the device at the same time, the gateway goes on running. *)
Theorem gateway_uplink uuid g p hdr payload rssi :
  serving uuid g -> heard_from p hdr (gw_mac g) -> bytes payload ->
  data_type hdr = type_code tinymacType_MQTTSN ->
  exists g', handle_event 256 (PhyInput (Some (header_bytes hdr ++ payload, rssi))) g = Running g' /\
    gw_sent g' = gw_sent g ++ [(h_src_addr hdr, payload)] /\ 0 <= h_src_addr hdr < MAX_DEVICES /\
    serving uuid g'.
Proof.
  intros Hg Hh Hb Ht. destruct (uplink_run uuid g p hdr payload rssi Hg Hh Hb Ht) as (Hrun & Hs & Hr).
  eexists. split; [exact Hrun|]. done.
Qed.

Lemma downlink_call n d g :
  0 <= n < MAX_DEVICES -> (length d <= MAX_PAYLOAD)%nat ->
  handle_event n (Received d) g =
  Running (mk_gateway (snd (tinymac_send n (type_code tinymacType_MQTTSN) d 0 None (gw_mac g))) (gw_sent g)).
Proof.
  intros Hn Hl. unfold handle_event.
  replace (n <? MAX_DEVICES) with true by (symmetry; apply Z.ltb_lt; lia).
  rewrite u8_id, take_ge by (done || unfold MAX_DEVICES in *; widths; lia).
  apply with_mac_tame, (tame_send mtu rc).
Qed.

(** A datagram for a device that is ready for it. *)
Lemma downlink_run uuid n d g p :
  reachable (gateway_params uuid) (gw_mac g) ->
  tinymac_get_node_by_addr (ctx (gw_mac g)) n = Some p -> fits (gw_mac g) d ->
  n_state (node_at p (gw_mac g)) = tinymacNodeState_Registered ->
  sleepy (n_flags (node_at p (gw_mac g))) = false ->
  snd (tinymac_send n (type_code tinymacType_MQTTSN) d 0 None (gw_mac g)) =
  set_log (EvPhySend [header_bytes (tx_header (gw_mac g) (type_code tinymacType_MQTTSN) n); d] 0
           :: log (gw_mac g)) (bump (gw_mac g)).
Proof.
  intros Hr Hp Hf Hst Hsl. pose proof (reachable_inv _ _ Hr) as Hinv.
  rewrite (send_plain p) by (done || (vm_compute; congruence)).
  destruct (proj1 (lookup_addr_spec _ _ _ _ Hinv eq_refl) Hp) as (i & -> & Hi & Ha & _).
  destruct Hinv as [Hc _]. cbn [snd]. rewrite (ok_params _ _ Hc).
  by rewrite (serving_addr uuid), <- Ha.
Qed.

(** Towards a device: a datagram on socket [n] is transmitted, unchanged
    and at once, to the registered and free device of address [n] if that
    device does not sleep and the datagram fits a MAC payload; if there is no
    such device, the device is busy, or the datagram is longer than the MAC
    payload limit or the PHY's MTU allows, it is dropped without a trace.  In
    every case the gateway goes on and sends nothing to the broker. *)
Theorem gateway_downlink uuid g n d :
  serving uuid g -> 0 <= n < MAX_DEVICES -> bytes d -> (length d <= MAX_PAYLOAD)%nat ->
  exists g', handle_event n (Received d) g = Running g' /\ gw_sent g' = gw_sent g /\ serving uuid g' /\
    (forall p, tinymac_get_node_by_addr (ctx (gw_mac g)) n = Some p -> fits (gw_mac g) d ->
       n_state (node_at p (gw_mac g)) = tinymacNodeState_Registered ->
       sleepy (n_flags (node_at p (gw_mac g))) = false ->
       exists hdr, log (gw_mac g') = EvPhySend [header_bytes hdr; d] 0 :: log (gw_mac g) /\
         h_dest_addr hdr = n /\ h_flags hdr = type_code tinymacType_MQTTSN) /\
    (tinymac_get_node_by_addr (ctx (gw_mac g)) n = None \/
     (exists p, tinymac_get_node_by_addr (ctx (gw_mac g)) n = Some p /\
        (~ fits (gw_mac g) d \/ n_state (node_at p (gw_mac g)) <> tinymacNodeState_Registered)) ->
     log (gw_mac g') = log (gw_mac g)).
Proof.
  intros Hg Hn Hb Hl. pose proof Hg as [Hr _]. pose proof (downlink_call n d g Hn Hl) as Hw.
  eexists. split; [exact Hw|]. split; [done|].
  split; [exact (handle_serving uuid n (Received d) g _ Hg Hb Hw)|]. cbn [gw_mac]. split.
  - intros p Hp Hf Hst Hsl. rewrite (downlink_run uuid n d g p) by done. by eexists.
  - intros H. destruct (refused_send n (type_code tinymacType_MQTTSN) d 0 None (gw_mac g)) as (w' & Hs & Hlog & _).
    + right. destruct H as [H|(p & H1 & H2)]; [by left|right]. exists p. split; [done|]. tauto.
    + by rewrite Hs.
Qed.

(** C39: one packet from anybody in radio range stops the gateway.  It always
    permits attachment, so its MAC passes on a data packet broadcast to the
    wildcard network from the unassigned address, with a NULL node; the
    callback dereferences the node of every MQTT-SN packet. *)
Theorem gateway_crash uuid evs r1 r2 r3 g seq payload rssi :
  is_u64 uuid -> Forall (fun e => input_ok e.2) evs ->
  run_gateway evs (gateway_boot uuid r1 r2 r3) = Running g -> is_u8 seq ->
  let hdr := mk_header (type_code tinymacType_MQTTSN) TINYMAC_NETWORK_ANY TINYMAC_ADDR_BROADCAST
               TINYMAC_ADDR_UNASSIGNED seq in
  handle_event 256 (PhyInput (Some (header_bytes hdr ++ payload, rssi))) g = Crash.
Proof.
  intros Hu He Hrun Hseq hdr.
  destruct (run_serving uuid evs _ g (boot_serving uuid r1 r2 r3 Hu) He Hrun) as [Hr Hs].
  injection Hs as Hperm Hcb. destruct (reachable_inv _ _ Hr) as [Hc _].
  pose proof (ok_role _ _ Hc) as [_ Haddr]. cbn in Haddr.
  change (handle_event 256 _ g) with (with_mac (tinymac_recv_cb (header_bytes hdr ++ payload) rssi) g).
  assert (Hrecv : tinymac_recv_cb (header_bytes hdr ++ payload) rssi (gw_mac g) =
    (tt, set_log (EvRecvCb None (type_code tinymacType_MQTTSN) payload :: log (gw_mac g)) (gw_mac g))).
  { rewrite recv_anonymous.
    - unfold rx_power_log. rewrite (ok_params _ _ Hc).
      change (sleepy (p_flags (gateway_params uuid))) with false. cbv iota.
      rewrite despatch_data; [|vm_compute; congruence|done]. by rewrite passive_send.
    - split.
      + apply mk_header_ok; auto; widths; vm_compute; split; congruence.
      + cbn. rewrite Haddr. done.
      + unfold dest_accepted. cbn. by rewrite !orb_true_r.
      + unfold anonymous_refused. rewrite (ok_params _ _ Hc). cbn.
        by rewrite Hperm.
      + by right. }
  unfold with_mac. rewrite Hrecv. cbn [snd log set_log length].
  replace (S (length (log (gw_mac g))) - length (log (gw_mac g)))%nat with 1%nat by lia.
  cbn [take fold_right]. done.
Qed.
End Gateway.

(** ** A gateway on network 7 with one device, of address 1 *)

Definition gw_rc : list event -> Z := fun _ => 0.
Definition gw_events : list (Z * input) := [(257, TimerInput); (256, PhyInput (Some (reg_request ex_uuid 5, -40)))].
Definition gateway0 : gateway := gateway_boot 143 gw_rc 0x1122 10 20 7.
Definition gateway1 : gateway :=
  match run_gateway 143 gw_rc gw_events gateway0 with Running g => g | _ => gateway0 end.
Definition publish_header : tinymac_header_t := mk_header (type_code tinymacType_MQTTSN) 7 0 1 9.

Lemma gw_events_ok : Forall (fun e => input_ok e.2) gw_events.
Proof.
  repeat constructor; unfold input_ok, reg_request, packet; cbn [snd gw_events]; try done;
    vm_compute; congruence.
Qed.

Lemma gateway1_serving : serving 143 gw_rc 0x1122 gateway1.
Proof.
  apply (run_serving 143 gw_rc 0x1122 gw_events gateway0);
    [apply boot_serving; vm_compute; split; congruence|apply gw_events_ok|vm_compute; reflexivity].
Qed.

Lemma gateway_uplink_witness :
  exists g', handle_event 143 gw_rc 256 (PhyInput (Some (header_bytes publish_header ++ [3; 12; 0], -40)))
      gateway1 = Running g' /\
    gw_sent g' = gw_sent gateway1 ++ [(1, [3; 12; 0])] /\ 0 <= 1 < MAX_DEVICES /\
    serving 143 gw_rc 0x1122 g'.
Proof.
  apply (gateway_uplink 143 gw_rc 0x1122 gateway1 (PNode 0) publish_header [3; 12; 0] (-40)).
  - apply gateway1_serving.
  - split; try (vm_compute; congruence); try (vm_compute; reflexivity).
    + repeat split; vm_compute; congruence.
    + vm_compute. lia.
  - repeat constructor; vm_compute; congruence.
  - vm_compute. reflexivity.
Defined.

Lemma gateway_downlink_witness :
  exists g' hdr, handle_event 143 gw_rc 1 (Received [3; 5; 0]) gateway1 = Running g' /\
    log (gw_mac g') = EvPhySend [header_bytes hdr; [3; 5; 0]] 0 :: log (gw_mac gateway1) /\
    h_dest_addr hdr = 1 /\ h_flags hdr = type_code tinymacType_MQTTSN.
Proof.
  destruct (gateway_downlink 143 gw_rc 0x1122 gateway1 1 [3; 5; 0]) as (g' & Hrun & _ & _ & Hsend & _).
  - apply gateway1_serving.
  - unfold MAX_DEVICES. lia.
  - repeat constructor; vm_compute; congruence.
  - cbn [length]. unfold MAX_PAYLOAD. lia.
  - destruct (Hsend (PNode 0)) as (hdr & Hlog & Hd & Hf);
      [vm_compute; reflexivity|split; vm_compute; congruence|vm_compute; reflexivity..|].
    exists g', hdr. exact (conj Hrun (conj Hlog (conj Hd Hf))).
Defined.

Lemma gateway_crash_witness :
  handle_event 143 gw_rc 256
    (PhyInput (Some (header_bytes (mk_header (type_code tinymacType_MQTTSN) TINYMAC_NETWORK_ANY
       TINYMAC_ADDR_BROADCAST TINYMAC_ADDR_UNASSIGNED 9) ++ [3; 12; 0], -40))) gateway1 = Crash.
Proof.
  apply (gateway_crash 143 gw_rc 0x1122 gw_events 10 20 7 gateway1 9 [3; 12; 0] (-40));
    [vm_compute; split; congruence|apply gw_events_ok|vm_compute; reflexivity|vm_compute; split; congruence].
Defined.
