(* ===== verification/MqttApp.v ===== *)
(** * The MQTT-SN client example ([examples/mqttsn-client/main.c])

    A device that runs the MQTT-SN client over the MAC: the client's packets go
    to the coordinator as data of type MQTT-SN, and such data from the
    coordinator goes to the client.

    The model has the callbacks, the start of [main] and the body of its event
    loop.  What [epoll_wait] reports, what the PHY then delivers and the clock
    are inputs.  The receive callback is the last thing [tinymac_recv_cb] does
    with a data packet, and the client does not look at the result of a send,
    so the packets the client sends during a call are handed to the MAC, in
    order, at its end.  A fault of the client is [None].  [main] itself is
    in [Mains.v]. *)

From stdpp Require Import strings list numbers.
From Stdlib Require Import ZArith Lia.
From S2P Require Import Prelude Printf Wire MacState Mac MacInv MacRun MacEx MacTx MacApp.
From S2P Require Import MqttSn MqttInv MqttProps MqttWire.

(** ** Data *)

#[local] Open Scope string_scope.

Definition MQTTSN_REG_PUBLISH : Z := Z.shiftl 0 7.
Definition PUBLISH (name : String.string) : mqttsn_c_topic_t := mk_topic (Some (str name)) MQTTSN_REG_PUBLISH.
Definition SUBSCRIBE (name : String.string) (qos : Z) : mqttsn_c_topic_t :=
  mk_topic (Some (str name)) (Z.lor MQTTSN_REG_SUBSCRIBE (Z.land qos MQTTSN_REG_QOS_MASK)).

Definition topics : list mqttsn_c_topic_t :=
  [PUBLISH "zone/1/0/temp"; PUBLISH "zone/1/0/status"; PUBLISH "zone/1/0/important";
   SUBSCRIBE "zone/1/target" 0; SUBSCRIBE "zone/1/message" 0; mk_topic None 0].

#[local] Close Scope string_scope.

Record client := mk_client { cl_mac : world; cl_mq : mq_world }.

(** [snprintf(idstr, sizeof(idstr), "test%04X", (uint16_t)(params.uuid & 0xffff))] *)
Definition idstr (uuid : Z) : list Z :=
  snprintf 10 (str "test%04X"%string) [AInt (u16 (Z.land uuid 0xffff))].

Definition client_params (uuid : Z) : tinymac_params_t := mk_params uuid false 5 0 0.

(** What the descriptor of a reported event has. *)
Inductive input : Type :=
| PhyInput (rx : option (list Z * Z))     (* what the PHY event handler delivers *)
| TimerInput.

(** ** Operations *)

Section App.
Context (mtu : Z) (rc : list event -> Z).
#[local] Instance client_env : Env := passive_env mtu rc.
#[local] Existing Instance mq_quiet.

Definition packet_send (buf : list Z) : M Z :=
  tinymac_send 0 (type_code tinymacType_MQTTSN) buf 0 None.

(** The packets sent during a call of the client, the oldest first. *)
Definition on_send (e : mq_event) (w : world) : world :=
  match e with MqSend msg => snd (packet_send msg w) | _ => w end.

Definition with_mq (m : Q unit) (c : client) : option client :=
  match m (cl_mq c) with
  | None => None
  | Some (_, q) =>
      let new := take (length (mq_log q) - length (mq_log (cl_mq c))) (mq_log q) in
      Some (mk_client (fold_right on_send (cl_mac c) new) q)
  end.

Definition rx_handler (now type : Z) (buf : list Z) (c : client) : option client :=
  if type =? type_code tinymacType_MQTTSN then with_mq (mqttsn_c_handler now (Some buf)) c
  else Some c.

(** A call of the MAC, with the callbacks it makes. *)
Definition on_event (now : Z) (e : event) (c : option client) : option client :=
  match e, c with
  | EvRecvCb _ type buf, Some c => rx_handler now type buf c
  | _, _ => c
  end.

Definition with_mac {A} (now : Z) (m : M A) (c : client) : option client :=
  let w := snd (m (cl_mac c)) in
  let new := take (length (log w) - length (log (cl_mac c))) (log w) in
  fold_right (on_event now) (Some (mk_client w (cl_mq c))) new.

(** The body of the loop over the reported events; [ev] is [data.u32]. *)
Definition handle_event (now ev : Z) (i : input) (c : client) : option client :=
  if ev =? 0 then
    match i with
    | PhyInput (Some (buf, rssi)) => with_mac now (tinymac_recv_cb buf rssi) c
    | _ => Some c
    end
  else if ev =? 1 then
    match with_mac now tinymac_tick_handler c with
    | Some c => with_mq (mqttsn_c_handler now None) c
    | None => None
    end
  else Some c.

(** The start of [main], with the results of [rand()]. *)
Definition client_boot (now uuid r1 r2 r3 : Z) : option client :=
  let w := snd (tinymac_init (client_params uuid) r1 r2 r3 world_zero) in
  let w := snd (tinymac_register_recv_cb true w) in
  with_mq (mqttsn_c_connect now) (mk_client w (mq_boot (idstr uuid) topics)).

Fixpoint run_client (evs : list (Z * Z * input)) (c : client) : option client :=
  match evs with
  | [] => Some c
  | (now, ev, i) :: evs =>
      match handle_event now ev i c with
      | Some c => run_client evs c
      | None => None
      end
  end.

(** The end of [main]. *)
Definition client_quit (now : Z) (c : client) : option client := with_mq (mqttsn_c_disconnect now 0) c.

(** ** The invariant *)

Record running (uuid : Z) (c : client) : Prop := {
  rn_mac : reachable (client_params uuid) (cl_mac c);
  rn_cb : m_rx_cb (ctx (cl_mac c)) = true;
  rn_mq : mq_ok 5 (mq (cl_mq c));
  rn_wired : wired (mq (cl_mq c))
}.

(** Time does not run backwards past zero, the PHY delivers bytes, and no
    MQTT-SN packet publishes to topic ID 0. *)
Definition event_ok (e : Z * Z * input) : Prop :=
  let '(now, _, i) := e in
  0 <= now /\ match i with PhyInput (Some (buf, _)) => bytes buf /\ inbound_ok (payload_of buf) | _ => True end.

Lemma send_running w msg :
  packet_ok msg -> settings (snd (packet_send msg w)) = settings w /\ step w (snd (packet_send msg w)).
Proof.
  intros [Hb _]. split; [apply (tame_send mtu rc)|]. constructor; try done; by vm_compute.
Qed.

Lemma sends_running uuid w new :
  Forall send_ok new -> reachable (client_params uuid) w ->
  reachable (client_params uuid) (fold_right on_send w new) /\
  settings (fold_right on_send w new) = settings w.
Proof.
  intros Hn Hr. induction Hn as [|e new He _ [IH1 IH2]]; [done|]. cbn [fold_right].
  destruct e as [msg| |]; cbn [on_send]; [|done..].
  destruct (send_running (fold_right on_send w new) msg He) as [Hs Hst].
  split; [by eapply reach_step|]. by rewrite Hs.
Qed.

Lemma new_events {A} (new old : list A) : take (length (new ++ old) - length old) (new ++ old) = new.
Proof. rewrite length_app. replace (_ - _)%nat with (length new) by lia. apply take_app_length. Qed.

(** A call of the client that is free of faults keeps the program running. *)
Lemma with_mq_running uuid m c :
  total (mq_ok 5) m (mq_ok 5) -> wires m -> running uuid c ->
  exists c', with_mq m c = Some c' /\ running uuid c'.
Proof.
  intros Ht Hm []. destruct (Ht (cl_mq c) rn_mq0) as ([] & q & E & Hq).
  destruct (Hm _ _ _ E rn_wired0) as (Hw & new & L & F). unfold with_mq. rewrite E, L, new_events.
  destruct (sends_running uuid (cl_mac c) new F rn_mac0) as [Hr Hs].
  eexists. split; [done|]. split; [done| |done|done]. cbn [cl_mac].
  unfold settings in Hs. injection Hs as _ Hcb. by rewrite Hcb.
Qed.

Lemma handler_running uuid now p c :
  0 <= now -> (forall buf, p = Some buf -> inbound_ok buf) -> running uuid c ->
  exists c', with_mq (mqttsn_c_handler now p) c = Some c' /\ running uuid c'.
Proof.
  intros Hn Hp. apply with_mq_running; [|apply wires_handler]. apply total_handler; [done|apply mq_quiet_ok|done].
Qed.

(** The callbacks of one call of the MAC. *)
Lemma callbacks_running uuid now buf new c :
  0 <= now -> inbound_ok (payload_of buf) -> Forall (passes buf) new -> running uuid c ->
  exists c', fold_right (on_event now) (Some c) new = Some c' /\ running uuid c'.
Proof.
  intros Hn Hb Hnew Hc. induction Hnew as [|e new He _ (c1 & E & H1)]; [by eexists|].
  cbn [fold_right]. rewrite E. destruct e; cbn [on_event]; try (by eexists). cbn in He. subst.
  unfold rx_handler. destruct (_ =? _); [|by eexists].
  apply handler_running; [done| |done]. by intros ? [= <-].
Qed.

Lemma silent_fold now c new : Forall no_recv new -> fold_right (on_event now) (Some c) new = Some c.
Proof. induction 1 as [|e new He _ IH]; [done|]. cbn [fold_right]. rewrite IH. by destruct e. Qed.

Lemma quiet_mac_call {A} now (m : M A) c :
  logs no_recv m -> with_mac now m c = Some (mk_client (snd (m (cl_mac c))) (cl_mq c)).
Proof.
  intros Hm. destruct (Hm (cl_mac c)) as (new & E & F). unfold with_mac. rewrite E, new_events.
  by apply silent_fold.
Qed.

Lemma mac_step_running {A} uuid (m : M A) c :
  step (cl_mac c) (snd (m (cl_mac c))) -> keeps_settings m -> running uuid c ->
  running uuid (mk_client (snd (m (cl_mac c))) (cl_mq c)).
Proof.
  intros Hs Hk []. split; [by eapply reach_step| |done|done]. cbn [cl_mac].
  specialize (Hk (cl_mac c)). unfold settings in Hk. injection Hk as _ Hcb. by rewrite Hcb.
Qed.

Lemma event_running uuid now ev i c :
  event_ok (now, ev, i) -> running uuid c ->
  exists c', handle_event now ev i c = Some c' /\ running uuid c'.
Proof.
  intros [Hn Hi] Hc. unfold handle_event. destruct (ev =? 0).
  { destruct i as [[[buf rssi]|]|]; [|by eexists..]. destruct Hi as [Hb Hin].
    destruct (logs_recv_cb mtu rc buf rssi (cl_mac c)) as (new & E & F).
    unfold with_mac. change (the_env mtu rc) with client_env in E. rewrite E, new_events.
    apply (callbacks_running uuid now buf); try done.
    apply mac_step_running; [by constructor|apply (ks_recv_cb mtu rc)|done]. }
  destruct (ev =? 1); [|by eexists].
  rewrite quiet_mac_call by apply (tame_tick_handler mtu rc). apply handler_running; [done..|].
  apply mac_step_running; [constructor|apply (tame_tick_handler mtu rc)|done].
Qed.

(** ** The start *)

Lemma field_chars w v : Forall (fun c => 48 <= c <= 70) (field_of 16 w v).
Proof.
  revert v; induction w as [|w IH]; intros v; [constructor|]. apply Forall_app. split; [apply IH|].
  constructor; [|constructor]. unfold hex_digit. pose proof (Z.mod_pos_bound v 16 ltac:(lia)).
  destruct (Z.ltb_spec (v mod 16) 10); lia.
Qed.

Lemma idstr_field uuid : idstr uuid = str "test"%string ++ field_of 16 4 (u16 (Z.land uuid 0xffff)).
Proof.
  assert (Hv : is_u16 (u16 (Z.land uuid 0xffff))) by apply u16_range.
  assert (E : printf (str "test%04X"%string) [AInt (u16 (Z.land uuid 0xffff))] =
    str "test"%string ++ print_unsigned 16 true 4 false (u16 (Z.land uuid 0xffff)) ++ []) by reflexivity.
  unfold idstr, snprintf. rewrite E, print_fixed, app_nil_r; [|lia|widths; lia|unfold max_digits; lia|widths; lia].
  apply take_ge. rewrite length_app, field_length. cbn. lia.
Qed.

Lemma idstr_ok uuid : c_string (idstr uuid) /\ length (idstr uuid) = 8%nat.
Proof.
  rewrite idstr_field. split; [|by rewrite length_app, field_length].
  pose proof (field_chars 4 (u16 (Z.land uuid 0xffff))) as H.
  split; apply Forall_app; split.
  - by apply bytesb_ok.
  - eapply Forall_impl; [|exact H]. intros c Hc. cbv beta in Hc. widths; lia.
  - by repeat (apply Forall_cons_2; [done|]); apply Forall_nil_2.
  - eapply Forall_impl; [|exact H]. intros c Hc. cbv beta in Hc. lia.
Qed.

Lemma topics_ok : dictionary_ok 5 topics.
Proof.
  split; [vm_compute; lia|]. split; [done|]. split.
  - by intros t [= <-].
  - do 5 (intros [|i]; [intros t _ [= <-]; eexists; split; [reflexivity|];
      split; [vm_compute; lia|repeat constructor; vm_compute; congruence]|]; revert i).
    intros; lia.
Qed.

Lemma boot_running now uuid r1 r2 r3 :
  is_u64 uuid -> 0 <= now ->
  exists c, client_boot now uuid r1 r2 r3 = Some c /\ running uuid c.
Proof.
  intros Hu Hn. destruct (idstr_ok uuid) as [Hs Hl]. unfold client_boot.
  apply with_mq_running; [by apply total_connect|apply wires_connect|].
  split; cbn [cl_mac cl_mq].
  - eapply reach_step; [|constructor]. apply reach_boot.
    unfold params_ok, client_params. cbn. widths. split_and!; lia.
  - done.
  - apply init_ok; [done|lia|apply topics_ok].
  - split; [| |].
    + apply (Forall_replicate is_u8 64 0). widths; lia.
    + apply strncpy_bytes, Hs.
    + unfold topic_bytes. do 5 (apply Forall_cons_2; [intros ? [= <-]; repeat constructor; vm_compute; congruence|]).
      by apply Forall_cons_2; [|apply Forall_nil_2].
Qed.

Lemma run_running uuid evs c :
  Forall event_ok evs -> running uuid c -> exists c', run_client evs c = Some c' /\ running uuid c'.
Proof.
  intros He. revert c. induction He as [|[[now ev] i] evs Hok _ IH]; intros c Hc; cbn [run_client]; [by eexists|].
  destruct (event_running uuid now ev i c Hok Hc) as (c1 & -> & H1). by apply IH.
Qed.

(** ** Theorems *)

(** Safety of the whole program: from its start, no sequence of ticks and
    received packets - any bytes whatever, short of an MQTT-SN publication to
    topic ID 0 - makes the program access memory it does not own: it goes on,
    the MAC in a reachable state with the callback installed and the MQTT-SN
    client within its invariant, for every identity [rand()] gives it. *)
Theorem client_app_safe now uuid r1 r2 r3 evs :
  is_u64 uuid -> 0 <= now -> Forall event_ok evs ->
  exists c0 c, client_boot now uuid r1 r2 r3 = Some c0 /\ run_client evs c0 = Some c /\ running uuid c.
Proof.
  intros Hu Hn He. destruct (boot_running now uuid r1 r2 r3 Hu Hn) as (c0 & H0 & R0).
  destruct (run_running uuid evs c0 He R0) as (c & H & R). by exists c0, c.
Qed.

(** The CONNECT of the start goes to a MAC that is not registered yet, so it is
    not transmitted: only a retry, five seconds later at the earliest, can be. *)
Lemma connect_lost_at_start now uuid r1 r2 r3 c :
  client_boot now uuid r1 r2 r3 = Some c -> log (cl_mac c) = [EvPhyListen; EvPhyRegisterRecv].
Proof.
  unfold client_boot. cbv zeta.
  set (w := snd (tinymac_register_recv_cb true _)).
  assert (Hn : tinymac_get_node_by_addr (ctx w) 0 = None) by reflexivity.
  assert (Hl : log w = [EvPhyListen; EvPhyRegisterRecv]) by reflexivity. clearbody w.
  assert (Hw : forall new, fold_right on_send w new = w).
  { intros new. induction new as [|e new IH]; [done|]. cbn [fold_right]. rewrite IH.
    destruct e as [msg| |]; [|done..]. cbn [on_send]. unfold packet_send, tinymac_send.
    change (Z.land _ _ <? _) with false. cbv iota. autorewrite with run. by rewrite Hn. }
  unfold with_mq. cbn [cl_mq cl_mac]. destruct (mqttsn_c_connect now _) as [[[] q]|]; [|done].
  intros [= <-]. by rewrite Hw.
Qed.

(** *** A disconnected client *)

Definition sends (l : list mq_event) : list (list Z) :=
  omap (fun e => match e with MqSend msg => Some msg | _ => None end) l.

Definition dead (c : mqttsn_c_t) : Prop := q_state c = mqttsnDisconnected /\ q_t_retry c = 0.

(** [m] leaves a dead client dead and sends nothing. *)
Definition rests {A} (m : Q A) : Prop :=
  forall w a w', m w = Some (a, w') -> dead (mq w) -> dead (mq w') /\ sends (mq_log w') = sends (mq_log w).

Lemma rests_ret {A} (a : A) : rests (qret a).
Proof. by intros w ? w' [= <- <-]. Qed.
Lemma rests_bind {A B} (m : Q A) (k : A -> Q B) : rests m -> (forall a, rests (k a)) -> rests (qbind m k).
Proof.
  intros Hm Hk w b w2. unfold qbind. destruct (m w) as [[a w1]|] eqn:E; [|done]. intros E2 Hw.
  destruct (Hm _ _ _ E Hw) as [Hw1 S1]. destruct (Hk _ _ _ _ E2 Hw1) as [Hw2 S2]. by rewrite S2.
Qed.
Lemma rests_get {B} (k : mqttsn_c_t -> Q B) : (forall c, dead c -> rests (k c)) -> rests (qbind qget k).
Proof. intros Hk w b w' E Hw. exact (Hk (mq w) Hw w b w' E Hw). Qed.
Lemma rests_upcall now i data : rests (mq_upcall now (MqPublish i data)).
Proof. by intros w ? w' [= <- <-]. Qed.

Lemma rests_publish now buf : rests (mqttsn_publish_handler now buf).
Proof.
  unfold mqttsn_publish_handler. destruct (_ <? _)%nat; [apply rests_ret|]. apply rests_get. intros c _.
  destruct (find_subscription _ _ _ _) as [[k|]|]; [|apply rests_ret|by intros w].
  unfold qwhen. destruct (q_cb_publish c); [apply rests_upcall|apply rests_ret].
Qed.

(** The other handlers look at the state first. *)
Ltac rests_step :=
  first [ apply rests_ret | apply rests_publish | apply rests_get; intros c [-> _]; apply rests_ret
        | by intros w ? w' [= <- <-] | destruct (_ <? _)%nat ].

Lemma rests_inbound now p : rests (handle_inbound now p).
Proof.
  destruct p as [buf|]; cbn [handle_inbound]; [|apply rests_ret]. destruct (_ || _); [apply rests_ret|].
  unfold mqttsn_connack_handler, mqttsn_regack_handler, mqttsn_suback_handler, mqttsn_puback_handler.
  repeat (destruct (field 1 1 buf =? _); [repeat rests_step|]). apply rests_ret.
Qed.

Lemma rests_handler now p : rests (mqttsn_c_handler now p).
Proof.
  unfold mqttsn_c_handler. apply rests_bind.
  { unfold handle_retry. apply rests_get. intros c [_ ->]. apply rests_ret. }
  intros _. apply rests_bind.
  { unfold handle_ping. apply rests_get. intros c [-> _]. apply rests_ret. }
  intros _. apply rests_bind; [apply rests_inbound|]. intros _.
  unfold handle_registrations. apply rests_get. intros c [-> _]. apply rests_ret.
Qed.

Definition gone (c c' : client) : Prop :=
  dead (mq (cl_mq c')) /\ sends (mq_log (cl_mq c')) = sends (mq_log (cl_mq c)).

Lemma with_mq_gone m c c' : rests m -> dead (mq (cl_mq c)) -> with_mq m c = Some c' -> gone c c'.
Proof.
  intros Hm Hd. unfold with_mq. destruct (m (cl_mq c)) as [[[] q]|] eqn:E; [|done]. intros [= <-].
  exact (Hm _ _ _ E Hd).
Qed.

Lemma callbacks_gone now new c c' :
  dead (mq (cl_mq c)) -> fold_right (on_event now) (Some c) new = Some c' -> gone c c'.
Proof.
  intros Hd. revert c'. induction new as [|e new IH]; intros c'; cbn [fold_right]; [by intros [= <-]|].
  destruct (fold_right _ _ new) as [c1|]; [|by destruct e]. destruct (IH c1 eq_refl) as [D1 S1].
  destruct e; cbn [on_event]; try (by intros [= <-]). unfold rx_handler.
  destruct (_ =? _); [|by intros [= <-]]. intros E.
  destruct (with_mq_gone _ _ _ (rests_handler now (Some _)) D1 E) as [D2 S2]. split; [done|]. by rewrite S2.
Qed.

Lemma event_gone now ev i c c' :
  dead (mq (cl_mq c)) -> handle_event now ev i c = Some c' -> gone c c'.
Proof.
  intros Hd. unfold handle_event.
  destruct (ev =? 0).
  { destruct i as [[[buf rssi]|]|]; try (by intros [= <-]). intros E. by apply callbacks_gone in E. }
  destruct (ev =? 1); [|by intros [= <-]].
  destruct (with_mac now tinymac_tick_handler c) as [c1|] eqn:E1; [|done].
  apply callbacks_gone in E1 as [D1 S1]; [|done]. intros E.
  destruct (with_mq_gone _ _ _ (rests_handler now None) D1 E) as [D2 S2]. split; [done|]. by rewrite S2.
Qed.

(** Once its MQTT-SN client is disconnected - the retries of CONNECT or of
    another request ran out, the broker refused the connection, or it sent
    DISCONNECT - the program never sends an MQTT-SN packet again: whatever is
    received and however long it runs, it stays disconnected, because the only
    call of [mqttsn_c_connect] is the one before the loop. *)
Theorem disconnected_is_final uuid evs c :
  running uuid c -> q_state (mq (cl_mq c)) = mqttsnDisconnected -> Forall event_ok evs ->
  exists c', run_client evs c = Some c' /\ q_state (mq (cl_mq c')) = mqttsnDisconnected /\
    sends (mq_log (cl_mq c')) = sends (mq_log (cl_mq c)).
Proof.
  intros Hc Hs He. destruct (run_running uuid evs c He Hc) as (c' & H & _). exists c'. split; [done|].
  assert (Hd : dead (mq (cl_mq c))).
  { split; [done|]. destruct (decide (q_t_retry (mq (cl_mq c)) = 0)) as [|Hr]; [done|].
    apply (mo_armed _ _ (rn_mq _ _ Hc)) in Hr. by rewrite Hs in Hr. }
  clear Hc Hs. revert c Hd H. induction He as [|[[now ev] i] evs _ _ IH]; intros c Hd; cbn [run_client].
  { intros [= <-]. by destruct Hd. }
  destruct (handle_event now ev i c) as [c1|] eqn:E; [|done].
  apply event_gone in E as [D1 S1]; [|done]. intros H. rewrite <- S1. by apply IH.
Qed.
End App.

(** ** A device that joins and connects *)

Definition app_rc : list event -> Z := fun _ => 0.
Definition app0 : client :=
  default (mk_client world_zero (mq_boot [] [])) (client_boot 143 app_rc 100 ex_uuid 10 20 7).

(** The device hears a beacon and its registration; the CONNECT is repeated
    until the client gives up. *)
Definition app_events : list (Z * Z * input) :=
  [(101, 0, PhyInput (Some (ex_beacon, -40))); (101, 0, PhyInput (Some (ex_response, -40)));
   (105, 1, TimerInput); (110, 1, TimerInput); (115, 1, TimerInput); (120, 1, TimerInput)].

Lemma app_events_ok : Forall event_ok app_events.
Proof.
  unfold app_events. repeat apply Forall_cons_2; try apply Forall_nil_2; (split; [lia|]); try exact I.
  all: split; [repeat constructor; vm_compute; congruence|].
  all: apply inbound_check; [vm_compute; reflexivity|vm_compute; congruence].
Qed.

Lemma client_app_safe_witness :
  exists c0 c, client_boot 143 app_rc 100 ex_uuid 10 20 7 = Some c0 /\
    run_client 143 app_rc app_events c0 = Some c /\ running 143 app_rc ex_uuid c.
Proof.
  apply (client_app_safe 143 app_rc 100 ex_uuid 10 20 7 app_events);
    [vm_compute; split; congruence|lia|apply app_events_ok].
Defined.

Definition app1 : client := default app0 (run_client 143 app_rc app_events app0).

Lemma app0_running : running 143 app_rc ex_uuid app0.
Proof.
  destruct (boot_running 143 app_rc 100 ex_uuid 10 20 7) as (c & E & H);
    [vm_compute; split; congruence|lia|]. unfold app0. by rewrite E.
Qed.

Lemma app1_running : running 143 app_rc ex_uuid app1.
Proof.
  destruct (run_running 143 app_rc ex_uuid app_events app0 app_events_ok app0_running) as (c & E & H).
  unfold app1. by rewrite E.
Qed.

(** A late answer of the broker changes nothing. *)
Definition late_events : list (Z * Z * input) :=
  [(121, 0, PhyInput (Some (header_bytes (mk_header (type_code tinymacType_MQTTSN) 7 1 0 9) ++ connack_msg, -40)));
   (130, 1, TimerInput)].

Lemma disconnected_is_final_witness :
  exists c', run_client 143 app_rc late_events app1 = Some c' /\
    q_state (mq (cl_mq c')) = mqttsnDisconnected /\ sends (mq_log (cl_mq c')) = sends (mq_log (cl_mq app1)).
Proof.
  apply (disconnected_is_final 143 app_rc ex_uuid late_events app1).
  - apply app1_running.
  - vm_compute. reflexivity.
  - apply Forall_cons_2; [split; [lia|]|apply Forall_cons_2; [by split|apply Forall_nil_2]].
    split; [repeat constructor; vm_compute; congruence|].
    apply inbound_check; [vm_compute; reflexivity|vm_compute; congruence].
Defined.
