(* ===== verification/Posix.v ===== *)
(** * The operating system under the examples

    The MQTT-SN client and the gateway are Linux programs: they set up
    descriptors with system calls, each checked for failure, and then wait for
    events.  A system call is recorded with its arguments; what it returns is
    given by the class [Os], a function of the calls so far.  A program is a
    function on that record that either goes on or returns from [main]. *)

From stdpp Require Import base list numbers strings.
From Stdlib Require Import ZArith Lia.
From S2P Require Import Prelude PhyUdp.

(** ** System calls *)

Inductive sock_opt : Set := SO_REUSEADDR | IP_ADD_MEMBERSHIP | IP_MULTICAST_LOOP.

Inductive os_call : Type :=
| OsSigaction (restore : bool)                 (* SIGINT: the handler, or what was there before *)
| OsSrand
| OsSocket                                     (* AF_INET, SOCK_DGRAM *)
| OsSetsockopt (fd : Z) (opt : sock_opt)
| OsBind (fd port : Z)
| OsEpollCreate (size : Z)
| OsEpollCtlAdd (epfd fd data : Z)             (* EPOLL_CTL_ADD, EPOLLIN *)
| OsTimerfdCreate
| OsTimerfdSettime (fd interval_ns : Z)
| OsEpollWait (epfd maxevents : Z)
| OsClose (fd : Z)
| OsPerror (what : string).

(** What [perror] is told when a call has failed. *)
Definition os_name (c : os_call) : string :=
  match c with
  | OsSigaction _ => "sigaction"
  | OsSrand => "srand"
  | OsSocket => "socket"
  | OsSetsockopt _ _ => "setsockopt"
  | OsBind _ _ => "bind"
  | OsEpollCreate _ => "epoll_create"
  | OsEpollCtlAdd _ _ _ => "epoll_ctl"
  | OsTimerfdCreate => "timerfd_create"
  | OsTimerfdSettime _ _ => "timerfd_settime"
  | OsEpollWait _ _ => "epoll_wait"
  | OsClose _ => "close"
  | OsPerror _ => "perror"
  end.

(** The result of the call at the head of a history. *)
Class Os := { os_rc : list os_call -> Z }.

(** ** Programs *)

Inductive io_result (A : Type) : Type :=
| Next (a : A)
| Return (status : Z).
Arguments Next {A} a.
Arguments Return {A} status.

Definition IO (A : Type) : Type := list os_call -> io_result A * list os_call.

Definition io_ret {A} (a : A) : IO A := fun tr => (Next a, tr).
Definition io_return {A} (status : Z) : IO A := fun tr => (Return status, tr).
Definition io_bind {A B} (m : IO A) (k : A -> IO B) : IO B := fun tr =>
  match m tr with
  | (Next a, tr) => k a tr
  | (Return s, tr) => (Return s, tr)
  end.

Declare Scope io_scope.
Delimit Scope io_scope with io.
Notation "x <- m ;; k" := (io_bind m (fun x => k))
  (at level 100, m at next level, right associativity) : io_scope.
Notation "m ;; k" := (io_bind m (fun _ => k)) (at level 100, right associativity) : io_scope.
#[local] Open Scope io_scope.

Section Posix.
Context `{O : Os}.

Definition syscall (c : os_call) : IO Z := fun tr => (Next (os_rc (c :: tr)), c :: tr).

(** [if (call < 0) { perror(name); return 1; }] *)
Definition or_exit (c : os_call) : IO Z :=
  rc <- syscall c ;;
  if rc <? 0 then syscall (OsPerror (os_name c)) ;; io_return 1 else io_ret rc.

(** ** The UDP driver's initialisation, with its system calls *)

Definition UDP_PORT : Z := 10400.

Definition phy_init_os : IO (Z * phy_t) :=
  sock <- syscall OsSocket ;;
  if sock <? 0 then
    syscall (OsPerror "socket") ;;
    io_ret (phy_init sock 0 phy_static)
  else
    (* Allow multiple instances to bind the same port *)
    syscall (OsSetsockopt sock SO_REUSEADDR) ;;
    bound <- syscall (OsBind sock UDP_PORT) ;;
    if bound <? 0 then
      syscall (OsPerror "bind") ;;
      syscall (OsClose sock) ;;
      io_ret (phy_init sock bound phy_static)
    else
      (* Join multicast group with loopback *)
      syscall (OsSetsockopt sock IP_ADD_MEMBERSHIP) ;;
      syscall (OsSetsockopt sock IP_MULTICAST_LOOP) ;;
      io_ret (phy_init sock bound phy_static).

(** ** Failure *)

(** A program that returns early has failed: the status is 1, and the last two
    calls are the one that failed and the message that names it. *)
Definition failed (s : Z) (tr : list os_call) : Prop :=
  s = 1 /\ exists c rest, tr = OsPerror (os_name c) :: c :: rest /\ os_rc (c :: rest) < 0.

Definition fails_loudly {A} (m : IO A) : Prop :=
  forall tr s tr', m tr = (Return s, tr') -> failed s tr'.

Lemma loud_ret {A} (a : A) : fails_loudly (io_ret a).
Proof. by intros tr s tr' [=]. Qed.
Lemma loud_bind {A B} (m : IO A) (k : A -> IO B) :
  fails_loudly m -> (forall a, fails_loudly (k a)) -> fails_loudly (io_bind m k).
Proof.
  intros Hm Hk tr s tr'. unfold io_bind. destruct (m tr) as [[a|s0] tr0] eqn:E.
  - apply Hk.
  - intros [= <- <-]. by apply (Hm tr).
Qed.
Lemma loud_syscall c : fails_loudly (syscall c).
Proof. by intros tr s tr' [=]. Qed.
Lemma loud_or_exit c : fails_loudly (or_exit c).
Proof.
  intros tr s tr'. unfold or_exit, io_bind, syscall.
  destruct (Z.ltb_spec (os_rc (c :: tr)) 0) as [H|H]; [|by intros [=]].
  intros [= <- <-]. split; [done|]. by exists c, tr.
Qed.
Lemma loud_phy_init : fails_loudly phy_init_os.
Proof.
  unfold phy_init_os.
  repeat first [apply loud_bind; [apply loud_syscall|intros ?] | apply loud_ret
    | match goal with |- fails_loudly (if ?b then _ else _) => destruct b end].
Qed.

(** ** Success *)

(** [m] ends only with what [Q] says of its result and the history. *)
Definition ensures {A} (m : IO A) (Q : A -> list os_call -> Prop) : Prop :=
  forall tr a tr', m tr = (Next a, tr') -> tr `suffix_of` tr' /\ Q a tr'.

Lemma ensures_ret {A} (a : A) : ensures (io_ret a) (fun b _ => b = a).
Proof. by intros tr b tr' [= <- <-]. Qed.
Lemma ensures_syscall c : ensures (syscall c) (fun _ tr => c ∈ tr).
Proof. intros tr a tr' [= <- <-]. split; [by exists [c]|by left]. Qed.
Lemma ensures_or_exit c : ensures (or_exit c) (fun rc tr => 0 <= rc /\ c ∈ tr).
Proof.
  intros tr a tr'. unfold or_exit, io_bind, syscall.
  destruct (Z.ltb_spec (os_rc (c :: tr)) 0) as [H|H]; [by intros [=]|].
  intros [= <- <-]. split; [by exists [c]|]. split; [done|by left].
Qed.

(** A condition that later calls keep. *)
Definition stable (R : list os_call -> Prop) : Prop :=
  forall tr tr', tr `suffix_of` tr' -> R tr -> R tr'.

Lemma stable_in c : stable (fun tr => c ∈ tr).
Proof. intros tr tr' [l ->] H. apply elem_of_app. by right. Qed.

Lemma ensures_bind {A B} (m : IO A) (k : A -> IO B) (R : A -> list os_call -> Prop)
    (Q : B -> list os_call -> Prop) :
  ensures m R -> (forall a, stable (R a)) ->
  (forall a, ensures (k a) (fun b tr => R a tr -> Q b tr)) -> ensures (io_bind m k) Q.
Proof.
  intros Hm Hs Hk tr b tr'. unfold io_bind. destruct (m tr) as [[a|s] tr0] eqn:E; [|by intros [=]].
  intros Hr. destruct (Hm _ _ _ E) as [G1 H1]. destruct (Hk a _ _ _ Hr) as [G2 H2].
  split; [by etrans|]. apply H2. by apply (Hs a tr0).
Qed.

Lemma ensures_weaken {A} (m : IO A) (R Q : A -> list os_call -> Prop) :
  ensures m R -> (forall a tr, R a tr -> Q a tr) -> ensures m Q.
Proof. intros Hm H tr a tr' E. destruct (Hm _ _ _ E) as [G HR]. split; [done|]. by apply H. Qed.

Lemma ensures_phy_init : ensures phy_init_os (fun _ _ => True).
Proof.
  intros tr a tr' E. split; [|done]. revert E.
  unfold phy_init_os, io_bind, syscall, io_ret.
  destruct (_ <? 0); [intros [= <- <-]; by exists [OsPerror "socket"; OsSocket]|].
  destruct (_ <? 0); intros [= <- <-]; [by eexists [_; _; _; _; _]|by eexists [_; _; _; _; _]].
Qed.

(** ** The calls of a history, with their results *)

(** Oldest first. *)
Fixpoint results (tr : list os_call) : list (os_call * Z) :=
  match tr with
  | [] => []
  | c :: tr' => results tr' ++ [(c, os_rc tr)]
  end.

(** What a program is to call, every call with success; a call that makes a
    descriptor with the descriptor it makes. *)
Definition plan : Type := list (os_call * option Z).

Definition carried_call (x : os_call * option Z) (y : os_call * Z) : Prop :=
  fst y = fst x /\ 0 <= snd y /\ forall fd, snd x = Some fd -> snd y = fd.

Definition carried (p : plan) (h : list (os_call * Z)) : Prop := Forall2 carried_call p h.

(** [m] carries out a plan: it ends with a result for which [Q] allows the plan,
    all calls of which have been made in order and have succeeded; or it returns
    1 at the first call of an allowed plan that fails, after a message that names
    the call, all earlier calls of the plan having been made and succeeded. *)
Definition obeys {A} (m : IO A) (Q : A -> plan -> Prop) : Prop := (exists a p, Q a p) /\ forall tr,
  match m tr with
  | (Next a, tr') => exists p h, Q a p /\ results tr' = results tr ++ h /\ carried p h
  | (Return s, tr') => s = 1 /\ exists a p c o rest h r r',
      Q a (p ++ (c, o) :: rest) /\ carried p h /\ r < 0 /\
      results tr' = results tr ++ h ++ [(c, r); (OsPerror (os_name c), r')]
  end.

Lemma obeys_ret {A} (a : A) : obeys (io_ret a) (fun b p => b = a /\ p = []).
Proof. split; [eauto|]. intros tr. exists [], []. rewrite app_nil_r. split_and!; [done..|constructor]. Qed.

Lemma obeys_or_exit c : obeys (or_exit c) (fun rc p => p = [(c, Some rc)]).
Proof.
  split; [by exists 0, [(c, Some 0)]|]. intros tr. unfold or_exit, io_bind, syscall.
  destruct (Z.ltb_spec (os_rc (c :: tr)) 0) as [H|H].
  - split; [done|]. exists 0, [], c, (Some 0), [], [], (os_rc (c :: tr)), (os_rc (OsPerror (os_name c) :: c :: tr)).
    split_and!; [done|constructor|done|]. cbn [results app]. by rewrite <- app_assoc.
  - exists [(c, Some (os_rc (c :: tr)))], [(c, os_rc (c :: tr))]. split_and!; [done|done|].
    constructor; [|constructor]. split_and!; [done|done|]. by intros fd [= <-].
Qed.

Lemma obeys_weaken {A} (m : IO A) (Q Q' : A -> plan -> Prop) :
  obeys m Q -> (forall a p, Q a p -> Q' a p) -> obeys m Q'.
Proof.
  intros [(a0 & p0 & H0) Hm] HQ. split; [eauto|]. intros tr. specialize (Hm tr).
  destruct (m tr) as [[a|s] tr'].
  - destruct Hm as (p & h & H & ?). exists p, h. auto.
  - destruct Hm as (? & a & p & c & o & rest & h & r & r' & H & ?). split; [done|].
    exists a, p, c, o, rest, h, r, r'. auto.
Qed.

Lemma obeys_bind {A B} (m : IO A) (k : A -> IO B) (Q1 : A -> plan -> Prop) (Q2 : A -> B -> plan -> Prop) :
  obeys m Q1 -> (forall a, obeys (k a) (Q2 a)) ->
  obeys (io_bind m k) (fun b p => exists a p1 p2, Q1 a p1 /\ Q2 a b p2 /\ p = p1 ++ p2).
Proof.
  intros [(a0 & p0 & H0) Hm] Hk. split.
  { destruct (Hk a0) as [(b & p & H) _]. exists b, (p0 ++ p). eauto 7. }
  intros tr. unfold io_bind. specialize (Hm tr). destruct (m tr) as [[a|s] tr1].
  - destruct Hm as (p1 & h1 & Q & E1 & C1). pose proof (proj2 (Hk a) tr1) as Hka. destruct (k a tr1) as [[b|s] tr2].
    + destruct Hka as (p2 & h2 & R & E2 & C2). exists (p1 ++ p2), (h1 ++ h2).
      split; [eauto 7|]. split; [by rewrite E2, E1, app_assoc|]. by apply Forall2_app.
    + destruct Hka as (-> & b & p2 & c & o & rest & h2 & r & r' & R & C2 & Hr & E2). split; [done|].
      exists b, (p1 ++ p2), c, o, rest, (h1 ++ h2), r, r'. split_and!; [|by apply Forall2_app|done|].
      * exists a, p1, (p2 ++ (c, o) :: rest). split_and!; [done|done|by rewrite app_assoc].
      * by rewrite E2, E1, <- !app_assoc.
  - destruct Hm as (-> & a & p1 & c & o & rest & h1 & r & r' & Q & C1 & Hr & E1). split; [done|].
    destruct (Hk a) as [(b & p2 & R) _]. exists b, p1, c, o, (rest ++ p2), h1, r, r'.
    split_and!; [|done|done|done]. exists a, (p1 ++ (c, o) :: rest), p2.
    split_and!; [done|done|by rewrite <- app_assoc].
Qed.

(** The common case: a checked call and the rest. *)
Lemma obeys_then {B} c (k : Z -> IO B) (Q : Z -> B -> plan -> Prop) :
  (forall rc, obeys (k rc) (Q rc)) ->
  obeys (io_bind (or_exit c) k) (fun b p => exists rc p', Q rc b p' /\ p = (c, Some rc) :: p').
Proof.
  intros Hk. eapply obeys_weaken; [exact (obeys_bind _ _ _ _ (obeys_or_exit c) Hk)|].
  intros b p (rc & p1 & p2 & -> & H & ->). by exists rc, p2.
Qed.

(** A plan that asks for less of the results. *)
Definition relaxes (p p' : plan) : Prop :=
  Forall2 (fun x y => fst y = fst x /\ (snd y = None \/ snd y = snd x)) p p'.

Lemma carried_relaxes p p' h : relaxes p p' -> carried p h -> carried p' h.
Proof.
  intros Hr. revert h. induction Hr as [|x y p p' [E1 E2] _ IH]; intros h Hc; inversion Hc; subst; constructor.
  - destruct H1 as (F1 & F2 & F3). split_and!; [congruence|done|].
    intros fd Hfd. apply F3. destruct E2; congruence.
  - by apply IH.
Qed.

Lemma obeys_relax {A} (m : IO A) (Q Q' : A -> plan -> Prop) :
  obeys m Q -> (forall a p, Q a p -> exists p', relaxes p p' /\ Q' a p') -> obeys m Q'.
Proof.
  intros [(a0 & p0 & H0) Hm] HQ. split; [apply HQ in H0 as (p' & _ & H0); eauto|]. intros tr.
  specialize (Hm tr). destruct (m tr) as [[a|s] tr'].
  - destruct Hm as (p & h & (p' & Hp & H)%HQ & E & C). exists p', h. split_and!; [done|done|].
    by eapply carried_relaxes.
  - destruct Hm as (-> & a & p & c & o & rest & h & r & r' & (q & Hp & H)%HQ & C & Hr & E). split; [done|].
    apply Forall2_app_inv_l in Hp as (p' & q' & Hp & Hq & ->).
    inversion Hq as [|? [c' o'] ? rest' [Ec _] _]; subst. cbn in Ec. subst c'.
    exists a, p', c, o', rest', h, r, r'. split_and!; [done|by eapply carried_relaxes|done|done].
Qed.

(** ** Descriptors *)

(** Whether [fd] is open after a history. *)
Fixpoint fd_open (fd : Z) (tr : list os_call) : bool :=
  match tr with
  | [] => (0 <=? fd) && (fd <=? 2)
  | c :: tr' =>
      match c with
      | OsSocket | OsEpollCreate _ | OsTimerfdCreate =>
          if os_rc tr =? fd then (0 <=? fd) || fd_open fd tr' else fd_open fd tr'
      | OsClose fd' => negb (fd =? fd') && fd_open fd tr'
      | _ => fd_open fd tr'
      end
  end.

(** A negative number is never a descriptor. *)
Lemma fd_open_pos fd tr : fd_open fd tr = true -> 0 <= fd.
Proof.
  induction tr as [|c tr IH]; cbn; [lia|]. destruct c; auto; try (by intros [_ H]%andb_prop; auto).
  all: destruct (_ =? fd); auto; intros [H|H]%orb_prop; [lia|auto].
Qed.

(** The calls that make a descriptor. *)
Definition creates (c : os_call) : bool :=
  match c with OsSocket | OsEpollCreate _ | OsTimerfdCreate => true | _ => false end.

Definition is_close (c : os_call) : bool := match c with OsClose _ => true | _ => false end.

(** What POSIX documents of descriptors: a new one is not open already. *)
Class OsFresh := {
  descriptor_fresh : forall c tr, creates c = true -> 0 <= os_rc (c :: tr) ->
    fd_open (os_rc (c :: tr)) tr = false
}.

(** The descriptors a history makes, and those a plan makes. *)
Definition created (h : list (os_call * Z)) : list Z :=
  omap (fun x => if creates (fst x) then Some (snd x) else None) h.
Definition planned (p : plan) : list Z :=
  omap (fun x => if creates (fst x) then snd x else None) p.

Lemma created_planned p h :
  Forall (fun x => creates (fst x) = true -> is_Some (snd x)) p -> carried p h -> created h = planned p.
Proof.
  intros Hp Hc. unfold created, planned.
  induction Hc as [|[c o] [c' r] p h (E1 & E2 & E3) Hc IH]; [done|].
  inversion Hp as [|? ? Hx Hp']; subst. cbn in *. subst c'.
  destruct (creates c); cbn; rewrite IH by done; [|done].
  destruct (Hx eq_refl) as [fd ->]. by rewrite (E3 fd).
Qed.

Lemma fd_open_cons c tr fd : is_close c = false -> fd_open fd tr = true -> fd_open fd (c :: tr) = true.
Proof. intros Hc Ho. cbn. destruct c; try done; cbn; destruct (_ =? fd); rewrite ?Ho; auto using orb_true_r. Qed.

(** Descriptors made without a close in between are distinct. *)
Lemma created_distinct `{F : OsFresh} h : forall tr tr',
  results tr' = results tr ++ h -> Forall (fun x => is_close (fst x) = false /\ 0 <= snd x) h ->
  NoDup (created h) /\ Forall (fun fd => fd_open fd tr' = true) (created h).
Proof.
  induction h as [|[c r] h IH] using rev_ind; intros tr tr' E Hh; [by split; constructor|].
  destruct tr' as [|c' tr1]; [cbn in E; rewrite app_assoc in E; by apply app_cons_not_nil in E|].
  cbn [results] in E. rewrite app_assoc in E. apply app_inj_tail in E as [E [= <- <-]].
  apply Forall_app in Hh as [Hh Hx]. inversion Hx as [|? ? [Hcl Hr] _]; subst. cbn in Hcl, Hr.
  destruct (IH tr tr1 E Hh) as [Hn Ho]. unfold created in *. rewrite omap_app. cbn.
  assert (Ho' : Forall (fun fd => fd_open fd (c' :: tr1) = true)
                  (omap (fun x => if creates (fst x) then Some (snd x) else None) h)).
  { eapply List.Forall_impl; [|exact Ho]. intros fd. by apply fd_open_cons. }
  destruct (creates c') eqn:Ec; cbn; [|by rewrite app_nil_r].
  pose proof (descriptor_fresh _ _ Ec Hr) as Hf. split.
  - apply list.NoDup_app. split_and!; [done| |apply NoDup_singleton].
    intros fd Hin Hfd. apply list_elem_of_singleton in Hfd as ->.
    rewrite list.Forall_forall in Ho. specialize (Ho _ Hin). congruence.
  - apply Forall_app. split; [done|]. constructor; [|constructor].
    cbn. destruct c'; try done; rewrite Z.eqb_refl; apply orb_true_iff; left; by apply Z.leb_le.
Qed.

(** What Linux documents of [epoll_ctl]: EBADF for a descriptor that is not
    open, EINVAL for the epoll descriptor itself. *)
Class OsLaws := {
  epoll_ctl_bad : forall epfd fd data tr,
    fd_open fd tr = false \/ fd = epfd -> os_rc (OsEpollCtlAdd epfd fd data :: tr) < 0
}.
End Posix.
