(* ===== verification/Mains.v ===== *)
(** * The [main] functions of the MQTT-SN examples

    The whole of [main] of [examples/mqttsn-simple-gateway/main.c] and of
    [examples/mqttsn-client/main.c]: set-up, the loop around [epoll_wait] and the
    end, over the operating system of [Posix.v] and the event handlers of
    [Gateway.v] and [MqttApp.v].  A round of the loop is given by what [quit]
    holds when it is tested and what [epoll_wait] reports; [None] is an error. *)

From stdpp Require Import base list numbers strings.
From Stdlib Require Import ZArith Lia.
From S2P Require Import Prelude Wire MacState Mac MacInv MacRun MacEx MacTx MacApp PhyUdp.
From S2P Require Import MqttSn MqttInv MqttProps MqttWire Gateway MqttApp Posix.

#[local] Open Scope io_scope.

(** The gateway's and the client's. *)
Definition MAX_EVENTS : Z := 16.
Definition client_MAX_EVENTS : Z := 4.

Record round (E : Type) := mk_round {
  rd_quit : bool;
  rd_wait : option (list E)
}.
Arguments mk_round {E} _ _.
Arguments rd_quit {E} _.
Arguments rd_wait {E} _.

(** How far [main] is. *)
Inductive progress (A : Type) : Type :=
| Serving (a : A)            (* in the loop, waiting *)
| Ended (a : option A) (status : Z)   (* returned; None: from the set-up *)
| Died.                      (* stopped by a fault *)
Arguments Serving {A} a.
Arguments Ended {A} a status.
Arguments Died {A}.

Section Mains.
Context `{O : Os}.
#[local] Existing Instance mq_quiet.

(** ** Parts both programs have *)

Definition watch_phy (epfd data : Z) (phy : phy_t) : IO Z :=
  or_exit (OsEpollCtlAdd epfd (phy_get_fd phy) data).

(** Create a timer fd for periodic handler. *)
Definition start_ticker (epfd data : Z) : IO Z :=
  timer_fd <- or_exit OsTimerfdCreate ;;
  or_exit (OsTimerfdSettime timer_fd (1000000 * TINYMAC_TICK_MS)) ;;
  or_exit (OsEpollCtlAdd epfd timer_fd data) ;;
  io_ret timer_fd.

(** ** The gateway *)

Record gw_state := mk_gw_state {
  gs_gateway : Gateway.gateway;
  gs_phy : phy_t;
  gs_epoll : Z;
  gs_socks : list Z;
  gs_timer : Z
}.

(** The body of the loop over the devices. *)
Definition open_socket (epfd n : Z) : IO Z :=
  fd <- or_exit OsSocket ;;
  or_exit (OsBind fd (u16 (DEVICE_PORT_BASE + n))) ;;
  (* Watch for events *)
  or_exit (OsEpollCtlAdd epfd fd n) ;;
  io_ret fd.

Fixpoint open_sockets (epfd : Z) (l : list nat) : IO (list Z) :=
  match l with
  | [] => io_ret []
  | n :: l =>
      fd <- open_socket epfd (Z.of_nat n) ;;
      fds <- open_sockets epfd l ;;
      io_ret (fd :: fds)
  end.

Section GatewayMain.
Context (mtu : Z) (rc : list event -> Z).

(** Up to the loop; [uuid], [r1], [r2], [r3] are the results of [rand()].  The
    result of [phy_init] is not looked at. *)
Definition gateway_setup (uuid r1 r2 r3 : Z) : IO gw_state :=
  syscall (OsSigaction false) ;;
  syscall OsSrand ;;
  phy <- phy_init_os ;;
  let g := Gateway.gateway_boot mtu rc uuid r1 r2 r3 in
  epoll_fd <- or_exit (OsEpollCreate MAX_EVENTS) ;;
  watch_phy epoll_fd (MAX_DEVICES + 0) (snd phy) ;;
  socks <- open_sockets epoll_fd (seq 0 (Z.to_nat MAX_DEVICES)) ;;
  timer_fd <- start_ticker epoll_fd (MAX_DEVICES + 1) ;;
  io_ret (mk_gw_state g (snd phy) epoll_fd socks timer_fd).

(** After the loop. *)
Fixpoint close_all (l : list Z) : IO unit :=
  match l with
  | [] => io_ret tt
  | fd :: l => syscall (OsClose fd) ;; close_all l
  end.

Definition gateway_end (st : gw_state) : IO unit :=
  close_all (gs_socks st) ;;
  (* Terminate ticker *)
  syscall (OsClose (gs_timer st)) ;;
  syscall (OsSigaction true) ;;
  io_return 0.

Fixpoint gateway_loop (rounds : list (round (Z * Gateway.input))) (st : gw_state) (tr : list os_call)
    : progress gw_state * list os_call :=
  match rounds with
  | [] => (Serving st, tr)
  | r :: rounds =>
      if rd_quit r then
        match gateway_end st tr with
        | (Return s, tr) => (Ended (Some st) s, tr)
        | (Next _, tr) => (Serving st, tr)
        end
      else
        let tr := OsEpollWait (gs_epoll st) MAX_EVENTS :: tr in
        match rd_wait r with
        | None => (Ended (Some st) 1, OsPerror "epoll_wait" :: tr)
        | Some evs =>
            match Gateway.run_gateway mtu rc evs (gs_gateway st) with
            | Gateway.Running g =>
                gateway_loop rounds (mk_gw_state g (gs_phy st) (gs_epoll st) (gs_socks st) (gs_timer st)) tr
            | Gateway.Exit s => (Ended (Some st) s, OsPerror "recvfrom" :: tr)
            | Gateway.Crash => (Died, tr)
            end
        end
  end.

Definition gateway_main (uuid r1 r2 r3 : Z) (rounds : list (round (Z * Gateway.input)))
    : progress gw_state * list os_call :=
  match gateway_setup uuid r1 r2 r3 [] with
  | (Next st, tr) => gateway_loop rounds st tr
  | (Return s, tr) => (Ended None s, tr)
  end.
End GatewayMain.

(** ** The client *)

Record cl_state := mk_cl_state {
  cs_client : MqttApp.client;
  cs_phy : phy_t;
  cs_epoll : Z;
  cs_timer : Z
}.

Section ClientMain.
Context (mtu : Z) (rc : list event -> Z).

(** Up to the loop; [None] is a fault of the MQTT-SN client. *)
Definition client_setup (now uuid r1 r2 r3 : Z) : IO (option cl_state) :=
  syscall (OsSigaction false) ;;
  syscall OsSrand ;;
  phy <- phy_init_os ;;
  match MqttApp.client_boot mtu rc now uuid r1 r2 r3 with
  | None => io_ret None
  | Some c =>
      epoll_fd <- or_exit (OsEpollCreate client_MAX_EVENTS) ;;
      watch_phy epoll_fd 0 (snd phy) ;;
      timer_fd <- start_ticker epoll_fd 1 ;;
      io_ret (Some (mk_cl_state c (snd phy) epoll_fd timer_fd))
  end.

(** [now] is the time at the end. *)
Fixpoint client_loop (now : Z) (rounds : list (round (Z * Z * MqttApp.input))) (st : cl_state)
    (tr : list os_call) : progress cl_state * list os_call :=
  match rounds with
  | [] => (Serving st, tr)
  | r :: rounds =>
      if rd_quit r then
        match MqttApp.client_quit mtu rc now (cs_client st) with
        | Some c => (Ended (Some (mk_cl_state c (cs_phy st) (cs_epoll st) (cs_timer st))) 0, OsSigaction true :: tr)
        | None => (Died, tr)
        end
      else
        let tr := OsEpollWait (cs_epoll st) client_MAX_EVENTS :: tr in
        match rd_wait r with
        | None => (Ended (Some st) 1, OsPerror "epoll_wait" :: tr)
        | Some evs =>
            match MqttApp.run_client mtu rc evs (cs_client st) with
            | Some c => client_loop now rounds (mk_cl_state c (cs_phy st) (cs_epoll st) (cs_timer st)) tr
            | None => (Died, tr)
            end
        end
  end.

(** [now] and [now'] are the times of the start and of the end. *)
Definition client_main (now now' uuid r1 r2 r3 : Z) (rounds : list (round (Z * Z * MqttApp.input)))
    : progress cl_state * list os_call :=
  match client_setup now uuid r1 r2 r3 [] with
  | (Next (Some st), tr) => client_loop now' rounds st tr
  | (Next None, tr) => (Died, tr)
  | (Return s, tr) => (Ended None s, tr)
  end.
End ClientMain.

(** ** Set-up *)

Ltac loud :=
  repeat first [ apply loud_ret | apply loud_syscall | apply loud_or_exit | apply loud_phy_init
               | match goal with |- fails_loudly (io_bind _ _) => apply loud_bind; [|intros ?] end ].

(** The client's set-up returns from [main] only with 1, right after a call that
    failed and a message that names it. *)
Lemma loud_client mtu rc now uuid r1 r2 r3 : fails_loudly (client_setup mtu rc now uuid r1 r2 r3).
Proof.
  unfold client_setup, watch_phy, start_ticker. loud.
  destruct (MqttApp.client_boot _ _ _ _ _ _ _); loud.
Qed.

Lemma stable_or_exit c rc : stable (fun tr => 0 <= rc /\ c ∈ tr).
Proof. intros tr tr' G [H1 H2]. split; [done|]. by apply (stable_in c tr). Qed.

(** The call made, its success remembered, and the rest. *)
Lemma ensures_then {B} c (k : Z -> IO B) (Q : B -> list os_call -> Prop) :
  (forall rc, ensures (k rc) (fun b tr => 0 <= rc -> c ∈ tr -> Q b tr)) -> ensures (io_bind (or_exit c) k) Q.
Proof.
  intros H. eapply ensures_bind; [apply ensures_or_exit|apply stable_or_exit|].
  intros rc. eapply ensures_weaken; [apply H|]. intros b tr HQ [H1 H2]. by apply HQ.
Qed.

Lemma ensures_ignored {A B} (m : IO A) (k : A -> IO B) (Q : B -> list os_call -> Prop) :
  ensures m (fun _ _ => True) -> (forall a, ensures (k a) Q) -> ensures (io_bind m k) Q.
Proof.
  intros Hm Hk. eapply ensures_bind; [exact Hm|by intros ? ? ?|]. intros a.
  eapply ensures_weaken; [apply Hk|]. auto.
Qed.

Lemma ensures_called c : ensures (syscall c) (fun _ _ => True).
Proof. eapply ensures_weaken; [apply ensures_syscall|done]. Qed.

(** What the gateway is to call once [phy_init] has been called: one socket for
    each device, bound to its port and watched under its number. *)
Fixpoint device_plan (epfd : Z) (n : nat) (socks : list Z) : plan :=
  match socks with
  | [] => []
  | fd :: socks =>
      [(OsSocket, Some fd); (OsBind fd (11000 + Z.of_nat n), None); (OsEpollCtlAdd epfd fd (Z.of_nat n), None)]
      ++ device_plan epfd (S n) socks
  end.

Definition gateway_plan (phy_fd epfd : Z) (socks : list Z) (timer : Z) : plan :=
  [(OsEpollCreate 16, Some epfd); (OsEpollCtlAdd epfd phy_fd 256, None)]
  ++ device_plan epfd 0 socks
  ++ [(OsTimerfdCreate, Some timer); (OsTimerfdSettime timer 250000000, None);
      (OsEpollCtlAdd epfd timer 257, None)].

(** The calls before: the signal handler, the seed, and those of [phy_init],
    whose results are not looked at by [main]: [fd] is the PHY's descriptor. *)
Definition boot_calls (fd : Z) (pre : list (os_call * Z)) : Prop :=
  exists a b net, pre = (OsSigaction false, a) :: (OsSrand, b) :: (OsSocket, fd) :: net /\
    (if fd <? 0 then map fst net = [OsPerror "socket"]
     else exists o bound rest, net = (OsSetsockopt fd SO_REUSEADDR, o) :: (OsBind fd 10400, bound) :: rest /\
       map fst rest = if bound <? 0 then [OsPerror "bind"; OsClose fd]
                      else [OsSetsockopt fd IP_ADD_MEMBERSHIP; OsSetsockopt fd IP_MULTICAST_LOOP]).

Lemma boot_calls_made tr :
  exists up tr0 pre, (syscall (OsSigaction false) ;; syscall OsSrand ;; phy_init_os) tr = (Next up, tr0) /\
    results tr0 = results tr ++ pre /\ boot_calls (phy_get_fd (snd up)) pre.
Proof.
  unfold phy_init_os, io_bind, syscall, io_ret. set (tr2 := OsSrand :: OsSigaction false :: tr).
  assert (E2 : results tr2 = results tr ++ [(OsSigaction false, os_rc (OsSigaction false :: tr)); (OsSrand, os_rc tr2)])
    by (cbn [results tr2]; by rewrite <- app_assoc).
  assert (Hfd : forall b, phy_get_fd (snd (phy_init (os_rc (OsSocket :: tr2)) b phy_static)) = os_rc (OsSocket :: tr2)).
  { intros b. unfold phy_init. cbv zeta. by destruct (os_rc (OsSocket :: tr2) <? 0), (b <? 0). }
  destruct (os_rc (OsSocket :: tr2) <? 0) eqn:Es; [|destruct (os_rc (OsBind _ _ :: _) <? 0) eqn:Eb].
  all: do 3 eexists; split; [reflexivity|]; split;
    [cbn [results]; rewrite E2, <- !app_assoc; cbn [app]; reflexivity|].
  all: do 3 eexists; split; [rewrite Hfd; reflexivity|]; rewrite Hfd, Es.
  { reflexivity. }
  all: do 3 eexists; split; [reflexivity|]; by rewrite Eb.
Qed.

Lemma relaxes_refl p : relaxes p p.
Proof. induction p as [|x p IH]; constructor; [|done]. split; [done|by right]. Qed.

Ltac relax := unfold relaxes; repeat (apply Forall2_cons; split; [split; cbn; auto|]); constructor.

Lemma obeys_open_socket epfd n :
  (n < 256)%nat -> obeys (open_socket epfd (Z.of_nat n)) (fun fd p => p = device_plan epfd n [fd]).
Proof.
  intros Hn. unfold open_socket. rewrite u16_id by (unfold DEVICE_PORT_BASE; widths; lia).
  eapply obeys_relax.
  - apply obeys_then; intros fd.
    apply obeys_then; intros r1.
    apply obeys_then; intros r2. apply obeys_ret.
  - cbn. intros fd p (? & ? & (? & ? & (? & ? & (-> & ->) & ->) & ->) & ->).
    eexists. split; [|reflexivity]. relax.
Qed.

Lemma obeys_open_sockets epfd : forall l m,
  (m + l <= 256)%nat ->
  obeys (open_sockets epfd (seq m l)) (fun fds p => length fds = l /\ p = device_plan epfd m fds).
Proof.
  induction l as [|l IH]; intros m Hm; cbn [seq open_sockets].
  { eapply obeys_weaken; [apply obeys_ret|]. by intros fds p [-> ->]. }
  eapply obeys_weaken; [eapply (obeys_bind _ _ _ (fun fd fds p => exists rest, fds = fd :: rest /\
    length rest = l /\ p = device_plan epfd (S m) rest)); [apply obeys_open_socket; lia|]|].
  - intros fd. eapply obeys_weaken; [eapply obeys_bind; [apply (IH (S m)); lia|intros; apply obeys_ret]|].
    intros fds p (rest & p1 & p2 & (Hl & ->) & (-> & ->) & ->). exists rest. by rewrite app_nil_r.
  - intros fds p (fd & p1 & p2 & -> & (rest & -> & Hl & ->) & ->). split; [cbn; by rewrite Hl|done].
Qed.

Lemma obeys_ticker epfd :
  obeys (start_ticker epfd 257) (fun fd p => p =
    [(OsTimerfdCreate, Some fd); (OsTimerfdSettime fd 250000000, None); (OsEpollCtlAdd epfd fd 257, None)]).
Proof.
  unfold start_ticker. eapply obeys_relax.
  - apply obeys_then; intros fd.
    apply obeys_then; intros r1.
    apply obeys_then; intros r2. apply obeys_ret.
  - cbn. intros fd p (? & ? & (? & ? & (? & ? & (-> & ->) & ->) & ->) & ->).
    eexists. split; [|reflexivity]. relax.
Qed.

(** The set-up after [phy_init]. *)
Lemma obeys_gateway (phy : phy_t) g :
  obeys (epoll_fd <- or_exit (OsEpollCreate MAX_EVENTS) ;;
         watch_phy epoll_fd (MAX_DEVICES + 0) phy ;;
         socks <- open_sockets epoll_fd (seq 0 (Z.to_nat MAX_DEVICES)) ;;
         timer_fd <- start_ticker epoll_fd (MAX_DEVICES + 1) ;;
         io_ret (mk_gw_state g phy epoll_fd socks timer_fd))
    (fun st p => gs_gateway st = g /\ gs_phy st = phy /\ length (gs_socks st) = 256%nat /\
       p = gateway_plan (phy_get_fd phy) (gs_epoll st) (gs_socks st) (gs_timer st)).
Proof.
  set (Q3 := fun ep socks (st : gw_state) (p : plan) => exists timer, st = mk_gw_state g phy ep socks timer /\
    p = [(OsTimerfdCreate, Some timer); (OsTimerfdSettime timer 250000000, None); (OsEpollCtlAdd ep timer 257, None)]).
  set (Q2 := fun ep (st : gw_state) (p : plan) => exists socks p3, length socks = 256%nat /\ Q3 ep socks st p3 /\
    p = device_plan ep 0 socks ++ p3).
  assert (H3 : forall ep socks, obeys (timer_fd <- start_ticker ep (MAX_DEVICES + 1) ;;
      io_ret (mk_gw_state g phy ep socks timer_fd)) (Q3 ep socks)).
  { intros ep socks. eapply obeys_weaken;
      [eapply obeys_bind; [apply obeys_ticker|intros; apply obeys_ret]|].
    intros st p (t & p1 & p2 & -> & (-> & ->) & ->). exists t. by rewrite app_nil_r. }
  assert (H2 : forall ep, obeys (socks <- open_sockets ep (seq 0 (Z.to_nat MAX_DEVICES)) ;;
      timer_fd <- start_ticker ep (MAX_DEVICES + 1) ;; io_ret (mk_gw_state g phy ep socks timer_fd)) (Q2 ep)).
  { intros ep. eapply obeys_weaken;
      [eapply (obeys_bind _ _ _ (Q3 ep)); [apply (obeys_open_sockets ep 256 0); lia|intros; apply H3]|].
    intros st p (socks & p1 & p2 & (Hl & ->) & H & ->). exists socks, p2. by split_and!. }
  eapply obeys_relax.
  - apply obeys_then; intros ep. apply obeys_then; intros r. apply H2.
  - intros st p (ep & p' & (r & p'' & (socks & p3 & Hl & (t & -> & ->) & ->) & ->) & ->).
    eexists. split; [|split_and!; [done|done|exact Hl|reflexivity]].
    constructor; [by split; [|right]|]. constructor; [by split; [|left]|]. apply relaxes_refl.
Qed.

Ltac makes := repeat (apply List.Forall_cons; [cbn; intros; solve [done | by eexists]|]).

Lemma device_plan_created epfd : forall socks n,
  Forall (fun x => creates (fst x) = true -> is_Some (snd x)) (device_plan epfd n socks) /\
  Forall (fun x => is_close (fst x) = false) (device_plan epfd n socks) /\
  planned (device_plan epfd n socks) = socks.
Proof.
  induction socks as [|fd socks IH]; intros n; [by split_and!; constructor|].
  destruct (IH (S n)) as (H1 & H2 & H3). cbn. unfold planned in *. rewrite H3.
  split_and!; [makes; exact H1|makes; exact H2|done].
Qed.

Lemma gateway_plan_created phy_fd epfd socks timer :
  let p := gateway_plan phy_fd epfd socks timer in
  Forall (fun x => creates (fst x) = true -> is_Some (snd x)) p /\
  Forall (fun x => is_close (fst x) = false) p /\ planned p = epfd :: socks ++ [timer].
Proof.
  destruct (device_plan_created epfd socks 0) as (H1 & H2 & H3). cbv zeta. unfold gateway_plan. split_and!.
  - makes. apply Forall_app. split; [done|]. makes. constructor.
  - makes. apply Forall_app. split; [done|]. makes. constructor.
  - unfold planned in *. rewrite omap_app. cbn. by rewrite omap_app, H3.
Qed.

Lemma carried_open p h :
  carried p h -> Forall (fun x => is_close (fst x) = false) p ->
  Forall (fun x => is_close (fst x) = false /\ 0 <= snd x) h.
Proof.
  intros Hc Hp. induction Hc as [|x y p h (E1 & E2 & _) _ IH]; [constructor|].
  inversion Hp; subst. constructor; [by rewrite E1|by apply IH].
Qed.

(** C35: the gateway comes up right or not at all.  After the signal handler,
    the seed and [phy_init], whose results [main] does not look at - a driver
    that could not get its socket or its port is only noticed when its
    descriptor is watched - the set-up calls, in this order and each with
    success: [epoll_create]; the watch of the PHY's descriptor under 256; for
    each of the 256 device addresses [n] a new socket, its binding to port
    11000 + [n] and its watch under the number [n] that selects it in the event
    loop; and a ticker that expires every 250 ms, watched under 257.  When it
    ends with the MAC initialised as a coordinator all these calls have
    succeeded, and the epoll descriptor, the sockets and the ticker are all
    different, for an operating system that never returns an open descriptor as
    a new one; otherwise [main] has returned 1 right after the first of these
    calls that failed and a message that names it. *)
Theorem gateway_setup_correct `{F : @OsFresh O} mtu rc uuid r1 r2 r3 tr :
  exists phy_fd pre, boot_calls phy_fd pre /\
  match gateway_setup mtu rc uuid r1 r2 r3 tr with
  | (Next st, tr') =>
      gs_gateway st = Gateway.gateway_boot mtu rc uuid r1 r2 r3 /\ phy_get_fd (gs_phy st) = phy_fd /\
      length (gs_socks st) = 256%nat /\ NoDup (gs_epoll st :: gs_socks st ++ [gs_timer st]) /\
      exists h, results tr' = results tr ++ pre ++ h /\
        carried (gateway_plan phy_fd (gs_epoll st) (gs_socks st) (gs_timer st)) h
  | (Return s, tr') =>
      s = 1 /\ exists epfd socks timer made c o rest h r r',
        length socks = 256%nat /\
        gateway_plan phy_fd epfd socks timer = made ++ (c, o) :: rest /\ carried made h /\ r < 0 /\
        results tr' = results tr ++ pre ++ h ++ [(c, r); (OsPerror (os_name c), r')]
  end.
Proof.
  destruct (boot_calls_made tr) as ([r phy] & tr0 & pre & E & Er & Hpre). cbn [snd] in Hpre.
  exists (phy_get_fd phy), pre. split; [done|].
  set (g := Gateway.gateway_boot mtu rc uuid r1 r2 r3).
  pose proof (proj2 (obeys_gateway phy g) tr0) as H.
  match type of H with match ?m tr0 with _ => _ end =>
    assert (Es : gateway_setup mtu rc uuid r1 r2 r3 tr = m tr0) end.
  { revert E. unfold gateway_setup, io_bind at 1 2 3, syscall at 1 2. unfold io_bind at 1 2, syscall at 1 2.
    cbv beta iota. intros ->. done. }
  rewrite Es. clear Es. destruct (io_bind _ _ tr0) as [[st|s] tr'].
  - destruct H as (p & h & (Eg & <- & Hl & ->) & Eh & Hc). rewrite Er, <- app_assoc in Eh.
    destruct (gateway_plan_created (phy_get_fd (gs_phy st)) (gs_epoll st) (gs_socks st) (gs_timer st))
      as (P1 & P2 & P3).
    split_and!; [done|done|done| |by exists h].
    rewrite <- P3, <- (created_planned _ h) by done.
    apply (created_distinct h tr0 tr'); [by rewrite Er, <- app_assoc|by eapply carried_open].
  - destruct H as (-> & st & p & c & o & rest & h & r0 & r' & (_ & _ & Hl & Ep) & Hc & Hr & Eh). split; [done|].
    exists (gs_epoll st), (gs_socks st), (gs_timer st), p, c, o, rest, h, r0, r'.
    rewrite Er, <- app_assoc in Eh. by split_and!.
Qed.

(** ** A PHY that does not come up

    [main] does not look at the result of [phy_init]; the failure is noticed
    when the driver's descriptor is watched. *)

Lemma phy_failure_unopened tr r phy tr' :
  phy_init_os tr = (Next (r, phy), tr') -> r <> 0 ->
  phy_get_fd phy < 0 \/ exists rest, tr' = OsClose (phy_get_fd phy) :: rest.
Proof.
  unfold phy_init_os, io_bind, syscall, io_ret, phy_init. cbv zeta.
  destruct (os_rc (OsSocket :: tr) <? 0) eqn:E1; [intros [= <- <- <-] _; left; cbn; lia|].
  destruct (os_rc (OsBind _ _ :: _) <? 0); [|by intros [= <- <- <-] []].
  intros [= <- <- <-] _. right. cbn. by eexists.
Qed.

(** When the UDP driver cannot get its socket or its port, the gateway
    returns 1: the descriptor it then tries to watch is negative, closed, or -
    where the number has been reused - that of the epoll instance itself, all of
    which [epoll_ctl] refuses. *)
Theorem phy_failure_noticed `{OL : @OsLaws O} mtu rc uuid r1 r2 r3 tr r phy tr' :
  phy_init_os (OsSrand :: OsSigaction false :: tr) = (Next (r, phy), tr') -> r <> 0 ->
  fst (gateway_setup mtu rc uuid r1 r2 r3 tr) = Return 1.
Proof.
  intros E Hr. pose proof (phy_failure_unopened _ _ _ _ E Hr) as Hf.
  unfold gateway_setup. unfold io_bind at 1 2. cbn [syscall]. unfold io_bind at 1. rewrite E. cbn [snd].
  unfold io_bind at 1, or_exit, io_bind at 1, syscall at 1.
  destruct (Z.ltb_spec (os_rc (OsEpollCreate MAX_EVENTS :: tr')) 0) as [H|H]; [done|].
  unfold io_ret at 1, watch_phy, io_bind at 1, or_exit, io_bind at 1, syscall at 1.
  set (ep := os_rc (OsEpollCreate MAX_EVENTS :: tr')) in *.
  assert (Hbad : os_rc (OsEpollCtlAdd ep (phy_get_fd phy) (MAX_DEVICES + 0) :: OsEpollCreate MAX_EVENTS :: tr') < 0).
  { apply epoll_ctl_bad. destruct Hf as [Hn|[rest ->]].
    - left. apply not_true_is_false. intros Ho. apply fd_open_pos in Ho. lia.
    - destruct (Z.eqb_spec ep (phy_get_fd phy)) as [He|He]; [by right|left].
      cbn. fold ep. apply Z.eqb_neq in He. rewrite He, Z.eqb_refl. done. }
  apply Z.ltb_lt in Hbad. rewrite Hbad. done.
Qed.

(** ** The end *)

Lemma close_all_run l tr : close_all l tr = (Next tt, map OsClose (rev l) ++ tr).
Proof.
  revert tr; induction l as [|fd l IH]; intros tr; [done|]. cbn [close_all].
  unfold io_bind, syscall. rewrite IH. cbn [rev]. by rewrite map_app, <- app_assoc.
Qed.

Lemma gateway_loop_app mtu rc rounds rounds' st tr st1 tr1 :
  gateway_loop mtu rc rounds st tr = (Serving st1, tr1) ->
  gateway_loop mtu rc (rounds ++ rounds') st tr = gateway_loop mtu rc rounds' st1 tr1.
Proof.
  revert st tr; induction rounds as [|r rounds IH]; intros st tr; [by intros [= <- <-]|].
  rewrite <- app_comm_cons. cbn [gateway_loop].
  destruct (rd_quit r); [unfold gateway_end, io_bind; rewrite close_all_run; by intros [=]|].
  destruct (rd_wait r); [|by intros [=]]. destruct (Gateway.run_gateway _ _ _ _); [apply IH|by intros [=]..].
Qed.

(** A break that the gateway notices between two rounds makes it close the
    sockets of all devices and the ticker and return 0.  One that arrives while
    it waits makes [epoll_wait] fail, and it returns 1 with everything open. *)
Theorem gateway_break mtu rc rounds rest st tr st1 tr1 :
  gateway_loop mtu rc rounds st tr = (Serving st1, tr1) ->
  (forall w, gateway_loop mtu rc (rounds ++ mk_round true w :: rest) st tr =
     (Ended (Some st1) 0,
      OsSigaction true :: OsClose (gs_timer st1) :: map OsClose (rev (gs_socks st1)) ++ tr1)) /\
  gateway_loop mtu rc (rounds ++ mk_round false None :: rest) st tr =
    (Ended (Some st1) 1, OsPerror "epoll_wait" :: OsEpollWait (gs_epoll st1) MAX_EVENTS :: tr1).
Proof.
  intros H. split; [intros w|]; rewrite (gateway_loop_app _ _ _ _ _ _ _ _ H); [|done].
  cbn [gateway_loop rd_quit]. unfold gateway_end, io_bind. by rewrite close_all_run.
Qed.

Lemma client_loop_app mtu rc now rounds rounds' st tr st1 tr1 :
  client_loop mtu rc now rounds st tr = (Serving st1, tr1) ->
  client_loop mtu rc now (rounds ++ rounds') st tr = client_loop mtu rc now rounds' st1 tr1.
Proof.
  revert st tr; induction rounds as [|r rounds IH]; intros st tr; [by intros [= <- <-]|].
  rewrite <- app_comm_cons. cbn [client_loop].
  destruct (rd_quit r); [by destruct (MqttApp.client_quit _ _ _ _); intros [=]|].
  destruct (rd_wait r); [|by intros [=]]. destruct (MqttApp.run_client _ _ _ _); [apply IH|by intros [=]].
Qed.

(** A break is not always a break.  If it is noticed between two rounds,
    the client sends its DISCONNECT and returns 0.  If it arrives while the
    client waits, [epoll_wait] fails, and the client returns 1 as it is: nothing
    is sent, and the broker goes on believing it connected. *)
Theorem break_loses_disconnect mtu rc now rounds rest st tr st1 tr1 :
  client_loop mtu rc now rounds st tr = (Serving st1, tr1) ->
  (forall w c, MqttApp.client_quit mtu rc now (cs_client st1) = Some c ->
     client_loop mtu rc now (rounds ++ mk_round true w :: rest) st tr =
     (Ended (Some (mk_cl_state c (cs_phy st1) (cs_epoll st1) (cs_timer st1))) 0,
      OsSigaction true :: tr1)) /\
  client_loop mtu rc now (rounds ++ mk_round false None :: rest) st tr =
    (Ended (Some st1) 1, OsPerror "epoll_wait" :: OsEpollWait (cs_epoll st1) client_MAX_EVENTS :: tr1).
Proof.
  intros H. split; [intros w c Hc|]; rewrite (client_loop_app _ _ _ _ _ _ _ _ _ H); [|done].
  cbn [client_loop rd_quit]. by rewrite Hc.
Qed.

(** ** The client's [main] is safe *)

Definition round_ok (r : round (Z * Z * MqttApp.input)) : Prop :=
  match rd_wait r with Some evs => Forall MqttApp.event_ok evs | None => True end.

Lemma client_loop_safe mtu rc uuid now rounds st tr :
  0 <= now -> Forall round_ok rounds -> MqttApp.running mtu rc uuid (cs_client st) ->
  fst (client_loop mtu rc now rounds st tr) <> Died.
Proof.
  intros Hn Hr. revert st tr. induction Hr as [|r rounds Hok _ IH]; intros st tr Hc; [done|].
  cbn [client_loop]. destruct (rd_quit r).
  - destruct (MqttApp.with_mq_running mtu rc uuid (mqttsn_c_disconnect now 0) (cs_client st))
      as (c & E & _); [by apply total_disconnect|apply wires_disconnect|done|].
    unfold MqttApp.client_quit. by rewrite E.
  - unfold round_ok in Hok. destruct (rd_wait r) as [evs|]; [|done].
    destruct (MqttApp.run_running mtu rc uuid evs (cs_client st) Hok Hc) as (c & -> & Hc1). by apply IH.
Qed.

(** C28: the client program is safe whatever the operating system does.  For
    every result of every system call, every identity [rand()] gives it and any
    sequence of rounds - breaks, failing waits, ticks and received packets of any
    bytes whatever, short of an MQTT-SN publication to topic ID 0 - [main] never
    accesses memory it does not own: it is waiting for events, or it has
    returned. *)
Theorem client_main_safe mtu rc now now' uuid r1 r2 r3 rounds :
  is_u64 uuid -> 0 <= now -> 0 <= now' -> Forall round_ok rounds ->
  fst (client_main mtu rc now now' uuid r1 r2 r3 rounds) <> Died.
Proof.
  intros Hu Hn Hn' Hr. unfold client_main.
  assert (Hs : ensures (client_setup mtu rc now uuid r1 r2 r3) (fun o _ =>
    exists st, o = Some st /\ MqttApp.running mtu rc uuid (cs_client st))).
  { destruct (MqttApp.boot_running mtu rc now uuid r1 r2 r3 Hu Hn) as (c & E & Hc).
    unfold client_setup, watch_phy, start_ticker. rewrite E.
    apply ensures_ignored; [apply ensures_called|intros _].
    apply ensures_ignored; [apply ensures_called|intros _].
    apply ensures_ignored; [apply ensures_phy_init|intros phy].
    do 2 (apply ensures_then; intros ?).
    apply ensures_ignored.
    - do 3 (apply ensures_then; intros ?). eapply ensures_weaken; [apply ensures_ret|done].
    - intros fd. eapply ensures_weaken; [apply ensures_ret|]. intros o tr -> _ _ _ _. by eexists. }
  destruct (client_setup mtu rc now uuid r1 r2 r3 []) as [[o|s] tr] eqn:E; [|done].
  destruct (Hs _ _ _ E) as (_ & st & -> & Hc). by apply (client_loop_safe mtu rc uuid).
Qed.
End Mains.

(** ** Instances *)

(** A system in which every call succeeds, descriptors are numbered upwards,
    and [epoll_ctl] keeps its laws; with [bind_ok] false no port can be bound. *)
Fixpoint sys_open (fd : Z) (tr : list os_call) : bool :=
  match tr with
  | [] => (0 <=? fd) && (fd <=? 2)
  | c :: tr' =>
      match c with
      | OsSocket | OsEpollCreate _ | OsTimerfdCreate =>
          if Z.of_nat (length tr') + 3 =? fd then (0 <=? fd) || sys_open fd tr' else sys_open fd tr'
      | OsClose fd' => negb (fd =? fd') && sys_open fd tr'
      | _ => sys_open fd tr'
      end
  end.

Definition sys (bind_ok : bool) : Os := {| os_rc := fun tr =>
  match tr with
  | (OsSocket | OsEpollCreate _ | OsTimerfdCreate) :: tr' => Z.of_nat (length tr') + 3
  | OsBind _ _ :: _ => if bind_ok then 0 else -1
  | OsEpollCtlAdd epfd fd _ :: tr' => if sys_open fd tr' && negb (fd =? epfd) then 0 else -1
  | _ => 0
  end |}.

Lemma sys_open_spec b fd tr : @fd_open (sys b) fd tr = sys_open fd tr.
Proof. induction tr as [|c tr IH]; [done|]. cbn. by destruct c; rewrite ?IH. Qed.

#[export] Instance sys_laws b : @OsLaws (sys b).
Proof.
  split. intros epfd fd data tr. rewrite sys_open_spec. cbn. intros [-> | ->]; [done|].
  rewrite Z.eqb_refl, andb_false_r. done.
Qed.

Lemma sys_open_bound fd tr : sys_open fd tr = true -> fd <= Z.of_nat (length tr) + 2.
Proof.
  induction tr as [|c tr IH]; cbn [sys_open length]; [lia|]. intros H.
  destruct c; try (apply IH in H; lia); [..|apply andb_prop in H as [_ H]; apply IH in H; lia].
  all: destruct (Z.eqb_spec (Z.of_nat (length tr) + 3) fd); [lia|apply IH in H; lia].
Qed.

#[export] Instance sys_fresh b : @OsFresh (sys b).
Proof.
  split. intros c tr Hc _. rewrite sys_open_spec.
  assert (E : @os_rc (sys b) (c :: tr) = Z.of_nat (length tr) + 3) by (by destruct c).
  rewrite E. apply not_true_is_false. intros H%sys_open_bound. lia.
Qed.

Definition ex_setup : io_result (option cl_state) * list os_call :=
  @client_setup (sys true) 143 MqttApp.app_rc 100 ex_uuid 10 20 7 [].
Definition ex_client_state : cl_state :=
  match fst ex_setup with
  | Next (Some st) => st
  | _ => mk_cl_state MqttApp.app0 phy_static 0 0
  end.

(** A round with the events of [MqttApp.v], a break noticed, or a failed wait. *)
Definition ex_rounds : list (round (Z * Z * MqttApp.input)) :=
  [mk_round false (Some MqttApp.app_events)].

Lemma ex_rounds_ok : Forall round_ok ex_rounds.
Proof. constructor; [|constructor]. exact MqttApp.app_events_ok. Qed.

Definition ex_served : cl_state :=
  match fst (client_loop 143 MqttApp.app_rc 200 ex_rounds ex_client_state (snd ex_setup)) with
  | Serving st => st
  | _ => ex_client_state
  end.

Lemma break_loses_disconnect_witness :
  exists tr1, client_loop 143 MqttApp.app_rc 200 (ex_rounds ++ [mk_round false None]) ex_client_state
      (snd ex_setup) =
    (Ended (Some ex_served) 1, OsPerror "epoll_wait" :: OsEpollWait (cs_epoll ex_served) client_MAX_EVENTS :: tr1).
Proof.
  exists (OsEpollWait (cs_epoll ex_client_state) client_MAX_EVENTS :: snd ex_setup).
  apply (break_loses_disconnect 143 MqttApp.app_rc 200 ex_rounds [] ex_client_state (snd ex_setup)
    ex_served).
  vm_compute. reflexivity.
Defined.

Lemma client_main_safe_witness :
  fst (@client_main (sys true) 143 MqttApp.app_rc 100 200 ex_uuid 10 20 7 ex_rounds) <> Died.
Proof.
  apply (@client_main_safe (sys true)).
  - vm_compute. split; congruence.
  - lia.
  - lia.
  - exact ex_rounds_ok.
Defined.

(** Without its port the gateway does not start. *)
Lemma phy_failure_noticed_witness :
  fst (@gateway_setup (sys false) 143 Gateway.gw_rc 0x1122 10 20 7 []) = Return 1.
Proof.
  refine (@phy_failure_noticed (sys false) (sys_laws false) 143 Gateway.gw_rc 0x1122 10 20 7 [] (-1)
    (snd (phy_init 5 (-1) phy_static))
    [OsClose 5; OsPerror "bind"; OsBind 5 10400; OsSetsockopt 5 SO_REUSEADDR; OsSocket; OsSrand;
     OsSigaction false] _ _).
  - vm_compute. reflexivity.
  - discriminate.
Defined.

(** With everything in order the set-up goes through. *)
Lemma gateway_setup_correct_witness :
  match @gateway_setup (sys true) 143 Gateway.gw_rc 0x1122 10 20 7 [] with
  | (Next st, _) => length (gs_socks st) = 256%nat /\ NoDup (gs_epoll st :: gs_socks st ++ [gs_timer st])
  | (Return s, _) => False
  end.
Proof.
  destruct (@gateway_setup_correct (sys true) (sys_fresh true) 143 Gateway.gw_rc 0x1122 10 20 7 [])
    as (phy_fd & pre & _ & H).
  destruct (@gateway_setup (sys true) 143 Gateway.gw_rc 0x1122 10 20 7 []) as [[st|s] tr] eqn:E.
  - destruct H as (_ & _ & H1 & H2 & _). split; [exact H1|exact H2].
  - vm_compute in E. discriminate.
Defined.

(** With everything in order it serves 256 devices. *)
Example gateway_starts :
  match @gateway_setup (sys true) 143 Gateway.gw_rc 0x1122 10 20 7 [] with
  | (Next st, tr) => length (gs_socks st) = 256%nat /\ length tr = 780%nat
  | _ => False
  end.
Proof. vm_compute. split; reflexivity. Qed.
