(* ===== verification/EndToEnd.v ===== *)
(** * MQTT-SN through the gateway

    The client example and the gateway example, each over its own MAC, joined by
    a PHY link.  For a device that is registered with the gateway, the radio
    network and the gateway are transparent: the broker receives the datagrams
    the MQTT-SN client sends, and the client receives those of the broker.

    The theorems are about the definitions of [MqttApp.v] and [Gateway.v] and
    any link that keeps the law of [Phy.v]; both drivers are such links. *)

From stdpp Require Import base list numbers.
From Stdlib Require Import ZArith Lia.
From S2P Require Import Prelude Wire MacState Mac MacInv MacRun MacEx MacTx MacReg MacHandshake MacApp Phy PhyUdp.
From S2P Require Import MqttSn MqttInv MqttProps MqttWire.
From S2P Require Import Gateway MqttApp.

(** ** The link *)

(** What the receiver's PHY delivers when the sender's PHY is given [bufs]. *)
Definition arrival `{L : PhyLink} (bufs : list (list Z)) : option (list Z * Z) :=
  match link_send bufs 0 with [d] => link_deliver d | _ => None end.

Lemma arrival_packet `{L : PhyLink} hdr data :
  bytes data -> Z.of_nat (length data) + sizeof_header <= link_mtu ->
  exists rssi, arrival [header_bytes hdr; data] = Some (header_bytes hdr ++ data, rssi).
Proof.
  intros Hb Hl. unfold arrival.
  destruct (link_law [header_bytes hdr; data] 0) as (d & rssi & -> & Hd); [done|..].
  - cbn [concat]. rewrite app_nil_r. auto with width.
  - cbn [concat]. rewrite app_nil_r, length_app, header_bytes_length. unfold sizeof_header in Hl. lia.
  - cbn [concat] in Hd. rewrite app_nil_r in Hd. by exists rssi.
Qed.

Section EndToEnd.
Context `{L : PhyLink} (mtu mtu' : Z) (rc rc' : list event -> Z) (uuid uuid' : Z).

(** The device [w] and the gateway [g] are registered with each other, in the
    device's slot [i], and neither has a packet for the other in hand. *)
Record linked (i : nat) (w : world) (g : Gateway.gateway) : Prop := {
  lk_device : @reachable (MqttApp.client_env mtu rc) (MqttApp.client_params uuid) w;
  lk_gateway : Gateway.serving mtu' rc' uuid' g;
  lk_registered : m_state (ctx w) = tinymacClientState_Registered;
  lk_net : m_net_id (ctx w) = m_net_id (ctx (Gateway.gw_mac g));
  lk_addr : m_addr (ctx w) = Z.of_nat i + 1;
  lk_slot : (i < TINYMAC_MAX_NODES)%nat;
  lk_coord : n_addr (m_coord (ctx w)) = 0;
  lk_coord_free : n_state (m_coord (ctx w)) = tinymacNodeState_Registered;
  lk_coord_awake : sleepy (n_flags (m_coord (ctx w))) = false;
  lk_node_free : n_state (node_at (PNode i) (Gateway.gw_mac g)) = tinymacNodeState_Registered;
  lk_node_awake : sleepy (n_flags (node_at (PNode i) (Gateway.gw_mac g))) = false
}.

Definition mqtt_type : Z := type_code tinymacType_MQTTSN.

Section Linked.
Context (i : nat) (w : world) (g : Gateway.gateway) (Hl : linked i w g).

Lemma linked_net : m_net_id (ctx w) <> TINYMAC_NETWORK_ANY.
Proof.
  destruct (reachable_inv _ _ (lk_device _ _ _ Hl)) as [Hc _]. pose proof (ok_role _ _ Hc) as Hr.
  unfold role_ok in Hr. cbn in Hr. rewrite (lk_registered _ _ _ Hl) in Hr. apply Hr.
Qed.

Lemma linked_node : tinymac_get_node_by_addr (ctx (Gateway.gw_mac g)) (m_addr (ctx w)) = Some (PNode i).
Proof.
  destruct Hl as [_ [Hr _] _ _ Ha Hi _ _ _ Hs _].
  apply (lookup_addr_spec _ _ _ _ (reachable_inv _ _ Hr) eq_refl). exists i. rewrite Hs. done.
Qed.

Lemma linked_coord : tinymac_get_node_by_addr (ctx w) 0 = Some PCoord.
Proof.
  destruct Hl as [Hr _ _ _ _ _ Ha Hs _ _ _]. destruct (reachable_inv _ _ Hr) as [Hc _].
  unfold tinymac_get_node_by_addr. rewrite (ok_params _ _ Hc), Hs, Ha. done.
Qed.

Lemma gateway_addr : m_addr (ctx (Gateway.gw_mac g)) = 0.
Proof. apply (coordinator_addr _ _ (reachable_inv _ _ (proj1 (lk_gateway _ _ _ Hl))) eq_refl). Qed.

(** The gateway's MAC accepts the device's packets, and the other way round. *)
Lemma gateway_hears : heard_from (PNode i) (tx_header w mqtt_type 0) (Gateway.gw_mac g).
Proof.
  pose proof (reachable_inv _ _ (lk_device _ _ _ Hl)) as Hi.
  pose proof (reachable_inv _ _ (proj1 (lk_gateway _ _ _ Hl))) as Hgi.
  pose proof (lk_addr _ _ _ Hl) as Ha. pose proof (lk_slot _ _ _ Hl) as Hs. unfold TINYMAC_MAX_NODES in Hs.
  split; cbn [tx_header h_src_addr].
  - eapply tx_header_ok; [exact Hi|]. widths; lia.
  - rewrite gateway_addr, Ha. lia.
  - rewrite Ha. unfold TINYMAC_ADDR_UNASSIGNED. lia.
  - by rewrite gateway_addr.
  - unfold dest_accepted. cbn [tx_header h_net_id h_dest_addr].
    by rewrite (lk_net _ _ _ Hl), gateway_addr, !Z.eqb_refl.
  - unfold anonymous_refused. cbn [tx_header h_net_id h_src_addr].
    rewrite (proj2 (Z.eqb_neq _ _) linked_net), Ha.
    by replace (Z.of_nat i + 1 =? TINYMAC_ADDR_UNASSIGNED) with false
      by (symmetry; apply Z.eqb_neq; unfold TINYMAC_ADDR_UNASSIGNED; lia).
  - apply linked_node.
  - eapply ptr_ok_valid; [exact Hgi|exact (lk_slot _ _ _ Hl)].
Qed.

Lemma device_hears : heard_from PCoord (tx_header (Gateway.gw_mac g) mqtt_type (m_addr (ctx w))) w.
Proof.
  pose proof (reachable_inv _ _ (proj1 (lk_gateway _ _ _ Hl))) as Hgi.
  pose proof (lk_addr _ _ _ Hl) as Ha. pose proof (lk_slot _ _ _ Hl) as Hs. unfold TINYMAC_MAX_NODES in Hs.
  split; cbn [tx_header h_src_addr]; rewrite ?gateway_addr.
  - eapply tx_header_ok; [exact Hgi|]. rewrite Ha. widths; lia.
  - rewrite Ha. lia.
  - done.
  - rewrite Ha. unfold TINYMAC_ADDR_UNASSIGNED. lia.
  - unfold dest_accepted. cbn [tx_header h_net_id h_dest_addr].
    by rewrite (lk_net _ _ _ Hl), !Z.eqb_refl.
  - unfold anonymous_refused. cbn [tx_header h_net_id h_src_addr].
    rewrite <- (lk_net _ _ _ Hl), (proj2 (Z.eqb_neq _ _) linked_net), gateway_addr. done.
  - apply linked_coord.
  - done.
Qed.
End Linked.

(** ** One packet each way *)

(** What a link depends on at either end. *)
Definition device_view (w : world) :=
  let c := ctx w in
  (m_state c, m_net_id c, m_addr c, n_addr (m_coord c), n_state (m_coord c), n_flags (m_coord c)).
Definition gateway_view (i : nat) (w : world) :=
  (m_net_id (ctx w), n_state (node_at (PNode i) w), n_flags (node_at (PNode i) w)).

Lemma linked_frame i w w' g g' :
  linked i w g -> @reachable (MqttApp.client_env mtu rc) (MqttApp.client_params uuid) w' ->
  Gateway.serving mtu' rc' uuid' g' -> device_view w' = device_view w ->
  gateway_view i (Gateway.gw_mac g') = gateway_view i (Gateway.gw_mac g) -> linked i w' g'.
Proof. unfold device_view, gateway_view. intros [] Hr Hs Hd Hg. simplify_eq. split; congruence. Qed.

(** The receiver's node entry is refreshed. *)
Lemma refreshed_view i hdr rssi w l :
  valid (PNode i) w -> (h_flags hdr &? TINYMAC_FLAGS_ACK_REQUEST) = false ->
  n_state (node_at (PNode i) w) = tinymacNodeState_Registered ->
  gateway_view i (set_log l (snd (@rx_known_source (Gateway.gateway_env mtu' rc') hdr (PNode i) rssi w))) = gateway_view i w.
Proof.
  intros Hv Ha Hs. rewrite rx_known_idle by (done || by rewrite Hs). unfold gateway_view. cbn [snd].
  rewrite node_at_set_log, node_at_upd by done. done.
Qed.

Lemma packet_up i w g msg :
  linked i w g -> packet_ok msg ->
  Z.of_nat (length msg) + sizeof_header <= Z.min (m_phy_mtu (ctx w)) link_mtu ->
  let w' := snd (MqttApp.packet_send mtu rc msg w) in
  let bufs := [header_bytes (tx_header w mqtt_type 0); msg] in
  exists g', log w' = EvPhySend bufs 0 :: log w /\ m_phy_mtu (ctx w') = m_phy_mtu (ctx w) /\
    Gateway.handle_event mtu' rc' 256 (Gateway.PhyInput (arrival bufs)) g = Gateway.Running g' /\
    Gateway.gw_sent g' = Gateway.gw_sent g ++ [(Z.of_nat i + 1, msg)] /\ linked i w' g'.
Proof.
  intros Hl [Hb Hlen] Hm w' bufs. unfold MQTTSN_MAX_PACKET in Hlen.
  assert (Hm1 : Z.of_nat (length msg) + sizeof_header <= link_mtu) by lia.
  destruct (arrival_packet (tx_header w mqtt_type 0) msg Hb Hm1) as [rssi Harr].
  assert (Hw' : w' = set_log (EvPhySend bufs 0 :: log w) (bump w)).
  { unfold w', MqttApp.packet_send.
    rewrite (send_plain PCoord); try apply Hl; try (vm_compute; congruence).
    - destruct (reachable_inv _ _ (lk_device _ _ _ Hl)) as [Hc _]. cbn [snd]. rewrite (ok_params _ _ Hc).
      cbn [node_at]. by rewrite (lk_coord _ _ _ Hl).
    - by eapply linked_coord.
    - split; unfold TINYMAC_MAX_PAYLOAD; lia. }
  pose proof (gateway_hears i w g Hl) as Hh.
  destruct (Gateway.uplink_run mtu' rc' uuid' g (PNode i) (tx_header w mqtt_type 0) msg rssi
    (lk_gateway _ _ _ Hl) Hh Hb eq_refl) as (Hrun & Hserv & _).
  unfold bufs at 2. rewrite Harr. eexists. split; [by rewrite Hw'|]. split; [by rewrite Hw'|].
  split; [exact Hrun|]. split; [cbn [Gateway.gw_sent tx_header h_src_addr]; by rewrite (lk_addr _ _ _ Hl)|].
  apply (linked_frame i w _ g _ Hl); [| exact Hserv|by rewrite Hw'|].
  - eapply reach_step; [apply Hl|]. apply MqttApp.send_running. by split.
  - etrans; [apply refreshed_view; [apply Hh|done|apply Hl]|done].
Qed.

(** ** Towards the broker *)

Definition on_air (bufs : list (list Z)) : event := EvPhySend bufs 0.
Definition heard_frame (bufs : list (list Z)) : Z * Gateway.input := (256, Gateway.PhyInput (arrival bufs)).
Definition carried (w : world) (msg : list Z) : Prop :=
  Z.of_nat (length msg) + sizeof_header <= Z.min (m_phy_mtu (ctx w)) link_mtu.

Lemma run_gateway_app evs evs' g :
  Gateway.run_gateway mtu' rc' (evs ++ evs') g =
  match Gateway.run_gateway mtu' rc' evs g with
  | Gateway.Running g => Gateway.run_gateway mtu' rc' evs' g
  | o => o
  end.
Proof.
  revert g. induction evs as [|[ev x] evs IH]; intros g; [done|]. rewrite <- app_comm_cons. cbn [Gateway.run_gateway].
  destruct (Gateway.handle_event mtu' rc' ev x g) as [g1| |]; [apply IH|done|done].
Qed.

Lemma packets_up i w g new :
  linked i w g -> Forall send_ok new -> Forall (carried w) (MqttApp.sends new) ->
  let w' := fold_right (MqttApp.on_send mtu rc) w new in
  m_phy_mtu (ctx w') = m_phy_mtu (ctx w) /\
  exists frames g', log w' = reverse (map on_air frames) ++ log w /\
    Gateway.run_gateway mtu' rc' (map heard_frame frames) g = Gateway.Running g' /\
    Gateway.gw_sent g' = Gateway.gw_sent g ++ map (pair (Z.of_nat i + 1)) (reverse (MqttApp.sends new)) /\
    linked i w' g'.
Proof.
  intros Hl Hn. induction Hn as [|e new He _ IH]; intros Hf.
  { split; [done|]. exists [], g. cbn. by rewrite app_nil_r. }
  destruct e as [msg|t d|k r]; cbn [fold_right MqttApp.on_send]; [|by apply IH..].
  change (MqttApp.sends (MqSend msg :: new)) with (msg :: MqttApp.sends new) in *.
  apply Forall_cons_1 in Hf as [Hm Hf]. destruct (IH Hf) as (Hmtu & frames & g1 & Hlog & Hrun & Hsent & Hl1).
  set (w1 := fold_right _ w new) in *. unfold carried in Hm. rewrite <- Hmtu in Hm.
  destruct (packet_up i w1 g1 msg Hl1 He Hm) as (g2 & Hlog2 & Hmtu2 & Hrun2 & Hsent2 & Hl2).
  split; [by rewrite Hmtu2|].
  exists (frames ++ [[header_bytes (tx_header w1 mqtt_type 0); msg]]), g2. split_and!.
  - by rewrite Hlog2, Hlog, map_app, reverse_app.
  - rewrite map_app, run_gateway_app, Hrun. cbn [map Gateway.run_gateway heard_frame]. by rewrite Hrun2.
  - by rewrite Hsent2, Hsent, reverse_cons, map_app, app_assoc.
  - done.
Qed.

(** C7: towards the broker, the radio network and the gateway are transparent.
    Whatever packets the MQTT-SN client of a linked device sends in one call of
    its handler - on a tick or a received packet [p] - the device's MAC hands
    exactly as many packets to the PHY; carried over the link and handled by
    the gateway one after the other, they make the gateway send the broker the
    same messages, unchanged and in the same order, from the socket of the
    device's address, and device and gateway remain linked.  The messages must
    fit the device's PHY and the link. *)
Theorem uplink_transparent i c c' g now p new :
  linked i (MqttApp.cl_mac c) g -> wired (mq (MqttApp.cl_mq c)) ->
  MqttApp.with_mq mtu rc (@mqttsn_c_handler mq_quiet now p) c = Some c' ->
  mq_log (MqttApp.cl_mq c') = new ++ mq_log (MqttApp.cl_mq c) ->
  Forall (carried (MqttApp.cl_mac c)) (MqttApp.sends new) ->
  exists frames g',
    log (MqttApp.cl_mac c') = reverse (map on_air frames) ++ log (MqttApp.cl_mac c) /\
    Gateway.run_gateway mtu' rc' (map heard_frame frames) g = Gateway.Running g' /\
    Gateway.gw_sent g' = Gateway.gw_sent g ++ map (pair (Z.of_nat i + 1)) (reverse (MqttApp.sends new)) /\
    linked i (MqttApp.cl_mac c') g'.
Proof.
  intros Hl Hw Hrun Hnew Hf. unfold MqttApp.with_mq in Hrun.
  destruct (mqttsn_c_handler now p (MqttApp.cl_mq c)) as [[[] q]|] eqn:E; [|done]. simplify_eq.
  destruct (wires_handler now p _ _ _ E Hw) as (_ & new' & Hlog & Hok).
  cbn [MqttApp.cl_mq MqttApp.cl_mac] in *. rewrite Hlog in *. simplify_list_eq.
  rewrite MqttApp.new_events. by apply packets_up.
Qed.

(** ** Towards the device *)

(** A data packet from the coordinator reaches the MQTT-SN client. *)
Lemma device_receives i w g hdr d rssi now q :
  linked i w g -> m_rx_cb (ctx w) = true -> bytes d -> heard_from PCoord hdr w ->
  h_flags hdr = mqtt_type ->
  exists w1, linked i w1 g /\
    MqttApp.handle_event mtu rc now 0 (MqttApp.PhyInput (Some (header_bytes hdr ++ d, rssi)))
      (MqttApp.mk_client w q) =
    MqttApp.with_mq mtu rc (@mqttsn_c_handler mq_quiet now (Some d)) (MqttApp.mk_client w1 q).
Proof.
  intros Hl Hcb Hb Hh Hf. assert (Ht : data_type hdr = mqtt_type) by (unfold data_type; by rewrite Hf).
  destruct (recv_data_passive mtu rc PCoord hdr d rssi w Hh) as (Hrecv & new & E & F);
    [rewrite Ht; vm_compute; congruence|done|].
  rewrite Ht in Hrecv. change (the_env mtu rc) with (MqttApp.client_env mtu rc) in *.
  set (w0 := snd (rx_known_source _ _ _ _)) in *.
  set (w1 := set_log (EvRecvCb (Some PCoord) mqtt_type d :: log w0) w0) in *.
  exists w1. split.
  - apply (linked_frame i w _ g _ Hl); [|apply Hl| |done].
    + replace w1 with (snd (@tinymac_recv_cb (MqttApp.client_env mtu rc) (header_bytes hdr ++ d) rssi w))
        by (by rewrite Hrecv).
      eapply reach_step; [apply Hl|]. constructor. apply Forall_app. split; [apply header_bytes_bytes|done].
    + unfold w1, w0. rewrite rx_known_idle; [done|done|by rewrite Hf|].
      cbn [node_at ctx set_log]. by rewrite (lk_coord_free _ _ _ Hl).
  - unfold MqttApp.handle_event. change (0 =? 0) with true. cbv iota.
    unfold MqttApp.with_mac. cbn [MqttApp.cl_mac MqttApp.cl_mq]. rewrite Hrecv. cbn [snd].
    assert (Hlog : log w1 = (EvRecvCb (Some PCoord) mqtt_type d :: new) ++ log w)
      by (unfold w1; cbn [log set_log]; by rewrite E).
    rewrite Hlog, MqttApp.new_events.
    cbn [fold_right]. rewrite MqttApp.silent_fold by done. done.
Qed.

(** C8: towards the device, the gateway and the radio network are transparent.
    A datagram of the broker on the socket of a linked device's address is
    transmitted as one packet; carried over the link, it has the effect on the
    device that handing the datagram's bytes, unchanged, to the MQTT-SN client
    would have, and device and gateway remain linked.  The datagram must fit
    the MAC's payload, the gateway's PHY and the link. *)
Theorem downlink_transparent i c g d now :
  linked i (MqttApp.cl_mac c) g -> m_rx_cb (ctx (MqttApp.cl_mac c)) = true -> bytes d ->
  Z.of_nat (length d) <= TINYMAC_MAX_PAYLOAD -> carried (Gateway.gw_mac g) d ->
  exists g' bufs w1,
    Gateway.handle_event mtu' rc' (Z.of_nat i + 1) (Gateway.Received d) g = Gateway.Running g' /\
    Gateway.gw_sent g' = Gateway.gw_sent g /\
    log (Gateway.gw_mac g') = on_air bufs :: log (Gateway.gw_mac g) /\
    MqttApp.handle_event mtu rc now 0 (MqttApp.PhyInput (arrival bufs)) c =
    MqttApp.with_mq mtu rc (@mqttsn_c_handler mq_quiet now (Some d))
      (MqttApp.mk_client w1 (MqttApp.cl_mq c)) /\
    linked i w1 g'.
Proof.
  intros Hl Hcb Hb Hd Hc. unfold carried in Hc. unfold TINYMAC_MAX_PAYLOAD in Hd.
  pose proof (lk_slot _ _ _ Hl) as Hi. pose proof (lk_addr _ _ _ Hl) as Ha.
  pose proof (lk_gateway _ _ _ Hl) as Hg. unfold TINYMAC_MAX_NODES in Hi.
  set (hdr := tx_header (Gateway.gw_mac g) mqtt_type (Z.of_nat i + 1)).
  assert (Hm : Z.of_nat (length d) + sizeof_header <= link_mtu) by lia.
  destruct (arrival_packet hdr d Hb Hm) as [rssi Harr].
  assert (Hcall := Gateway.downlink_call mtu' rc' (Z.of_nat i + 1) d g).
  rewrite (Gateway.downlink_run mtu' rc' uuid' (Z.of_nat i + 1) d g (PNode i)) in Hcall.
  2: apply Hg. 2: rewrite <- Ha; by eapply linked_node.
  2: split; unfold TINYMAC_MAX_PAYLOAD; lia. 2-3: apply Hl.
  specialize (Hcall ltac:(unfold Gateway.MAX_DEVICES; lia) ltac:(unfold Gateway.MAX_PAYLOAD; lia)).
  destruct (device_receives i (MqttApp.cl_mac c) g hdr d rssi now (MqttApp.cl_mq c)) as (w1 & Hl1 & Hrun);
    [done|done|done|unfold hdr; rewrite <- Ha; exact (device_hears i _ _ Hl)|done|].
  eexists _, [header_bytes hdr; d], w1. split; [exact Hcall|]. split; [done|]. split; [done|].
  rewrite Harr. split; [by destruct c|].
  apply (linked_frame i w1 w1 g _ Hl1); [apply Hl1|..|done].
  - exact (Gateway.handle_serving mtu' rc' uuid' _ (Gateway.Received d) g _ Hg Hb Hcall).
  - done.
Qed.
End EndToEnd.

(** ** A device that joined the gateway of [Gateway.v], over UDP *)

#[local] Instance ex_link : PhyLink := udp_link phy_up phy_up_ready.

(** The device of [MqttApp.v], once it is registered. *)
Definition device : MqttApp.client :=
  default MqttApp.app0 (MqttApp.run_client 143 MqttApp.app_rc (take 2 MqttApp.app_events) MqttApp.app0).
Definition device_tick : MqttApp.client :=
  default device (MqttApp.with_mq 143 MqttApp.app_rc (@mqttsn_c_handler mq_quiet 105 None) device).

Lemma device_running : MqttApp.running 143 MqttApp.app_rc ex_uuid device.
Proof.
  destruct (MqttApp.run_running 143 MqttApp.app_rc ex_uuid (take 2 MqttApp.app_events) MqttApp.app0)
    as (c & E & H); [apply Forall_take, MqttApp.app_events_ok|apply MqttApp.app0_running|].
  unfold device. by rewrite E.
Qed.

Lemma device_linked :
  linked 143 143 MqttApp.app_rc Gateway.gw_rc ex_uuid 0x1122 0 (MqttApp.cl_mac device) Gateway.gateway1.
Proof.
  split; [apply device_running|apply Gateway.gateway1_serving|..]; try (vm_compute; reflexivity).
  unfold TINYMAC_MAX_NODES. lia.
Qed.

(** The CONNECT of the device reaches the broker. *)
Lemma uplink_transparent_witness :
  exists frames g',
    log (MqttApp.cl_mac device_tick) = reverse (map on_air frames) ++ log (MqttApp.cl_mac device) /\
    Gateway.run_gateway 143 Gateway.gw_rc (map heard_frame frames) Gateway.gateway1 = Gateway.Running g' /\
    Gateway.gw_sent g' = [(1, [14; 4; 0; 1; 0; 10; 116; 101; 115; 116; 68; 69; 70; 48])] /\
    linked 143 143 MqttApp.app_rc Gateway.gw_rc ex_uuid 0x1122 0 (MqttApp.cl_mac device_tick) g'.
Proof.
  apply (uplink_transparent 143 143 MqttApp.app_rc Gateway.gw_rc ex_uuid 0x1122 0 device device_tick
    Gateway.gateway1 105 None [MqSend [14; 4; 0; 1; 0; 10; 116; 101; 115; 116; 68; 69; 70; 48]]).
  - exact device_linked.
  - exact (MqttApp.rn_wired _ _ _ _ device_running).
  - vm_compute. reflexivity.
  - vm_compute. reflexivity.
  - repeat constructor. vm_compute. congruence.
Defined.

(** The broker's CONNACK reaches the device's client. *)
Lemma downlink_transparent_witness :
  exists g' bufs w1,
    Gateway.handle_event 143 Gateway.gw_rc 1 (Gateway.Received connack_msg) Gateway.gateway1 =
      Gateway.Running g' /\
    Gateway.gw_sent g' = Gateway.gw_sent Gateway.gateway1 /\
    log (Gateway.gw_mac g') = on_air bufs :: log (Gateway.gw_mac Gateway.gateway1) /\
    MqttApp.handle_event 143 MqttApp.app_rc 106 0 (MqttApp.PhyInput (arrival bufs)) device_tick =
    MqttApp.with_mq 143 MqttApp.app_rc (@mqttsn_c_handler mq_quiet 106 (Some connack_msg))
      (MqttApp.mk_client w1 (MqttApp.cl_mq device_tick)) /\
    linked 143 143 MqttApp.app_rc Gateway.gw_rc ex_uuid 0x1122 0 w1 g'.
Proof.
  apply (downlink_transparent 143 143 MqttApp.app_rc Gateway.gw_rc ex_uuid 0x1122 0 device_tick
    Gateway.gateway1 connack_msg 106).
  - apply (linked_frame _ _ _ _ _ _ 0 (MqttApp.cl_mac device) _ Gateway.gateway1 _ device_linked);
      [|apply Gateway.gateway1_serving|vm_compute; reflexivity|reflexivity].
    destruct (MqttApp.handler_running 143 MqttApp.app_rc ex_uuid 105 None device) as (c & E & Hc);
      [lia|done|apply device_running|].
    unfold device_tick. rewrite E. apply Hc.
  - vm_compute. reflexivity.
  - repeat constructor; vm_compute; congruence.
  - vm_compute. congruence.
  - vm_compute. congruence.
Defined.
